(* ===== verification/_CoqProject ===== *)
-Q . S2P
Prelude.v
RustStr.v
Collections.v
Contract.v
Discover.v
StorageContract.v
MemoryStore.v
MemoryRegistry.v
RegistryTheorems.v
MemoryConfig.v
ConfigTheorems.v
MemoryWatch.v
WatchTheorems.v
MemoryInstance.v
ControlPlane.v
ControlPlaneTheorems.v
Resilience.v
ResilienceTheorems.v
Proto.v
Codec.v
RpcContext.v
Actor.v
ActorTheorems.v
HealthScanTheorems.v
CodecTheorems.v
WatchStream.v
WatchStreamTheorems.v
RpcContextTheorems.v
Services.v
ServicesTheorems.v
HostConfig.v
HostFields.v
EnvOverlay.v
OverlayTheorems.v
Redis.v
RedisTheorems.v
RpcServer.v
HostBootstrap.v
HostTheorems.v
PgSchema.v
PgSql.v
PgCodec.v
Postgres.v
RegistrySpec.v
MemoryBackend.v
PgLemmas.v
PgRegistry.v
PgCommits.v
PgQueries.v
PgBackend.v
PgSample.v
PgTheorems.v
PgConfig.v
PgConfigTheorems.v
PgEquivalence.v
PgWatch.v
PgLimits.v
RpcContract.v
RpcContractTheorems.v
ShippedContract.v
Metrics.v
ClientSdk.v
HealthChecker.v
Encryption.v
Observed.v
ObservedTheorems.v
HealthComposition.v
DatabaseHost.v
HostProcess.v
HostProcessTheorems.v
TenantBackends.v
StreamLimiter.v
