(* ===== verification/Prelude.v ===== *)
(** * Verification of the SDKWork Discovery control plane

    The program is a service registry and configuration store behind gRPC
    (crates/ and services/ of the repository).  The service host reads its settings
    from files and the environment (config/src), chooses a backend and serves two
    listeners (service-host/src, rpc/src/server.rs).  A request then passes, in this
    order, through
      - a handler of the gRPC services, which decodes the message and encodes the
        answer (rpc/src/services.rs, codec.rs);
      - the request context, which turns metadata into a caller
        (rpc/src/context.rs, rpc/src/service_token.rs);
      - the runtime actor, which runs one command at a time behind a rate limiter,
        a circuit breaker and a read-only mode, keeps caches of read answers, and
        publishes the event of each change (rpc/src/actor.rs, watch.rs, health.rs,
        health_probes.rs, resilience.rs and the modules that one composes);
      - the control plane, which checks permissions, the tenant and the policies
        (core/src/control_plane.rs, permissions.rs, tenant_scope.rs, policy.rs);
      - a backend behind the storage contract (storage-contract/src): the in-memory
        one (storage-memory/src), which keeps instances under leases, configuration
        drafts and releases, and the log of events, the Redis one
        (storage-redis/src), which runs the in-memory one and saves its snapshots,
        or the PostgreSQL one (storage-postgres/src), which runs SQL statements in
        transactions.
    A watch is a stream that replays persisted events and is woken by live ones.
    Beside this path stand the health checker that probes instances
    (health-checker/src), the metrics of the RPC surface (rpc/src/metrics.rs), the
    inventory that compares .proto files with the RPC manifest
    (contract/src/rpc_contract.rs), the preparation of the database
    (database-host/src) and the helpers of the Rust client SDK.  The process around
    it all starts from the environment, serves an HTTP probe and shuts down on a
    signal (service-host/src/main.rs).

    ** Files

    - [Prelude] machine integers, results, the state-and-error monad [Eff], hints.
    - [RustStr] strings as UTF-8 bytes: [trim], [split], [starts_with], number
      formatting, as the Rust methods of these names.
    - [Collections] comparison functions, stable sorting, bounded [take], [retain],
      hash maps whose iteration order is an arbitrary permutation ([HashOrder]).
    - [Contract] the records and errors of contract/src (context.rs, error.rs,
      health_check.rs, registry.rs) with the predicates on them.
    - [Discover] pagination.rs and the result ordering of registry.rs.
    - [StorageContract] the traits [RegistryStore], [ConfigStore] and
      [WatchEventStore] as classes over the state of a backend.
    - [MemoryStore] the in-memory state (store.rs), its identifiers and counters,
      and its invariant [store_wf]; [MemoryRegistry], [MemoryConfig] and
      [MemoryWatch] its operations (registry.rs, config.rs, watch.rs), one
      definition per method; [MemoryInstance] the class instances, the step relation
      of all calls, and the snapshots (snapshot.rs).
    - [ControlPlane] the operations of [DiscoveryControlPlane] over any backend.
    - [Resilience] breaker, token bucket, degradation, stale-read caches and their
      composition.
    - [RpcContext] service tokens and request metadata.
    - [Actor] the command loop, the timers, publishing, health and wire errors.
    - [Proto] the wire messages (proto/), [Codec] the conversions of codec.rs.
    - [WatchStream] the watch streams of services.rs and the filters of watch.rs;
      [Services] the handlers of services.rs and the handle of actor.rs.
    - [HostConfig] the settings of model.rs and runtime_config.rs with their
      validation, [HostFields] assignments to their fields, [EnvOverlay] the loader
      and the environment overlay (loader.rs, env_overlay.rs).
    - [Redis] the Redis backend: connection settings, hydration, persistence and the
      methods of the storage contract.
    - [RpcServer] server.rs and the health task of health.rs; [HostBootstrap]
      bootstrap.rs and runtime.rs of the service host.
    - [PgSchema] the tables of the baseline DDL, [PgSql] the statements of sql.rs on
      them, [PgCodec] codec.rs, validation.rs, options.rs and the lazy pool,
      [Postgres] the methods of registry.rs, config.rs and watch.rs with their
      transactions.  [PgLemmas], [PgRegistry], [PgCommits], [PgQueries] and [PgConfig]
      say what each does to the tables; [PgSample] is a server to evaluate them on.
    - [RegistrySpec] the abstract registry that a backend implements, as a class;
      [MemoryBackend] and [PgBackend] the two implementations.
    - [RpcContract] rpc_contract.rs and manifest.rs, [ShippedContract] the .proto
      files and the manifest of the repository; [Metrics] metrics.rs; [HealthChecker]
      checker.rs; [ClientSdk] idempotency.rs, deadline.rs, pagination.rs and
      tracing.rs of the SDK; [Encryption] encryption.rs and namespace.rs.
    - [Observed] the unary handlers of services.rs with the guard, the metrics, the
      status metadata of error.rs and the ways a call can be dropped; [StreamLimiter]
      the semaphore of the watch streams; [HealthComposition] the health checker in
      the place of the network of the scan.
    - [DatabaseHost] the preparation of the database (database-host/src,
      storage-postgres/src/store.rs, bootstrap.rs); [HostProcess] main.rs and the life
      of the process as a step relation: runtime, health tasks and shutdown side by side.
    - [RegistryTheorems], [ConfigTheorems], [WatchTheorems],
      [ControlPlaneTheorems], [ResilienceTheorems], [ActorTheorems],
      [HealthScanTheorems], [CodecTheorems], [WatchStreamTheorems],
      [RpcContextTheorems], [ServicesTheorems], [OverlayTheorems], [RedisTheorems],
      [HostTheorems], [PgTheorems], [PgConfigTheorems], [PgEquivalence], [PgWatch],
      [PgLimits], [RpcContractTheorems], [ObservedTheorems] and [HostProcessTheorems]
      the theorems about these; [TenantBackends] tenants on any registry backend.

    ** How the code is modelled

    Methods on [&mut self] are state-passing functions [Op S A], methods on
    [&self] are functions of the state; [DiscoveryResult] is a sum of a value and
    an error, and an error leaves behind the state the code had changed by then.
    Unsigned integers are [N] with the operation the code uses written out:
    [u64_succ] wraps as a release build does, [checked_add] and [checked_mul]
    give an option, [saturating_sub] stops at zero.  Clocks are arguments.
    Double-precision numbers are the IEEE format of [SpecFloat].  [HashMap] is
    [gmap]; where the code iterates one, the order comes from [HashOrder], an
    arbitrary permutation of the entries, so a theorem holds for every order.
    A lock, a channel or an [await] does not show: the actor owns the store and
    handles one command after the other.  Where tasks do run side by side around shared
    state (the health cell and the gauge, the permits of the watch streams) their steps
    interleave in a relation, [process_step] and [surface_step].

    Parameters stand for code that is not in the repository: SHA-256, HMAC, base64
    and JSON ([RpcExternals], [sha256_hash]), the JSON and TOML parsers
    ([ConfigParsers]) and the one of the host settings, the file system, the hasher of
    the weighted shuffle, the debug form of a string, the network probe, the codec of
    snapshots, the Redis client and its network ([Network] says which exchange fails
    and whether a failed write was applied), listeners and TLS of tonic, the clients
    of the health checker ([ProbeClients]), and, for PostgreSQL, what the server, the
    driver and serde_json decide ([PgExternals]: collation, fresh identifiers, JSON
    texts, whether an ambiguous column is refused) with the faults of the link, which
    may fail any exchange before or after the server carried it out.  [JsonFaithful]
    says that serde_json reads back what it wrote.  The database lifecycle crates are
    [DatabaseCrates]; the Redis arms of [storage_safe_summary] and
    [initialize_storage], which the source lacks, are parameters too.  The host theorems hold for any
    PostgreSQL store.  No theorem assumes anything about these but what it names.

    ** What the theorems show

    - Storage invariant: [reachable_store_wf], [reachable_history] by induction on
      the steps of any sequence of calls.
    - Registry: what registration, renewal, deregistration, expiry and
      compare-and-set do to later lookups; discovery and listing by page tokens
      deliver every match exactly once in order, but for a weighted random discovery,
      which is one page; batches are sequences.
    - Configuration: the effective configuration is the one the scopes and
      revisions prescribe ([governs]); publication and rollback change exactly the
      key they concern; a draft is published once; retries are idempotent.
    - Watch: resuming loses and repeats nothing; trimming and compaction remove
      exactly what they say.
    - Control plane: refused calls change nothing, tenants are confined where the
      code consults them ([tenant_not_consulted] says where it does not), on every
      backend that keeps the promise of a registry and but for renewals, which ask for
      no tenant ([tenants_isolated]); lease policy.
    - Resilience: timing of the breaker, thresholds, trial requests, stale reads.
    - Actor: health mirrors the breaker and the mode after any event sequence,
      refused commands, publication of the event of a registration, trimming; the
      health scan reports exactly the status changes its thresholds call for, and an
      instance whose endpoint is dead is taken out of service
      ([unreachable_instance_withdrawn]).
    - Wire: decoders accept only requests with plain names that meet the bounds of the
      contract,
      conversions round trip, and a client that follows page tokens terminates with
      every match exactly once.
    - Streams: a watch conveys the answers its runtime gives, and over a log whose oldest
      events may be trimmed it delivers what the log has past its cursor, in order, once it
      is woken; which publications a configuration watch covers; the limit on open
      streams is exact and loses no permit ([watch_streams_limited]).
    - Services: a handler changes the store only for a caller that holds the
      permission of the operation; registration, then retrieval over the wire; with
      everything else a handler does it still answers as the plain handler
      ([observed_call_answers]) and a dropped call runs or not by the schedule of its
      exchange with the actor; its metrics tell how it ended ([metrics_tell_outcome]).
    - Redis: whatever exchanges fail and whenever the process restarts, the backend
      refines a durable store whose state is that of the calls saved, where a snapshot
      that cannot be encoded is not saved ([redis_refines_durable]).
    - PostgreSQL: under any faults of the link every sequence of registry calls is a
      run of the abstract registry ([postgres_registry_refines]), as for the in-memory
      one ([memory_registry_refines]), so that clients can be proved once
      ([registration_survives]); the tables stay well-formed ([postgres_invariant]);
      publication happens as a whole or not at all; the effective configuration is the
      one of the in-memory backend; an unfiltered watch gives out the log page by page
      ([pg_unfiltered_watch]).  These hold whether or not the server refuses the ambiguous
      column of the statement that takes a revision; if it does, as PostgreSQL documents,
      no write that takes a revision succeeds ([ambiguous_column_blocks_writes]).
      [PgLimits] and [pg_service_watch_starves] show where the statements fall short.
    - Contract: the manifest check accepts exactly the manifests that meet the
      standard, the scan finds exactly the declared methods, and the shipped files
      agree with each other and with the server's table.
    - Metrics, probes and SDK: a call is counted once whatever its handler does; a
      probe ends in time and is healthy exactly on the expected answer; the server
      reads the trace and idempotency metadata the SDK writes; encrypted values
      survive their storage form.
    - Host: the overlay sets exactly the field each variable names; settings that
      load in production are hardened; which services each listener serves; unsigned
      callers reach a loopback host only; the health report follows the runtime.
    - Process: in every interleaving the probe, the health services and the gauge agree
      with what the runtime can do, and a shutdown ends, within a second of waiting, with
      everything reported as not serving ([process_health_coherent]).
    - Request context: which tokens parse, which are accepted, and that a caller is
      always authenticated where a verifier is configured.

    ** Bounds

    [headroom n s] says that the counters of a store can move [n] more times
    without wrapping; a step needs as much headroom as the call takes counter
    values.  The walks along page tokens ([walk_discover], [walk_services]) take the
    number of stored instances plus one as fuel: each page but the last is not
    empty, and the theorems show the walk ends.  The weighted shuffle loop takes one
    instance per turn, so its fuel is the number of instances.

    ** Not modelled

    The gateway and the API assembly, which hand an empty router to an external web
    library; logging and tracing; the insides of the external crates (the gRPC and HTTP
    stacks, the database drivers and their lifecycle, the metrics recorder); signals
    other than as the event they cause; generated code.  PostgreSQL stores a VARCHAR value
    whose characters beyond the limit are all spaces cut to the limit; here it is refused
    like any longer value ([varchar]), which cannot happen to the names the codecs accept
    ([names_never_cut]). *)
From stdpp Require Export base tactics option list sorting relations gmap strings pretty.
From Stdlib Require Import Ascii String.

#[global] Open Scope string_scope.
#[global] Open Scope list_scope.
#[global] Open Scope N_scope.

(** ** Machine integers

    Unsigned integers are [N] values; arithmetic that can leave the range of
    its type is written with the operation the source uses. *)

Definition u64_modulus : N := 18446744073709551616.
Definition u64_max : N := 18446744073709551615.
Definition u32_modulus : N := 4294967296.
Definition u32_max : N := 4294967295.

(** [a += 1] on a [u64] or [usize] in a build without overflow checks. *)
Definition u64_succ (a : N) : N := (a + 1) mod u64_modulus.
(** [a += b] on a [u64] in a build without overflow checks. *)
Definition u64_add (a b : N) : N := (a + b) mod u64_modulus.
(** [a += 1] on a [u32] in a build without overflow checks. *)
Definition u32_succ (a : N) : N := (a + 1) mod u32_modulus.
(** [u64::checked_add] and [u64::checked_mul]. *)
Definition checked_add (a b : N) : option N :=
  if a + b <=? u64_max then Some (a + b) else None.
Definition checked_mul (a b : N) : option N :=
  if a * b <=? u64_max then Some (a * b) else None.
(** [u64::saturating_sub]: subtraction on [N] already stops at zero. *)
Definition saturating_sub (a b : N) : N := a - b.

Lemma u64_succ_small a : a < u64_max → u64_succ a = a + 1.
Proof. unfold u64_succ, u64_modulus, u64_max. intros. apply N.mod_small. lia. Qed.

Lemma u64_succ_le a : u64_succ a <= u64_max.
Proof.
  unfold u64_succ, u64_max.
  pose proof (N.mod_lt (a + 1) u64_modulus). unfold u64_modulus in *. lia.
Qed.

Lemma u64_add_small a b : a + b <= u64_max → u64_add a b = a + b.
Proof. unfold u64_add, u64_modulus, u64_max. intros. apply N.mod_small. lia. Qed.

Lemma u32_succ_small a : a < u32_max → u32_succ a = a + 1.
Proof. unfold u32_succ, u32_modulus, u32_max. intros. apply N.mod_small. lia. Qed.

Lemma checked_add_Some a b c :
  checked_add a b = Some c ↔ c = a + b ∧ a + b <= u64_max.
Proof. unfold checked_add. destruct (N.leb_spec (a + b) u64_max); naive_solver lia. Qed.

Lemma checked_add_None a b : checked_add a b = None ↔ u64_max < a + b.
Proof. unfold checked_add. destruct (N.leb_spec (a + b) u64_max); naive_solver lia. Qed.

Lemma checked_mul_Some a b c :
  checked_mul a b = Some c ↔ c = a * b ∧ a * b <= u64_max.
Proof. unfold checked_mul. destruct (N.leb_spec (a * b) u64_max); naive_solver lia. Qed.

Lemma checked_mul_None a b : checked_mul a b = None ↔ u64_max < a * b.
Proof. unfold checked_mul. destruct (N.leb_spec (a * b) u64_max); naive_solver lia. Qed.

(** ** Results and effectful operations

    [Result E A] is Rust's [Result<A, E>]; [Eff E S A] is a method on
    [&mut self] that returns a [Result]: the state it leaves is kept on the
    error path as well. *)

Inductive Result (E A : Type) : Type :=
| Ok (a : A)
| Err (e : E).
Arguments Ok {E A} _.
Arguments Err {E A} _.

Definition Eff (E S A : Type) : Type := S → S * Result E A.

#[export] Instance result_ret {E} : MRet (Result E) := λ A a, Ok a.
#[export] Instance result_bind {E} : MBind (Result E) := λ A B f r,
  match r with Ok a => f a | Err e => Err e end.

#[export] Instance eff_ret {E S} : MRet (Eff E S) := λ A a s, (s, Ok a).
#[export] Instance eff_bind {E S} : MBind (Eff E S) := λ A B f m s,
  match m s with
  | (s', Ok a) => f a s'
  | (s', Err e) => (s', Err e)
  end.

(** The [?] operator on a computation that does not touch the state. *)
Definition lift {E S A} (r : Result E A) : Eff E S A := λ s, (s, r).
Definition gets {E S A} (f : S → A) : Eff E S A := λ s, (s, Ok (f s)).
Definition modify {E S} (f : S → S) : Eff E S () := λ s, (f s, Ok ()).
Definition fail {E S A} (e : E) : Eff E S A := λ s, (s, Err e).

(** [Option::ok_or_else]. *)
Definition ok_or {E A} (o : option A) (e : E) : Result E A :=
  match o with Some a => Ok a | None => Err e end.

Definition is_ok {E A} (r : Result E A) : bool :=
  match r with Ok _ => true | Err _ => false end.

(** Running a sequence of effects one step at a time. *)
Lemma eff_bind_run {E S A B} (m : Eff E S A) (f : A → Eff E S B) s :
  (m ≫= f) s = match m s with (s', Ok a) => f a s' | (s', Err e) => (s', Err e) end.
Proof. reflexivity. Qed.

Lemma lift_bind_run {E S A B} (r : Result E A) (f : A → Eff E S B) s :
  (lift r ≫= f) s = match r with Ok a => f a s | Err e => (s, Err e) end.
Proof. unfold lift. rewrite eff_bind_run. by destruct r. Qed.

Lemma gets_bind_run {E S A B} (g : S → A) (f : A → Eff E S B) s :
  (gets g ≫= f) s = f (g s) s.
Proof. reflexivity. Qed.

Lemma modify_bind_run {E S B} (g : S → S) (f : () → Eff E S B) s :
  (modify g ≫= f) s = f () (g s).
Proof. reflexivity. Qed.

Lemma result_bind_Ok {E A B} (r : Result E A) (f : A → Result E B) b :
  r ≫= f = Ok b ↔ ∃ a, r = Ok a ∧ f a = Ok b.
Proof. destruct r; cbn; naive_solver. Qed.

Lemma result_bind_Err {E A B} (r : Result E A) (f : A → Result E B) e :
  r ≫= f = Err e ↔ r = Err e ∨ ∃ a, r = Ok a ∧ f a = Err e.
Proof. destruct r; cbn; naive_solver. Qed.

Lemma ok_or_Ok {E A} (o : option A) (e : E) a : ok_or o e = Ok a ↔ o = Some a.
Proof. destruct o; cbn; naive_solver. Qed.

Create HintDb discovery.
Create Rewrite HintDb effects.
#[export] Hint Rewrite @lift_bind_run @gets_bind_run @modify_bind_run : effects.
