(* ===== verification/RustStr.v ===== *)
(** * Rust string operations

    A [String] or [&str] is the sequence of its UTF-8 bytes.  This file models
    the operations of [str] the sources call: [trim], [trim_start], [is_empty],
    [starts_with], [strip_prefix], [split], [contains], [to_ascii_lowercase],
    [len] and integer formatting. *)
From S2P Require Import Prelude.
From Stdlib Require Import Ascii String.

Definition byte_at (a : ascii) : N := N_of_ascii a.
Definition len (s : string) : N := N.of_nat (String.length s).
Definition is_empty (s : string) : bool := match s with "" => true | _ => false end.

(** ** White space

    [char::is_whitespace] is the Unicode [White_Space] property.  Its members
    take one byte (U+0009..U+000D, U+0020), two bytes (U+0085, U+00A0) or
    three bytes (U+1680, U+2000..U+200A, U+2028, U+2029, U+202F, U+205F,
    U+3000) in UTF-8. *)

Definition white1 (a : ascii) : bool :=
  let n := byte_at a in ((9 <=? n) && (n <=? 13)) || (n =? 32).

Definition white2 (a b : ascii) : bool :=
  (byte_at a =? 194) && ((byte_at b =? 133) || (byte_at b =? 160)).

Definition white3 (a b c : ascii) : bool :=
  let x := byte_at a in let y := byte_at b in let z := byte_at c in
  ((x =? 225) && (y =? 154) && (z =? 128))
  || ((x =? 226) && (y =? 128)
      && (((128 <=? z) && (z <=? 138)) || (z =? 168) || (z =? 169) || (z =? 175)))
  || ((x =? 226) && (y =? 129) && (z =? 159))
  || ((x =? 227) && (y =? 128) && (z =? 128)).

(** Strip leading white space; [w2] and [w3] recognise the longer encodings in
    the order the bytes are met. *)
Fixpoint strip_white (w2 : ascii → ascii → bool) (w3 : ascii → ascii → ascii → bool)
    (s : string) : string :=
  match s with
  | "" => ""
  | String a s1 =>
      if white1 a then strip_white w2 w3 s1
      else match s1 with
           | "" => s
           | String b s2 =>
               if w2 a b then strip_white w2 w3 s2
               else match s2 with
                    | "" => s
                    | String c s3 => if w3 a b c then strip_white w2 w3 s3 else s
                    end
           end
  end.

Definition trim_start (s : string) : string := strip_white white2 white3 s.

Definition trim_end (s : string) : string :=
  String.rev (strip_white (λ b a, white2 a b) (λ c b a, white3 a b c) (String.rev s)).

Definition trim (s : string) : string := trim_end (trim_start s).

(** [value.trim().is_empty()]. *)
Definition is_blank (s : string) : bool := is_empty (trim s).

(** ** Prefixes, splitting, searching *)

Fixpoint strip_prefix (s p : string) {struct p} : option string :=
  match p, s with
  | "", _ => Some s
  | String a p', String b s' => if bool_decide (a = b) then strip_prefix s' p' else None
  | String _ _, "" => None
  end.

Definition starts_with (s p : string) : bool :=
  match strip_prefix s p with Some _ => true | None => false end.

Definition ends_with (s p : string) : bool := starts_with (String.rev s) (String.rev p).

Definition strip_suffix (s p : string) : option string :=
  String.rev <$> strip_prefix (String.rev s) (String.rev p).

(** [s.split(c)]: never empty, keeps empty fields. *)
Fixpoint split (c : ascii) (s : string) : list string :=
  match s with
  | "" => [""]
  | String a s' =>
      if bool_decide (a = c) then "" :: split c s'
      else match split c s' with
           | h :: t => String a h :: t
           | [] => [String a ""]
           end
  end.

Definition newline : ascii := "010".
Definition carriage_return : string := String "013" "".

(** [s.lines()]: a line ends with a line feed, or a carriage return and a line feed; a
    last line without a line feed is kept as it is, and dropped when it is empty. *)
Definition lines (s : string) : list string :=
  let pieces := split newline s in
  map (λ l, default l (strip_suffix l carriage_return)) (removelast pieces)
  ++ match List.last pieces "" with "" => [] | l => [l] end.

(** The bytes before the first white space. *)
Fixpoint until_white (s : string) : string :=
  match s with
  | "" => ""
  | String a s1 =>
      if white1 a then ""
      else match s1 with
           | String b s2 =>
               if white2 a b then ""
               else match s2 with
                    | String c _ => if white3 a b c then "" else String a (until_white s1)
                    | "" => String a (until_white s1)
                    end
           | "" => String a ""
           end
  end.

(** [s.split_whitespace().next()]. *)
Definition first_word (s : string) : option string :=
  match trim_start s with "" => None | t => Some (until_white t) end.

Fixpoint contains (s p : string) : bool :=
  starts_with s p || match s with "" => false | String _ s' => contains s' p end.

Fixpoint contains_char (c : ascii) (s : string) : bool :=
  match s with
  | "" => false
  | String a s' => bool_decide (a = c) || contains_char c s'
  end.

Fixpoint join (sep : string) (l : list string) : string :=
  match l with
  | [] => ""
  | [x] => x
  | x :: l' => x +:+ sep +:+ join sep l'
  end.

Definition to_ascii_lower (a : ascii) : ascii :=
  let n := byte_at a in
  if (65 <=? n) && (n <=? 90) then ascii_of_N (n + 32) else a.

Fixpoint to_ascii_lowercase (s : string) : string :=
  match s with
  | "" => ""
  | String a s' => String (to_ascii_lower a) (to_ascii_lowercase s')
  end.

Fixpoint all_bytes (f : ascii → bool) (s : string) : bool :=
  match s with
  | "" => true
  | String a s' => f a && all_bytes f s'
  end.

Definition is_ascii_hexdigit (a : ascii) : bool :=
  let n := byte_at a in
  ((48 <=? n) && (n <=? 57)) || ((65 <=? n) && (n <=? 70)) || ((97 <=? n) && (n <=? 102)).

(** [u8::is_ascii_whitespace]: space, tab, line feed, form feed, carriage return. *)
Definition is_ascii_whitespace (a : ascii) : bool :=
  let n := byte_at a in (n =? 32) || (n =? 9) || (n =? 10) || (n =? 12) || (n =? 13).

(** [while bytes.last().is_some_and(u8::is_ascii_whitespace) { bytes.pop(); }]. *)
Fixpoint pop_ascii_whitespace (s : string) : string :=
  match s with
  | "" => ""
  | String a s' =>
      match pop_ascii_whitespace s' with
      | "" => if is_ascii_whitespace a then "" else String a ""
      | rest => String a rest
      end
  end.

(** [format!("{n}")] for an unsigned integer. *)
Definition show_N (n : N) : string := pretty n.

(** ** Lemmas *)

#[local] Arguments String.append !_ _ / : simpl nomatch.

Lemma is_empty_true s : is_empty s = true ↔ s = "".
Proof. destruct s; naive_solver. Qed.

Lemma show_N_inj n m : show_N n = show_N m → n = m.
Proof. apply (inj pretty). Qed.

Lemma string_app_assoc a b c : a +:+ (b +:+ c) = (a +:+ b) +:+ c.
Proof. induction a; simpl; congruence. Qed.

Lemma string_app_nil_r a : a +:+ "" = a.
Proof. induction a; simpl; congruence. Qed.

Lemma string_app_inj_l a b c : a +:+ b = a +:+ c → b = c.
Proof. apply (inj (String.app a)). Qed.

Lemma strip_prefix_spec s p t : strip_prefix s p = Some t ↔ s = p +:+ t.
Proof.
  revert s. induction p as [|a p IH]; intros s; simpl; [split; congruence|].
  destruct s as [|b s]; [split; discriminate|].
  case_bool_decide; [subst; rewrite IH|]; split; congruence.
Qed.

Lemma starts_with_spec s p : starts_with s p = true ↔ ∃ t, s = p +:+ t.
Proof.
  unfold starts_with. setoid_rewrite <- strip_prefix_spec.
  destruct (strip_prefix s p); split; [by eauto|done|done|by intros [? ?]].
Qed.

Lemma starts_with_app p t : starts_with (p +:+ t) p = true.
Proof. apply starts_with_spec. eauto. Qed.

Lemma split_cons c s : ∃ h t, split c s = h :: t.
Proof.
  destruct s as [|a s]; simpl; [eauto|].
  case_bool_decide; [eauto|]. destruct (split c s); eauto.
Qed.

Lemma split_no_sep c s : contains_char c s = false → split c s = [s].
Proof.
  induction s as [|a s IH]; simpl; [done|].
  case_bool_decide; [done|]. intros. by rewrite IH.
Qed.

Lemma split_app_sep c a b :
  contains_char c a = false → split c (a +:+ String c b) = a :: split c b.
Proof.
  induction a as [|x a IH]; simpl; intros Ha.
  - by rewrite bool_decide_true.
  - apply orb_false_iff in Ha as [Hx Ha]. rewrite Hx. by rewrite IH.
Qed.

Lemma contains_char_app c s t :
  contains_char c (s +:+ t) = contains_char c s || contains_char c t.
Proof. induction s; simpl; [done|]. rewrite IHs. by rewrite orb_assoc. Qed.

(** A separator that occurs in neither prefix cuts a string in one way only. *)
Lemma sep_cut_inj c a1 b1 a2 b2 :
  contains_char c a1 = false → contains_char c a2 = false →
  a1 +:+ String c b1 = a2 +:+ String c b2 → a1 = a2 ∧ b1 = b2.
Proof.
  revert a2. induction a1 as [|x a1 IH]; intros [|y a2]; simpl; intros H1 H2 E;
    simplify_eq; [done| | |].
  - by rewrite bool_decide_true in H2.
  - by rewrite bool_decide_true in H1.
  - apply orb_false_elim in H1 as [_ H1]. apply orb_false_elim in H2 as [_ H2].
    destruct (IH a2) as [-> ->]; auto.
Qed.

Lemma to_ascii_lowercase_length s :
  String.length (to_ascii_lowercase s) = String.length s.
Proof. induction s; simpl; congruence. Qed.

Lemma contains_spec s p : contains s p = true ↔ ∃ a b, s = a +:+ p +:+ b.
Proof.
  induction s as [|x s IH]; simpl; rewrite orb_true_iff.
  - rewrite (starts_with_spec "" p). split.
    + intros [[t Ht]|]; [by exists "", t|done].
    + intros (a & b & E). left. destruct a; [by exists b|discriminate].
  - rewrite (starts_with_spec (String x s) p), IH. split.
    + intros [[t ->]|(a & b & ->)]; [by exists "", t|by exists (String x a), b].
    + intros ([|y a] & b & E); [left; by exists b|right; exists a, b; by injection E].
Qed.

(** ** Visible characters are never trimmed *)

(** An ASCII byte that is not white space. *)
Definition solid (a : ascii) : bool := (byte_at a <? 128) && negb (white1 a).

Fixpoint has_solid (s : string) : bool :=
  match s with "" => false | String a s' => solid a || has_solid s' end.

Lemma white1_not_solid a : white1 a = true → solid a = false.
Proof. unfold solid. intros ->. by rewrite andb_false_r. Qed.

Lemma high_not_solid a : 128 <= byte_at a → solid a = false.
Proof. unfold solid. intros. destruct (N.ltb_spec (byte_at a) 128); [lia|done]. Qed.

(** A recogniser of multi-byte white space only accepts bytes above 127. *)
Definition high2 (w2 : ascii → ascii → bool) : Prop :=
  ∀ a b, w2 a b = true → solid a = false ∧ solid b = false.
Definition high3 (w3 : ascii → ascii → ascii → bool) : Prop :=
  ∀ a b c, w3 a b c = true → solid a = false ∧ solid b = false ∧ solid c = false.

Lemma white2_high : high2 white2.
Proof.
  intros a b H. unfold white2 in H.
  split; apply high_not_solid; destruct (N.eqb_spec (byte_at a) 194),
    (N.eqb_spec (byte_at b) 133), (N.eqb_spec (byte_at b) 160); simpl in H; try done; lia.
Qed.

Lemma white3_high : high3 white3.
Proof.
  intros a b c H. unfold white3 in H.
  repeat (rewrite ?orb_true_iff, ?andb_true_iff, ?N.eqb_eq, ?N.leb_le in H).
  split_and!; apply high_not_solid; lia.
Qed.

Lemma strip_white_solid w2 w3 s :
  high2 w2 → high3 w3 → has_solid (strip_white w2 w3 s) = has_solid s.
Proof.
  intros H2 H3. remember (String.length s) as n eqn:Hn. assert (String.length s <= n)%nat as Hle by lia.
  clear Hn. revert s Hle. induction n as [|n IH]; intros s Hle.
  { destruct s; simpl in *; [done|lia]. }
  destruct s as [|a s1]; [done|]. simpl in *.
  destruct (white1 a) eqn:E1; [rewrite IH by lia; by rewrite (white1_not_solid _ E1)|].
  destruct s1 as [|b s2]; [done|]. simpl in *.
  destruct (w2 a b) eqn:E2.
  { destruct (H2 _ _ E2) as [-> ->]. rewrite IH by lia. done. }
  destruct s2 as [|c s3]; [done|]. simpl in *.
  destruct (w3 a b c) eqn:E3; [|done].
  destruct (H3 _ _ _ E3) as (-> & -> & ->). rewrite IH by lia. done.
Qed.

Lemma rev_app_solid s t : has_solid (String.rev_app s t) = has_solid s || has_solid t.
Proof.
  revert t. induction s as [|a s IH]; intros t; simpl; [done|]. rewrite IH. simpl.
  by destruct (solid a), (has_solid s).
Qed.

Lemma rev_solid s : has_solid (String.rev s) = has_solid s.
Proof. unfold String.rev. by rewrite rev_app_solid, orb_false_r. Qed.

Lemma trim_solid s : has_solid (trim s) = has_solid s.
Proof.
  unfold trim, trim_end, trim_start. rewrite rev_solid, strip_white_solid, rev_solid.
  - apply strip_white_solid; [apply white2_high|apply white3_high].
  - intros b a H. by destruct (white2_high a b H).
  - intros c b a H. by destruct (white3_high a b c H) as (? & ? & ?).
Qed.

Lemma solid_not_blank s : has_solid s = true → is_blank s = false.
Proof.
  intros H. unfold is_blank. rewrite <- trim_solid in H.
  by destruct (trim s).
Qed.

(** ** Reversal and trimming *)

Lemma rev_app_rev_app s t u :
  String.rev_app (String.rev_app s t) u = String.rev_app t (s +:+ u).
Proof. revert t. induction s as [|a s IH]; intros t; [done|]. simpl. by rewrite IH. Qed.

Lemma rev_rev s : String.rev (String.rev s) = s.
Proof.
  unfold String.rev. rewrite rev_app_rev_app. simpl. apply string_app_nil_r.
Qed.

Lemma all_bytes_app f s t : all_bytes f (s +:+ t) = all_bytes f s && all_bytes f t.
Proof. induction s as [|a s IH]; simpl; [done|]. by rewrite IH, andb_assoc. Qed.

Lemma all_bytes_rev_app f s t :
  all_bytes f (String.rev_app s t) = all_bytes f s && all_bytes f t.
Proof.
  revert t. induction s as [|a s IH]; intros t; [done|]. simpl. rewrite IH. simpl.
  by destruct (f a), (all_bytes f s).
Qed.

Lemma rev_app_app s t : String.rev_app s t = String.rev s +:+ t.
Proof.
  unfold String.rev. enough (∀ u, String.rev_app s (u +:+ t) = String.rev_app s u +:+ t) as H
    by apply (H "").
  induction s as [|a s IH]; intros u; [done|]. simpl. by rewrite <- IH.
Qed.

Lemma rev_string_app s t : String.rev (s +:+ t) = String.rev t +:+ String.rev s.
Proof.
  unfold String.rev at 1. rewrite <- rev_app_app.
  enough (∀ u, String.rev_app (s +:+ t) u = String.rev_app t (String.rev_app s u)) as H by apply H.
  induction s as [|a s IH]; intros u; [done|]. apply IH.
Qed.

Lemma ends_with_spec s p : ends_with s p = true ↔ ∃ t, s = t +:+ p.
Proof.
  unfold ends_with. rewrite starts_with_spec. split.
  - intros [t E]. exists (String.rev t).
    by rewrite <- (rev_rev s), E, rev_string_app, (rev_rev p).
  - intros [t ->]. exists (String.rev t). apply rev_string_app.
Qed.

Lemma rev_snoc s a : String.rev (s +:+ String a "") = String a (String.rev s).
Proof.
  unfold String.rev. enough (∀ t, String.rev_app (s +:+ String a "") t = String a (String.rev_app s t))
    as H by apply H.
  induction s as [|b s IH]; intros t; simpl; [done|apply IH].
Qed.

Lemma strip_white_first w2 w3 a s :
  high2 w2 → high3 w3 → solid a = true → strip_white w2 w3 (String a s) = String a s.
Proof.
  intros H2 H3 Ha. simpl. destruct (white1 a) eqn:E1.
  { apply white1_not_solid in E1. congruence. }
  destruct s as [|b s]; [done|].
  destruct (w2 a b) eqn:E2. { destruct (H2 _ _ E2). congruence. }
  destruct s as [|c s]; [done|].
  destruct (w3 a b c) eqn:E3; [|done]. destruct (H3 _ _ _ E3). congruence.
Qed.

Definition first_solid (s : string) : bool :=
  match s with "" => false | String a _ => solid a end.

(** A string that begins and ends with visible characters is not changed by trimming. *)
Lemma trim_solid_ends s :
  first_solid s = true → first_solid (String.rev s) = true → trim s = s.
Proof.
  unfold trim, trim_end, trim_start. intros Hf Hl. destruct s as [|a s]; [done|].
  rewrite strip_white_first by (done || apply white2_high || apply white3_high).
  destruct (String.rev (String a s)) as [|b t] eqn:E; [done|].
  rewrite strip_white_first; [by rewrite <- E, rev_rev| | |done].
  - intros x y Hw. by destruct (white2_high y x Hw).
  - intros x y z Hw. by destruct (white3_high z y x Hw) as (? & ? & ?).
Qed.

(** A leading blank is dropped. *)
Lemma trim_blank s : trim (String " " s) = trim s.
Proof. reflexivity. Qed.
