(* ===== verification/Collections.v ===== *)
(** * Standard-library collections

    Comparators ([Ord::cmp], [then_with]), the stable [slice::sort_by],
    [truncate] / [take], iteration over [HashMap] and [BTreeMap], and the list
    lemmas the components share. *)
From S2P Require Import Prelude RustStr.

(** ** Comparators *)

(** What [sort_by] documents about its argument: a total preorder. *)
Class TotalCmp {A} (cmp : A → A → comparison) : Prop := {
  cmp_antisym x y : cmp y x = CompOpp (cmp x y);
  cmp_lt_trans x y z : cmp x y = Lt → cmp y z = Lt → cmp x z = Lt;
  cmp_eq_compat x y z : cmp x y = Eq → cmp x z = cmp y z;
}.
#[export] Hint Mode TotalCmp + ! : typeclass_instances.
Arguments cmp_antisym {A} cmp {_} x y.
Arguments cmp_lt_trans {A} cmp {_} x y z.
Arguments cmp_eq_compat {A} cmp {_} x y z.

Definition cmp_on {A B} (f : A → B) (cmp : B → B → comparison) (x y : A) : comparison :=
  cmp (f x) (f y).
(** [b.f.cmp(&a.f)]. *)
Definition cmp_rev {A} (cmp : A → A → comparison) (x y : A) : comparison := cmp y x.
(** [Ordering::then_with]. *)
Definition then_with {A} (c1 c2 : A → A → comparison) (x y : A) : comparison :=
  match c1 x y with Eq => c2 x y | o => o end.

#[global] Typeclasses Opaque cmp_on cmp_rev then_with.

Definition cmp_le {A} (cmp : A → A → comparison) (x y : A) : Prop := cmp x y ≠ Gt.

#[export] Instance cmp_le_dec {A} (cmp : A → A → comparison) x y : Decision (cmp_le cmp x y).
Proof. unfold cmp_le. apply _. Defined.

#[export] Instance N_compare_total : TotalCmp N.compare.
Proof.
  split.
  - intros. apply N.compare_antisym.
  - intros x y z. rewrite !N.compare_lt_iff. lia.
  - intros x y z ->%N.compare_eq_iff. done.
Qed.

Lemma string_compare_le s t : String.le s t ↔ String.compare s t ≠ Gt.
Proof.
  unfold String.le, String.leb. destruct (String.compare s t); naive_solver.
Qed.

#[export] Instance string_compare_total : TotalCmp String.compare.
Proof.
  assert (Hanti : ∀ x y, String.compare y x = CompOpp (String.compare x y)).
  { intros. rewrite String.compare_antisym. by destruct (String.compare y x). }
  split; [done| |].
  - intros x y z Hxy Hyz.
    assert (String.le x z) as Hle.
    { transitivity y; apply string_compare_le; congruence. }
    apply string_compare_le in Hle.
    destruct (String.compare x z) eqn:E; [|done|done].
    apply String.compare_eq_iff in E as ->. rewrite (Hanti y z), Hyz in Hxy. done.
  - intros x y z ->%String.compare_eq_iff. done.
Qed.

#[export] Instance cmp_on_total {A B} (f : A → B) cmp :
  TotalCmp cmp → TotalCmp (cmp_on f cmp).
Proof.
  intros []. split; unfold cmp_on; eauto.
Qed.

#[export] Instance cmp_rev_total {A} (cmp : A → A → comparison) :
  TotalCmp cmp → TotalCmp (cmp_rev cmp).
Proof.
  intros []. split; unfold cmp_rev; eauto.
  intros x y z E. rewrite (cmp_antisym0 x z), (cmp_antisym0 y z). f_equal.
  apply cmp_eq_compat0. by rewrite cmp_antisym0, E.
Qed.

#[export] Instance then_with_total {A} (c1 c2 : A → A → comparison) :
  TotalCmp c1 → TotalCmp c2 → TotalCmp (then_with c1 c2).
Proof.
  intros [a1 t1 e1] [a2 t2 e2]. split; unfold then_with.
  - intros x y. rewrite (a1 x y), (a2 x y). by destruct (c1 x y).
  - intros x y z. destruct (c1 x y) eqn:E1; [rewrite (e1 _ _ _ E1)| |done].
    + destruct (c1 y z); eauto.
    + intros _. assert (c1 y z = Eq → c1 x z = Lt) as Hq.
      { intros E2. rewrite (a1 z x). rewrite (e1 z y x), <- (a1 y x), E1; [done|].
        by rewrite (a1 y z), E2. }
      destruct (c1 y z) eqn:E2; [by rewrite Hq|by rewrite (t1 x y z)|done].
  - intros x y z. destruct (c1 x y) eqn:E1; [|done|done].
    intros E2. by rewrite (e1 _ _ _ E1), (e2 _ _ _ E2).
Qed.

Section order.
Context {A : Type} (cmp : A → A → comparison) `{!TotalCmp cmp}.

Lemma cmp_refl x : cmp x x = Eq.
Proof. pose proof (cmp_antisym cmp x x) as H. by destruct (cmp x x). Qed.

#[export] Instance cmp_le_trans : Transitive (cmp_le cmp).
Proof.
  intros x y z. unfold cmp_le. intros Hxy Hyz.
  destruct (cmp x y) eqn:E1; [by rewrite (cmp_eq_compat cmp _ _ _ E1)| |done].
  destruct (cmp y z) eqn:E2; [|by rewrite (cmp_lt_trans cmp x y z)|done].
  assert (cmp z y = Eq) as E3 by (by rewrite (cmp_antisym cmp y z), E2).
  rewrite (cmp_antisym cmp z x), (cmp_eq_compat cmp _ _ x E3), <- (cmp_antisym cmp y x), E1. done.
Qed.

#[export] Instance cmp_le_total : Total (cmp_le cmp).
Proof.
  intros x y. unfold cmp_le. rewrite (cmp_antisym cmp x y).
  destruct (cmp x y); simpl; naive_solver.
Qed.
End order.

(** ** [slice::sort_by]: a stable sort *)

Fixpoint insert_by {A} (cmp : A → A → comparison) (x : A) (l : list A) : list A :=
  match l with
  | [] => [x]
  | y :: l' => match cmp x y with Gt => y :: insert_by cmp x l' | _ => x :: y :: l' end
  end.

Definition sort_by {A} (cmp : A → A → comparison) (l : list A) : list A :=
  foldr (insert_by cmp) [] l.

Section sorting.
Context {A : Type} (cmp : A → A → comparison).

Lemma insert_by_perm x l : insert_by cmp x l ≡ₚ x :: l.
Proof.
  induction l as [|y l IH]; simpl; [done|].
  destruct (cmp x y); [done|done|]. by rewrite IH, Permutation_swap.
Qed.

Lemma sort_by_perm l : sort_by cmp l ≡ₚ l.
Proof. induction l as [|x l IH]; simpl; [done|]. by rewrite insert_by_perm, IH. Qed.

Lemma elem_of_sort_by x l : x ∈ sort_by cmp l ↔ x ∈ l.
Proof. by rewrite sort_by_perm. Qed.

Context `{!TotalCmp cmp}.

Lemma insert_by_sorted x l :
  StronglySorted (cmp_le cmp) l → StronglySorted (cmp_le cmp) (insert_by cmp x l).
Proof.
  induction 1 as [|y l Hl IH Hall]; simpl; [repeat constructor|].
  assert (cmp x y ≠ Gt → StronglySorted (cmp_le cmp) (x :: y :: l)) as Hfront.
  { intros. constructor; [by constructor|]. constructor; [done|].
    eapply Forall_impl; [done|]. intros z. by apply cmp_le_trans. }
  destruct (cmp x y) eqn:E; [by apply Hfront|by apply Hfront|].
  constructor; [done|]. rewrite insert_by_perm. constructor; [|done].
  unfold cmp_le. by rewrite (cmp_antisym cmp x y), E.
Qed.

Lemma sort_by_sorted l : StronglySorted (cmp_le cmp) (sort_by cmp l).
Proof. induction l; simpl; [constructor|by apply insert_by_sorted]. Qed.

(** On elements no two of which compare equal, the result does not depend on
    the order the sort was given them in. *)
Lemma sort_by_perm_eq l1 l2 :
  (∀ x y, x ∈ l1 → y ∈ l1 → cmp x y = Eq → x = y) →
  l1 ≡ₚ l2 → sort_by cmp l1 = sort_by cmp l2.
Proof.
  intros Hinj Hperm. apply (StronglySorted_unique_strong (cmp_le cmp)).
  - intros x y. rewrite !sort_by_perm, <- Hperm. unfold cmp_le.
    intros Hx Hy Hxy Hyx. apply Hinj; [done..|].
    rewrite (cmp_antisym cmp x y) in Hyx. by destruct (cmp x y).
  - apply sort_by_sorted.
  - apply sort_by_sorted.
  - by rewrite !sort_by_perm.
Qed.

(** Sorting what is already sorted changes nothing. *)
Lemma sort_by_id l : StronglySorted (cmp_le cmp) l → sort_by cmp l = l.
Proof.
  induction 1 as [|x l Hl IH Hall]; simpl; [done|]. rewrite IH.
  destruct l as [|y l]; simpl; [done|].
  apply Forall_cons in Hall as [Hxy _]. unfold cmp_le in Hxy.
  by destruct (cmp x y).
Qed.
End sorting.

(** ** [take], [truncate] and [len] with machine-sized counts *)

Fixpoint take_N {A} (n : N) (l : list A) : list A :=
  match l with
  | [] => []
  | x :: l' => if n =? 0 then [] else x :: take_N (N.pred n) l'
  end.

Definition len_N {A} (l : list A) : N := N.of_nat (length l).

Lemma take_N_take {A} n (l : list A) : take_N n l = take (N.to_nat n) l.
Proof.
  revert n. induction l as [|x l IH]; intros n; simpl; [by rewrite take_nil|].
  destruct (N.eqb_spec n 0) as [->|]; [done|].
  rewrite IH. replace (N.to_nat n) with (S (N.to_nat (N.pred n))) by lia. done.
Qed.

Lemma take_N_all {A} n (l : list A) : len_N l <= n → take_N n l = l.
Proof. intros. rewrite take_N_take. apply take_ge. unfold len_N in *. lia. Qed.

Lemma take_N_prefix {A} n (l : list A) : take_N n l `prefix_of` l.
Proof. rewrite take_N_take. exists (drop (N.to_nat n) l). by rewrite take_drop. Qed.

Lemma take_N_length {A} n (l : list A) : len_N (take_N n l) = N.min n (len_N l).
Proof. rewrite take_N_take. unfold len_N. rewrite length_take. lia. Qed.

Lemma elem_of_take_N {A} n (l : list A) x : x ∈ take_N n l → x ∈ l.
Proof. rewrite take_N_take. apply subseteq_take. Qed.

(** ** Iteration over maps

    [HashMap] documents that it is iterated in arbitrary order: an operation
    that iterates takes the order as an argument, and the only thing known
    about it is that every entry is met once. *)

Class HashOrder : Type := {
  hash_iter : ∀ `{Countable K} {V : Type}, gmap K V → list (K * V);
  hash_iter_perm : ∀ `{Countable K} {V : Type} (m : gmap K V),
    hash_iter m ≡ₚ map_to_list m;
}.

(** One possible order, used to run the definitions on concrete inputs. *)
Definition canonical_order : HashOrder :=
  {| hash_iter K _ _ V m := map_to_list m; hash_iter_perm K _ _ V m := Permutation_refl _ |}.

Definition hash_values `{HashOrder, Countable K} {V} (m : gmap K V) : list V :=
  (hash_iter m).*2.

(** [BTreeMap<String, V>] is iterated in ascending key order. *)
Definition btree_iter {V} (m : gmap string V) : list (string * V) :=
  sort_by (cmp_on fst String.compare) (map_to_list m).

Definition btree_values {V} (m : gmap string V) : list V := (btree_iter m).*2.

Section iteration.
Context `{HashOrder}.

Lemma elem_of_hash_iter `{Countable K} {V} (m : gmap K V) k v :
  (k, v) ∈ hash_iter m ↔ m !! k = Some v.
Proof. rewrite hash_iter_perm. apply elem_of_map_to_list. Qed.

Lemma elem_of_hash_values `{Countable K} {V} (m : gmap K V) v :
  v ∈ hash_values m ↔ ∃ k, m !! k = Some v.
Proof.
  unfold hash_values. rewrite list_elem_of_fmap. split.
  - intros ([k v'] & -> & Hin). exists k. by apply elem_of_hash_iter.
  - intros [k Hk]. exists (k, v). by rewrite elem_of_hash_iter.
Qed.

Lemma NoDup_hash_keys `{Countable K} {V} (m : gmap K V) : NoDup (hash_iter m).*1.
Proof. rewrite hash_iter_perm. apply NoDup_fst_map_to_list. Qed.

Lemma NoDup_hash_iter `{Countable K} {V} (m : gmap K V) : NoDup (hash_iter m).
Proof. rewrite hash_iter_perm. apply NoDup_map_to_list. Qed.

Lemma hash_iter_length `{Countable K} {V} (m : gmap K V) : length (hash_iter m) = size m.
Proof. rewrite hash_iter_perm. apply length_map_to_list. Qed.
End iteration.

Lemma hash_values_perm (h1 h2 : HashOrder) `{Countable K} {V} (m : gmap K V) :
  @hash_values h1 K _ _ V m ≡ₚ @hash_values h2 K _ _ V m.
Proof. unfold hash_values. by rewrite !hash_iter_perm. Qed.

Lemma elem_of_btree_iter {V} (m : gmap string V) k v :
  (k, v) ∈ btree_iter m ↔ m !! k = Some v.
Proof. unfold btree_iter. rewrite sort_by_perm. apply elem_of_map_to_list. Qed.

(** ** Shared list lemmas *)

Lemma StronglySorted_weaken {A} (R S : relation A) l :
  (∀ x y, R x y → S x y) → StronglySorted R l → StronglySorted S l.
Proof.
  intros Himpl. induction 1 as [|x l _ IH Hall]; constructor; [done|].
  eapply Forall_impl; [exact Hall|]. auto.
Qed.

Lemma StronglySorted_filter {A} (R : relation A) (P : A → Prop) `{∀ x, Decision (P x)} l :
  StronglySorted R l → StronglySorted R (filter P l).
Proof.
  induction 1 as [|x l Hl IH Hall]; [constructor|].
  rewrite filter_cons. case_decide; [|done].
  constructor; [done|]. rewrite Forall_forall in *. intros y Hy.
  apply list_elem_of_filter in Hy as [_ Hy]. eauto.
Qed.

Lemma StronglySorted_snoc {A} (R : relation A) l x :
  StronglySorted R l → Forall (λ y, R y x) l → StronglySorted R (l ++ [x]).
Proof.
  induction 1 as [|y l Hl IH Hall]; simpl; [repeat constructor|].
  intros [Hyx Hr]%Forall_cons. constructor; [by apply IH|].
  apply Forall_app. split; [done|]. by constructor.
Qed.

Lemma filter_snoc {A} (P : A → Prop) `{∀ x, Decision (P x)} (l : list A) x :
  filter P (l ++ [x]) = filter P l ++ (if decide (P x) then [x] else []).
Proof. rewrite filter_app, filter_cons. by case_decide. Qed.

(** [Vec::retain] and [Iterator::filter] with a boolean predicate. *)
Definition retain {A} (f : A → bool) (l : list A) : list A := filter (λ x, f x = true) l.

Lemma elem_of_retain {A} (f : A → bool) l x : x ∈ retain f l ↔ f x = true ∧ x ∈ l.
Proof. unfold retain. by rewrite list_elem_of_filter. Qed.

#[export] Instance retain_Permutation {A} (f : A → bool) :
  Proper ((≡ₚ) ==> (≡ₚ)) (retain f).
Proof. intros l1 l2 Hl. unfold retain. by rewrite Hl. Qed.

Lemma retain_perm {A} (f : A → bool) l1 l2 : l1 ≡ₚ l2 → retain f l1 ≡ₚ retain f l2.
Proof. by intros ->. Qed.

Lemma retain_sublist {A} (f : A → bool) l : retain f l `sublist_of` l.
Proof. apply sublist_filter. Qed.

Lemma retain_app {A} (f : A → bool) l1 l2 : retain f (l1 ++ l2) = retain f l1 ++ retain f l2.
Proof. apply filter_app. Qed.

Lemma retain_all {A} (f : A → bool) l : (∀ x, x ∈ l → f x = true) → retain f l = l.
Proof.
  unfold retain. induction l as [|x l IH]; intros Hall; [done|].
  rewrite filter_cons_True by (apply Hall; left). f_equal. apply IH.
  intros y Hy. apply Hall. by right.
Qed.

Lemma NoDup_fmap_inj_on {A B} (f : A → B) l x y :
  NoDup (f <$> l) → x ∈ l → y ∈ l → f x = f y → x = y.
Proof.
  induction l as [|z l IH]; intros Hnd Hx Hy E; [by apply elem_of_nil in Hx|].
  rewrite fmap_cons in Hnd. apply NoDup_cons in Hnd as [Hz Hnd].
  apply elem_of_cons in Hx as [->|Hx]; apply elem_of_cons in Hy as [->|Hy]; [done| | |].
  - destruct Hz. rewrite E. by apply list_elem_of_fmap_2.
  - destruct Hz. rewrite <- E. by apply list_elem_of_fmap_2.
  - by apply IH.
Qed.

Lemma NoDup_fmap_sublist {A B} (f : A → B) l k :
  l `sublist_of` k → NoDup (f <$> k) → NoDup (f <$> l).
Proof. intros Hs Hk. eapply sublist_NoDup; [done|]. by apply fmap_sublist. Qed.

Lemma retain_snoc {A} (f : A → bool) l x :
  retain f (l ++ [x]) = retain f l ++ (if f x then [x] else []).
Proof. unfold retain. rewrite filter_snoc. by destruct (f x). Qed.

Lemma retain_len {A} (f : A → bool) l : len_N (retain f l) <= len_N l.
Proof.
  unfold len_N. pose proof (sublist_length _ _ (retain_sublist f l)). lia.
Qed.

Lemma retain_retain {A} (f g : A → bool) l :
  retain f (retain g l) = retain (λ x, g x && f x) l.
Proof.
  unfold retain. rewrite list_filter_filter. apply list_filter_iff. intros x.
  rewrite andb_true_iff. tauto.
Qed.

Lemma retain_none {A} (f : A → bool) l : (∀ x, x ∈ l → f x = false) → retain f l = [].
Proof.
  unfold retain. induction l as [|x l IH]; intros Hall; [done|].
  rewrite filter_cons_False by (rewrite Hall; [done|left]). apply IH.
  intros y Hy. apply Hall. by right.
Qed.

#[export] Instance Nat_compare_total : TotalCmp Nat.compare.
Proof.
  split.
  - intros. apply Nat.compare_antisym.
  - intros x y z. rewrite !Nat.compare_lt_iff. lia.
  - intros x y z ->%Nat.compare_eq_iff. done.
Qed.

Lemma retain_ext {A} (f g : A → bool) l :
  (∀ x, x ∈ l → f x = g x) → retain f l = retain g l.
Proof.
  unfold retain. induction l as [|x l IH]; intros Hfg; [done|]. rewrite !filter_cons.
  rewrite (Hfg x ltac:(left)). rewrite IH; [done|]. intros y Hy. apply Hfg. by right.
Qed.

(** An initial part of what a filter keeps is what it keeps of an initial part. *)
Lemma retain_prefix_split {A} (f : A → bool) l p x :
  p ++ [x] `prefix_of` retain f l →
  ∃ l1 l2, l = l1 ++ x :: l2 ∧ retain f (l1 ++ [x]) = p ++ [x] ∧ f x = true.
Proof.
  revert p. induction l as [|y l IH]; intros p [k Hk].
  { by destruct p. }
  unfold retain in Hk. rewrite filter_cons in Hk. case_decide as Hf.
  - destruct p as [|z p]; simpl in Hk; injection Hk as -> Hk.
    + exists [], l. split_and!; [done| |done]. unfold retain. simpl. by rewrite filter_cons_True.
    + destruct (IH p) as (l1 & l2 & -> & Hr & Hx); [by exists k|].
      exists (z :: l1), l2. split_and!; [done| |done]. unfold retain in *. simpl.
      rewrite filter_cons_True by done. by rewrite Hr.
  - destruct (IH p) as (l1 & l2 & -> & Hr & Hx); [by exists k|].
    exists (y :: l1), l2. split_and!; [done| |done]. unfold retain in *. simpl.
    by rewrite filter_cons_False.
Qed.

Lemma retain_cons {A} (f : A → bool) x l :
  retain f (x :: l) = if f x then x :: retain f l else retain f l.
Proof. unfold retain. rewrite filter_cons. by destruct (f x). Qed.
