(* ===== verification/Contract.v ===== *)
(** * Domain contract (crates/sdkwork-discovery-contract)

    Errors, caller contexts, health-check state, and the commands, queries,
    results and entities of the registry and the config registry.  The fields
    of each record keep the source's names behind a short prefix. *)
From S2P Require Import Prelude RustStr Collections.
From Stdlib Require Import Ascii.

(** ** Errors (error.rs) *)

Inductive DiscoveryError : Type :=
| Unauthenticated (message : string)
| InvalidConfig (message : string)
| InvalidArgument (message : string)
| NotFound (message : string)
| AlreadyPublished (message : string)
| PermissionDenied (message : string)
| PolicyViolation (message : string)
| Conflict (message : string)
| Unavailable (message : string)
| ResourceExhausted (message : string).

#[export] Instance DiscoveryError_eq_dec : EqDecision DiscoveryError.
Proof. solve_decision. Defined.

Abbreviation DiscoveryResult := (Result DiscoveryError).
(** A fallible method of a component whose state is [S]. *)
Abbreviation Op := (Eff DiscoveryError).

Definition kind_string (e : DiscoveryError) : string :=
  match e with
  | Unauthenticated _ => "unauthenticated"
  | InvalidConfig _ => "invalid_config"
  | InvalidArgument _ => "invalid_argument"
  | NotFound _ => "not_found"
  | AlreadyPublished _ => "already_published"
  | PermissionDenied _ => "permission_denied"
  | PolicyViolation _ => "policy_violation"
  | Conflict _ => "conflict"
  | Unavailable _ => "unavailable"
  | ResourceExhausted _ => "resource_exhausted"
  end.

(** [Display for DiscoveryError]. *)
Definition error_to_string (e : DiscoveryError) : string :=
  match e with
  | Unauthenticated m => "unauthenticated: " +:+ m
  | InvalidConfig m => "invalid config: " +:+ m
  | InvalidArgument m => "invalid argument: " +:+ m
  | NotFound m => "not found: " +:+ m
  | AlreadyPublished m => "already published: " +:+ m
  | PermissionDenied m => "permission denied: " +:+ m
  | PolicyViolation m => "policy violation: " +:+ m
  | Conflict m => "conflict: " +:+ m
  | Unavailable m => "unavailable: " +:+ m
  | ResourceExhausted m => "resource exhausted: " +:+ m
  end.

(** ** Callers (context.rs) *)

Inductive RegistryPermission : Type := RegistryRead | RegistryWrite | RegistryAdmin.

Inductive ConfigPermission : Type :=
  ConfigRead | ConfigWrite | ConfigPublish | ConfigRollback | ConfigAdmin.

#[export] Instance RegistryPermission_eq_dec : EqDecision RegistryPermission.
Proof. solve_decision. Defined.
#[export] Instance ConfigPermission_eq_dec : EqDecision ConfigPermission.
Proof. solve_decision. Defined.

Record CallerContext : Type := {
  subject_id : string;
  tenant_id : option string;
  organization_id : option string;
  registry_permissions : list RegistryPermission;
  config_permissions : list ConfigPermission;
}.

(** [CallerContext::new]. *)
Definition new_caller (subject : string) : CallerContext :=
  {| subject_id := subject; tenant_id := None; organization_id := None;
     registry_permissions := []; config_permissions := [] |}.

Definition with_tenant_id (c : CallerContext) (tenant : string) : CallerContext :=
  if negb (is_blank tenant) then
    {| subject_id := subject_id c; tenant_id := Some tenant;
       organization_id := organization_id c;
       registry_permissions := registry_permissions c;
       config_permissions := config_permissions c |}
  else c.

Definition with_organization_id (c : CallerContext) (org : string) : CallerContext :=
  if negb (is_blank org) then
    {| subject_id := subject_id c; tenant_id := tenant_id c;
       organization_id := Some org;
       registry_permissions := registry_permissions c;
       config_permissions := config_permissions c |}
  else c.

Definition with_registry_permission (c : CallerContext) (p : RegistryPermission)
    : CallerContext :=
  if negb (bool_decide (p ∈ registry_permissions c)) then
    {| subject_id := subject_id c; tenant_id := tenant_id c;
       organization_id := organization_id c;
       registry_permissions := registry_permissions c ++ [p];
       config_permissions := config_permissions c |}
  else c.

Definition with_config_permission (c : CallerContext) (p : ConfigPermission)
    : CallerContext :=
  if negb (bool_decide (p ∈ config_permissions c)) then
    {| subject_id := subject_id c; tenant_id := tenant_id c;
       organization_id := organization_id c;
       registry_permissions := registry_permissions c;
       config_permissions := config_permissions c ++ [p] |}
  else c.

Definition has_registry_permission (c : CallerContext) (required : RegistryPermission)
    : bool :=
  bool_decide (RegistryAdmin ∈ registry_permissions c)
  || bool_decide (required ∈ registry_permissions c).

Definition has_config_permission (c : CallerContext) (required : ConfigPermission)
    : bool :=
  bool_decide (ConfigAdmin ∈ config_permissions c)
  || bool_decide (required ∈ config_permissions c).

(** ** Health checks (health_check.rs) *)

Inductive HealthCheckProbe : Type :=
| ProbeTcp
| ProbeHttp (path : string) (expected_status : N)
| ProbeGrpc (service_name : string).

Record HealthCheckConfig : Type := {
  hc_probe : HealthCheckProbe;
  hc_interval_ms : N;
  hc_timeout_ms : N;
  hc_unhealthy_threshold : N;
  hc_healthy_threshold : N;
}.

Record HealthCheckRuntimeState : Type := {
  consecutive_successes : N;
  consecutive_failures : N;
  last_check_ms : N;
}.

#[export] Instance HealthCheckProbe_eq_dec : EqDecision HealthCheckProbe.
Proof. solve_decision. Defined.
#[export] Instance HealthCheckConfig_eq_dec : EqDecision HealthCheckConfig.
Proof. solve_decision. Defined.
#[export] Instance HealthCheckRuntimeState_eq_dec : EqDecision HealthCheckRuntimeState.
Proof. solve_decision. Defined.

(** [HealthCheckRuntimeState::default]. *)
Definition default_health_state : HealthCheckRuntimeState :=
  {| consecutive_successes := 0; consecutive_failures := 0; last_check_ms := 0 |}.

Definition is_healthy (s : HealthCheckRuntimeState) (c : HealthCheckConfig) : bool :=
  hc_healthy_threshold c <=? consecutive_successes s.

Definition is_unhealthy (s : HealthCheckRuntimeState) (c : HealthCheckConfig) : bool :=
  hc_unhealthy_threshold c <=? consecutive_failures s.

Definition due_for_check (s : HealthCheckRuntimeState) (c : HealthCheckConfig) (now_ms : N)
    : bool :=
  if hc_interval_ms c =? 0 then false
  else (last_check_ms s =? 0)
       || (hc_interval_ms c <=? saturating_sub now_ms (last_check_ms s)).

(** ** Registry (registry.rs) *)

Inductive InstanceStatus : Type := Serving | Degraded | NotServing.

#[export] Instance InstanceStatus_eq_dec : EqDecision InstanceStatus.
Proof. solve_decision. Defined.

Definition is_discoverable (s : InstanceStatus) : bool :=
  match s with Serving | Degraded => true | NotServing => false end.

Record RegisterInstanceCommand : Type := {
  rc_namespace : string;
  rc_environment : string;
  rc_service_name : string;
  rc_instance_id : string;
  rc_endpoint : string;
  rc_protocol : string;
  rc_version : string;
  rc_region : string;
  rc_zone : string;
  rc_weight : N;
  rc_priority : N;
  rc_status : InstanceStatus;
  rc_metadata : gmap string string;
  rc_lease_ttl_seconds : N;
  rc_now_ms : N;
  rc_expected_revision : option N;
  rc_persistent : bool;
  rc_health_check : option HealthCheckConfig;
}.

Record RegisterInstanceResult : Type := {
  rr_lease_id : string;
  rr_namespace : string;
  rr_environment : string;
  rr_service_name : string;
  rr_instance_id : string;
  rr_revision : N;
  rr_expires_at_ms : N;
}.

Record BatchOperationError : Type := {
  be_index : N;
  be_error_code : string;
  be_error_message : string;
}.

Record BatchRegisterResult : Type := {
  br_results : list RegisterInstanceResult;
  br_errors : list BatchOperationError;
}.

Record ReportInstanceStatusCommand : Type := {
  sc_namespace : string;
  sc_environment : string;
  sc_service_name : string;
  sc_instance_id : string;
  sc_status : InstanceStatus;
  sc_now_ms : N;
  sc_expected_revision : option N;
}.

Record ReportInstanceStatusResult : Type := {
  sr_revision : N;
  sr_status : InstanceStatus;
}.

Record RenewLeaseCommand : Type := {
  lc_lease_id : string;
  lc_lease_ttl_seconds : N;
  lc_now_ms : N;
}.

Record RenewLeaseResult : Type := {
  lr_lease_id : string;
  lr_namespace : string;
  lr_environment : string;
  lr_service_name : string;
  lr_instance_id : string;
  lr_revision : N;
  lr_expires_at_ms : N;
}.

Record DeregisterInstanceResult : Type := {
  dr_namespace : string;
  dr_environment : string;
  dr_service_name : string;
  dr_instance_id : string;
  dr_revision : N;
  dr_deregistered : bool;
}.

Inductive DiscoverSortBy : Type := ByInstanceId | ByPriority | ByWeight | WeightedRandom.

Inductive LabelFilterOp : Type := LabelEq | LabelNotEq | LabelIn | LabelExists.

#[export] Instance DiscoverSortBy_eq_dec : EqDecision DiscoverSortBy.
Proof. solve_decision. Defined.
#[export] Instance LabelFilterOp_eq_dec : EqDecision LabelFilterOp.
Proof. solve_decision. Defined.

Record LabelFilter : Type := {
  lf_key : string;
  lf_op : LabelFilterOp;
  lf_value : string;
}.

(** [LabelFilter::matches]. *)
Definition label_matches (f : LabelFilter) (metadata : gmap string string) : bool :=
  match lf_op f with
  | LabelEq => bool_decide (metadata !! lf_key f = Some (lf_value f))
  | LabelNotEq => negb (bool_decide (metadata !! lf_key f = Some (lf_value f)))
  | LabelIn =>
      let values := split ","%char (lf_value f) in
      match metadata !! lf_key f with
      | Some v => bool_decide (v ∈ values)
      | None => false
      end
  | LabelExists => bool_decide (is_Some (metadata !! lf_key f))
  end.

Record DiscoverInstancesQuery : Type := {
  dq_namespace : string;
  dq_environment : string;
  dq_service_name : string;
  dq_healthy_only : bool;
  dq_protocol : option string;
  dq_label_filters : list LabelFilter;
  dq_sort_by : option DiscoverSortBy;
  dq_page_size : N;
  dq_page_token : option string;
}.

Record RetrieveInstanceQuery : Type := {
  rq_namespace : string;
  rq_environment : string;
  rq_service_name : string;
  rq_instance_id : string;
}.

Record ListServicesQuery : Type := {
  lq_namespace : string;
  lq_environment : string;
  lq_page_size : N;
  lq_page_token : option string;
}.

Record ServiceSummary : Type := {
  ss_namespace : string;
  ss_environment : string;
  ss_service_name : string;
  ss_active_instance_count : N;
  ss_latest_revision : N;
}.

Record ListServicesResult : Type := {
  ls_revision : N;
  ls_services : list ServiceSummary;
  ls_next_page_token : option string;
}.

Record ServiceInstance : Type := {
  si_namespace : string;
  si_environment : string;
  si_service_name : string;
  si_instance_id : string;
  si_endpoint : string;
  si_protocol : string;
  si_version : string;
  si_region : string;
  si_zone : string;
  si_weight : N;
  si_priority : N;
  si_status : InstanceStatus;
  si_metadata : gmap string string;
  si_lease_id : string;
  si_expires_at_ms : N;
  si_revision : N;
  si_health_check : option HealthCheckConfig;
  si_health_check_state : HealthCheckRuntimeState;
}.

#[export] Instance ServiceInstance_eq_dec : EqDecision ServiceInstance.
Proof. solve_decision. Defined.

Record DiscoverInstancesResult : Type := {
  di_revision : N;
  di_instances : list ServiceInstance;
  di_next_page_token : option string;
}.

(** ** Config registry (registry.rs) *)

Inductive ConfigFormat : Type := FormatText | FormatJson | FormatToml.

Inductive ConfigScope : Type :=
| ScopeNamespace
| ScopeApplication (application : string)
| ScopeService (application service_name : string).

#[export] Instance ConfigFormat_eq_dec : EqDecision ConfigFormat.
Proof. solve_decision. Defined.
#[export] Instance ConfigScope_eq_dec : EqDecision ConfigScope.
Proof. solve_decision. Defined.

Definition specificity (s : ConfigScope) : N :=
  match s with ScopeNamespace => 0 | ScopeApplication _ => 1 | ScopeService _ _ => 2 end.

Definition applies_to (s : ConfigScope) (application service_name : string) : bool :=
  match s with
  | ScopeNamespace => true
  | ScopeApplication a => bool_decide (a = application)
  | ScopeService a sn => bool_decide (a = application) && bool_decide (sn = service_name)
  end.

Record IdempotencyContext : Type := {
  ic_operation_id : string;
  ic_key : string;
  ic_request_hash : string;
}.

Record CreateConfigDraftCommand : Type := {
  cc_namespace : string;
  cc_environment : string;
  cc_group : string;
  cc_key : string;
  cc_format : ConfigFormat;
  cc_value : string;
  cc_scope : ConfigScope;
  cc_created_by : string;
  cc_idempotency : option IdempotencyContext;
}.

Record ConfigDraft : Type := {
  cd_draft_id : string;
  cd_namespace : string;
  cd_environment : string;
  cd_group : string;
  cd_key : string;
  cd_format : ConfigFormat;
  cd_value : string;
  cd_scope : ConfigScope;
  cd_created_by : string;
  cd_content_hash : string;
  cd_published : bool;
}.

Record PublishConfigCommand : Type := {
  pc_draft_id : string;
  pc_published_by : string;
  pc_now_ms : N;
  pc_idempotency : option IdempotencyContext;
}.

Record RollbackConfigCommand : Type := {
  rb_source_release_id : string;
  rb_rolled_back_by : string;
  rb_now_ms : N;
  rb_idempotency : option IdempotencyContext;
}.

Record ConfigRelease : Type := {
  cr_release_id : string;
  cr_draft_id : string;
  cr_namespace : string;
  cr_environment : string;
  cr_group : string;
  cr_key : string;
  cr_format : ConfigFormat;
  cr_value : string;
  cr_scope : ConfigScope;
  cr_content_hash : string;
  cr_published_by : string;
  cr_published_at_ms : N;
  cr_revision : N;
}.

#[export] Instance ConfigDraft_eq_dec : EqDecision ConfigDraft.
Proof. solve_decision. Defined.
#[export] Instance ConfigRelease_eq_dec : EqDecision ConfigRelease.
Proof. solve_decision. Defined.

Record RetrieveEffectiveConfigQuery : Type := {
  ecq_namespace : string;
  ecq_environment : string;
  ecq_application : string;
  ecq_service_name : string;
  ecq_group : string;
}.

Record EffectiveConfigValue : Type := {
  ev_value : string;
  ev_format : ConfigFormat;
  ev_source_release_id : string;
  ev_source_specificity : N;
  ev_source_revision : N;
}.

Record EffectiveConfig : Type := {
  ec_revision : N;
  ec_values : gmap string EffectiveConfigValue;
}.

(** ** Watch events (registry.rs) *)

Inductive DiscoveryEventKind : Type :=
| InstanceRegistered
| InstanceUpdated
| InstanceStatusReported
| InstanceRenewed
| InstanceDeregistered
| ConfigPublished
| ConfigRolledBack.

#[export] Instance DiscoveryEventKind_eq_dec : EqDecision DiscoveryEventKind.
Proof. solve_decision. Defined.

Record DiscoveryEvent : Type := {
  de_revision : N;
  de_namespace : string;
  de_environment : string;
  de_kind : DiscoveryEventKind;
  de_resource_id : string;
  de_service_name : option string;
  de_config_group : option string;
  de_config_key : option string;
  de_config_application : option string;
}.

#[export] Instance DiscoveryEvent_eq_dec : EqDecision DiscoveryEvent.
Proof. solve_decision. Defined.

Record WatchEventsQuery : Type := {
  wq_namespace : string;
  wq_environment : string;
  wq_from_revision : N;
  wq_service_name : option string;
  wq_config_group : option string;
  wq_config_application : option string;
  wq_max_events : N;
}.

(** [Option::is_none_or]. *)
Definition is_none_or {A} (o : option A) (f : A → bool) : bool :=
  match o with None => true | Some a => f a end.

(** [WatchEventsQuery::matches_event]. *)
Definition matches_event (q : WatchEventsQuery) (e : DiscoveryEvent) : bool :=
  bool_decide (de_namespace e = wq_namespace q)
  && bool_decide (de_environment e = wq_environment q)
  && (wq_from_revision q <? de_revision e)
  && is_none_or (wq_service_name q) (λ service_name,
       is_none_or (de_service_name e) (λ event_service,
         bool_decide (event_service = service_name)))
  && is_none_or (wq_config_group q) (λ config_group,
       bool_decide (de_config_group e = Some config_group))
  && is_none_or (wq_config_application q) (λ application,
       bool_decide (de_config_application e = Some application)).
