(* ===== verification/Discover.v ===== *)
(** * Pagination and result shaping (pagination.rs and registry.rs of the contract crate)

    [paginate_sorted_keys], [finalize_discover_instances] with its weighted
    shuffle, and [finalize_list_services].  The theorems: following the page
    tokens returns the whole collection once and in order; the sort orders do
    not depend on the order storage returned the instances in; the shuffle
    loop ends and only permutes. *)
From S2P Require Import Prelude RustStr Collections Contract.

(** ** Pagination (pagination.rs) *)

Definition DEFAULT_PAGE_SIZE : N := 100.
Definition MAX_PAGE_SIZE : N := 200.

Definition normalize_page_size (page_size : N) : N :=
  if page_size =? 0 then DEFAULT_PAGE_SIZE else N.min page_size MAX_PAGE_SIZE.

Definition normalize_page_token (page_token : option string) : option string :=
  token ← page_token;
  let trimmed := trim token in
  if is_empty trimmed then None else Some trimmed.

(** [items.iter().position(...)]. *)
Definition position {A} (f : A → bool) (l : list A) : option nat :=
  fst <$> list_find (λ x, f x = true) l.

Definition page_start {T} (items : list T) (page_token : option string)
    (key_for : T → string) : nat :=
  match page_token with
  | None => 0
  | Some "" => 0
  | Some token =>
      match position (λ item, bool_decide (key_for item = token)) items with
      | Some index => S index
      | None => length items
      end
  end%nat.

Definition paginate_sorted_keys {T} (items : list T) (page_size : N)
    (page_token : option string) (key_for : T → string) : list T * option string :=
  let limit := normalize_page_size page_size in
  if (limit =? 0) || (len_N items =? 0) then ([], None)
  else
    let page_slice := drop (page_start items page_token key_for) items in
    if len_N page_slice <=? limit then (page_slice, None)
    else
      let page := take_N limit page_slice in
      (page, key_for <$> last page).

(** A client that follows [next_page_token] until it is absent. *)
Fixpoint walk_pages {T} (key_for : T → string) (items : list T) (page_size : N)
    (fuel : nat) (token : option string) : option (list T) :=
  match fuel with
  | O => None
  | S fuel =>
      let '(page, next) := paginate_sorted_keys items page_size token key_for in
      match next with
      | None => Some page
      | Some _ => (page ++.) <$> walk_pages key_for items page_size fuel next
      end
  end.

(** ** Shaping the results (registry.rs) *)

Definition by_instance_id : ServiceInstance → ServiceInstance → comparison :=
  cmp_on si_instance_id String.compare.
Definition by_weight_desc : ServiceInstance → ServiceInstance → comparison :=
  cmp_rev (cmp_on si_weight N.compare).

(** The closure each [sort_by] value passes to [instances.sort_by]. *)
Definition sort_order (s : DiscoverSortBy) : ServiceInstance → ServiceInstance → comparison :=
  match s with
  | ByInstanceId => by_instance_id
  | ByPriority =>
      then_with (cmp_on si_priority N.compare) (then_with by_weight_desc by_instance_id)
  | ByWeight => then_with by_weight_desc by_instance_id
  | WeightedRandom => cmp_on si_priority N.compare
  end.

Definition sum_weights (l : list ServiceInstance) : N :=
  foldl (λ acc i, u64_add acc (si_weight i)) 0 l.

(** The [for] loop that picks an index; [selected_idx] stays 0 when no prefix
    sum exceeds the target. *)
Fixpoint select_index (l : list ServiceInstance) (idx : nat) (cumulative target : N) : nat :=
  match l with
  | [] => O
  | i :: l' =>
      let cumulative := u64_add cumulative (si_weight i) in
      if target <? cumulative then idx else select_index l' (S idx) cumulative target
  end.

Section shuffle.
(** [DefaultHasher] applied to [remaining.len()] and [result.len()]; its
    algorithm is unspecified. *)
Context (default_hash : N → N → N).

Fixpoint shuffle_loop (fuel : nat) (result remaining : list ServiceInstance)
    : option (list ServiceInstance) :=
  match remaining with
  | [] => Some result
  | _ =>
      match fuel with
      | O => None
      | S fuel =>
          let current_weight := sum_weights remaining in
          if current_weight =? 0 then Some (result ++ remaining)
          else
            let target := default_hash (len_N remaining) (len_N result) mod current_weight in
            let selected_idx := select_index remaining 0 0 target in
            match remaining !! selected_idx with
            | None => None
            | Some chosen =>
                shuffle_loop fuel (result ++ [chosen]) (delete selected_idx remaining)
            end
      end
  end.

(** Each iteration removes one instance, so [length instances] rounds are
    enough ([shuffle_loop_perm]). *)
Definition weighted_shuffle_discover_instances (instances : list ServiceInstance)
    : list ServiceInstance :=
  if sum_weights instances =? 0 then instances
  else default [] (shuffle_loop (length instances) [] instances).

Definition finalize_discover_instances (instances : list ServiceInstance)
    (query : DiscoverInstancesQuery) (revision : N) : DiscoverInstancesResult :=
  let instances := retain (λ i,
    forallb (λ f, label_matches f (si_metadata i)) (dq_label_filters query)) instances in
  let order := default ByInstanceId (dq_sort_by query) in
  let instances := sort_by (sort_order order) instances in
  match order with
  | WeightedRandom =>
      let instances := weighted_shuffle_discover_instances instances in
      let page_size := normalize_page_size (dq_page_size query) in
      {| di_revision := revision;
         di_instances := if page_size <? len_N instances then take_N page_size instances
                         else instances;
         di_next_page_token := None |}
  | _ =>
      let '(page, next) := paginate_sorted_keys instances (dq_page_size query)
                             (dq_page_token query) si_instance_id in
      {| di_revision := revision; di_instances := page; di_next_page_token := next |}
  end.
End shuffle.

Definition by_service_name : ServiceSummary → ServiceSummary → comparison :=
  cmp_on ss_service_name String.compare.

Definition finalize_list_services (services : list ServiceSummary) (revision : N)
    (query : ListServicesQuery) : ListServicesResult :=
  let services := sort_by by_service_name services in
  let '(page, next) := paginate_sorted_keys services (lq_page_size query)
                         (lq_page_token query) ss_service_name in
  {| ls_revision := revision; ls_services := page; ls_next_page_token := next |}.

(** ** Lemmas *)

Lemma normalize_page_size_bounds n :
  1 <= normalize_page_size n ∧ normalize_page_size n <= MAX_PAGE_SIZE.
Proof.
  unfold normalize_page_size, DEFAULT_PAGE_SIZE, MAX_PAGE_SIZE.
  destruct (N.eqb_spec n 0); lia.
Qed.

Section pagination.
Context {T : Type} (key_for : T → string).

Lemma position_key pre x post :
  NoDup (key_for <$> pre ++ x :: post) →
  position (λ i, bool_decide (key_for i = key_for x)) (pre ++ x :: post)
    = Some (length pre).
Proof.
  intros Hnd. unfold position.
  rewrite (proj2 (list_find_Some _ _ (length pre) x)); [done|].
  rewrite list_lookup_middle by done. rewrite bool_decide_eq_true.
  split_and!; [done..|]. intros j y Hj Hlt. rewrite bool_decide_eq_true. intros E.
  rewrite lookup_app_l in Hj by done.
  rewrite fmap_app, fmap_cons in Hnd. apply NoDup_app in Hnd as (_ & Hdis & _).
  apply (Hdis (key_for y)).
  - apply list_elem_of_fmap_2. by eapply list_elem_of_lookup_2.
  - rewrite E. by left.
Qed.

Lemma page_start_key pre x post :
  NoDup (key_for <$> pre ++ x :: post) → key_for x ≠ "" →
  page_start (pre ++ x :: post) (Some (key_for x)) key_for = S (length pre).
Proof.
  intros Hnd Hne. unfold page_start.
  destruct (key_for x) as [|a s] eqn:E; [done|]. rewrite <- E.
  by rewrite position_key.
Qed.

(** A page is a window of the collection that starts where the token says. *)
Lemma paginate_window items page_size token page next :
  paginate_sorted_keys items page_size token key_for = (page, next) →
  page = take_N (normalize_page_size page_size)
           (drop (page_start items token key_for) items)
  ∧ match next with
    | None => len_N (drop (page_start items token key_for) items)
                <= normalize_page_size page_size
    | Some t => ∃ init x, page = init ++ [x] ∧ t = key_for x
    end
  ∧ (next = None → page = drop (page_start items token key_for) items).
Proof.
  pose proof (normalize_page_size_bounds page_size) as [Hlo _].
  unfold paginate_sorted_keys.
  set (limit := normalize_page_size page_size) in *.
  set (rest := drop _ items).
  destruct (N.eqb_spec limit 0); [lia|]. simpl.
  destruct (N.eqb_spec (len_N items) 0) as [E0|].
  { destruct items; [|unfold len_N in E0; simpl in E0; lia].
    intros [= <- <-]. subst rest. rewrite drop_nil.
    split_and!; [done|unfold len_N; simpl; lia|done]. }
  destruct (N.leb_spec (len_N rest) limit); intros [= <- <-].
  - by rewrite take_N_all.
  - assert (∃ init x, take_N limit rest = init ++ [x]) as (init & x & E).
    { destruct (last (take_N limit rest)) as [x|] eqn:El.
      - apply last_Some in El as [init ->]. eauto.
      - apply last_None in El. apply (f_equal len_N) in El.
        rewrite take_N_length in El. unfold len_N in *. simpl in El. lia. }
    rewrite E, last_snoc. simpl. split_and!; [done|eauto|done].
Qed.

(** More fuel never changes a finished walk. *)
Lemma walk_pages_fuel items page_size n m token l :
  (n <= m)%nat → walk_pages key_for items page_size n token = Some l →
  walk_pages key_for items page_size m token = Some l.
Proof.
  revert m token l. induction n as [|n IH]; intros m token l Hle; [done|].
  destruct m as [|m]; [lia|]. simpl.
  destruct (paginate_sorted_keys _ _ _ _) as [page [t|]]; [|done].
  intros (l' & Hl' & ->)%fmap_Some. by rewrite (IH m _ l') by (lia || done).
Qed.

Lemma walk_pages_from items page_size fuel pre x post :
  NoDup (key_for <$> items) → Forall (λ i, key_for i ≠ "") items →
  items = pre ++ x :: post → (length post < fuel)%nat →
  walk_pages key_for items page_size fuel (Some (key_for x)) = Some post.
Proof.
  intros Hnd Hne. revert pre x post.
  induction fuel as [|fuel IH]; intros pre x post Hitems Hfuel; [lia|]. simpl.
  destruct (paginate_sorted_keys _ _ _ _) as [page next] eqn:Ep.
  apply paginate_window in Ep as (Hpage & Hnext & Hlast).
  assert (key_for x ≠ "") as Hx.
  { rewrite Forall_forall in Hne. apply Hne. subst items. set_solver. }
  assert (drop (page_start items (Some (key_for x)) key_for) items = post) as Hdrop.
  { subst items. rewrite page_start_key by done.
    change (S (length pre)) with (1 + length pre)%nat. rewrite Nat.add_comm, <- drop_drop.
    by rewrite drop_app_length. }
  rewrite Hdrop in *. destruct next as [t|]; [|by rewrite Hlast].
  destruct Hnext as (init & y & -> & ->). rewrite take_N_take in Hpage.
  assert (post = init ++ y :: drop (N.to_nat (normalize_page_size page_size)) post) as Hpost.
  { rewrite <- (take_drop (N.to_nat (normalize_page_size page_size)) post) at 1.
    rewrite <- Hpage. by rewrite <- app_assoc. }
  rewrite (IH (pre ++ x :: init) y (drop (N.to_nat (normalize_page_size page_size)) post)).
  - simpl. f_equal. by rewrite <- app_assoc.
  - rewrite Hitems. rewrite Hpost at 1. by rewrite <- app_assoc.
  - rewrite Hpost in Hfuel. rewrite length_app in Hfuel. simpl in Hfuel. lia.
Qed.

Lemma walk_pages_complete items page_size :
  NoDup (key_for <$> items) → Forall (λ i, key_for i ≠ "") items →
  walk_pages key_for items page_size (S (length items)) None = Some items.
Proof.
  intros Hnd Hne. simpl.
  destruct (paginate_sorted_keys _ _ _ _) as [page next] eqn:Ep.
  apply paginate_window in Ep as (Hpage & Hnext & Hlast). simpl in *.
  rewrite drop_0 in *. destruct next as [t|]; [|by rewrite Hlast].
  destruct Hnext as (init & y & -> & ->). rewrite take_N_take in Hpage.
  assert (items = init ++ y :: drop (N.to_nat (normalize_page_size page_size)) items) as Hit.
  { rewrite <- (take_drop (N.to_nat (normalize_page_size page_size)) items) at 1.
    rewrite <- Hpage. by rewrite <- app_assoc. }
  rewrite (walk_pages_from items page_size _ init y
             (drop (N.to_nat (normalize_page_size page_size)) items)); [|done..|].
  - simpl. f_equal. by rewrite <- app_assoc.
  - apply (f_equal length) in Hit. rewrite length_app in Hit. simpl in Hit. lia.
Qed.
End pagination.

Section shuffle_lemmas.
Context (default_hash : N → N → N).

Lemma select_index_range l idx c t :
  select_index l idx c t = O
  ∨ (idx <= select_index l idx c t < idx + length l)%nat.
Proof.
  revert idx c. induction l as [|i l IH]; intros idx c; simpl; [by left|].
  case_match; [right; lia|].
  destruct (IH (S idx) (u64_add c (si_weight i))); [by left|right; lia].
Qed.

Lemma select_index_lookup l t :
  l ≠ [] → is_Some (l !! select_index l 0 0 t).
Proof.
  intros Hl. apply lookup_lt_is_Some.
  assert (0 < length l)%nat by (destruct l; [done|simpl; lia]).
  destruct (select_index_range l 0 0 t); lia.
Qed.

(** The loop ends within one round per instance and only reorders. *)
Lemma shuffle_loop_perm fuel result remaining :
  (length remaining <= fuel)%nat →
  ∃ l, shuffle_loop default_hash fuel result remaining = Some l
       ∧ l ≡ₚ result ++ remaining.
Proof.
  revert result remaining.
  induction fuel as [|fuel IH]; intros result remaining Hlen; simpl.
  - destruct remaining; simpl in *; [|lia]. exists result. by rewrite app_nil_r.
  - destruct remaining as [|i rem] eqn:Erem; [exists result; by rewrite app_nil_r|].
    rewrite <- Erem in *.
    destruct (N.eqb_spec (sum_weights remaining) 0); [by eauto|].
    set (t := _ mod sum_weights remaining).
    destruct (select_index_lookup remaining t) as [c Hc]; [by subst|].
    rewrite Hc.
    destruct (IH (result ++ [c]) (delete (select_index remaining 0 0 t) remaining))
      as (l & -> & Hl).
    { pose proof (length_delete remaining _ (mk_is_Some _ _ Hc)). lia. }
    exists l. split; [done|]. rewrite Hl, <- app_assoc. f_equiv. simpl.
    symmetry. by apply delete_Permutation.
Qed.

Lemma weighted_shuffle_perm l :
  weighted_shuffle_discover_instances default_hash l ≡ₚ l.
Proof.
  unfold weighted_shuffle_discover_instances. case_match; [done|].
  by destruct (shuffle_loop_perm (length l) [] l) as (l' & -> & Hl').
Qed.

(** The weights of a list, added without wrapping. *)
Definition weights (l : list ServiceInstance) : N := foldr (λ i n, si_weight i + n) 0 l.

Lemma weights_app l1 l2 : weights (l1 ++ l2) = weights l1 + weights l2.
Proof. unfold weights. induction l1 as [|i l1 IH]; simpl; [done|]. rewrite IH. lia. Qed.

Lemma weights_zero l : weights l = 0 → Forall (λ i, si_weight i = 0) l.
Proof.
  induction l as [|i l IH]; simpl; constructor; [lia|]. apply IH. simpl in *. lia.
Qed.

Lemma sum_weights_exact l : weights l <= u64_max → sum_weights l = weights l.
Proof.
  unfold sum_weights. rewrite <- (N.add_0_l (weights l)). generalize 0.
  induction l as [|i l IH]; intros c Hl; simpl in *; [lia|].
  rewrite IH by (rewrite u64_add_small; lia). rewrite u64_add_small; lia.
Qed.

(** The index picked is the one whose share of the weights holds the target. *)
Lemma select_index_spec l idx c t :
  c + weights l <= u64_max → c <= t < c + weights l →
  ∃ before i after, l = before ++ i :: after
    ∧ select_index l idx c t = (idx + length before)%nat
    ∧ c + weights before <= t < c + weights before + si_weight i.
Proof.
  revert idx c. induction l as [|i l IH]; intros idx c Hmax Ht; simpl in *; [lia|].
  rewrite u64_add_small by lia. destruct (N.ltb_spec t (c + si_weight i)).
  - exists [], i, l. simpl. split_and!; [done|lia..].
  - destruct (IH (S idx) (c + si_weight i)) as (before & j & after & -> & -> & Hj); [lia..|].
    exists (i :: before), j, after. simpl. split_and!; [done|lia..].
Qed.

(** Drawing without replacement: each draw hashes how many candidates are left and
    how many were drawn, and takes the candidate whose share of the remaining weight
    holds the hash; candidates without weight keep their order at the end. *)
Inductive drawn : N → list ServiceInstance → list ServiceInstance → Prop :=
| drawn_rest n l : weights l = 0 → drawn n l l
| drawn_next n before i after l :
    let left := before ++ i :: after in
    weights before <= default_hash (len_N left) n mod weights left
                   < weights before + si_weight i →
    drawn (n + 1) (before ++ after) l → drawn n left (i :: l).

Lemma shuffle_loop_drawn fuel result remaining :
  (length remaining <= fuel)%nat → weights remaining <= u64_max →
  ∃ l, shuffle_loop default_hash fuel result remaining = Some (result ++ l)
       ∧ drawn (len_N result) remaining l.
Proof.
  revert result remaining.
  induction fuel as [|fuel IH]; intros result remaining Hlen Hmax; simpl.
  - destruct remaining; simpl in *; [|lia]. exists []. rewrite app_nil_r.
    split; [done|by constructor].
  - destruct remaining as [|j rem] eqn:Erem.
    { exists []. rewrite app_nil_r. split; [done|by constructor]. }
    rewrite <- Erem in *. rewrite sum_weights_exact by done.
    destruct (N.eqb_spec (weights remaining) 0); [exists remaining; split; [done|by constructor]|].
    destruct (select_index_spec remaining 0 0
      (default_hash (len_N remaining) (len_N result) mod weights remaining))
      as (before & i & after & El & -> & Hi);
      [lia|split; [apply N.le_0_l|rewrite N.add_0_l; by apply N.mod_lt]|].
    rewrite El in Hlen, Hmax, Hi |- *. simpl (0 + _)%nat. rewrite list_lookup_middle by done.
    rewrite delete_middle. rewrite length_app in Hlen. rewrite weights_app in Hmax. simpl in *.
    destruct (IH (result ++ [i]) (before ++ after)) as (l & -> & Hl).
    + rewrite length_app. lia.
    + rewrite weights_app. lia.
    + exists (i :: l). rewrite <- app_assoc. split; [done|]. constructor; [done|].
      revert Hl. unfold len_N. rewrite length_app, Nat2N.inj_add. done.
Qed.

Lemma weighted_shuffle_drawn l :
  weights l <= u64_max → drawn 0 l (weighted_shuffle_discover_instances default_hash l).
Proof.
  intros Hmax. unfold weighted_shuffle_discover_instances. rewrite sum_weights_exact by done.
  destruct (N.eqb_spec (weights l) 0); [by constructor|].
  by destruct (shuffle_loop_drawn (length l) [] l) as (l' & -> & Hl').
Qed.

(** Candidates with weight come first. *)
Lemma drawn_weighted_first n l l' :
  drawn n l l' → ∃ heavy light, l' = heavy ++ light
    ∧ Forall (λ i, 0 < si_weight i) heavy ∧ Forall (λ i, si_weight i = 0) light.
Proof.
  induction 1 as [n l Hl|n before i after l left Hi _ (heavy & light & -> & Hh & Hz)].
  - exists [], l. split_and!; [done|done|by apply weights_zero].
  - exists (i :: heavy), light. split_and!; [done| |done]. constructor; [lia|done].
Qed.
End shuffle_lemmas.

#[global] Typeclasses Opaque by_instance_id by_weight_desc by_service_name sort_order.

#[export] Instance by_instance_id_total : TotalCmp by_instance_id.
Proof. unfold by_instance_id. apply _. Qed.

#[export] Instance by_weight_desc_total : TotalCmp by_weight_desc.
Proof. unfold by_weight_desc. apply _. Qed.

#[export] Instance by_service_name_total : TotalCmp by_service_name.
Proof. unfold by_service_name. apply _. Qed.

#[export] Instance sort_order_total s : TotalCmp (sort_order s).
Proof. destruct s; simpl; apply _. Qed.

(** Outside the weighted random order, instances that compare equal carry the
    same instance id. *)
Lemma sort_order_eq_id s x y :
  s ≠ WeightedRandom → sort_order s x y = Eq → si_instance_id x = si_instance_id y.
Proof.
  intros Hs. destruct s; simpl; unfold then_with, by_instance_id, cmp_on; try done.
  - apply String.compare_eq_iff.
  - repeat (case_match; try done). apply String.compare_eq_iff.
  - case_match; try done. apply String.compare_eq_iff.
Qed.

(** The instances a query selects after its label filters, in its sort order. *)
Definition selected (query : DiscoverInstancesQuery) (instances : list ServiceInstance)
    : list ServiceInstance :=
  sort_by (sort_order (default ByInstanceId (dq_sort_by query)))
    (retain (λ i, forallb (λ f, label_matches f (si_metadata i)) (dq_label_filters query))
       instances).

Lemma finalize_discover_pages h instances q revision :
  default ByInstanceId (dq_sort_by q) ≠ WeightedRandom →
  finalize_discover_instances h instances q revision =
    let '(page, next) := paginate_sorted_keys (selected q instances) (dq_page_size q)
                           (dq_page_token q) si_instance_id in
    {| di_revision := revision; di_instances := page; di_next_page_token := next |}.
Proof.
  intros Hs. unfold finalize_discover_instances, selected.
  destruct (default ByInstanceId (dq_sort_by q)); done.
Qed.

Lemma selected_perm_eq q l1 l2 :
  default ByInstanceId (dq_sort_by q) ≠ WeightedRandom →
  NoDup (si_instance_id <$> l1) → l1 ≡ₚ l2 → selected q l1 = selected q l2.
Proof.
  intros Hs Hnd Hp. unfold selected. apply sort_by_perm_eq; [apply _| |by apply retain_perm].
  intros x y [_ Hx]%elem_of_retain [_ Hy]%elem_of_retain E.
  eapply (NoDup_fmap_inj_on si_instance_id l1); [done..|]. by eapply sort_order_eq_id.
Qed.

Lemma elem_of_selected q l x :
  x ∈ selected q l ↔
  x ∈ l ∧ ∀ f, f ∈ dq_label_filters q → label_matches f (si_metadata x) = true.
Proof.
  unfold selected. rewrite elem_of_sort_by, elem_of_retain, forallb_forall.
  setoid_rewrite list_elem_of_In. naive_solver.
Qed.

Lemma selected_sorted q l :
  StronglySorted (cmp_le (sort_order (default ByInstanceId (dq_sort_by q)))) (selected q l).
Proof. apply sort_by_sorted, _. Qed.

Lemma NoDup_selected q l :
  NoDup (si_instance_id <$> l) → NoDup (si_instance_id <$> selected q l).
Proof.
  unfold selected. rewrite sort_by_perm. apply NoDup_fmap_sublist, retain_sublist.
Qed.
