(* ===== verification/StorageContract.v ===== *)
(** * Storage contract (crates/sdkwork-discovery-storage-contract)

    The three traits a backend implements, as classes over the backend's state
    type.  Methods on [&mut self] are state-passing operations, methods on
    [&self] are functions of the state.  The control plane and
    the actor are written against these classes; [MemoryInstance] gives the
    in-memory backend as an instance. *)
From S2P Require Import Prelude RustStr Collections Contract.

Class RegistryStore (S : Type) : Type := {
  store_current_revision : S → DiscoveryResult N;
  store_register_instance : RegisterInstanceCommand → Op S RegisterInstanceResult;
  store_batch_register_instances :
    list RegisterInstanceCommand → Op S BatchRegisterResult;
  store_renew_lease : RenewLeaseCommand → Op S RenewLeaseResult;
  store_report_instance_status :
    ReportInstanceStatusCommand → Op S ReportInstanceStatusResult;
  store_deregister_instance :
    string → string → string → string → N → Op S DeregisterInstanceResult;
  store_batch_deregister_instances :
    string → string → string → list string → N → Op S (list DeregisterInstanceResult);
  store_expire_instances : N → N → Op S (list DeregisterInstanceResult);
  store_discover_instances :
    DiscoverInstancesQuery → N → S → DiscoveryResult DiscoverInstancesResult;
  store_retrieve_instance :
    RetrieveInstanceQuery → N → S → DiscoveryResult (option ServiceInstance);
  store_list_services : ListServicesQuery → N → S → DiscoveryResult ListServicesResult;
  store_list_active_instances_with_health_check :
    N → S → DiscoveryResult (list ServiceInstance);
  store_update_health_check_state :
    string → string → string → string → HealthCheckRuntimeState → Op S ();
}.

Class ConfigStore (S : Type) : Type := {
  store_create_config_draft : CreateConfigDraftCommand → Op S ConfigDraft;
  store_publish_config : PublishConfigCommand → Op S ConfigRelease;
  store_rollback_config : RollbackConfigCommand → Op S ConfigRelease;
  store_retrieve_effective_config :
    RetrieveEffectiveConfigQuery → S → DiscoveryResult EffectiveConfig;
}.

Class WatchEventStore (S : Type) : Type := {
  store_watch_events : WatchEventsQuery → S → DiscoveryResult (list DiscoveryEvent);
  store_gc_watch_events : N → N → Op S N;
  store_compact_watch_events : string → string → N → Op S N;
}.
