(* ===== verification/MemoryStore.v ===== *)
(** * The in-memory store: state and invariant (storage-memory: store.rs, validation.rs)

    [MemoryDiscoveryStore] with its counters, and the well-formedness
    invariant the operations of [MemoryRegistry], [MemoryConfig] and
    [MemoryWatch] preserve. *)
From S2P Require Import Prelude RustStr Collections Contract.

(** ** State (store.rs) *)

Record InstanceKey : Type := {
  ik_namespace : string;
  ik_environment : string;
  ik_service_name : string;
  ik_instance_id : string;
}.

#[export] Instance InstanceKey_eq_dec : EqDecision InstanceKey.
Proof. solve_decision. Defined.
#[export] Program Instance InstanceKey_countable : Countable InstanceKey :=
  inj_countable' (λ k, (ik_namespace k, ik_environment k, ik_service_name k, ik_instance_id k))
    (λ '(n, e, s, i), {| ik_namespace := n; ik_environment := e;
                         ik_service_name := s; ik_instance_id := i |}) _.
Next Obligation. by intros []. Qed.

Record IdempotencyKey : Type := {
  idk_operation_id : string;
  idk_key : string;
}.

#[export] Instance IdempotencyKey_eq_dec : EqDecision IdempotencyKey.
Proof. solve_decision. Defined.
#[export] Program Instance IdempotencyKey_countable : Countable IdempotencyKey :=
  inj_countable' (λ k, (idk_operation_id k, idk_key k))
    (λ '(o, k), {| idk_operation_id := o; idk_key := k |}) _.
Next Obligation. by intros []. Qed.

Record IdempotencyRecord : Type := {
  idr_request_hash : string;
  idr_resource_id : string;
}.

Record MemoryDiscoveryStore : Type := {
  revision : N;
  next_sequence : N;
  instances : gmap InstanceKey ServiceInstance;
  lease_index : gmap string InstanceKey;
  drafts : gmap string ConfigDraft;
  releases : list ConfigRelease;
  events : list DiscoveryEvent;
  idempotency : gmap IdempotencyKey IdempotencyRecord;
}.

(** [MemoryDiscoveryStore::new]. *)
Definition new_store : MemoryDiscoveryStore :=
  {| revision := 0; next_sequence := 0; instances := ∅; lease_index := ∅;
     drafts := ∅; releases := []; events := []; idempotency := ∅ |}.

(** Assignments to one field. *)
Definition set_revision (r : N) (s : MemoryDiscoveryStore) : MemoryDiscoveryStore :=
  {| revision := r; next_sequence := next_sequence s; instances := instances s;
     lease_index := lease_index s; drafts := drafts s; releases := releases s;
     events := events s; idempotency := idempotency s |}.
Definition set_next_sequence (n : N) (s : MemoryDiscoveryStore) : MemoryDiscoveryStore :=
  {| revision := revision s; next_sequence := n; instances := instances s;
     lease_index := lease_index s; drafts := drafts s; releases := releases s;
     events := events s; idempotency := idempotency s |}.
Definition set_instances (m : gmap InstanceKey ServiceInstance) (s : MemoryDiscoveryStore)
    : MemoryDiscoveryStore :=
  {| revision := revision s; next_sequence := next_sequence s; instances := m;
     lease_index := lease_index s; drafts := drafts s; releases := releases s;
     events := events s; idempotency := idempotency s |}.
Definition set_lease_index (m : gmap string InstanceKey) (s : MemoryDiscoveryStore)
    : MemoryDiscoveryStore :=
  {| revision := revision s; next_sequence := next_sequence s; instances := instances s;
     lease_index := m; drafts := drafts s; releases := releases s;
     events := events s; idempotency := idempotency s |}.
Definition set_drafts (m : gmap string ConfigDraft) (s : MemoryDiscoveryStore)
    : MemoryDiscoveryStore :=
  {| revision := revision s; next_sequence := next_sequence s; instances := instances s;
     lease_index := lease_index s; drafts := m; releases := releases s;
     events := events s; idempotency := idempotency s |}.
Definition set_releases (l : list ConfigRelease) (s : MemoryDiscoveryStore)
    : MemoryDiscoveryStore :=
  {| revision := revision s; next_sequence := next_sequence s; instances := instances s;
     lease_index := lease_index s; drafts := drafts s; releases := l;
     events := events s; idempotency := idempotency s |}.
Definition set_events (l : list DiscoveryEvent) (s : MemoryDiscoveryStore)
    : MemoryDiscoveryStore :=
  {| revision := revision s; next_sequence := next_sequence s; instances := instances s;
     lease_index := lease_index s; drafts := drafts s; releases := releases s;
     events := l; idempotency := idempotency s |}.
Definition set_idempotency (m : gmap IdempotencyKey IdempotencyRecord)
    (s : MemoryDiscoveryStore) : MemoryDiscoveryStore :=
  {| revision := revision s; next_sequence := next_sequence s; instances := instances s;
     lease_index := lease_index s; drafts := drafts s; releases := releases s;
     events := events s; idempotency := m |}.

Definition push_event (e : DiscoveryEvent) (s : MemoryDiscoveryStore) : MemoryDiscoveryStore :=
  set_events (events s ++ [e]) s.

Definition current_revision (s : MemoryDiscoveryStore) : N := revision s.

Definition next_revision : Op MemoryDiscoveryStore N := λ s,
  let r := u64_succ (revision s) in (set_revision r s, Ok r).

Definition next_id (prefix : string) : Op MemoryDiscoveryStore string := λ s,
  let n := u64_succ (next_sequence s) in
  (set_next_sequence n s, Ok (prefix +:+ "-" +:+ show_N n)).

(** ** Validation (validation.rs) *)

Definition validate_non_empty (field value : string) : DiscoveryResult () :=
  if is_blank value then Err (InvalidArgument (field +:+ " must not be empty")) else Ok ().

Definition validate_optional_filter (field : string) (value : option string)
    : DiscoveryResult () :=
  match value with
  | Some value => validate_non_empty field value
  | None => Ok ()
  end.

Lemma validate_non_empty_Ok field value u :
  validate_non_empty field value = Ok u ↔ is_blank value = false.
Proof. unfold validate_non_empty. destruct u, (is_blank value); naive_solver. Qed.

(** ** Generated identifiers *)

Definition id_of (prefix : string) (n : N) : string := prefix +:+ "-" +:+ show_N n.

Lemma id_of_inj prefix n m : id_of prefix n = id_of prefix m → n = m.
Proof.
  unfold id_of. intros E%string_app_inj_l%string_app_inj_l. by apply show_N_inj.
Qed.


(** ** The invariant *)

Definition key_of (i : ServiceInstance) : InstanceKey :=
  {| ik_namespace := si_namespace i; ik_environment := si_environment i;
     ik_service_name := si_service_name i; ik_instance_id := si_instance_id i |}.

(** The instance the answer to a removal is about. *)
Definition result_key (r : DeregisterInstanceResult) : InstanceKey :=
  {| ik_namespace := dr_namespace r; ik_environment := dr_environment r;
     ik_service_name := dr_service_name r; ik_instance_id := dr_instance_id r |}.

(** No part of the identity of an instance is blank. *)
Definition key_named (k : InstanceKey) : Prop :=
  is_blank (ik_instance_id k) = false ∧ is_blank (ik_service_name k) = false
  ∧ is_blank (ik_namespace k) = false ∧ is_blank (ik_environment k) = false.

(** The registry part, relative to the sequence and revision counters.  A lease
    in the index leads to the instance that holds it, and two instances never
    hold the same lease. *)
Record registry_wf (seq rev : N) (insts : gmap InstanceKey ServiceInstance)
    (idx : gmap string InstanceKey) : Prop := {
  rw_key k i : insts !! k = Some i → key_of i = k;
  rw_named k i : insts !! k = Some i → key_named k;
  rw_lease k i : insts !! k = Some i → ∃ n, n <= seq ∧ si_lease_id i = id_of "lease" n;
  rw_rev k i : insts !! k = Some i → si_revision i <= rev;
  rw_index l k : idx !! l = Some k → ∃ i, insts !! k = Some i ∧ si_lease_id i = l;
  rw_unique k1 k2 i1 i2 :
    insts !! k1 = Some i1 → insts !! k2 = Some i2 →
    si_lease_id i1 = si_lease_id i2 → k1 = k2;
}.

(** What a release copies from the draft it publishes. *)
Definition release_of (d : ConfigDraft) (r : ConfigRelease) : Prop :=
  cr_draft_id r = cd_draft_id d ∧ cr_namespace r = cd_namespace d
  ∧ cr_environment r = cd_environment d ∧ cr_group r = cd_group d
  ∧ cr_key r = cd_key d ∧ cr_format r = cd_format d ∧ cr_value r = cd_value d
  ∧ cr_scope r = cd_scope d ∧ cr_content_hash r = cd_content_hash d.

(** The config part.  Releases are ordered by revision, carry the content of a
    published draft, and every recorded idempotency key has a target. *)
Record config_wf (seq rev : N) (ds : gmap string ConfigDraft) (rs : list ConfigRelease)
    (idem : gmap IdempotencyKey IdempotencyRecord) : Prop := {
  cw_draft d x : ds !! d = Some x → cd_draft_id x = d ∧ ∃ n, n <= seq ∧ d = id_of "draft" n;
  cw_release_id r : r ∈ rs → ∃ n, n <= seq ∧ cr_release_id r = id_of "release" n;
  cw_release_nodup : NoDup (cr_release_id <$> rs);
  cw_release_sorted : StronglySorted (λ a b, cr_revision a < cr_revision b) rs;
  cw_release_rev r : r ∈ rs → cr_revision r <= rev;
  cw_release_draft r : r ∈ rs →
    ∃ d, ds !! cr_draft_id r = Some d ∧ cd_published d = true ∧ release_of d r;
  cw_published d x : ds !! d = Some x → cd_published x = true →
    ∃ r, r ∈ rs ∧ cr_draft_id r = d;
  cw_idem k rec : idem !! k = Some rec →
    is_Some (ds !! idr_resource_id rec)
    ∨ ∃ r, r ∈ rs ∧ cr_release_id r = idr_resource_id rec;
}.

(** The event log: strictly increasing revisions, none ahead of the counter. *)
Record events_wf (rev : N) (es : list DiscoveryEvent) : Prop := {
  ew_sorted : StronglySorted (λ a b, de_revision a < de_revision b) es;
  ew_rev e : e ∈ es → de_revision e <= rev;
}.

Record store_wf (s : MemoryDiscoveryStore) : Prop := {
  wf_registry : registry_wf (next_sequence s) (revision s) (instances s) (lease_index s);
  wf_config : config_wf (next_sequence s) (revision s) (drafts s) (releases s) (idempotency s);
  wf_events : events_wf (revision s) (events s);
}.

(** Room for [n] more revisions and identifiers before a counter wraps. *)
Definition headroom (n : N) (s : MemoryDiscoveryStore) : Prop :=
  revision s + n <= u64_max ∧ next_sequence s + n <= u64_max.

#[export] Instance headroom_dec n s : Decision (headroom n s).
Proof. unfold headroom. apply _. Defined.

Lemma registry_wf_mono seq seq' rev rev' insts idx :
  seq <= seq' → rev <= rev' →
  registry_wf seq rev insts idx → registry_wf seq' rev' insts idx.
Proof.
  intros Hs Hr []. split; try done.
  - intros k i Hk. destruct (rw_lease0 k i Hk) as (n & ? & ?). exists n. split; [lia|done].
  - intros k i Hk. specialize (rw_rev0 k i Hk). lia.
Qed.

Lemma config_wf_mono seq seq' rev rev' ds rs idem :
  seq <= seq' → rev <= rev' →
  config_wf seq rev ds rs idem → config_wf seq' rev' ds rs idem.
Proof.
  intros Hs Hr []. split; try done.
  - intros d x Hd. destruct (cw_draft0 d x Hd) as (? & n & ? & ?).
    split; [done|]. exists n. split; [lia|done].
  - intros r Hin. destruct (cw_release_id0 r Hin) as (n & ? & ?). exists n. split; [lia|done].
  - intros r Hin. specialize (cw_release_rev0 r Hin). lia.
Qed.

Lemma events_wf_mono rev rev' es : rev <= rev' → events_wf rev es → events_wf rev' es.
Proof. intros Hr []. split; [done|]. intros e He. specialize (ew_rev0 e He). lia. Qed.

Lemma events_wf_push rev rev' es e :
  events_wf rev es → rev < de_revision e → de_revision e <= rev' →
  events_wf rev' (es ++ [e]).
Proof.
  intros [Hsort Hrev] Hlt Hle. split.
  - apply StronglySorted_snoc; [done|]. apply Forall_forall.
    intros x Hx. specialize (Hrev x Hx). lia.
  - intros x [Hx| ->%list_elem_of_singleton]%elem_of_app; [|done].
    specialize (Hrev x Hx). lia.
Qed.

Lemma events_wf_sublist rev es es' : es' `sublist_of` es → events_wf rev es → events_wf rev es'.
Proof.
  intros Hsub [Hs Hr]. split; [|intros e He; apply Hr; by eapply elem_of_sublist].
  clear Hr. induction Hsub as [|x l1 l2 Hsub IH|x l1 l2 Hsub IH]; [constructor| |].
  - apply StronglySorted_inv in Hs as [Hs Hall]. constructor; [by apply IH|].
    rewrite Forall_forall in *. intros y Hy. apply Hall. by eapply elem_of_sublist.
  - apply StronglySorted_inv in Hs as [Hs _]. by apply IH.
Qed.

Lemma store_wf_new : store_wf new_store.
Proof.
  split; [split|split|split]; try done; try (intros; by apply elem_of_nil in H || set_solver);
    try constructor; set_solver.
Qed.
