(* ===== verification/MemoryRegistry.v ===== *)
(** * The in-memory registry (storage-memory: registry.rs)

    Every method of [impl RegistryStore for MemoryDiscoveryStore], in the order
    of the source, followed by the theorems about them. *)
From S2P Require Import Prelude RustStr Collections Contract Discover MemoryStore.

(** ** Operations *)

Definition lease_expires_at_ms (now_ms lease_ttl_seconds : N) : DiscoveryResult N :=
  ttl_ms ← ok_or (checked_mul lease_ttl_seconds 1000)
             (InvalidArgument "lease ttl overflows milliseconds");
  ok_or (checked_add now_ms ttl_ms) (InvalidArgument "lease expiration overflows").

(** The field checks at the start of [register_instance]. *)
Definition register_checks (command : RegisterInstanceCommand) : DiscoveryResult () :=
  validate_non_empty "namespace" (rc_namespace command);;
  validate_non_empty "environment" (rc_environment command);;
  validate_non_empty "service_name" (rc_service_name command);;
  validate_non_empty "instance_id" (rc_instance_id command);;
  validate_non_empty "endpoint" (rc_endpoint command);;
  validate_non_empty "protocol" (rc_protocol command);;
  validate_non_empty "version" (rc_version command);;
  validate_non_empty "region" (rc_region command);;
  validate_non_empty "zone" (rc_zone command);;
  if rc_lease_ttl_seconds command =? 0
  then Err (InvalidArgument "lease ttl must be greater than zero")
  else Ok ().

Definition register_key (command : RegisterInstanceCommand) : InstanceKey :=
  {| ik_namespace := rc_namespace command; ik_environment := rc_environment command;
     ik_service_name := rc_service_name command; ik_instance_id := rc_instance_id command |}.

Definition revision_conflict (expected found : N) : DiscoveryError :=
  Conflict ("expected revision " +:+ show_N expected +:+ " but found " +:+ show_N found).

(** The compare-and-set check of [register_instance], where a missing instance
    never conflicts, and of [report_instance_status], where one is at hand. *)
Definition cas_check (expected_revision : option N) (existing : option ServiceInstance)
    : DiscoveryResult () :=
  match expected_revision, existing with
  | Some expected, Some i =>
      if negb (si_revision i =? expected)
      then Err (revision_conflict expected (si_revision i)) else Ok ()
  | _, _ => Ok ()
  end.

Definition instance_event (kind : DiscoveryEventKind) (revision : N)
    (namespace environment service_name instance_id : string) : DiscoveryEvent :=
  {| de_revision := revision; de_namespace := namespace; de_environment := environment;
     de_kind := kind; de_resource_id := instance_id; de_service_name := Some service_name;
     de_config_group := None; de_config_key := None; de_config_application := None |}.

Definition registered_instance (command : RegisterInstanceCommand) (lease_id : string)
    (expires_at_ms revision : N) : ServiceInstance :=
  {| si_namespace := rc_namespace command; si_environment := rc_environment command;
     si_service_name := rc_service_name command; si_instance_id := rc_instance_id command;
     si_endpoint := rc_endpoint command; si_protocol := rc_protocol command;
     si_version := rc_version command; si_region := rc_region command;
     si_zone := rc_zone command; si_weight := rc_weight command;
     si_priority := rc_priority command; si_status := rc_status command;
     si_metadata := rc_metadata command; si_lease_id := lease_id;
     si_expires_at_ms := expires_at_ms; si_revision := revision;
     si_health_check := rc_health_check command;
     si_health_check_state := default_health_state |}.

(** The lease an unexpired registration keeps. *)
Definition live_lease (existing : option ServiceInstance) (now_ms : N) : option string :=
  i ← existing; if now_ms <? si_expires_at_ms i then Some (si_lease_id i) else None.

(** Replacing the entry of [key]: the index forgets a lease it supersedes. *)
Definition install_instance (key : InstanceKey) (lease_id : string) (i : ServiceInstance)
    (s : MemoryDiscoveryStore) : MemoryDiscoveryStore :=
  let idx := match instances s !! key with
             | Some previous =>
                 if negb (bool_decide (si_lease_id previous = lease_id))
                 then delete (si_lease_id previous) (lease_index s) else lease_index s
             | None => lease_index s
             end in
  set_instances (<[key := i]> (instances s)) (set_lease_index (<[lease_id := key]> idx) s).

Definition register_instance (command : RegisterInstanceCommand)
    : Op MemoryDiscoveryStore RegisterInstanceResult :=
  lift (register_checks command);;
  let key := register_key command in
  existing ← gets (λ s, instances s !! key);
  lift (cas_check (rc_expected_revision command) existing);;
  let existing_lease_id := live_lease existing (rc_now_ms command) in
  lease_id ← match existing_lease_id with
             | Some l => mret l
             | None => next_id "lease"
             end;
  revision ← next_revision;
  expires_at_ms ← lift (if rc_persistent command then Ok u64_max
                        else lease_expires_at_ms (rc_now_ms command)
                               (rc_lease_ttl_seconds command));
  modify (install_instance key lease_id
            (registered_instance command lease_id expires_at_ms revision));;
  modify (push_event (instance_event
            (if bool_decide (is_Some existing_lease_id) then InstanceUpdated
             else InstanceRegistered) revision
            (rc_namespace command) (rc_environment command) (rc_service_name command)
            (rc_instance_id command)));;
  mret {| rr_lease_id := lease_id; rr_namespace := rc_namespace command;
          rr_environment := rc_environment command;
          rr_service_name := rc_service_name command;
          rr_instance_id := rc_instance_id command; rr_revision := revision;
          rr_expires_at_ms := expires_at_ms |}.

(** The loop of [batch_register_instances]; [index] is the position in the batch. *)
Fixpoint batch_register_loop (index : N) (commands : list RegisterInstanceCommand)
    (s : MemoryDiscoveryStore) : MemoryDiscoveryStore * BatchRegisterResult :=
  match commands with
  | [] => (s, {| br_results := []; br_errors := [] |})
  | command :: commands =>
      let '(s1, r) := register_instance command s in
      let '(s2, rest) := batch_register_loop (index + 1) commands s1 in
      (s2, match r with
           | Ok result => {| br_results := result :: br_results rest;
                             br_errors := br_errors rest |}
           | Err e => {| br_results := br_results rest;
                         br_errors := {| be_index := index; be_error_code := kind_string e;
                                         be_error_message := error_to_string e |}
                                      :: br_errors rest |}
           end)
  end.

Definition batch_register_instances (commands : list RegisterInstanceCommand)
    : Op MemoryDiscoveryStore BatchRegisterResult := λ s,
  let '(s', r) := batch_register_loop 0 commands s in (s', Ok r).

Definition set_lease (expires_at_ms revision : N) (i : ServiceInstance) : ServiceInstance :=
  {| si_namespace := si_namespace i; si_environment := si_environment i;
     si_service_name := si_service_name i; si_instance_id := si_instance_id i;
     si_endpoint := si_endpoint i; si_protocol := si_protocol i; si_version := si_version i;
     si_region := si_region i; si_zone := si_zone i; si_weight := si_weight i;
     si_priority := si_priority i; si_status := si_status i; si_metadata := si_metadata i;
     si_lease_id := si_lease_id i; si_expires_at_ms := expires_at_ms;
     si_revision := revision; si_health_check := si_health_check i;
     si_health_check_state := si_health_check_state i |}.

Definition renew_lease (command : RenewLeaseCommand)
    : Op MemoryDiscoveryStore RenewLeaseResult :=
  lift (validate_non_empty "lease_id" (lc_lease_id command));;
  lift (if lc_lease_ttl_seconds command =? 0
        then Err (InvalidArgument "lease ttl must be greater than zero") else Ok ());;
  found ← gets (λ s, lease_index s !! lc_lease_id command);
  key ← lift (ok_or found (NotFound "lease not found"));
  expires_at_ms ← lift (lease_expires_at_ms (lc_now_ms command) (lc_lease_ttl_seconds command));
  current ← gets (λ s, instances s !! key);
  instance ← lift (ok_or current (NotFound "instance not found"));
  if si_expires_at_ms instance <=? lc_now_ms command then
    modify (λ s, set_lease_index (delete (lc_lease_id command) (lease_index s)) s);;
    fail (NotFound "lease not found")
  else
    revision ← next_revision;
    modify (λ s, set_instances (<[key := set_lease expires_at_ms revision instance]>
                                  (instances s)) s);;
    modify (push_event (instance_event InstanceRenewed revision (si_namespace instance)
              (si_environment instance) (si_service_name instance)
              (si_instance_id instance)));;
    mret {| lr_lease_id := lc_lease_id command; lr_namespace := si_namespace instance;
            lr_environment := si_environment instance;
            lr_service_name := si_service_name instance;
            lr_instance_id := si_instance_id instance; lr_revision := revision;
            lr_expires_at_ms := expires_at_ms |}.

Definition set_status (status : InstanceStatus) (revision : N) (i : ServiceInstance)
    : ServiceInstance :=
  {| si_namespace := si_namespace i; si_environment := si_environment i;
     si_service_name := si_service_name i; si_instance_id := si_instance_id i;
     si_endpoint := si_endpoint i; si_protocol := si_protocol i; si_version := si_version i;
     si_region := si_region i; si_zone := si_zone i; si_weight := si_weight i;
     si_priority := si_priority i; si_status := status; si_metadata := si_metadata i;
     si_lease_id := si_lease_id i; si_expires_at_ms := si_expires_at_ms i;
     si_revision := revision; si_health_check := si_health_check i;
     si_health_check_state := si_health_check_state i |}.

Definition report_instance_status (command : ReportInstanceStatusCommand)
    : Op MemoryDiscoveryStore ReportInstanceStatusResult :=
  lift (validate_non_empty "namespace" (sc_namespace command));;
  lift (validate_non_empty "environment" (sc_environment command));;
  lift (validate_non_empty "service_name" (sc_service_name command));;
  lift (validate_non_empty "instance_id" (sc_instance_id command));;
  let key := {| ik_namespace := sc_namespace command; ik_environment := sc_environment command;
                ik_service_name := sc_service_name command;
                ik_instance_id := sc_instance_id command |} in
  current ← gets (λ s, instances s !! key);
  instance ← lift (ok_or current (NotFound "instance not found"));
  lift (if si_expires_at_ms instance <=? sc_now_ms command
        then Err (NotFound "instance not found") else Ok ());;
  lift (cas_check (sc_expected_revision command) (Some instance));;
  revision ← next_revision;
  modify (λ s, set_instances (<[key := set_status (sc_status command) revision instance]>
                                (instances s)) s);;
  modify (push_event (instance_event InstanceStatusReported revision (si_namespace instance)
            (si_environment instance) (si_service_name instance) (si_instance_id instance)));;
  mret {| sr_revision := revision; sr_status := sc_status command |}.

Definition not_deregistered (namespace environment service_name instance_id : string)
    : DeregisterInstanceResult :=
  {| dr_namespace := namespace; dr_environment := environment;
     dr_service_name := service_name; dr_instance_id := instance_id;
     dr_revision := 0; dr_deregistered := false |}.

(** Removing an instance that is present: the entry, its lease, a new revision
    and the event.  [deregister_instance] and [expire_instances] both do this. *)
Definition remove_instance (key : InstanceKey) (instance : ServiceInstance)
    : Op MemoryDiscoveryStore DeregisterInstanceResult :=
  modify (λ s, set_instances (delete key (instances s)) s);;
  modify (λ s, set_lease_index (delete (si_lease_id instance) (lease_index s)) s);;
  revision ← next_revision;
  modify (push_event (instance_event InstanceDeregistered revision (si_namespace instance)
            (si_environment instance) (si_service_name instance) (si_instance_id instance)));;
  mret {| dr_namespace := si_namespace instance; dr_environment := si_environment instance;
          dr_service_name := si_service_name instance;
          dr_instance_id := si_instance_id instance; dr_revision := revision;
          dr_deregistered := true |}.

Definition deregister_instance (namespace environment service_name instance_id : string)
    (now_ms : N) : Op MemoryDiscoveryStore DeregisterInstanceResult :=
  lift (validate_non_empty "namespace" namespace);;
  lift (validate_non_empty "environment" environment);;
  lift (validate_non_empty "service_name" service_name);;
  lift (validate_non_empty "instance_id" instance_id);;
  let key := {| ik_namespace := namespace; ik_environment := environment;
                ik_service_name := service_name; ik_instance_id := instance_id |} in
  current_instance ← gets (λ s, instances s !! key);
  if is_none_or current_instance (λ i, si_expires_at_ms i <=? now_ms)
  then mret (not_deregistered namespace environment service_name instance_id)
  else match current_instance with
       | Some instance => remove_instance key instance
       | None => mret (not_deregistered namespace environment service_name instance_id)
       end.

Fixpoint batch_deregister_instances (namespace environment service_name : string)
    (instance_ids : list string) (now_ms : N)
    : Op MemoryDiscoveryStore (list DeregisterInstanceResult) :=
  match instance_ids with
  | [] => mret []
  | instance_id :: instance_ids =>
      result ← deregister_instance namespace environment service_name instance_id now_ms;
      results ← batch_deregister_instances namespace environment service_name
                  instance_ids now_ms;
      mret (result :: results)
  end.

(** [(namespace, environment, service_name, instance_id)] in tuple order. *)
Definition key_order : InstanceKey → InstanceKey → comparison :=
  then_with (cmp_on ik_namespace String.compare)
    (then_with (cmp_on ik_environment String.compare)
       (then_with (cmp_on ik_service_name String.compare)
          (cmp_on ik_instance_id String.compare))).

Fixpoint expire_loop (keys : list InstanceKey)
    : Op MemoryDiscoveryStore (list DeregisterInstanceResult) :=
  match keys with
  | [] => mret []
  | key :: keys =>
      current ← gets (λ s, instances s !! key);
      match current with
      | None => expire_loop keys
      | Some instance =>
          result ← remove_instance key instance;
          results ← expire_loop keys;
          mret (result :: results)
      end
  end.

Section with_hash_order.
Context `{HashOrder} (default_hash : N → N → N).

Definition expired_keys (now_ms : N) (s : MemoryDiscoveryStore) : list InstanceKey :=
  sort_by key_order
    (retain (λ '(_, i), si_expires_at_ms i <=? now_ms) (hash_iter (instances s))).*1.

Definition expire_instances (now_ms max_instances : N)
    : Op MemoryDiscoveryStore (list DeregisterInstanceResult) :=
  lift (if max_instances =? 0
        then Err (InvalidArgument "max_instances must be greater than zero") else Ok ());;
  keys ← gets (expired_keys now_ms);
  expire_loop (take_N max_instances keys).

(** The filter closure of [discover_instances]. *)
Definition discover_filter (query : DiscoverInstancesQuery) (now_ms : N)
    (i : ServiceInstance) : bool :=
  bool_decide (si_namespace i = dq_namespace query)
  && bool_decide (si_environment i = dq_environment query)
  && bool_decide (si_service_name i = dq_service_name query)
  && is_none_or (dq_protocol query) (λ protocol, bool_decide (si_protocol i = protocol))
  && (now_ms <? si_expires_at_ms i)
  && (negb (dq_healthy_only query) || is_discoverable (si_status i)).

Definition discover_instances (query : DiscoverInstancesQuery) (now_ms : N)
    (s : MemoryDiscoveryStore) : DiscoveryResult DiscoverInstancesResult :=
  validate_non_empty "namespace" (dq_namespace query);;
  validate_non_empty "environment" (dq_environment query);;
  validate_non_empty "service_name" (dq_service_name query);;
  validate_optional_filter "protocol" (dq_protocol query);;
  let found := retain (discover_filter query now_ms) (hash_values (instances s)) in
  mret (finalize_discover_instances default_hash found query (revision s)).

Definition retrieve_instance (query : RetrieveInstanceQuery) (now_ms : N)
    (s : MemoryDiscoveryStore) : DiscoveryResult (option ServiceInstance) :=
  validate_non_empty "namespace" (rq_namespace query);;
  validate_non_empty "environment" (rq_environment query);;
  validate_non_empty "service_name" (rq_service_name query);;
  validate_non_empty "instance_id" (rq_instance_id query);;
  let key := {| ik_namespace := rq_namespace query; ik_environment := rq_environment query;
                ik_service_name := rq_service_name query;
                ik_instance_id := rq_instance_id query |} in
  mret (i ← instances s !! key; if now_ms <? si_expires_at_ms i then Some i else None).

(** One turn of the [for] loop of [list_services]. *)
Definition count_instance (now_ms : N) (services : gmap string ServiceSummary)
    (i : ServiceInstance) : gmap string ServiceSummary :=
  if si_expires_at_ms i <=? now_ms then services
  else
    let summary := default {| ss_namespace := si_namespace i;
                              ss_environment := si_environment i;
                              ss_service_name := si_service_name i;
                              ss_active_instance_count := 0; ss_latest_revision := 0 |}
                     (services !! si_service_name i) in
    <[si_service_name i :=
        {| ss_namespace := ss_namespace summary; ss_environment := ss_environment summary;
           ss_service_name := ss_service_name summary;
           ss_active_instance_count := u64_succ (ss_active_instance_count summary);
           ss_latest_revision := N.max (ss_latest_revision summary) (si_revision i) |}]>
      services.

Definition list_services (query : ListServicesQuery) (now_ms : N)
    (s : MemoryDiscoveryStore) : DiscoveryResult ListServicesResult :=
  validate_non_empty "namespace" (lq_namespace query);;
  validate_non_empty "environment" (lq_environment query);;
  let matching := retain (λ i, bool_decide (si_namespace i = lq_namespace query)
                               && bool_decide (si_environment i = lq_environment query))
                    (hash_values (instances s)) in
  let services := foldl (count_instance now_ms) ∅ matching in
  mret (finalize_list_services (btree_values services) (revision s) query).

Definition list_active_instances_with_health_check (now_ms : N)
    (s : MemoryDiscoveryStore) : DiscoveryResult (list ServiceInstance) :=
  mret (retain (λ i, bool_decide (is_Some (si_health_check i))
                     && (now_ms <? si_expires_at_ms i)) (hash_values (instances s))).
End with_hash_order.

Definition set_health_check_state (state : HealthCheckRuntimeState) (i : ServiceInstance)
    : ServiceInstance :=
  {| si_namespace := si_namespace i; si_environment := si_environment i;
     si_service_name := si_service_name i; si_instance_id := si_instance_id i;
     si_endpoint := si_endpoint i; si_protocol := si_protocol i; si_version := si_version i;
     si_region := si_region i; si_zone := si_zone i; si_weight := si_weight i;
     si_priority := si_priority i; si_status := si_status i; si_metadata := si_metadata i;
     si_lease_id := si_lease_id i; si_expires_at_ms := si_expires_at_ms i;
     si_revision := si_revision i; si_health_check := si_health_check i;
     si_health_check_state := state |}.

Definition update_health_check_state (namespace environment service_name instance_id : string)
    (state : HealthCheckRuntimeState) : Op MemoryDiscoveryStore () :=
  let key := {| ik_namespace := namespace; ik_environment := environment;
                ik_service_name := service_name; ik_instance_id := instance_id |} in
  current ← gets (λ s, instances s !! key);
  instance ← lift (ok_or current (NotFound "instance not found"));
  modify (λ s, set_instances (<[key := set_health_check_state state instance]> (instances s)) s).

(** ** The registry invariant under map updates *)

Section registry_wf_lemmas.
Context (seq rev : N) (insts : gmap InstanceKey ServiceInstance)
        (idx : gmap string InstanceKey) (Hwf : registry_wf seq rev insts idx).

Lemma registry_wf_install key i :
  key_of i = key →
  key_named key →
  (∃ n, n <= seq ∧ si_lease_id i = id_of "lease" n) → si_revision i <= rev →
  (∀ k j, insts !! k = Some j → si_lease_id j = si_lease_id i → k = key) →
  registry_wf seq rev (<[key := i]> insts)
    (<[si_lease_id i := key]>
       match insts !! key with
       | Some previous =>
           if negb (bool_decide (si_lease_id previous = si_lease_id i))
           then delete (si_lease_id previous) idx else idx
       | None => idx
       end).
Proof.
  intros Hkey Hname Hlease Hrev Hfresh. destruct Hwf as [Wkey Wname Wlease Wrev Windex Wuniq]. split.
  - intros k j. rewrite lookup_insert_Some. naive_solver.
  - intros k j. rewrite lookup_insert_Some. naive_solver.
  - intros k j. rewrite lookup_insert_Some. naive_solver.
  - intros k j. rewrite lookup_insert_Some. naive_solver.
  - intros l k. rewrite lookup_insert_Some. intros [[<- <-]|[Hl Hk]].
    { exists i. by rewrite lookup_insert_eq. }
    assert (idx !! l = Some k ∧
            ∀ p, insts !! key = Some p → si_lease_id p ≠ l) as [Hidx Hp].
    { destruct (insts !! key) as [p|] eqn:Ep; [|naive_solver].
      case_bool_decide; simpl in *; [naive_solver|].
      apply lookup_delete_Some in Hk. naive_solver. }
    destruct (Windex l k Hidx) as (j & Hj & Hjl).
    exists j. rewrite lookup_insert_ne; [done|]. intros ->. by apply (Hp j).
  - intros k1 k2 i1 i2. rewrite !lookup_insert_Some.
    intros [[<- <-]|[? H1]] [[<- <-]|[? H2]] E; [done| | |by eapply Wuniq].
    + symmetry. by eapply Hfresh.
    + by eapply Hfresh.
Qed.

Lemma registry_wf_update key i i' :
  insts !! key = Some i → key_of i' = key_of i → si_lease_id i' = si_lease_id i →
  si_revision i' <= rev → registry_wf seq rev (<[key := i']> insts) idx.
Proof.
  intros Hi Hkey Hlease Hrev. destruct Hwf as [Wkey Wname Wlease Wrev Windex Wuniq]. split.
  - intros k j. rewrite lookup_insert_Some. intros [[<- <-]|[? Hj]]; [|eauto].
    rewrite Hkey. eauto.
  - intros k j. rewrite lookup_insert_Some. intros [[<- <-]|[? Hj]]; [|eauto].
    eauto.
  - intros k j. rewrite lookup_insert_Some. intros [[<- <-]|[? Hj]]; [|eauto].
    rewrite Hlease. eauto.
  - intros k j. rewrite lookup_insert_Some. naive_solver.
  - intros l k Hl. destruct (Windex l k Hl) as (j & Hj & Hjl).
    destruct (decide (key = k)) as [<-|]; [|exists j; by rewrite lookup_insert_ne].
    exists i'. rewrite lookup_insert_eq. split; [done|]. congruence.
  - intros k1 k2 i1 i2. rewrite !lookup_insert_Some.
    intros [[<- <-]|[? H1]] [[<- <-]|[? H2]] E;
      [done| | |by eapply Wuniq]; rewrite Hlease in E; by eapply Wuniq.
Qed.

Lemma registry_wf_remove key i :
  insts !! key = Some i →
  registry_wf seq rev (delete key insts) (delete (si_lease_id i) idx).
Proof.
  intros Hi. destruct Hwf as [Wkey Wname Wlease Wrev Windex Wuniq]. split.
  1-4: intros k j [_ Hj]%lookup_delete_Some; eauto.
  - intros l k [Hl Hk]%lookup_delete_Some.
    destruct (Windex l k Hk) as (j & Hj & Hjl). exists j. split; [|done].
    rewrite lookup_delete_ne; [done|]. intros ->. congruence.
  - intros k1 k2 i1 i2 [_ H1]%lookup_delete_Some [_ H2]%lookup_delete_Some. eauto.
Qed.

Lemma registry_wf_forget_lease l : registry_wf seq rev insts (delete l idx).
Proof.
  destruct Hwf as [Wkey Wname Wlease Wrev Windex Wuniq]. split; try done. intros l' k [_ Hk]%lookup_delete_Some. eauto.
Qed.
End registry_wf_lemmas.

(** ** What each operation does, case by case *)

(** The lease a registration ends up with and the sequence counter after it. *)
Definition lease_for (command : RegisterInstanceCommand) (s : MemoryDiscoveryStore)
    : string * N :=
  match live_lease (instances s !! register_key command) (rc_now_ms command) with
  | Some l => (l, next_sequence s)
  | None => (id_of "lease" (u64_succ (next_sequence s)), u64_succ (next_sequence s))
  end.

Definition expiry_of (command : RegisterInstanceCommand) : DiscoveryResult N :=
  if rc_persistent command then Ok u64_max
  else lease_expires_at_ms (rc_now_ms command) (rc_lease_ttl_seconds command).

Definition register_commit (command : RegisterInstanceCommand) (lease_id : string)
    (expires_at_ms revision : N) (was_update : bool) (s : MemoryDiscoveryStore)
    : MemoryDiscoveryStore :=
  push_event (instance_event (if was_update then InstanceUpdated else InstanceRegistered)
                revision (rc_namespace command) (rc_environment command)
                (rc_service_name command) (rc_instance_id command))
    (install_instance (register_key command) lease_id
       (registered_instance command lease_id expires_at_ms revision) s).

Lemma set_next_sequence_id s : set_next_sequence (next_sequence s) s = s.
Proof. by destruct s. Qed.

Lemma register_instance_run command s :
  register_instance command s =
    match register_checks command with
    | Err e => (s, Err e)
    | Ok _ =>
        match cas_check (rc_expected_revision command)
                (instances s !! register_key command) with
        | Err e => (s, Err e)
        | Ok _ =>
            let '(lease_id, seq) := lease_for command s in
            let rev := u64_succ (revision s) in
            let s1 := set_revision rev (set_next_sequence seq s) in
            match expiry_of command with
            | Err e => (s1, Err e)
            | Ok expires =>
                (register_commit command lease_id expires rev
                   (bool_decide (is_Some (live_lease
                      (instances s !! register_key command) (rc_now_ms command)))) s1,
                 Ok {| rr_lease_id := lease_id; rr_namespace := rc_namespace command;
                       rr_environment := rc_environment command;
                       rr_service_name := rc_service_name command;
                       rr_instance_id := rc_instance_id command; rr_revision := rev;
                       rr_expires_at_ms := expires |})
            end
        end
    end.
Proof.
  unfold register_instance, lease_for, expiry_of. rewrite lift_bind_run.
  destruct (register_checks command); [|done]. rewrite gets_bind_run, lift_bind_run.
  destruct (cas_check _ _); [|done]. rewrite eff_bind_run.
  destruct (live_lease _ _) as [l|]; simpl.
  - rewrite set_next_sequence_id. rewrite eff_bind_run. simpl. rewrite lift_bind_run.
    by destruct (if rc_persistent command then _ else _).
  - rewrite eff_bind_run. simpl. rewrite lift_bind_run.
    by destruct (if rc_persistent command then _ else _).
Qed.

Lemma remove_instance_run key i s :
  remove_instance key i s =
    (push_event (instance_event InstanceDeregistered (u64_succ (revision s)) (si_namespace i)
                   (si_environment i) (si_service_name i) (si_instance_id i))
       (set_revision (u64_succ (revision s))
          (set_lease_index (delete (si_lease_id i) (lease_index s))
             (set_instances (delete key (instances s)) s))),
     Ok {| dr_namespace := si_namespace i; dr_environment := si_environment i;
           dr_service_name := si_service_name i; dr_instance_id := si_instance_id i;
           dr_revision := u64_succ (revision s); dr_deregistered := true |}).
Proof. reflexivity. Qed.

Lemma expire_loop_cons key keys s :
  expire_loop (key :: keys) s =
    match instances s !! key with
    | None => expire_loop keys s
    | Some i =>
        let '(s1, r1) := remove_instance key i s in
        match r1 with
        | Err e => (s1, Err e)
        | Ok result =>
            match expire_loop keys s1 with
            | (s2, Ok results) => (s2, Ok (result :: results))
            | (s2, Err e) => (s2, Err e)
            end
        end
    end.
Proof.
  cbn [expire_loop]. rewrite gets_bind_run. destruct (instances s !! key); [|done].
  rewrite eff_bind_run. destruct (remove_instance key s0 s) as [s1 [result|]]; [|done].
  rewrite eff_bind_run. by destruct (expire_loop keys s1) as [s2 []].
Qed.

(** ** Preservation of the invariant *)

(** A mutation that takes one revision, logs it, and leaves a well-formed
    registry. *)
Lemma store_wf_step s seq rev insts idx e :
  store_wf s → next_sequence s <= seq → revision s < rev → de_revision e = rev →
  registry_wf seq rev insts idx →
  store_wf {| revision := rev; next_sequence := seq; instances := insts; lease_index := idx;
              drafts := drafts s; releases := releases s; events := events s ++ [e];
              idempotency := idempotency s |}.
Proof.
  intros [Hreg Hcfg Hev] Hseq Hrev He Hnew. split; simpl; [done| |].
  - eapply config_wf_mono; [done| |exact Hcfg]. lia.
  - eapply events_wf_push; [exact Hev|lia|lia].
Qed.

(** A mutation of the registry that takes no revision. *)
Lemma store_wf_quiet s seq rev insts idx :
  store_wf s → next_sequence s <= seq → revision s <= rev →
  registry_wf seq rev insts idx →
  store_wf {| revision := rev; next_sequence := seq; instances := insts; lease_index := idx;
              drafts := drafts s; releases := releases s; events := events s;
              idempotency := idempotency s |}.
Proof.
  intros [Hreg Hcfg Hev] Hseq Hrev Hnew. split; simpl; [done| |].
  - by eapply config_wf_mono.
  - by eapply events_wf_mono.
Qed.

Lemma headroom_succ s :
  headroom 1 s →
  u64_succ (revision s) = revision s + 1 ∧ u64_succ (next_sequence s) = next_sequence s + 1.
Proof. intros [Hr Hs]. split; apply u64_succ_small; lia. Qed.

Lemma live_lease_Some existing now l :
  live_lease existing now = Some l ↔
  ∃ i, existing = Some i ∧ now < si_expires_at_ms i ∧ si_lease_id i = l.
Proof.
  unfold live_lease. destruct existing as [i|]; simpl; [|naive_solver].
  destruct (N.ltb_spec now (si_expires_at_ms i)); naive_solver lia.
Qed.

(** The lease handed out is the live one of this key or has never been used. *)
Lemma lease_for_fresh command s lease_id seq :
  registry_wf (next_sequence s) (revision s) (instances s) (lease_index s) → headroom 1 s →
  lease_for command s = (lease_id, seq) →
  next_sequence s <= seq ∧ (∃ n, n <= seq ∧ lease_id = id_of "lease" n) ∧
  ∀ k j, instances s !! k = Some j → si_lease_id j = lease_id → k = register_key command.
Proof.
  intros Hwf Hroom. unfold lease_for. destruct (headroom_succ s Hroom) as [_ ->].
  destruct (live_lease _ _) as [l|] eqn:El; intros [= <- <-].
  - apply live_lease_Some in El as (i & Hi & _ & <-). split_and!; [lia| |].
    + by eapply rw_lease.
    + intros k j Hj E. by eapply rw_unique.
  - split_and!; [lia|eexists; split; [|done]; lia|].
    intros k j Hj E. destruct (rw_lease _ _ _ _ Hwf k j Hj) as (n & Hn & En).
    rewrite En in E. apply id_of_inj in E. lia.
Qed.

Lemma register_checks_named command u :
  register_checks command = Ok u → key_named (register_key command).
Proof.
  unfold register_checks. repeat setoid_rewrite result_bind_Ok.
  setoid_rewrite validate_non_empty_Ok. intros (_ & ? & _ & ? & _ & ? & _ & ? & _). done.
Qed.

Lemma register_instance_wf command s :
  store_wf s → headroom 1 s → store_wf (register_instance command s).1.
Proof.
  intros Hwf Hroom. rewrite register_instance_run.
  destruct (register_checks command) as [u|] eqn:Ec; [|done].
  destruct (cas_check _ _); [|done].
  destruct (lease_for command s) as [lease_id seq] eqn:El.
  destruct (lease_for_fresh _ _ _ _ (wf_registry _ Hwf) Hroom El) as (Hseq & Hlease & Huniq).
  destruct (headroom_succ s Hroom) as [-> _]. simpl.
  assert (registry_wf seq (revision s + 1) (instances s) (lease_index s)) as Hreg.
  { eapply registry_wf_mono; [exact Hseq| |apply Hwf]. lia. }
  destruct (expiry_of command) as [expires|]; simpl.
  - apply (store_wf_step s); [done|done|simpl; lia|done|simpl].
    apply (registry_wf_install _ _ _ _ Hreg (register_key command)
             (registered_instance command lease_id expires (revision s + 1))); simpl; try done.
    by eapply register_checks_named.
  - apply (store_wf_quiet s); [done|done|lia|done].
Qed.

(** An operation that takes at most one revision and one identifier. *)
Definition advances (s s' : MemoryDiscoveryStore) : Prop :=
  ∀ n, headroom (n + 1) s → headroom n s'.

Lemma headroom_weaken m n s : m <= n → headroom n s → headroom m s.
Proof. unfold headroom. lia. Qed.

Lemma advances_refl s : advances s s.
Proof. intros n. apply headroom_weaken. lia. Qed.

Lemma advances_counters s s' :
  (headroom 1 s → revision s' <= revision s + 1 ∧ next_sequence s' <= next_sequence s + 1) →
  advances s s'.
Proof.
  intros H n Hn. assert (headroom 1 s) as H1 by (revert Hn; apply headroom_weaken; lia).
  specialize (H H1). unfold headroom in *. lia.
Qed.

Lemma register_instance_advances command s : advances s (register_instance command s).1.
Proof.
  rewrite register_instance_run. destruct (register_checks _); [|apply advances_refl].
  destruct (cas_check _ _); [|apply advances_refl].
  destruct (lease_for command s) as [lease_id seq] eqn:El.
  apply advances_counters. intros Hroom. destruct (headroom_succ s Hroom) as [-> Hq].
  assert (seq <= next_sequence s + 1).
  { unfold lease_for in El. rewrite Hq in El. destruct (live_lease _ _); simplify_eq; lia. }
  destruct (expiry_of command); simpl; lia.
Qed.

Lemma batch_register_loop_wf index commands s :
  store_wf s → headroom (len_N commands) s →
  store_wf (batch_register_loop index commands s).1.
Proof.
  revert index s. induction commands as [|c commands IH]; intros index s Hwf Hroom; [done|].
  simpl. pose proof (register_instance_wf c s Hwf) as Hwf1.
  pose proof (register_instance_advances c s) as Hadv.
  destruct (register_instance c s) as [s1 r]. simpl in *.
  assert (headroom (len_N commands) s1) as Hroom1.
  { apply Hadv. revert Hroom. apply headroom_weaken. unfold len_N. simpl. lia. }
  specialize (IH (index + 1) s1). destruct (batch_register_loop (index + 1) commands s1).
  simpl in *. apply IH; [|done]. apply Hwf1. revert Hroom. apply headroom_weaken.
  unfold len_N. simpl. lia.
Qed.

Lemma batch_register_instances_wf commands s :
  store_wf s → headroom (len_N commands) s →
  store_wf (batch_register_instances commands s).1.
Proof.
  intros Hwf Hroom. pose proof (batch_register_loop_wf 0 commands s Hwf Hroom).
  unfold batch_register_instances. by destruct (batch_register_loop 0 commands s).
Qed.

Lemma renew_lease_wf command s :
  store_wf s → headroom 1 s → store_wf (renew_lease command s).1.
Proof.
  intros Hwf Hroom. unfold renew_lease. rewrite lift_bind_run.
  destruct (validate_non_empty _ _); [|done]. rewrite lift_bind_run.
  destruct (if _ =? 0 then _ else _); [|done]. rewrite gets_bind_run, lift_bind_run.
  destruct (lease_index s !! _) as [key|] eqn:Ek; [|done]. simpl ok_or. cbv beta iota.
  rewrite lift_bind_run. destruct (lease_expires_at_ms _ _) as [expires|]; [|done].
  rewrite gets_bind_run, lift_bind_run.
  destruct (instances s !! key) as [i|] eqn:Ei; [|done]. simpl ok_or. cbv beta iota.
  destruct (headroom_succ s Hroom) as [Hr _]. destruct (_ <=? _); simpl.
  - apply (store_wf_quiet s); [done|simpl; lia..|simpl].
    apply registry_wf_forget_lease, Hwf.
  - rewrite Hr. apply (store_wf_step s); [done|done|simpl; lia|done|simpl].
    eapply registry_wf_update; [|exact Ei|done..].
    eapply registry_wf_mono; [done| |apply Hwf]. lia.
Qed.

Lemma report_instance_status_wf command s :
  store_wf s → headroom 1 s → store_wf (report_instance_status command s).1.
Proof.
  intros Hwf Hroom. unfold report_instance_status. rewrite !lift_bind_run.
  do 4 (destruct (validate_non_empty _ _); [rewrite ?lift_bind_run|done]).
  rewrite gets_bind_run, lift_bind_run.
  destruct (instances s !! _) as [i|] eqn:Ei; [|done]. simpl ok_or. cbv beta iota.
  rewrite lift_bind_run. destruct (if _ <=? _ then _ else _); [|done].
  rewrite lift_bind_run. destruct (cas_check _ _); [|done].
  destruct (headroom_succ s Hroom) as [Hr _]. rewrite eff_bind_run. simpl. rewrite Hr.
  apply (store_wf_step s); [done|done|simpl; lia|done|simpl].
  eapply registry_wf_update; [|exact Ei|done..].
  eapply registry_wf_mono; [done| |apply Hwf]. lia.
Qed.

Lemma remove_instance_wf key i s :
  store_wf s → headroom 1 s → instances s !! key = Some i →
  store_wf (remove_instance key i s).1.
Proof.
  intros Hwf Hroom Hi. rewrite remove_instance_run. destruct (headroom_succ s Hroom) as [-> _].
  apply (store_wf_step s); [done|done|simpl; lia|done|simpl].
  apply registry_wf_remove; [|done]. eapply registry_wf_mono; [done| |apply Hwf]. lia.
Qed.

Lemma remove_instance_advances key i s : advances s (remove_instance key i s).1.
Proof.
  apply advances_counters. intros Hroom. rewrite remove_instance_run. simpl.
  destruct (headroom_succ s Hroom) as [-> _]. lia.
Qed.

(** [deregister_instance] either leaves the store alone or removes the entry. *)
Lemma deregister_instance_run ns env svc id now s :
  ∃ r, deregister_instance ns env svc id now s = (s, r)
  ∨ ∃ i, instances s !! {| ik_namespace := ns; ik_environment := env;
                           ik_service_name := svc; ik_instance_id := id |} = Some i
         ∧ now < si_expires_at_ms i
         ∧ deregister_instance ns env svc id now s =
           remove_instance {| ik_namespace := ns; ik_environment := env;
                              ik_service_name := svc; ik_instance_id := id |} i s.
Proof.
  unfold deregister_instance. rewrite lift_bind_run.
  do 4 (destruct (validate_non_empty _ _); [rewrite ?lift_bind_run|eauto]).
  rewrite gets_bind_run. destruct (instances s !! _) as [i|] eqn:Ei; simpl; [|eauto].
  destruct (N.leb_spec (si_expires_at_ms i) now); [eauto|]. exists (Err (NotFound "")).
  right. eauto.
Qed.

Lemma deregister_instance_wf ns env svc id now s :
  store_wf s → headroom 1 s → store_wf (deregister_instance ns env svc id now s).1.
Proof.
  intros Hwf Hroom. destruct (deregister_instance_run ns env svc id now s)
    as [r [->|(i & Hi & _ & ->)]]; [done|]. by apply remove_instance_wf.
Qed.

Lemma deregister_instance_advances ns env svc id now s :
  advances s (deregister_instance ns env svc id now s).1.
Proof.
  destruct (deregister_instance_run ns env svc id now s) as [r [->|(i & _ & _ & ->)]];
    [apply advances_refl|apply remove_instance_advances].
Qed.

Lemma batch_deregister_instances_wf ns env svc ids now s :
  store_wf s → headroom (len_N ids) s →
  store_wf (batch_deregister_instances ns env svc ids now s).1.
Proof.
  revert s. induction ids as [|id ids IH]; intros s Hwf Hroom; [done|].
  cbn [batch_deregister_instances]. rewrite eff_bind_run.
  assert (headroom 1 s) by (revert Hroom; apply headroom_weaken; unfold len_N; simpl; lia).
  pose proof (deregister_instance_wf ns env svc id now s Hwf) as Hwf1.
  pose proof (deregister_instance_advances ns env svc id now s) as Hadv.
  destruct (deregister_instance ns env svc id now s) as [s1 [r|e]]; simpl in *; [|auto].
  rewrite eff_bind_run. specialize (IH s1 (Hwf1 H)).
  destruct (batch_deregister_instances ns env svc ids now s1) as [s2 []]; simpl in *;
    (apply IH, Hadv; revert Hroom; apply headroom_weaken; unfold len_N; simpl; lia).
Qed.

Lemma expire_loop_wf keys s :
  store_wf s → headroom (len_N keys) s → store_wf (expire_loop keys s).1.
Proof.
  revert s. induction keys as [|key keys IH]; intros s Hwf Hroom; [done|].
  rewrite expire_loop_cons.
  assert (∀ s', headroom (len_N keys + 1) s' → headroom (len_N keys) s') as Hw.
  { intros s'. apply headroom_weaken. lia. }
  assert (headroom (len_N keys + 1) s) as Hroom'.
  { revert Hroom. apply headroom_weaken. unfold len_N. simpl. lia. }
  destruct (instances s !! key) as [i|] eqn:Ei; [|auto].
  assert (headroom 1 s) as H1 by (revert Hroom'; apply headroom_weaken; lia).
  pose proof (remove_instance_wf key i s Hwf H1 Ei) as Hwf1.
  pose proof (remove_instance_advances key i s _ Hroom') as Hroom1.
  destruct (remove_instance key i s) as [s1 [r|e]]; simpl in *; [|done].
  specialize (IH s1 Hwf1 Hroom1). by destruct (expire_loop keys s1) as [s2 []].
Qed.

Lemma update_health_check_state_wf ns env svc id state s :
  store_wf s → store_wf (update_health_check_state ns env svc id state s).1.
Proof.
  intros Hwf. unfold update_health_check_state. rewrite gets_bind_run, lift_bind_run.
  destruct (instances s !! _) as [i|] eqn:Ei; simpl; [|done].
  apply (store_wf_quiet s); [done|simpl; lia..|simpl].
  eapply registry_wf_update; [apply Hwf|exact Ei|done..|]. simpl. eapply rw_rev; [apply Hwf|].
  exact Ei.
Qed.

Lemma expired_keys_length `{HashOrder} now s :
  len_N (expired_keys now s) <= N.of_nat (size (instances s)).
Proof.
  unfold len_N, expired_keys. rewrite sort_by_perm, length_fmap.
  rewrite <- hash_iter_length. pose proof (sublist_length _ _ (retain_sublist
    (λ '(_, i), si_expires_at_ms i <=? now) (hash_iter (instances s)))). lia.
Qed.

Lemma expire_instances_wf `{HashOrder} now max s :
  store_wf s → headroom (N.of_nat (size (instances s))) s →
  store_wf (expire_instances now max s).1.
Proof.
  intros Hwf Hroom. unfold expire_instances. rewrite lift_bind_run.
  destruct (if max =? 0 then _ else _); [|done]. rewrite gets_bind_run.
  apply expire_loop_wf; [done|]. revert Hroom. apply headroom_weaken.
  pose proof (expired_keys_length now s). rewrite take_N_length. lia.
Qed.
