(* ===== verification/RegistryTheorems.v ===== *)
(** * Theorems about the in-memory registry

    Round trips, frames, error paths and orderings of the operations of
    [MemoryRegistry], each with a run on a concrete store. *)
From S2P Require Import Prelude RustStr Collections Contract Discover MemoryStore MemoryRegistry.
From Stdlib Require Import Ascii.

(** ** Concrete inputs for the witnesses *)

Definition sample_register (id : string) (now : N) : RegisterInstanceCommand :=
  {| rc_namespace := "acme"; rc_environment := "prod"; rc_service_name := "drive";
     rc_instance_id := id; rc_endpoint := "10.0.0.1:50051"; rc_protocol := "grpc";
     rc_version := "0.1.0"; rc_region := "eu"; rc_zone := "eu-a"; rc_weight := 100;
     rc_priority := 0; rc_status := Serving; rc_metadata := ∅;
     rc_lease_ttl_seconds := 30; rc_now_ms := now; rc_expected_revision := None;
     rc_persistent := false; rc_health_check := None |}.

(** Two instances registered at times 1000 and 5000. *)
Definition sample_store : MemoryDiscoveryStore :=
  (register_instance (sample_register "drive-2" 5000)
     (register_instance (sample_register "drive-1" 1000) new_store).1).1.

Definition retrieve_of (command : RegisterInstanceCommand) : RetrieveInstanceQuery :=
  {| rq_namespace := rc_namespace command; rq_environment := rc_environment command;
     rq_service_name := rc_service_name command; rq_instance_id := rc_instance_id command |}.

(** ** Registration *)

Lemma register_checks_Ok command u :
  register_checks command = Ok u →
  is_blank (rc_namespace command) = false ∧ is_blank (rc_environment command) = false
  ∧ is_blank (rc_service_name command) = false ∧ is_blank (rc_instance_id command) = false
  ∧ 0 < rc_lease_ttl_seconds command.
Proof.
  unfold register_checks. repeat setoid_rewrite result_bind_Ok.
  setoid_rewrite validate_non_empty_Ok. intros H.
  destruct H as (_ & ? & _ & ? & _ & ? & _ & ? & _ & _ & _ & _ & _ & _ & _ & _ & _ & _ & H).
  destruct (N.eqb_spec (rc_lease_ttl_seconds command) 0); [done|]. split_and!; [done..|lia].
Qed.

(** Everything a successful registration changes. *)
Lemma register_instance_Ok command s s' r :
  register_instance command s = (s', Ok r) →
  register_checks command = Ok () ∧
  cas_check (rc_expected_revision command) (instances s !! register_key command) = Ok () ∧
  expiry_of command = Ok (rr_expires_at_ms r) ∧
  rr_revision r = u64_succ (revision s) ∧ rr_lease_id r = (lease_for command s).1 ∧
  s' = register_commit command (rr_lease_id r) (rr_expires_at_ms r) (rr_revision r)
         (bool_decide (is_Some (live_lease (instances s !! register_key command)
                                  (rc_now_ms command))))
         (set_revision (rr_revision r) (set_next_sequence (lease_for command s).2 s)).
Proof.
  rewrite register_instance_run. destruct (register_checks command) as [[]|] eqn:Ec; [|done].
  destruct (cas_check _ _) as [[]|]; [|done].
  destruct (lease_for command s) as [lease seq].
  destruct (expiry_of command) as [ex|]; [|done]. intros [= <- <-]. simpl. done.
Qed.

(** A registration that succeeds is what a lookup of its key returns while the
    lease runs. *)
Lemma registered_retrieved command s s' r now :
  register_instance command s = (s', Ok r) →
  retrieve_instance (retrieve_of command) now s' =
    Ok (if now <? rr_expires_at_ms r
        then Some (registered_instance command (rr_lease_id r) (rr_expires_at_ms r)
                     (rr_revision r))
        else None).
Proof.
  intros (Hc & _ & _ & _ & _ & ->)%register_instance_Ok.
  destruct (register_checks_Ok _ _ Hc) as (H1 & H2 & H3 & H4 & _).
  unfold retrieve_instance, validate_non_empty. simpl. rewrite H1, H2, H3, H4. simpl.
  fold (register_key command). by rewrite lookup_insert_eq.
Qed.

(** C10: a registration that succeeds is what a lookup of its key returns for as
    long as the lease runs and nothing after that; no other entry changes, the
    lease index leads from the returned lease to the entry, and the event log
    gains exactly one event, at the revision returned. *)
Theorem register_then_retrieve command s s' r now :
  register_instance command s = (s', Ok r) →
  retrieve_instance (retrieve_of command) now s' =
    Ok (if now <? rr_expires_at_ms r
        then Some (registered_instance command (rr_lease_id r) (rr_expires_at_ms r)
                     (rr_revision r))
        else None)
  ∧ (∀ k, k ≠ register_key command → instances s' !! k = instances s !! k)
  ∧ lease_index s' !! rr_lease_id r = Some (register_key command)
  ∧ ∃ e, events s' = events s ++ [e] ∧ de_revision e = rr_revision r
         ∧ de_resource_id e = rc_instance_id command
         ∧ de_namespace e = rc_namespace command.
Proof.
  intros Hr. split; [by eapply registered_retrieved|].
  apply register_instance_Ok in Hr as (_ & _ & _ & _ & _ & ->). split_and!.
  - intros k Hk. simpl. by rewrite lookup_insert_ne.
  - simpl. by rewrite lookup_insert_eq.
  - simpl. eexists. split; [done|]. by simpl.
Qed.

Lemma register_then_retrieve_witness :
  ∃ s' r, register_instance (sample_register "drive-1" 1000) new_store = (s', Ok r)
  ∧ retrieve_instance (retrieve_of (sample_register "drive-1" 1000)) 30999 s' =
    Ok (Some (registered_instance (sample_register "drive-1" 1000) "lease-1" 31000 1)).
Proof.
  destruct (register_instance (sample_register "drive-1" 1000) new_store) as [s' r] eqn:E.
  assert (r = Ok {| rr_lease_id := "lease-1"; rr_namespace := "acme";
                    rr_environment := "prod"; rr_service_name := "drive";
                    rr_instance_id := "drive-1"; rr_revision := 1;
                    rr_expires_at_ms := 31000 |}) as Hr.
  { change r with (s', r).2. rewrite <- E. vm_compute. reflexivity. }
  subst r. exists s'. eexists. split; [reflexivity|].
  destruct (register_then_retrieve _ _ _ _ 30999 E) as [Hret _]. exact Hret.
Defined.

(** A registration that fails leaves every entry, lease, draft, release,
    idempotency record and event as it was; the revision counter moves only on
    the path where the lease expiry overflows, after the revision was taken. *)
Theorem register_error_frame command s s' e :
  register_instance command s = (s', Err e) →
  instances s' = instances s ∧ lease_index s' = lease_index s ∧ events s' = events s
  ∧ drafts s' = drafts s ∧ releases s' = releases s ∧ idempotency s' = idempotency s
  ∧ (s' = s ∨ expiry_of command = Err e ∧ revision s' = u64_succ (revision s)).
Proof.
  rewrite register_instance_run.
  destruct (register_checks command); [|intros [= <- _]; auto 10].
  destruct (cas_check _ _); [|intros [= <- _]; auto 10].
  destruct (lease_for command s) as [lease seq].
  destruct (expiry_of command); [done|]. intros [= <- <-]. simpl. auto 10.
Qed.

(** The largest lease the millisecond clock can hold, one second too long. *)
Definition overlong_register : RegisterInstanceCommand :=
  {| rc_namespace := "acme"; rc_environment := "prod"; rc_service_name := "drive";
     rc_instance_id := "drive-9"; rc_endpoint := "10.0.0.1:50051"; rc_protocol := "grpc";
     rc_version := "0.1.0"; rc_region := "eu"; rc_zone := "eu-a"; rc_weight := 100;
     rc_priority := 0; rc_status := Serving; rc_metadata := ∅;
     rc_lease_ttl_seconds := 18446744073709552; rc_now_ms := 0;
     rc_expected_revision := None; rc_persistent := false; rc_health_check := None |}.

Lemma register_error_frame_witness :
  instances (register_instance overlong_register sample_store).1 = instances sample_store
  ∧ events (register_instance overlong_register sample_store).1 = events sample_store
  ∧ revision (register_instance overlong_register sample_store).1 = 3.
Proof.
  destruct (register_instance overlong_register sample_store) as [s' r] eqn:E.
  assert (r = Err (InvalidArgument "lease ttl overflows milliseconds")) as Hr.
  { change r with (s', r).2. rewrite <- E. vm_compute. reflexivity. }
  subst r. destruct (register_error_frame _ _ _ _ E) as (H1 & _ & H2 & _).
  split; [exact H1|]. split; [exact H2|].
  change s' with (s', @Err DiscoveryError RegisterInstanceResult
                        (InvalidArgument "lease ttl overflows milliseconds")).1.
  rewrite <- E. vm_compute. reflexivity.
Defined.

(** C11: compare-and-set registration admits one writer per revision: when two
    commands for one key both expect the revision the entry has, whichever runs
    second is refused with a conflict and leaves the store untouched. *)
Theorem cas_second_writer_loses c1 c2 s s1 r1 i v :
  store_wf s → headroom 1 s →
  register_key c1 = register_key c2 → instances s !! register_key c1 = Some i →
  rc_expected_revision c2 = Some v → si_revision i = v →
  register_instance c1 s = (s1, Ok r1) → register_checks c2 = Ok () →
  register_instance c2 s1 = (s1, Err (revision_conflict v (rr_revision r1))).
Proof.
  intros Hwf Hroom Hk Hi Hv Hrev (_ & _ & _ & Hr & _ & Hs1)%register_instance_Ok Hc2.
  rewrite register_instance_run, Hc2, Hv, <- Hk, Hs1. simpl. rewrite lookup_insert_eq. simpl.
  destruct (headroom_succ s Hroom) as [Hsucc _].
  pose proof (rw_rev _ _ _ _ (wf_registry _ Hwf) _ _ Hi).
  destruct (N.eqb_spec (rr_revision r1) v); [lia|]. done.
Qed.

Definition sample_cas (id : string) (now v : N) : RegisterInstanceCommand :=
  {| rc_namespace := "acme"; rc_environment := "prod"; rc_service_name := "drive";
     rc_instance_id := id; rc_endpoint := "10.0.0.2:50051"; rc_protocol := "grpc";
     rc_version := "0.2.0"; rc_region := "eu"; rc_zone := "eu-a"; rc_weight := 10;
     rc_priority := 0; rc_status := Serving; rc_metadata := ∅;
     rc_lease_ttl_seconds := 30; rc_now_ms := now; rc_expected_revision := Some v;
     rc_persistent := false; rc_health_check := None |}.

Lemma sample_store_wf : store_wf sample_store ∧ headroom 1000 sample_store.
Proof.
  split; [|vm_compute; split; discriminate].
  unfold sample_store. repeat apply register_instance_wf; [apply store_wf_new|..];
    vm_compute; split; discriminate.
Qed.

Definition sample_cas_result : RegisterInstanceResult :=
  {| rr_lease_id := "lease-1"; rr_namespace := "acme"; rr_environment := "prod";
     rr_service_name := "drive"; rr_instance_id := "drive-1"; rr_revision := 3;
     rr_expires_at_ms := 36000 |}.

Lemma cas_second_writer_loses_witness :
  (register_instance (sample_cas "drive-1" 7000 1)
     (register_instance (sample_cas "drive-1" 6000 1) sample_store).1).2
  = Err (Conflict "expected revision 1 but found 3").
Proof.
  destruct (register_instance (sample_cas "drive-1" 6000 1) sample_store) as [s1 r1] eqn:E.
  assert (r1 = Ok sample_cas_result) as Hr.
  { change r1 with (s1, r1).2. rewrite <- E. vm_compute. reflexivity. }
  subst r1. simpl.
  rewrite (cas_second_writer_loses (sample_cas "drive-1" 6000 1) (sample_cas "drive-1" 7000 1)
             sample_store s1 sample_cas_result
             (registered_instance (sample_register "drive-1" 1000) "lease-1" 31000 1) 1);
    [vm_compute; reflexivity
    |apply sample_store_wf
    |eapply headroom_weaken; [|apply sample_store_wf]; lia
    |vm_compute; reflexivity|vm_compute; reflexivity|vm_compute; reflexivity
    |vm_compute; reflexivity|exact E|vm_compute; reflexivity].
Defined.

(** ** Leases *)

(** The expiry of a lease is the registration time plus the lifetime in
    milliseconds exactly when that sum fits in 64 bits; otherwise the command is
    refused as an invalid argument and nothing wraps around. *)
Theorem lease_expiry_exact now ttl :
  (now + ttl * 1000 <= u64_max → lease_expires_at_ms now ttl = Ok (now + ttl * 1000))
  ∧ (u64_max < now + ttl * 1000 → ∃ m, lease_expires_at_ms now ttl = Err (InvalidArgument m)).
Proof.
  unfold lease_expires_at_ms. split; intros H.
  - rewrite (proj2 (checked_mul_Some ttl 1000 (ttl * 1000))) by lia. simpl.
    by rewrite (proj2 (checked_add_Some now (ttl * 1000) (now + ttl * 1000))) by lia.
  - destruct (checked_mul ttl 1000) as [t|] eqn:E; simpl; [|eauto].
    apply checked_mul_Some in E as [-> _].
    rewrite (proj2 (checked_add_None now (ttl * 1000))) by done. simpl. eauto.
Qed.

Lemma lease_expiry_exact_witness :
  lease_expires_at_ms 1000 30 = Ok 31000
  ∧ ∃ m, lease_expires_at_ms 1 18446744073709551 = Ok 18446744073709551001
         ∧ lease_expires_at_ms 616 18446744073709551 = Err (InvalidArgument m).
Proof.
  split; [apply (proj1 (lease_expiry_exact 1000 30)); vm_compute; discriminate|].
  destruct (proj2 (lease_expiry_exact 616 18446744073709551)) as [m Hm]; [vm_compute; reflexivity|].
  exists m. split; [|exact Hm].
  apply (proj1 (lease_expiry_exact 1 18446744073709551)); vm_compute; discriminate.
Defined.

Lemma id_of_lease_not_blank n : is_blank (id_of "lease" n) = false.
Proof. by apply solid_not_blank. Qed.

Lemma renew_lease_live command s key i :
  is_blank (lc_lease_id command) = false → 0 < lc_lease_ttl_seconds command →
  lc_now_ms command + lc_lease_ttl_seconds command * 1000 <= u64_max →
  lease_index s !! lc_lease_id command = Some key → instances s !! key = Some i →
  lc_now_ms command < si_expires_at_ms i →
  let expires := lc_now_ms command + lc_lease_ttl_seconds command * 1000 in
  let rev := u64_succ (revision s) in
  renew_lease command s =
    (push_event (instance_event InstanceRenewed rev (si_namespace i) (si_environment i)
                   (si_service_name i) (si_instance_id i))
       (set_instances (<[key := set_lease expires rev i]> (instances s)) (set_revision rev s)),
     Ok {| lr_lease_id := lc_lease_id command; lr_namespace := si_namespace i;
           lr_environment := si_environment i; lr_service_name := si_service_name i;
           lr_instance_id := si_instance_id i; lr_revision := rev;
           lr_expires_at_ms := expires |}).
Proof.
  intros Hb Httl Hov Hidx Hi Hlive. unfold renew_lease, validate_non_empty.
  rewrite lift_bind_run, Hb, lift_bind_run.
  destruct (N.eqb_spec (lc_lease_ttl_seconds command) 0); [lia|].
  rewrite gets_bind_run, lift_bind_run, Hidx. simpl ok_or. cbv beta iota.
  rewrite lift_bind_run.
  unfold lease_expires_at_ms.
  rewrite (proj2 (checked_mul_Some (lc_lease_ttl_seconds command) 1000 _)) by (split; [done|lia]).
  simpl ok_or. cbn [mbind result_bind].
  rewrite (proj2 (checked_add_Some (lc_now_ms command) _ _)) by (split; [done|lia]).
  simpl ok_or. cbv beta iota. rewrite gets_bind_run, lift_bind_run, Hi. simpl ok_or.
  cbv beta iota. destruct (N.leb_spec (si_expires_at_ms i) (lc_now_ms command)); [lia|].
  reflexivity.
Qed.

(** The lease id a registration returns keeps the instance alive: renewing it
    at any moment before the lease runs out succeeds, moves the expiry to the
    renewal time plus the new lifetime, keeps the lease id, and lookups see the
    instance until the new expiry. *)
Theorem register_then_renew command s s1 r t ttl :
  store_wf s → headroom 1 s →
  register_instance command s = (s1, Ok r) →
  t < rr_expires_at_ms r → 0 < ttl → t + ttl * 1000 <= u64_max →
  ∃ s2 r2,
    renew_lease {| lc_lease_id := rr_lease_id r; lc_lease_ttl_seconds := ttl;
                   lc_now_ms := t |} s1 = (s2, Ok r2)
    ∧ lr_lease_id r2 = rr_lease_id r ∧ lr_expires_at_ms r2 = t + ttl * 1000
    ∧ ∀ now, now < t + ttl * 1000 →
        ∃ i, retrieve_instance (retrieve_of command) now s2 = Ok (Some i)
             ∧ si_lease_id i = rr_lease_id r ∧ si_endpoint i = rc_endpoint command.
Proof.
  intros Hwf Hroom Hreg Hlive Httl Hov.
  pose proof (register_instance_Ok _ _ _ _ Hreg) as (Hc & _ & _ & _ & Hl & Hs1).
  destruct (register_checks_Ok _ _ Hc) as (H1 & H2 & H3 & H4 & _).
  destruct (lease_for command s) as [lease seq] eqn:El.
  destruct (lease_for_fresh _ _ _ _ (wf_registry _ Hwf) Hroom El) as (_ & (n & _ & Hn) & _).
  simpl in Hl. subst lease.
  rewrite (renew_lease_live _ s1 (register_key command)
             (registered_instance command (rr_lease_id r) (rr_expires_at_ms r)
                (rr_revision r))); simpl.
  - do 2 eexists. split; [done|]. simpl. split_and!; [done..|].
    intros now Hnow. unfold retrieve_instance, validate_non_empty. simpl.
    rewrite H1, H2, H3, H4. simpl. fold (register_key command). rewrite lookup_insert_eq.
    simpl. destruct (N.ltb_spec now (t + ttl * 1000)); [|lia]. eexists. by split_and!.
  - rewrite Hn. apply id_of_lease_not_blank.
  - done.
  - done.
  - rewrite Hs1. simpl. by rewrite lookup_insert_eq.
  - rewrite Hs1. simpl. by rewrite lookup_insert_eq.
  - done.
Qed.

Lemma register_then_renew_witness :
  ∃ s2 r2, renew_lease {| lc_lease_id := "lease-3"; lc_lease_ttl_seconds := 60;
                          lc_now_ms := 20000 |}
             (register_instance (sample_register "drive-3" 9000) sample_store).1
           = (s2, Ok r2) ∧ lr_expires_at_ms r2 = 80000.
Proof.
  destruct (register_instance (sample_register "drive-3" 9000) sample_store) as [s1 r] eqn:E.
  assert (r = Ok {| rr_lease_id := "lease-3"; rr_namespace := "acme";
                    rr_environment := "prod"; rr_service_name := "drive";
                    rr_instance_id := "drive-3"; rr_revision := 3;
                    rr_expires_at_ms := 39000 |}) as Hr.
  { change r with (s1, r).2. rewrite <- E. vm_compute. reflexivity. }
  subst r.
  destruct (register_then_renew (sample_register "drive-3" 9000) sample_store s1 _ 20000 60
              (proj1 sample_store_wf)
              (headroom_weaken 1 1000 sample_store ltac:(lia) (proj2 sample_store_wf)) E)
    as (s2 & r2 & H1 & _ & H2 & _); [simpl; lia|lia|vm_compute; discriminate|].
  exists s2, r2. split; [exact H1|exact H2].
Defined.

(** ** Deregistration *)

(** After an instance is deregistered it is gone for every client: lookups
    find nothing, its lease can no longer be renewed, and deregistering it again
    reports that nothing was removed and changes nothing. *)
Theorem deregister_is_final ns env svc id now s s1 r1 i :
  store_wf s →
  instances s !! {| ik_namespace := ns; ik_environment := env;
                    ik_service_name := svc; ik_instance_id := id |} = Some i →
  deregister_instance ns env svc id now s = (s1, Ok r1) → dr_deregistered r1 = true →
  (∀ t, retrieve_instance {| rq_namespace := ns; rq_environment := env;
                             rq_service_name := svc; rq_instance_id := id |} t s1 = Ok None)
  ∧ (∀ ttl t, 0 < ttl →
      renew_lease {| lc_lease_id := si_lease_id i; lc_lease_ttl_seconds := ttl;
                     lc_now_ms := t |} s1 = (s1, Err (NotFound "lease not found")))
  ∧ (∀ t, deregister_instance ns env svc id t s1 =
            (s1, Ok (not_deregistered ns env svc id))).
Proof.
  intros Hwf Hi Hd Htrue.
  assert (validate_non_empty "namespace" ns = Ok () ∧
          validate_non_empty "environment" env = Ok () ∧
          validate_non_empty "service_name" svc = Ok () ∧
          validate_non_empty "instance_id" id = Ok ()) as (V1 & V2 & V3 & V4).
  { revert Hd. unfold deregister_instance. rewrite lift_bind_run.
    do 4 (destruct (validate_non_empty _ _) as [[]|]; [rewrite ?lift_bind_run|done]). done. }
  assert (s1 = (remove_instance {| ik_namespace := ns; ik_environment := env;
                  ik_service_name := svc; ik_instance_id := id |} i s).1) as ->.
  { destruct (deregister_instance_run ns env svc id now s) as [r [E|(j & Hj & _ & E)]];
      rewrite E in Hd; [|simplify_eq; by rewrite Hd].
    simplify_eq. revert E. unfold deregister_instance. rewrite lift_bind_run, V1.
    rewrite lift_bind_run, V2, lift_bind_run, V3, lift_bind_run, V4, gets_bind_run, Hi.
    simpl. destruct (_ <=? _); [intros [= <-]; done|].
    intros [= E _]. by rewrite <- E at 1. }
  rewrite remove_instance_run. simpl. split_and!.
  - intros t. unfold retrieve_instance. simpl. rewrite V1, V2, V3, V4. simpl.
    by rewrite lookup_delete_eq.
  - intros ttl t Httl. unfold renew_lease. simpl. rewrite lift_bind_run.
    destruct (rw_lease _ _ _ _ (wf_registry _ Hwf) _ _ Hi) as (n & _ & ->).
    unfold validate_non_empty. rewrite id_of_lease_not_blank, lift_bind_run.
    destruct (N.eqb_spec ttl 0); [lia|]. rewrite gets_bind_run, lift_bind_run. simpl.
    by rewrite lookup_delete_eq.
  - intros t. unfold deregister_instance. rewrite lift_bind_run, V1.
    rewrite lift_bind_run, V2, lift_bind_run, V3, lift_bind_run, V4, gets_bind_run. simpl.
    by rewrite lookup_delete_eq.
Qed.

Lemma deregister_is_final_witness :
  retrieve_instance (retrieve_of (sample_register "drive-1" 0)) 1500
    (deregister_instance "acme" "prod" "drive" "drive-1" 1200 sample_store).1 = Ok None.
Proof.
  destruct (deregister_instance "acme" "prod" "drive" "drive-1" 1200 sample_store)
    as [s1 r1] eqn:E.
  assert (r1 = Ok {| dr_namespace := "acme"; dr_environment := "prod";
                     dr_service_name := "drive"; dr_instance_id := "drive-1";
                     dr_revision := 3; dr_deregistered := true |}) as Hr.
  { change r1 with (s1, r1).2. rewrite <- E. vm_compute. reflexivity. }
  subst r1.
  apply (proj1 (deregister_is_final "acme" "prod" "drive" "drive-1" 1200 sample_store s1 _
                  (registered_instance (sample_register "drive-1" 1000) "lease-1" 31000 1)
                  (proj1 sample_store_wf) ltac:(vm_compute; reflexivity) E eq_refl) 1500).
Defined.

(** ** The expiry scan *)

#[global] Typeclasses Opaque key_order.
#[export] Instance key_order_total : TotalCmp key_order.
Proof. unfold key_order. apply _. Qed.

Lemma key_order_eq k1 k2 : key_order k1 k2 = Eq → k1 = k2.
Proof.
  unfold key_order, then_with, cmp_on. intros H.
  destruct (String.compare (ik_namespace k1) _) eqn:E1; try done.
  destruct (String.compare (ik_environment k1) _) eqn:E2; try done.
  destruct (String.compare (ik_service_name k1) _) eqn:E3; try done.
  apply String.compare_eq_iff in E1, E2, E3, H. destruct k1, k2. simpl in *. by subst.
Qed.

Lemma elem_of_expired_keys `{HashOrder} now s k :
  k ∈ expired_keys now s ↔ ∃ i, instances s !! k = Some i ∧ si_expires_at_ms i <= now.
Proof.
  unfold expired_keys. rewrite elem_of_sort_by, list_elem_of_fmap. split.
  - intros ([k' i] & -> & [Hex Hin]%elem_of_retain). apply elem_of_hash_iter in Hin.
    exists i. split; [done|]. by apply N.leb_le.
  - intros (i & Hi & Hex). exists (k, i). split; [done|]. apply elem_of_retain.
    split; [by apply N.leb_le|by apply elem_of_hash_iter].
Qed.

Lemma NoDup_expired_keys `{HashOrder} now s : NoDup (expired_keys now s).
Proof.
  unfold expired_keys. rewrite sort_by_perm.
  eapply NoDup_fmap_sublist; [apply retain_sublist|apply NoDup_hash_keys].
Qed.

Lemma expire_loop_spec keys s :
  (∀ k i, instances s !! k = Some i → key_of i = k) →
  NoDup keys → (∀ k, k ∈ keys → is_Some (instances s !! k)) →
  ∃ s' results, expire_loop keys s = (s', Ok results) ∧ result_key <$> results = keys
    ∧ ∀ k, instances s' !! k = if bool_decide (k ∈ keys) then None else instances s !! k.
Proof.
  revert s. induction keys as [|key keys IH]; intros s Hkeys Hnd Hin.
  { exists s, []. split_and!; [done..|]. intros k. by rewrite bool_decide_false by set_solver. }
  apply NoDup_cons in Hnd as [Hnot Hnd]. rewrite expire_loop_cons.
  destruct (Hin key ltac:(left)) as [i Hi]. rewrite Hi, remove_instance_run.
  set (s1 := push_event _ _).
  assert (instances s1 = delete key (instances s)) as Hs1 by done.
  destruct (IH s1) as (s2 & results & -> & Hres & Hinst).
  - intros k j. rewrite Hs1. intros [_ Hj]%lookup_delete_Some. eauto.
  - done.
  - intros k Hk. rewrite Hs1, lookup_delete_ne by (intros ->; done). apply Hin. by right.
  - do 2 eexists. split; [done|]. rewrite fmap_cons, Hres. split.
    + f_equal. apply Hkeys in Hi. by rewrite <- Hi.
    + intros k. rewrite Hinst, Hs1. destruct (decide (k = key)) as [->|].
      * rewrite lookup_delete_eq. repeat case_bool_decide; set_solver.
      * rewrite lookup_delete_ne by done. repeat case_bool_decide; set_solver.
Qed.

(** The order of the keys, written out: by namespace, then environment, then service,
    then instance, each compared byte by byte. *)
Definition key_lt (k1 k2 : InstanceKey) : Prop :=
  String.compare (ik_namespace k1) (ik_namespace k2) = Lt
  ∨ ik_namespace k1 = ik_namespace k2
    ∧ (String.compare (ik_environment k1) (ik_environment k2) = Lt
       ∨ ik_environment k1 = ik_environment k2
         ∧ (String.compare (ik_service_name k1) (ik_service_name k2) = Lt
            ∨ ik_service_name k1 = ik_service_name k2
              ∧ String.compare (ik_instance_id k1) (ik_instance_id k2) = Lt)).

Lemma key_order_lt k1 k2 : key_order k1 k2 = Lt → key_lt k1 k2.
Proof.
  unfold key_order, then_with, cmp_on, key_lt. intros H.
  destruct (String.compare (ik_namespace k1) _) eqn:E1; [|by left|done].
  right. split; [by apply String.compare_eq_iff|].
  destruct (String.compare (ik_environment k1) _) eqn:E2; [|by left|done].
  right. split; [by apply String.compare_eq_iff|].
  destruct (String.compare (ik_service_name k1) _) eqn:E3; [|by left|done].
  right. split; [by apply String.compare_eq_iff|done].
Qed.

Lemma key_order_le k1 k2 : cmp_le key_order k1 k2 → k1 ≠ k2 → key_lt k1 k2.
Proof.
  unfold cmp_le. intros Hle Hne. apply key_order_lt.
  destruct (key_order k1 k2) eqn:E; [by apply key_order_eq in E|done|done].
Qed.

Lemma key_sorted ks : StronglySorted (cmp_le key_order) ks → NoDup ks → StronglySorted key_lt ks.
Proof.
  induction 1 as [|k ks _ IH Hk]; intros Hnd; [constructor|].
  apply NoDup_cons in Hnd as [Hnot Hnd]. constructor; [by apply IH|].
  rewrite Forall_forall in Hk. apply Forall_forall. intros k' Hk'.
  apply key_order_le; [by apply Hk|]. by intros <-.
Qed.

Lemma expired_keys_sorted `{HashOrder} now s : StronglySorted key_lt (expired_keys now s).
Proof. apply key_sorted; [apply sort_by_sorted; apply _|apply NoDup_expired_keys]. Qed.

(** A key of a strictly sorted list that is not among the first [n] comes after all of
    them, and then there are [n]. *)
Lemma beyond_first {A} (R : A → A → Prop) n (l : list A) x :
  StronglySorted R l → x ∈ l → x ∉ take_N n l →
  len_N (take_N n l) = n ∧ ∀ y, y ∈ take_N n l → R y x.
Proof.
  rewrite take_N_take. intros Hs Hx Hnot. rewrite <- (take_drop (N.to_nat n) l) in Hs, Hx.
  apply elem_of_app in Hx as [?|Hx]; [done|]. split.
  - assert (N.to_nat n < length l)%nat.
    { apply list_elem_of_lookup in Hx as [j Hj%lookup_lt_Some]. rewrite length_drop in Hj. lia. }
    unfold len_N. rewrite length_take. lia.
  - intros y Hy. eapply StronglySorted_app_1_elem_of; eauto.
Qed.

(** C12: one expiry pass removes the first [max] of the expired entries in key order, and
    only those.  The keys it reports are of expired entries, each once and in ascending
    order, and at most [max] of them; an expired entry that is not reported comes after
    all that are, and only if there are [max]; the entries of the reported keys are gone
    and every other entry is as it was.  A pass that is asked for no entry is refused. *)
Theorem expire_instances_exact `{HashOrder} now max s :
  store_wf s →
  if max =? 0 then ∃ m, expire_instances now max s = (s, Err (InvalidArgument m))
  else ∃ s' results, expire_instances now max s = (s', Ok results)
    ∧ let ks := result_key <$> results in
      StronglySorted key_lt ks ∧ len_N ks <= max
      ∧ (∀ k, k ∈ ks → ∃ i, instances s !! k = Some i ∧ si_expires_at_ms i <= now)
      ∧ (∀ k i, instances s !! k = Some i → si_expires_at_ms i <= now → k ∉ ks →
           len_N ks = max ∧ ∀ k', k' ∈ ks → key_lt k' k)
      ∧ ∀ k, instances s' !! k = if bool_decide (k ∈ ks) then None else instances s !! k.
Proof.
  intros Hwf. unfold expire_instances. rewrite lift_bind_run.
  destruct (N.eqb_spec max 0); [by eauto|]. rewrite gets_bind_run.
  destruct (expire_loop_spec (take_N max (expired_keys now s)) s)
    as (s' & results & -> & Hres & Hinst).
  - apply Hwf.
  - eapply sublist_NoDup; [apply NoDup_expired_keys|]. rewrite take_N_take. apply sublist_take.
  - intros k (i & Hi & _)%elem_of_take_N%elem_of_expired_keys. eauto.
  - exists s', results. cbv zeta. rewrite Hres. split_and!; [done|..|done].
    + rewrite take_N_take. pose proof (expired_keys_sorted now s) as Hs.
      rewrite <- (take_drop (N.to_nat max) _) in Hs. by apply StronglySorted_app_1_l in Hs.
    + rewrite take_N_length. lia.
    + intros k Hk%elem_of_take_N. by apply elem_of_expired_keys.
    + intros k i Hi Hex Hnot. apply beyond_first; [apply expired_keys_sorted| |done].
      apply elem_of_expired_keys. eauto.
Qed.

Lemma expire_instances_exact_witness :
  ∃ s' results, @expire_instances canonical_order 40000 1 sample_store = (s', Ok results)
    ∧ len_N (result_key <$> results) <= 1
    ∧ (instances s' !! register_key (sample_register "drive-2" 0)
       = if bool_decide (register_key (sample_register "drive-2" 0) ∈ result_key <$> results)
         then None else instances sample_store !! register_key (sample_register "drive-2" 0)).
Proof.
  destruct (@expire_instances_exact canonical_order 40000 1 sample_store (proj1 sample_store_wf))
    as (s' & results & E & _ & Hlen & _ & _ & Hinst).
  exists s', results. split; [exact E|]. split; [exact Hlen|apply Hinst].
Defined.

(** Which instances a pass removes does not depend on the order the hash map
    is iterated in. *)
Theorem expire_order_independent (h1 h2 : HashOrder) now max s :
  @expire_instances h1 now max s = @expire_instances h2 now max s.
Proof.
  assert (@expired_keys h1 now s = @expired_keys h2 now s) as E.
  { unfold expired_keys. apply sort_by_perm_eq; [apply _|intros ? ? _ _; apply key_order_eq|].
    by rewrite !hash_iter_perm. }
  unfold expire_instances. rewrite !lift_bind_run. case_match; [|done].
  rewrite !gets_bind_run. by rewrite E.
Qed.

(** ** Discovery *)

(** The instances that pass the storage filter, before sorting and paging. *)
Definition found `{HashOrder} (q : DiscoverInstancesQuery) (now : N)
    (s : MemoryDiscoveryStore) : list ServiceInstance :=
  retain (discover_filter q now) (hash_values (instances s)).

Lemma elem_of_found `{HashOrder} q now s i :
  i ∈ found q now s ↔ discover_filter q now i = true ∧ ∃ k, instances s !! k = Some i.
Proof. unfold found. by rewrite elem_of_retain, elem_of_hash_values. Qed.

Lemma hash_values_keys `{HashOrder} s :
  store_wf s → key_of <$> hash_values (instances s) = (hash_iter (instances s)).*1.
Proof.
  intros Hwf. unfold hash_values. rewrite <- list_fmap_compose.
  apply list_fmap_ext. intros n [k i] Hn. simpl.
  apply list_elem_of_lookup_2, elem_of_hash_iter in Hn. by eapply rw_key; [apply Hwf|].
Qed.

(** Within one service the instance id identifies the entry. *)
Lemma NoDup_found_ids `{HashOrder} q now s :
  store_wf s → NoDup (si_instance_id <$> found q now s).
Proof.
  intros Hwf.
  assert (NoDup (key_of <$> found q now s)) as Hnd.
  { eapply NoDup_fmap_sublist; [apply retain_sublist|]. rewrite hash_values_keys by done.
    apply NoDup_hash_keys. }
  apply (NoDup_fmap_1 (λ id, {| ik_namespace := dq_namespace q;
    ik_environment := dq_environment q; ik_service_name := dq_service_name q;
    ik_instance_id := id |})).
  rewrite <- list_fmap_compose. erewrite list_fmap_ext; [exact Hnd|].
  intros n i Hi. apply list_elem_of_lookup_2, elem_of_found in Hi as [Hf _].
  unfold discover_filter in Hf. rewrite !andb_true_iff, !bool_decide_eq_true in Hf.
  destruct Hf as [[[[[E1 E2] E3] _] _] _]. unfold key_of, compose. by rewrite E1, E2, E3.
Qed.

Definition valid_discover_query (q : DiscoverInstancesQuery) : Prop :=
  is_blank (dq_namespace q) = false ∧ is_blank (dq_environment q) = false
  ∧ is_blank (dq_service_name q) = false
  ∧ ∀ p, dq_protocol q = Some p → is_blank p = false.

Lemma discover_instances_valid `{HashOrder} h q now s :
  valid_discover_query q →
  discover_instances h q now s =
    Ok (finalize_discover_instances h (found q now s) q (revision s)).
Proof.
  intros (H1 & H2 & H3 & H4). unfold discover_instances, validate_optional_filter,
    validate_non_empty. rewrite H1, H2, H3. simpl.
  destruct (dq_protocol q) as [p|] eqn:E; [rewrite (H4 p) by done|]; done.
Qed.

(** Outside the weighted random order, the answer of a discovery query is a
    function of the stored instances: the hash map's iteration order never shows. *)
Theorem discover_order_independent (h1 h2 : HashOrder) dh1 dh2 q now s :
  store_wf s → valid_discover_query q →
  default ByInstanceId (dq_sort_by q) ≠ WeightedRandom →
  @discover_instances h1 dh1 q now s = @discover_instances h2 dh2 q now s.
Proof.
  intros Hwf Hq Hs. rewrite !discover_instances_valid by done.
  rewrite !finalize_discover_pages by done.
  rewrite (selected_perm_eq q (@found h1 q now s) (@found h2 q now s)); [done|done| |].
  - by apply NoDup_found_ids.
  - unfold found. by rewrite (hash_values_perm h1 h2).
Qed.

Definition sample_query (page_size : N) (token : option string) : DiscoverInstancesQuery :=
  {| dq_namespace := "acme"; dq_environment := "prod"; dq_service_name := "drive";
     dq_healthy_only := true; dq_protocol := Some "grpc"; dq_label_filters := [];
     dq_sort_by := None; dq_page_size := page_size; dq_page_token := token |}.

Lemma sample_query_valid n t : valid_discover_query (sample_query n t).
Proof. split_and!; [done..|]. by intros p [= <-]. Qed.

Lemma discover_order_independent_witness :
  @discover_instances canonical_order (λ _ _, 0) (sample_query 1 None) 6000 sample_store
  = @discover_instances canonical_order (λ a b, a + b) (sample_query 1 None) 6000 sample_store.
Proof.
  apply discover_order_independent; [apply sample_store_wf|apply sample_query_valid|discriminate].
Defined.

(** A client that repeats a query with the token each answer carries. *)
Definition with_page_token (q : DiscoverInstancesQuery) (t : option string)
    : DiscoverInstancesQuery :=
  {| dq_namespace := dq_namespace q; dq_environment := dq_environment q;
     dq_service_name := dq_service_name q; dq_healthy_only := dq_healthy_only q;
     dq_protocol := dq_protocol q; dq_label_filters := dq_label_filters q;
     dq_sort_by := dq_sort_by q; dq_page_size := dq_page_size q; dq_page_token := t |}.

Fixpoint walk_discover `{HashOrder} (dh : N → N → N) (q : DiscoverInstancesQuery) (now : N)
    (s : MemoryDiscoveryStore) (fuel : nat) (token : option string)
    : option (list ServiceInstance) :=
  match fuel with
  | O => None
  | S fuel =>
      match discover_instances dh (with_page_token q token) now s with
      | Err _ => None
      | Ok r =>
          match di_next_page_token r with
          | None => Some (di_instances r)
          | Some t => (di_instances r ++.) <$> walk_discover dh q now s fuel (Some t)
          end
      end
  end.

Lemma walk_discover_pages `{HashOrder} dh q now s fuel token :
  valid_discover_query q → default ByInstanceId (dq_sort_by q) ≠ WeightedRandom →
  walk_discover dh q now s fuel token =
  walk_pages si_instance_id (selected q (found q now s)) (dq_page_size q) fuel token.
Proof.
  intros Hq Hs. revert token. induction fuel as [|fuel IH]; intros token; [done|].
  cbn [walk_discover walk_pages].
  rewrite discover_instances_valid by exact Hq. rewrite finalize_discover_pages by exact Hs.
  change (selected (with_page_token q token) (found (with_page_token q token) now s))
    with (selected q (found q now s)). simpl.
  destruct (paginate_sorted_keys _ _ _ _) as [page [t|]]; simpl; [by rewrite IH|done].
Qed.

Lemma walk_discover_selected `{HashOrder} dh q now s :
  store_wf s → valid_discover_query q → default ByInstanceId (dq_sort_by q) ≠ WeightedRandom →
  walk_discover dh q now s (S (size (instances s))) None = Some (selected q (found q now s)).
Proof.
  intros Hwf Hq Hs. pose proof (NoDup_found_ids q now s Hwf) as Hnd.
  rewrite walk_discover_pages by done.
  assert (length (selected q (found q now s)) ≤ size (instances s))%nat as Hlen.
  { unfold selected. rewrite sort_by_perm. etransitivity;
      [apply sublist_length, retain_sublist|]. etransitivity;
      [apply sublist_length, retain_sublist|]. unfold hash_values.
    by rewrite length_fmap, hash_iter_length. }
  eapply walk_pages_fuel; [|apply walk_pages_complete].
  - lia.
  - by apply NoDup_selected.
  - apply Forall_forall. intros i (Hi & _)%elem_of_selected E.
    apply elem_of_found in Hi as (_ & k & Hk).
    destruct (rw_named _ _ _ _ (wf_registry _ Hwf) _ _ Hk) as [Hn _].
    rewrite <- (rw_key _ _ _ _ (wf_registry _ Hwf) _ _ Hk) in Hn. simpl in Hn.
    by rewrite E in Hn.
Qed.

(** What the label conditions of a query ask of the metadata of an instance. *)
Definition label_holds (f : LabelFilter) (metadata : gmap string string) : Prop :=
  match lf_op f with
  | LabelEq => metadata !! lf_key f = Some (lf_value f)
  | LabelNotEq => metadata !! lf_key f ≠ Some (lf_value f)
  | LabelIn => ∃ v, metadata !! lf_key f = Some v ∧ v ∈ split ","%char (lf_value f)
  | LabelExists => ∃ v, metadata !! lf_key f = Some v
  end.

Lemma label_matches_holds f metadata : label_matches f metadata = true ↔ label_holds f metadata.
Proof.
  unfold label_matches, label_holds. destruct (lf_op f).
  - by rewrite bool_decide_eq_true.
  - by rewrite negb_true_iff, bool_decide_eq_false.
  - destruct (metadata !! lf_key f) as [v|]; [rewrite bool_decide_eq_true|]; naive_solver.
  - by rewrite bool_decide_eq_true.
Qed.

(** The instances a query is after at time [now]: those of its service whose lease runs,
    of its protocol if it names one, fit for traffic if it asks for that, and with every
    label it asks for. *)
Definition wanted (q : DiscoverInstancesQuery) (now : N) (i : ServiceInstance) : Prop :=
  si_namespace i = dq_namespace q ∧ si_environment i = dq_environment q
  ∧ si_service_name i = dq_service_name q
  ∧ (∀ p, dq_protocol q = Some p → si_protocol i = p)
  ∧ now < si_expires_at_ms i
  ∧ (dq_healthy_only q = true → si_status i = Serving ∨ si_status i = Degraded)
  ∧ ∀ f, f ∈ dq_label_filters q → label_holds f (si_metadata i).

Lemma is_discoverable_cases st : is_discoverable st = true ↔ st = Serving ∨ st = Degraded.
Proof. destruct st; naive_solver. Qed.

Lemma discover_filter_wanted q now i :
  discover_filter q now i = true
  ∧ (∀ f, f ∈ dq_label_filters q → label_matches f (si_metadata i) = true)
  ↔ wanted q now i.
Proof.
  unfold discover_filter, wanted, is_none_or. setoid_rewrite label_matches_holds.
  rewrite !andb_true_iff, !bool_decide_eq_true, orb_true_iff, negb_true_iff, N.ltb_lt,
    is_discoverable_cases.
  destruct (dq_protocol q) as [p|]; [rewrite bool_decide_eq_true|];
    destruct (dq_healthy_only q); naive_solver.
Qed.

(** The instances a query is after, as the code filters and sorts them. *)
Lemma elem_of_selected_found `{HashOrder} q now s i :
  i ∈ selected q (found q now s) ↔ (∃ k, instances s !! k = Some i) ∧ wanted q now i.
Proof. rewrite elem_of_selected, elem_of_found, <- discover_filter_wanted. naive_solver. Qed.

(** The orders a client may ask for, written out: by id; by weight, the heaviest first,
    then by id; by priority, the lowest number first, then as by weight. *)
Definition before_by_id (i j : ServiceInstance) : Prop :=
  String.compare (si_instance_id i) (si_instance_id j) ≠ Gt.

Definition before_by_weight (i j : ServiceInstance) : Prop :=
  si_weight j < si_weight i ∨ si_weight i = si_weight j ∧ before_by_id i j.

Definition ranked (order : DiscoverSortBy) (i j : ServiceInstance) : Prop :=
  match order with
  | ByInstanceId => before_by_id i j
  | ByWeight => before_by_weight i j
  | ByPriority =>
      si_priority i < si_priority j ∨ si_priority i = si_priority j ∧ before_by_weight i j
  | WeightedRandom => True
  end.

Lemma by_weight_before i j :
  cmp_le (then_with by_weight_desc by_instance_id) i j → before_by_weight i j.
Proof.
  unfold cmp_le, then_with, by_weight_desc, cmp_rev, cmp_on, before_by_weight.
  destruct (N.compare_spec (si_weight j) (si_weight i)); [|by left|done].
  intros Hc. right. split; [done|exact Hc].
Qed.

Lemma sort_order_ranked order i j : cmp_le (sort_order order) i j → ranked order i j.
Proof.
  destruct order; simpl; [done| |apply by_weight_before|done].
  unfold cmp_le at 1. unfold then_with at 1. unfold cmp_on at 1.
  destruct (N.compare_spec (si_priority i) (si_priority j)); [|by left|done].
  intros Hc. right. split; [done|]. by apply by_weight_before.
Qed.

Lemma selected_ranked q l :
  StronglySorted (ranked (default ByInstanceId (dq_sort_by q))) (selected q l).
Proof.
  eapply StronglySorted_weaken; [|apply selected_sorted]. intros i j. apply sort_order_ranked.
Qed.

(** What a client that has followed the page tokens to the end may hold: each instance
    once; for an order other than the weighted random one all that are wanted and nothing
    else, in that order; for the weighted random order wanted ones, as many as a page
    holds or all there are. *)
Record walked (q : DiscoverInstancesQuery) (now : N) (s : MemoryDiscoveryStore)
    (l : list ServiceInstance) : Prop := {
  walked_once : NoDup (si_instance_id <$> l);
  walked_order : StronglySorted (ranked (default ByInstanceId (dq_sort_by q))) l;
  walked_wanted : ∀ i, i ∈ l → (∃ k, instances s !! k = Some i) ∧ wanted q now i;
  walked_all : ∀ k i, instances s !! k = Some i → wanted q now i →
    i ∈ l ∨ default ByInstanceId (dq_sort_by q) = WeightedRandom
            ∧ len_N l = normalize_page_size (dq_page_size q);
  walked_page : default ByInstanceId (dq_sort_by q) = WeightedRandom →
    len_N l <= normalize_page_size (dq_page_size q);
}.

Lemma walked_selected `{HashOrder} q now s :
  store_wf s → default ByInstanceId (dq_sort_by q) ≠ WeightedRandom →
  walked q now s (selected q (found q now s)).
Proof.
  intros Hwf Hs. split; [by apply NoDup_selected, NoDup_found_ids|apply selected_ranked| | |done].
  - intros i. apply elem_of_selected_found.
  - intros k i Hi Hw. left. apply elem_of_selected_found. eauto.
Qed.

(** The weighted random order answers one page. *)
Lemma discover_random_page `{HashOrder} dh q now s :
  valid_discover_query q → default ByInstanceId (dq_sort_by q) = WeightedRandom →
  discover_instances dh q now s = Ok {| di_revision := revision s;
    di_instances := take_N (normalize_page_size (dq_page_size q))
      (weighted_shuffle_discover_instances dh (selected q (found q now s)));
    di_next_page_token := None |}.
Proof.
  intros Hq Hs. rewrite discover_instances_valid by done.
  unfold finalize_discover_instances, selected. rewrite Hs. f_equal.
  set (l' := weighted_shuffle_discover_instances dh _).
  destruct (N.ltb_spec (normalize_page_size (dq_page_size q)) (len_N l')); [done|].
  by rewrite take_N_all.
Qed.

Lemma StronglySorted_trivial {A} (R : A → A → Prop) l : (∀ x y, R x y) → StronglySorted R l.
Proof. intros HR. induction l; constructor; [done|]. apply Forall_forall. auto. Qed.

Lemma walked_random `{HashOrder} dh q now s :
  store_wf s → default ByInstanceId (dq_sort_by q) = WeightedRandom →
  walked q now s (take_N (normalize_page_size (dq_page_size q))
    (weighted_shuffle_discover_instances dh (selected q (found q now s)))).
Proof.
  intros Hwf Hs. set (n := normalize_page_size _). set (ms := selected q (found q now s)).
  pose proof (weighted_shuffle_perm dh ms) as Hp.
  split; fold n; [| |intros i Hi%elem_of_take_N| |intros _; rewrite take_N_length; lia].
  - eapply NoDup_fmap_sublist; [rewrite take_N_take; apply sublist_take|].
    rewrite Hp. by apply NoDup_selected, NoDup_found_ids.
  - apply StronglySorted_trivial. by rewrite Hs.
  - rewrite Hp in Hi. by apply elem_of_selected_found in Hi.
  - intros k i Hk Hw. destruct (N.le_gt_cases (len_N ms) n) as [Hle|Hgt].
    + left. rewrite take_N_all by (unfold len_N in *; by rewrite Hp). rewrite Hp.
      apply elem_of_selected_found. eauto.
    + right. split; [done|]. rewrite take_N_length. unfold len_N in *. rewrite Hp. lia.
Qed.

Lemma discover_instances_invalid `{HashOrder} dh q now s :
  ¬ valid_discover_query q → ∃ m, discover_instances dh q now s = Err (InvalidArgument m).
Proof.
  intros Hq. unfold discover_instances, validate_optional_filter, validate_non_empty.
  unfold valid_discover_query in Hq.
  destruct (is_blank (dq_namespace q)); [by eauto|].
  destruct (is_blank (dq_environment q)); [by eauto|].
  destruct (is_blank (dq_service_name q)); [by eauto|].
  destruct (dq_protocol q) as [p|]; [|exfalso; naive_solver].
  destruct (is_blank p) eqn:Ep; [by eauto|]. exfalso. apply Hq. split_and!; naive_solver.
Qed.

(** C13: following the page tokens of a discovery query over an unchanged store ends.
    A query with a blank name or a blank protocol is refused, at every page.  For every
    other query the pages together hold each instance at most once and only live ones of
    the service that match the protocol, the health condition and the labels asked for;
    by id, by weight or by priority they hold all of these, in that order (by weight: the
    heaviest first; by priority: the lowest first, then by weight; ties by id); in the
    weighted random order there is one page, without a token, that is full or holds them
    all. *)
Theorem discover_walk_exact `{HashOrder} dh q now s :
  store_wf s →
  (¬ valid_discover_query q → ∀ token, ∃ m,
     discover_instances dh (with_page_token q token) now s = Err (InvalidArgument m))
  ∧ (valid_discover_query q →
     ∃ l, walk_discover dh q now s (S (size (instances s))) None = Some l ∧ walked q now s l
       ∧ (default ByInstanceId (dq_sort_by q) = WeightedRandom →
          discover_instances dh (with_page_token q None) now s
          = Ok {| di_revision := revision s; di_instances := l; di_next_page_token := None |})).
Proof.
  intros Hwf. split; [intros Hq token; by apply discover_instances_invalid|]. intros Hq.
  destruct (decide (default ByInstanceId (dq_sort_by q) = WeightedRandom)) as [Hs|Hs].
  - pose proof (discover_random_page dh (with_page_token q None) now s Hq Hs) as E.
    change (selected (with_page_token q None) (found (with_page_token q None) now s))
      with (selected q (found q now s)) in E.
    change (dq_page_size (with_page_token q None)) with (dq_page_size q) in E.
    eexists. split; [cbn [walk_discover]; rewrite E; done|].
    split; [by apply walked_random|by intros _].
  - exists (selected q (found q now s)).
    split_and!; [by apply walk_discover_selected|by apply walked_selected|done].
Qed.

Definition sample_random_query : DiscoverInstancesQuery :=
  {| dq_namespace := "acme"; dq_environment := "prod"; dq_service_name := "drive";
     dq_healthy_only := false; dq_protocol := None; dq_label_filters := [];
     dq_sort_by := Some WeightedRandom; dq_page_size := 1; dq_page_token := None |}.

Lemma discover_walk_exact_witness :
  (∃ l, @walk_discover canonical_order (λ _ _, 0) (sample_query 1 None) 6000 sample_store 3 None
        = Some l ∧ walked (sample_query 1 None) 6000 sample_store l)
  ∧ (∃ l, @walk_discover canonical_order (λ _ _, 7) sample_random_query 6000 sample_store 3 None
          = Some l ∧ walked sample_random_query 6000 sample_store l).
Proof.
  split.
  - destruct (proj2 (@discover_walk_exact canonical_order (λ _ _, 0) (sample_query 1 None) 6000
      sample_store (proj1 sample_store_wf)) (sample_query_valid _ _)) as (l & H1 & H2 & _).
    exists l. split; [exact H1|exact H2].
  - destruct (proj2 (@discover_walk_exact canonical_order (λ _ _, 7) sample_random_query 6000
      sample_store (proj1 sample_store_wf)) ltac:(split_and!; done)) as (l & H1 & H2 & _).
    exists l. split; [exact H1|exact H2].
Defined.

(** Weighted random discovery answers with one page and no continuation token:
    the first draws, up to the page size, of drawing all live matches without
    replacement, where each draw takes the match whose share of the remaining weight
    holds the hash.  The page has distinct matches, as many as there are or as fit,
    and a match of weight zero only after those with weight. *)
Theorem discover_weighted_random_sample `{HashOrder} dh q now s :
  let matches := selected q (found q now s) in
  let n := normalize_page_size (dq_page_size q) in
  store_wf s → valid_discover_query q → dq_sort_by q = Some WeightedRandom →
  weights matches <= u64_max →
  ∃ r draws heavy light,
    discover_instances dh q now s = Ok r ∧ di_next_page_token r = None
    ∧ drawn dh 0 matches draws ∧ di_instances r = take_N n draws
    ∧ NoDup (si_instance_id <$> di_instances r)
    ∧ (∀ i, i ∈ di_instances r → i ∈ matches)
    ∧ len_N (di_instances r) = N.min n (len_N matches)
    ∧ di_instances r = heavy ++ light
    ∧ Forall (λ i, 0 < si_weight i) heavy ∧ Forall (λ i, si_weight i = 0) light.
Proof.
  intros matches n Hwf Hq Hs Hmax. rewrite discover_instances_valid by done.
  pose proof (NoDup_selected q _ (NoDup_found_ids q now s Hwf)) as Hnd. fold matches in Hnd.
  set (draws := weighted_shuffle_discover_instances dh matches).
  pose proof (weighted_shuffle_drawn dh matches Hmax) as Hd. fold draws in Hd.
  pose proof (weighted_shuffle_perm dh matches) as Hp. fold draws in Hp.
  assert (len_N draws = len_N matches) as Hlen by (unfold len_N; by rewrite Hp).
  destruct (drawn_weighted_first _ _ _ _ Hd) as (heavy & light & Ed & Hh & Hz).
  eexists _, draws, (take (N.to_nat n) heavy), (take (N.to_nat n - length heavy) light).
  split; [done|].
  assert (finalize_discover_instances dh (found q now s) q (revision s) =
    {| di_revision := revision s; di_instances := take_N n draws;
       di_next_page_token := None |}) as ->.
  { unfold finalize_discover_instances, draws, matches, selected. rewrite Hs. simpl.
    fold n. set (l' := weighted_shuffle_discover_instances dh _).
    destruct (N.ltb_spec n (len_N l')); [done|]. by rewrite take_N_all. }
  simpl. split_and!; [done|done|done| | | |by rewrite take_N_take, Ed, take_app|by apply Forall_take..].
  - eapply NoDup_fmap_sublist; [rewrite take_N_take; apply sublist_take|]. by rewrite Hp.
  - intros i Hi%elem_of_take_N. by rewrite <- Hp.
  - by rewrite take_N_length, Hlen.
Qed.

Lemma discover_weighted_random_sample_witness :
  ∃ r, @discover_instances canonical_order (λ a b, a * 31 + b) sample_random_query 6000
         sample_store = Ok r ∧ len_N (di_instances r) = 1.
Proof.
  destruct (@discover_weighted_random_sample canonical_order (λ a b, a * 31 + b)
              sample_random_query 6000 sample_store (proj1 sample_store_wf)
              ltac:(split_and!; [done..|]; intros p [=]) eq_refl
              ltac:(vm_compute; discriminate)) as (r & _ & _ & _ & H1 & _ & _ & _ & _ & _ & H2 & _).
  exists r. split; [exact H1|]. rewrite H2. vm_compute. reflexivity.
Defined.

(** ** Service listing *)

(** The live instances of one service in a namespace and environment. *)
Definition live_of `{HashOrder} (q : ListServicesQuery) (now : N) (name : string)
    (s : MemoryDiscoveryStore) : list ServiceInstance :=
  retain (λ i, bool_decide (si_namespace i = lq_namespace q)
               && bool_decide (si_environment i = lq_environment q)
               && bool_decide (si_service_name i = name)
               && (now <? si_expires_at_ms i)) (hash_values (instances s)).

Definition max_revision (l : list ServiceInstance) : N :=
  foldl (λ m i, N.max m (si_revision i)) 0 l.

(** What a listing says of a service whose live instances are [l]. *)
Definition summarize (ns env name : string) (l : list ServiceInstance) : option ServiceSummary :=
  if decide (l = []) then None
  else Some {| ss_namespace := ns; ss_environment := env; ss_service_name := name;
               ss_active_instance_count := len_N l; ss_latest_revision := max_revision l |}.

Lemma summarize_snoc ns env i l :
  len_N l < u64_max → si_namespace i = ns → si_environment i = env →
  summarize ns env (si_service_name i) (l ++ [i]) =
    let summary := default {| ss_namespace := si_namespace i; ss_environment := si_environment i;
                              ss_service_name := si_service_name i;
                              ss_active_instance_count := 0; ss_latest_revision := 0 |}
                     (summarize ns env (si_service_name i) l) in
    Some {| ss_namespace := ss_namespace summary; ss_environment := ss_environment summary;
            ss_service_name := ss_service_name summary;
            ss_active_instance_count := u64_succ (ss_active_instance_count summary);
            ss_latest_revision := N.max (ss_latest_revision summary) (si_revision i) |}.
Proof.
  intros Hlen <- <-. unfold summarize.
  rewrite (decide_False (P := l ++ [i] = [])) by (by destruct l).
  assert (len_N (l ++ [i]) = len_N l + 1) as ->.
  { unfold len_N. rewrite length_app. simpl. lia. }
  unfold max_revision. rewrite foldl_app. case_decide as El; simpl.
  - by rewrite El.
  - by rewrite u64_succ_small.
Qed.

(** The loop's accumulator after any list of instances of one scope. *)
Lemma count_instances_spec now ns env l name :
  (∀ i, i ∈ l → si_namespace i = ns ∧ si_environment i = env) → len_N l <= u64_max →
  foldl (count_instance now) ∅ l !! name =
  summarize ns env name (retain (λ i, bool_decide (si_service_name i = name)
                                      && (now <? si_expires_at_ms i)) l).
Proof.
  induction l as [|i l IH] using rev_ind; intros Hsc Hlen; [done|].
  assert (len_N (l ++ [i]) = len_N l + 1) as Hsnoc.
  { unfold len_N. rewrite length_app. simpl. lia. }
  destruct (Hsc i) as [Hns Henv]; [set_solver|].
  specialize (IH ltac:(intros j Hj; apply Hsc, elem_of_app; by left) ltac:(lia)).
  pose proof (retain_len (λ i, bool_decide (si_service_name i = name)
                               && (now <? si_expires_at_ms i)) l) as Hhere.
  rewrite foldl_app, retain_snoc. cbn [foldl]. set (here := retain _ l) in *.
  unfold count_instance at 1. destruct (N.leb_spec (si_expires_at_ms i) now).
  { rewrite andb_comm. destruct (N.ltb_spec now (si_expires_at_ms i)); [lia|].
    by rewrite app_nil_r. }
  destruct (N.ltb_spec now (si_expires_at_ms i)); [|lia].
  destruct (decide (si_service_name i = name)) as [<-|Hne].
  - rewrite lookup_insert_eq, bool_decide_true by done. cbn [andb].
    rewrite (summarize_snoc ns env i here) by (done || lia). by rewrite IH.
  - rewrite lookup_insert_ne by done. by rewrite bool_decide_false, app_nil_r by done.
Qed.

(** The summaries a listing pages through. *)
Definition listed `{HashOrder} (q : ListServicesQuery) (now : N) (s : MemoryDiscoveryStore)
    : list ServiceSummary :=
  sort_by by_service_name
    (btree_values (foldl (count_instance now) ∅
       (retain (λ i, bool_decide (si_namespace i = lq_namespace q)
                     && bool_decide (si_environment i = lq_environment q))
          (hash_values (instances s))))).

Definition with_list_token (q : ListServicesQuery) (t : option string) : ListServicesQuery :=
  {| lq_namespace := lq_namespace q; lq_environment := lq_environment q;
     lq_page_size := lq_page_size q; lq_page_token := t |}.

Fixpoint walk_services `{HashOrder} (q : ListServicesQuery) (now : N) (s : MemoryDiscoveryStore)
    (fuel : nat) (token : option string) : option (list ServiceSummary) :=
  match fuel with
  | O => None
  | S fuel =>
      match list_services (with_list_token q token) now s with
      | Err _ => None
      | Ok r =>
          match ls_next_page_token r with
          | None => Some (ls_services r)
          | Some t => (ls_services r ++.) <$> walk_services q now s fuel (Some t)
          end
      end
  end.

Lemma walk_services_pages `{HashOrder} q now s fuel token :
  is_blank (lq_namespace q) = false → is_blank (lq_environment q) = false →
  walk_services q now s fuel token =
  walk_pages ss_service_name (listed q now s) (lq_page_size q) fuel token.
Proof.
  intros Hn He. revert token. induction fuel as [|fuel IH]; intros token; [done|].
  cbn [walk_services walk_pages]. unfold list_services, validate_non_empty. simpl.
  rewrite Hn, He. simpl. unfold finalize_list_services. simpl. fold (listed q now s).
  destruct (paginate_sorted_keys _ _ _ _) as [page [t|]]; simpl; [by rewrite IH|done].
Qed.

Lemma lookup_services `{HashOrder} q now s name :
  N.of_nat (size (instances s)) <= u64_max →
  foldl (count_instance now) ∅
    (retain (λ i, bool_decide (si_namespace i = lq_namespace q)
                  && bool_decide (si_environment i = lq_environment q))
       (hash_values (instances s))) !! name =
  summarize (lq_namespace q) (lq_environment q) name (live_of q now name s).
Proof.
  intros Hsize. rewrite (count_instances_spec now (lq_namespace q) (lq_environment q)).
  - f_equal. rewrite retain_retain. unfold live_of, retain. apply list_filter_iff.
    intros i. rewrite !andb_true_iff. tauto.
  - intros i. rewrite elem_of_retain, andb_true_iff, !bool_decide_eq_true. tauto.
  - etransitivity; [apply retain_len|]. unfold len_N, hash_values.
    by rewrite length_fmap, hash_iter_length.
Qed.

Lemma elem_of_listed `{HashOrder} q now s x :
  N.of_nat (size (instances s)) <= u64_max →
  x ∈ listed q now s ↔
  summarize (lq_namespace q) (lq_environment q) (ss_service_name x)
    (live_of q now (ss_service_name x) s) = Some x.
Proof.
  intros Hsize. unfold listed, btree_values. rewrite elem_of_sort_by, list_elem_of_fmap. split.
  - intros ([name y] & -> & Hin%elem_of_btree_iter). simpl.
    rewrite lookup_services in Hin by done. pose proof Hin as Hname.
    unfold summarize in Hname. case_decide; [done|]. injection Hname as <-. exact Hin.
  - intros Hx. exists (ss_service_name x, x). split; [done|].
    apply elem_of_btree_iter. by rewrite lookup_services.
Qed.

Lemma NoDup_listed `{HashOrder} q now s :
  N.of_nat (size (instances s)) <= u64_max → NoDup (ss_service_name <$> listed q now s).
Proof.
  intros Hsize. unfold listed, btree_values, btree_iter. rewrite sort_by_perm.
  match goal with |- NoDup (_ <$> (sort_by _ ?m).*2) =>
    rewrite sort_by_perm, <- list_fmap_compose end.
  match goal with |- NoDup (_ <$> map_to_list ?m) => set (services := m) end.
  assert ((ss_service_name ∘ snd) <$> map_to_list services = (map_to_list services).*1) as ->.
  { apply list_fmap_ext. intros n [name y] Hl. simpl.
    apply list_elem_of_lookup_2, elem_of_map_to_list in Hl.
    unfold services in Hl. rewrite lookup_services in Hl by done.
    unfold summarize in Hl. case_decide; [done|]. by injection Hl as <-. }
  apply NoDup_fst_map_to_list.
Qed.

Lemma listed_length `{HashOrder} q now s :
  (length (listed q now s) <= size (instances s))%nat.
Proof.
  unfold listed, btree_values, btree_iter.
  rewrite sort_by_perm, length_fmap, sort_by_perm, length_map_to_list.
  assert (∀ l (m : gmap string ServiceSummary),
            (size (foldl (count_instance now) m l) <= size m + length l)%nat) as Hfold.
  { induction l as [|i l IH]; intros m; simpl; [lia|]. etransitivity; [apply IH|].
    unfold count_instance at 1. destruct (_ <=? now); [lia|].
    rewrite map_size_insert. destruct (m !! _); simpl; lia. }
  etransitivity; [apply Hfold|]. rewrite map_size_empty. simpl.
  etransitivity; [apply sublist_length, retain_sublist|].
  unfold hash_values. by rewrite length_fmap, hash_iter_length.
Qed.

(** Following the page tokens of a service listing over an unchanged store
    ends, and lists each service of the namespace and environment that has a live
    instance exactly once, in ascending order of name, with the number of its
    live instances and the largest of their revisions. *)
Theorem list_services_walk_exact `{HashOrder} q now s :
  store_wf s → N.of_nat (size (instances s)) <= u64_max →
  is_blank (lq_namespace q) = false → is_blank (lq_environment q) = false →
  ∃ l, walk_services q now s (S (size (instances s))) None = Some l
    ∧ StronglySorted (cmp_le by_service_name) l ∧ NoDup (ss_service_name <$> l)
    ∧ ∀ x, x ∈ l ↔
        ss_namespace x = lq_namespace q ∧ ss_environment x = lq_environment q
        ∧ live_of q now (ss_service_name x) s ≠ []
        ∧ ss_active_instance_count x = len_N (live_of q now (ss_service_name x) s)
        ∧ ss_latest_revision x = max_revision (live_of q now (ss_service_name x) s).
Proof.
  intros Hwf Hsize Hn He. exists (listed q now s). split_and!.
  - rewrite walk_services_pages by done. eapply walk_pages_fuel; [|apply walk_pages_complete].
    + pose proof (listed_length q now s). lia.
    + by apply NoDup_listed.
    + apply Forall_forall. intros x Hx%elem_of_listed E; [|done].
      unfold summarize in Hx. case_decide as Hl; [done|].
      assert (∃ i, i ∈ live_of q now (ss_service_name x) s) as [i Hi].
      { destruct (live_of q now (ss_service_name x) s) as [|i l]; [done|]. exists i. left. }
      unfold live_of in Hi.
      rewrite elem_of_retain, !andb_true_iff, !bool_decide_eq_true, elem_of_hash_values in Hi.
      destruct Hi as ((([_ _] & Hi) & _) & k & Hk).
      destruct (rw_named _ _ _ _ (wf_registry _ Hwf) _ _ Hk) as (_ & Hb & _).
      rewrite <- (rw_key _ _ _ _ (wf_registry _ Hwf) _ _ Hk) in Hb. simpl in Hb.
      by rewrite Hi, E in Hb.
  - unfold listed, by_service_name. apply sort_by_sorted, _.
  - by apply NoDup_listed.
  - intros x. rewrite elem_of_listed by done. unfold summarize. destruct x as [a b c d e].
    case_decide; simpl in *; naive_solver.
Qed.

Definition sample_list_query : ListServicesQuery :=
  {| lq_namespace := "acme"; lq_environment := "prod"; lq_page_size := 1;
     lq_page_token := None |}.

Lemma list_services_walk_exact_witness :
  ∃ l, @walk_services canonical_order sample_list_query 6000 sample_store 3 None = Some l
       ∧ NoDup (ss_service_name <$> l).
Proof.
  destruct (@list_services_walk_exact canonical_order sample_list_query 6000 sample_store
              (proj1 sample_store_wf) ltac:(vm_compute; discriminate) eq_refl eq_refl)
    as (l & H1 & _ & H2 & _).
  exists l. split; [exact H1|exact H2].
Defined.

(** ** Batches *)

Fixpoint register_all (commands : list RegisterInstanceCommand) (s : MemoryDiscoveryStore)
    : MemoryDiscoveryStore * list (DiscoveryResult RegisterInstanceResult) :=
  match commands with
  | [] => (s, [])
  | c :: commands =>
      let '(s1, r) := register_instance c s in
      let '(s2, rs) := register_all commands s1 in (s2, r :: rs)
  end.

Definition ok_results {A} (rs : list (DiscoveryResult A)) : list A :=
  omap (λ r, match r with Ok a => Some a | Err _ => None end) rs.

Definition batch_error (index : nat) (e : DiscoveryError) : BatchOperationError :=
  {| be_index := N.of_nat index; be_error_code := kind_string e;
     be_error_message := error_to_string e |}.

Lemma batch_register_loop_spec index commands s :
  let '(s1, rs) := register_all commands s in
  let '(s2, b) := batch_register_loop (N.of_nat index) commands s in
  s2 = s1 ∧ br_results b = ok_results rs
  ∧ StronglySorted (λ x y, be_index x < be_index y) (br_errors b)
  ∧ (∀ x, x ∈ br_errors b ↔ ∃ n e, rs !! n = Some (Err e) ∧ x = batch_error (index + n) e)
  ∧ (length (br_results b) + length (br_errors b) = length commands)%nat.
Proof.
  revert index s. induction commands as [|c commands IH]; intros index s.
  { simpl. split_and!; [done..|constructor| |done].
    intros x. split; [intros Hx; by apply elem_of_nil in Hx|intros (n & e & [=] & _)]. }
  simpl. destruct (register_instance c s) as [s1 r]. specialize (IH (S index) s1).
  replace (N.of_nat index + 1) with (N.of_nat (S index)) by lia.
  destruct (register_all commands s1) as [s2 rs].
  destruct (batch_register_loop (N.of_nat (S index)) commands s1) as [s2' b].
  destruct IH as (-> & Hres & Hsort & Herr & Hlen).
  assert (∀ x, (∃ n e, rs !! n = Some (Err e) ∧ x = batch_error (S index + n) e) ↔
               (∃ n e, (r :: rs) !! S n = Some (Err e) ∧ x = batch_error (index + S n) e)) as Hs.
  { intros x. simpl. by setoid_rewrite Nat.add_succ_r. }
  destruct r as [a|e]; simpl.
  - split_and!; [done|by rewrite Hres|done| |lia].
    intros x. rewrite Herr, Hs. split; [naive_solver|]. intros ([|n] & e & He & Hx); naive_solver.
  - split_and!; [done|done| | |lia].
    + constructor; [done|]. apply Forall_forall. intros x Hx%Herr.
      destruct Hx as (n & e' & _ & ->). simpl. lia.
    + intros x. rewrite elem_of_cons, Herr, Hs. split.
      * intros [->|(n & e' & ?)]; [|naive_solver]. exists 0%nat, e. by rewrite Nat.add_0_r.
      * intros ([|n] & e' & He & Hx); [left|right; naive_solver].
        simpl in He. injection He as ->. by rewrite Nat.add_0_r in Hx.
Qed.

(** A batch registration never fails as a whole and is the sequence of its
    single registrations: a failing entry does not stop or undo the others, the
    results are those of the entries that succeed, in order, and each failing
    entry is reported under its own position in the batch, in ascending order. *)
Theorem batch_register_partition commands s :
  ∃ b, batch_register_instances commands s = ((register_all commands s).1, Ok b)
    ∧ br_results b = ok_results (register_all commands s).2
    ∧ StronglySorted (λ x y, be_index x < be_index y) (br_errors b)
    ∧ (∀ x, x ∈ br_errors b ↔
         ∃ n e, (register_all commands s).2 !! n = Some (Err e) ∧ x = batch_error n e)
    ∧ (length (br_results b) + length (br_errors b) = length commands)%nat.
Proof.
  pose proof (batch_register_loop_spec 0 commands s) as Hspec. change (N.of_nat 0) with 0 in Hspec.
  unfold batch_register_instances. destruct (register_all commands s) as [s1 rs].
  destruct (batch_register_loop 0 commands s) as [s2 b].
  destruct Hspec as (-> & H). exists b. split; [done|]. exact H.
Qed.
