(* ===== verification/MemoryConfig.v ===== *)
(** * The in-memory config registry (storage-memory: config.rs, hash.rs)

    Every method of [impl ConfigStore for MemoryDiscoveryStore] with its
    helpers, and the preservation of the store invariant. *)
From S2P Require Import Prelude RustStr Collections Contract MemoryStore.

(** ** Validation *)

Definition validate_idempotency_hash (stored provided : string) : DiscoveryResult () :=
  if bool_decide (stored = provided) then Ok ()
  else Err (InvalidArgument "idempotency request hash does not match original request").

Definition validate_config_scope (scope : ConfigScope) : DiscoveryResult () :=
  match scope with
  | ScopeNamespace => Ok ()
  | ScopeApplication application => validate_non_empty "application" application
  | ScopeService application service_name =>
      validate_non_empty "application" application;;
      validate_non_empty "service_name" service_name
  end.

Definition validate_idempotency_context (idempotency : option IdempotencyContext)
    : DiscoveryResult () :=
  match idempotency with
  | None => Ok ()
  | Some idempotency =>
      validate_non_empty "operation_id" (ic_operation_id idempotency);;
      validate_non_empty "idempotency key" (ic_key idempotency);;
      validate_non_empty "request_hash" (ic_request_hash idempotency)
  end.

Definition validate_config_draft_command (command : CreateConfigDraftCommand)
    : DiscoveryResult () :=
  validate_non_empty "namespace" (cc_namespace command);;
  validate_non_empty "environment" (cc_environment command);;
  validate_non_empty "group" (cc_group command);;
  validate_non_empty "key" (cc_key command);;
  validate_non_empty "created_by" (cc_created_by command);;
  validate_config_scope (cc_scope command);;
  validate_idempotency_context (cc_idempotency command).

Definition validate_publish_config_command (command : PublishConfigCommand)
    : DiscoveryResult () :=
  validate_non_empty "draft_id" (pc_draft_id command);;
  validate_non_empty "published_by" (pc_published_by command);;
  validate_idempotency_context (pc_idempotency command).

Definition validate_rollback_config_command (command : RollbackConfigCommand)
    : DiscoveryResult () :=
  validate_non_empty "source_release_id" (rb_source_release_id command);;
  validate_non_empty "rolled_back_by" (rb_rolled_back_by command);;
  validate_idempotency_context (rb_idempotency command).

Definition config_application_from_scope (scope : ConfigScope) : option string :=
  match scope with
  | ScopeNamespace => None
  | ScopeApplication application | ScopeService application _ => Some application
  end.

(** ** Idempotent replay *)

Definition idempotency_key (c : IdempotencyContext) : IdempotencyKey :=
  {| idk_operation_id := ic_operation_id c; idk_key := ic_key c |}.

Definition replay_config_draft (command : CreateConfigDraftCommand)
    (s : MemoryDiscoveryStore) : DiscoveryResult (option ConfigDraft) :=
  match cc_idempotency command with
  | None => Ok None
  | Some c =>
      match idempotency s !! idempotency_key c with
      | None => Ok None
      | Some record =>
          validate_idempotency_hash (idr_request_hash record) (ic_request_hash c);;
          draft ← ok_or (drafts s !! idr_resource_id record)
                    (InvalidConfig "idempotency draft target is missing");
          mret (Some draft)
      end
  end.

Definition find_release (release_id : string) (s : MemoryDiscoveryStore)
    : option ConfigRelease :=
  snd <$> list_find (λ r, cr_release_id r = release_id) (releases s).

Definition replay_config_release (c : option IdempotencyContext)
    (s : MemoryDiscoveryStore) : DiscoveryResult (option ConfigRelease) :=
  match c with
  | None => Ok None
  | Some c =>
      match idempotency s !! idempotency_key c with
      | None => Ok None
      | Some record =>
          validate_idempotency_hash (idr_request_hash record) (ic_request_hash c);;
          release ← ok_or (find_release (idr_resource_id record) s)
                      (InvalidConfig "idempotency release target is missing");
          mret (Some release)
      end
  end.

Definition record_idempotency (c : option IdempotencyContext) (resource_id : string)
    : Op MemoryDiscoveryStore () :=
  match c with
  | None => mret ()
  | Some c =>
      modify (λ s, set_idempotency
        (<[idempotency_key c := {| idr_request_hash := ic_request_hash c;
                                   idr_resource_id := resource_id |}]> (idempotency s)) s)
  end.

(** ** Operations *)

Definition release_event (kind : DiscoveryEventKind) (revision : N) (release : ConfigRelease)
    : DiscoveryEvent :=
  {| de_revision := revision; de_namespace := cr_namespace release;
     de_environment := cr_environment release; de_kind := kind;
     de_resource_id := cr_release_id release;
     de_service_name := match cr_scope release with
                        | ScopeService _ service_name => Some service_name
                        | _ => None
                        end;
     de_config_group := Some (cr_group release);
     de_config_key := Some (cr_key release);
     de_config_application := config_application_from_scope (cr_scope release) |}.

Definition draft_release (draft : ConfigDraft) (release_id published_by : string)
    (now_ms revision : N) : ConfigRelease :=
  {| cr_release_id := release_id; cr_draft_id := cd_draft_id draft;
     cr_namespace := cd_namespace draft; cr_environment := cd_environment draft;
     cr_group := cd_group draft; cr_key := cd_key draft; cr_format := cd_format draft;
     cr_value := cd_value draft; cr_scope := cd_scope draft;
     cr_content_hash := cd_content_hash draft; cr_published_by := published_by;
     cr_published_at_ms := now_ms; cr_revision := revision |}.

Definition copied_release (source : ConfigRelease) (release_id rolled_back_by : string)
    (now_ms revision : N) : ConfigRelease :=
  {| cr_release_id := release_id; cr_draft_id := cr_draft_id source;
     cr_namespace := cr_namespace source; cr_environment := cr_environment source;
     cr_group := cr_group source; cr_key := cr_key source; cr_format := cr_format source;
     cr_value := cr_value source; cr_scope := cr_scope source;
     cr_content_hash := cr_content_hash source; cr_published_by := rolled_back_by;
     cr_published_at_ms := now_ms; cr_revision := revision |}.

Definition mark_published (d : ConfigDraft) : ConfigDraft :=
  {| cd_draft_id := cd_draft_id d; cd_namespace := cd_namespace d;
     cd_environment := cd_environment d; cd_group := cd_group d; cd_key := cd_key d;
     cd_format := cd_format d; cd_value := cd_value d; cd_scope := cd_scope d;
     cd_created_by := cd_created_by d; cd_content_hash := cd_content_hash d;
     cd_published := true |}.

Definition push_release (r : ConfigRelease) (s : MemoryDiscoveryStore)
    : MemoryDiscoveryStore := set_releases (releases s ++ [r]) s.

Section with_hash.
(** [sha256_hash] of the external package [sdkwork_utils_rust]. *)
Context (sha256_hash : string → string).

Definition content_hash (value : string) : string := sha256_hash value.

Definition new_draft (command : CreateConfigDraftCommand) (draft_id : string) : ConfigDraft :=
  {| cd_draft_id := draft_id; cd_namespace := cc_namespace command;
     cd_environment := cc_environment command; cd_group := cc_group command;
     cd_key := cc_key command; cd_format := cc_format command;
     cd_value := cc_value command; cd_scope := cc_scope command;
     cd_created_by := cc_created_by command;
     cd_content_hash := content_hash (cc_value command); cd_published := false |}.

Definition create_config_draft (command : CreateConfigDraftCommand)
    : Op MemoryDiscoveryStore ConfigDraft :=
  lift (validate_config_draft_command command);;
  replayed ← gets (replay_config_draft command);
  replayed ← lift replayed;
  match replayed with
  | Some draft => mret draft
  | None =>
      draft_id ← next_id "draft";
      let draft := new_draft command draft_id in
      modify (λ s, set_drafts (<[draft_id := draft]> (drafts s)) s);;
      record_idempotency (cc_idempotency command) draft_id;;
      mret draft
  end.
End with_hash.

Definition publish_config (command : PublishConfigCommand)
    : Op MemoryDiscoveryStore ConfigRelease :=
  lift (validate_publish_config_command command);;
  replayed ← gets (replay_config_release (pc_idempotency command));
  replayed ← lift replayed;
  match replayed with
  | Some release => mret release
  | None =>
      found ← gets (λ s, drafts s !! pc_draft_id command);
      draft ← lift (ok_or found (NotFound "config draft not found"));
      lift (if cd_published draft
            then Err (AlreadyPublished "config draft is already published") else Ok ());;
      revision ← next_revision;
      release_id ← next_id "release";
      let release := draft_release draft release_id (pc_published_by command)
                       (pc_now_ms command) revision in
      found ← gets (λ s, drafts s !! pc_draft_id command);
      draft ← lift (ok_or found (NotFound "config draft not found"));
      modify (λ s, set_drafts (<[pc_draft_id command := mark_published draft]> (drafts s)) s);;
      modify (push_release release);;
      modify (push_event (release_event ConfigPublished revision release));;
      record_idempotency (pc_idempotency command) release_id;;
      mret release
  end.

Definition rollback_config (command : RollbackConfigCommand)
    : Op MemoryDiscoveryStore ConfigRelease :=
  lift (validate_rollback_config_command command);;
  replayed ← gets (replay_config_release (rb_idempotency command));
  replayed ← lift replayed;
  match replayed with
  | Some release => mret release
  | None =>
      found ← gets (find_release (rb_source_release_id command));
      source ← lift (ok_or found (NotFound "config release not found"));
      revision ← next_revision;
      release_id ← next_id "release";
      let release := copied_release source release_id (rb_rolled_back_by command)
                       (rb_now_ms command) revision in
      modify (push_release release);;
      modify (push_event (release_event ConfigRolledBack revision release));;
      record_idempotency (rb_idempotency command) release_id;;
      mret release
  end.

(** The filter closure of [retrieve_effective_config]. *)
Definition effective_filter (query : RetrieveEffectiveConfigQuery) (release : ConfigRelease)
    : bool :=
  bool_decide (cr_namespace release = ecq_namespace query)
  && bool_decide (cr_environment release = ecq_environment query)
  && bool_decide (cr_group release = ecq_group query)
  && applies_to (cr_scope release) (ecq_application query) (ecq_service_name query).

(** Whether a release supersedes the value chosen so far. *)
Definition supersedes (release : ConfigRelease) (current : EffectiveConfigValue) : bool :=
  (ev_source_specificity current <? specificity (cr_scope release))
  || ((specificity (cr_scope release) =? ev_source_specificity current)
      && (ev_source_revision current <=? cr_revision release)).

Definition effective_value (release : ConfigRelease) : EffectiveConfigValue :=
  {| ev_value := cr_value release; ev_format := cr_format release;
     ev_source_release_id := cr_release_id release;
     ev_source_specificity := specificity (cr_scope release);
     ev_source_revision := cr_revision release |}.

(** One turn of its [for] loop. *)
Definition effective_step (acc : EffectiveConfig) (release : ConfigRelease) : EffectiveConfig :=
  {| ec_revision := N.max (ec_revision acc) (cr_revision release);
     ec_values :=
       if match ec_values acc !! cr_key release with
          | Some current => supersedes release current
          | None => true
          end
       then <[cr_key release := effective_value release]> (ec_values acc)
       else ec_values acc |}.

Definition retrieve_effective_config (query : RetrieveEffectiveConfigQuery)
    (s : MemoryDiscoveryStore) : DiscoveryResult EffectiveConfig :=
  validate_non_empty "namespace" (ecq_namespace query);;
  validate_non_empty "environment" (ecq_environment query);;
  validate_non_empty "application" (ecq_application query);;
  validate_non_empty "service_name" (ecq_service_name query);;
  validate_non_empty "group" (ecq_group query);;
  mret (foldl effective_step {| ec_revision := 0; ec_values := ∅ |}
          (retain (effective_filter query) (releases s))).

(** ** Running the operations *)

(** The store after [record_idempotency]. *)
Definition remember (c : option IdempotencyContext) (resource_id : string)
    (s : MemoryDiscoveryStore) : MemoryDiscoveryStore :=
  match c with
  | None => s
  | Some c => set_idempotency
      (<[idempotency_key c := {| idr_request_hash := ic_request_hash c;
                                 idr_resource_id := resource_id |}]> (idempotency s)) s
  end.

Lemma record_idempotency_run c resource_id s :
  record_idempotency c resource_id s = (remember c resource_id s, Ok ()).
Proof. by destruct c. Qed.

Lemma create_config_draft_run h command s :
  create_config_draft h command s =
    match validate_config_draft_command command with
    | Err e => (s, Err e)
    | Ok _ =>
        match replay_config_draft command s with
        | Err e => (s, Err e)
        | Ok (Some draft) => (s, Ok draft)
        | Ok None =>
            let seq := u64_succ (next_sequence s) in
            let draft := new_draft h command (id_of "draft" seq) in
            (remember (cc_idempotency command) (id_of "draft" seq)
               (set_drafts (<[id_of "draft" seq := draft]> (drafts s))
                  (set_next_sequence seq s)), Ok draft)
        end
    end.
Proof.
  unfold create_config_draft. rewrite lift_bind_run.
  destruct (validate_config_draft_command command); [|done].
  rewrite gets_bind_run, lift_bind_run. destruct (replay_config_draft command s) as [[]|]; try done.
  rewrite eff_bind_run. simpl. rewrite modify_bind_run, eff_bind_run.
  by rewrite record_idempotency_run.
Qed.

(** The store with one more release, taken under the next counters. *)
Definition release_commit (c : option IdempotencyContext) (kind : DiscoveryEventKind)
    (ds : gmap string ConfigDraft) (release : ConfigRelease) (s : MemoryDiscoveryStore)
    : MemoryDiscoveryStore :=
  remember c (cr_release_id release)
    (push_event (release_event kind (cr_revision release) release)
       (push_release release
          (set_drafts ds (set_next_sequence (u64_succ (next_sequence s))
             (set_revision (u64_succ (revision s)) s))))).

Lemma publish_config_run command s :
  publish_config command s =
    match validate_publish_config_command command with
    | Err e => (s, Err e)
    | Ok _ =>
        match replay_config_release (pc_idempotency command) s with
        | Err e => (s, Err e)
        | Ok (Some release) => (s, Ok release)
        | Ok None =>
            match drafts s !! pc_draft_id command with
            | None => (s, Err (NotFound "config draft not found"))
            | Some draft =>
                if cd_published draft
                then (s, Err (AlreadyPublished "config draft is already published"))
                else
                  let release := draft_release draft
                        (id_of "release" (u64_succ (next_sequence s)))
                        (pc_published_by command) (pc_now_ms command)
                        (u64_succ (revision s)) in
                  (release_commit (pc_idempotency command) ConfigPublished
                     (<[pc_draft_id command := mark_published draft]> (drafts s)) release s,
                   Ok release)
            end
        end
    end.
Proof.
  unfold publish_config. rewrite lift_bind_run.
  destruct (validate_publish_config_command command); [|done].
  rewrite gets_bind_run, lift_bind_run.
  destruct (replay_config_release (pc_idempotency command) s) as [[]|]; try done.
  rewrite gets_bind_run, lift_bind_run.
  destruct (drafts s !! pc_draft_id command) as [draft|] eqn:Ed; [|done]. simpl ok_or.
  cbv beta iota. rewrite lift_bind_run. destruct (cd_published draft); [done|].
  rewrite eff_bind_run. simpl. rewrite eff_bind_run. simpl.
  rewrite gets_bind_run, lift_bind_run. simpl. rewrite Ed. simpl.
  rewrite !modify_bind_run, eff_bind_run, record_idempotency_run. done.
Qed.

Lemma set_drafts_id s : set_drafts (drafts s) s = s.
Proof. by destruct s. Qed.

Lemma rollback_config_run command s :
  rollback_config command s =
    match validate_rollback_config_command command with
    | Err e => (s, Err e)
    | Ok _ =>
        match replay_config_release (rb_idempotency command) s with
        | Err e => (s, Err e)
        | Ok (Some release) => (s, Ok release)
        | Ok None =>
            match find_release (rb_source_release_id command) s with
            | None => (s, Err (NotFound "config release not found"))
            | Some source =>
                let release := copied_release source
                      (id_of "release" (u64_succ (next_sequence s)))
                      (rb_rolled_back_by command) (rb_now_ms command)
                      (u64_succ (revision s)) in
                (release_commit (rb_idempotency command) ConfigRolledBack (drafts s) release s,
                 Ok release)
            end
        end
    end.
Proof.
  unfold rollback_config. rewrite lift_bind_run.
  destruct (validate_rollback_config_command command); [|done].
  rewrite gets_bind_run, lift_bind_run.
  destruct (replay_config_release (rb_idempotency command) s) as [[]|]; try done.
  rewrite gets_bind_run, lift_bind_run.
  destruct (find_release _ s) as [source|]; [|done]. simpl ok_or.
  cbv beta iota. rewrite eff_bind_run. simpl. rewrite eff_bind_run. simpl.
  rewrite !modify_bind_run, eff_bind_run, record_idempotency_run. done.
Qed.

(** ** Preservation of the invariant *)

Lemma find_release_Some release_id s r :
  find_release release_id s = Some r → r ∈ releases s ∧ cr_release_id r = release_id.
Proof.
  unfold find_release. intros ([n r'] & E & ->)%fmap_Some. simpl.
  apply list_find_Some in E as (Hl & Hid & _). split; [by eapply list_elem_of_lookup_2|done].
Qed.

Section config_wf_lemmas.
Context (seq rev : N) (ds : gmap string ConfigDraft) (rs : list ConfigRelease)
        (idem : gmap IdempotencyKey IdempotencyRecord).
Hypothesis Hwf : config_wf seq rev ds rs idem.

(** A draft under an identifier past the counter. *)
Lemma config_wf_draft n d :
  seq < n → cd_draft_id d = id_of "draft" n → cd_published d = false →
  config_wf n rev (<[cd_draft_id d := d]> ds) rs idem.
Proof.
  intros Hn Hid Hp. destruct (config_wf_mono seq n rev rev _ _ _ ltac:(lia) ltac:(done) Hwf)
    as [W1 W2 W3 W4 W5 W6 W7 W8].
  assert (ds !! cd_draft_id d = None) as Hnone.
  { destruct (ds !! cd_draft_id d) as [x|] eqn:E; [|done].
    destruct (cw_draft _ _ _ _ _ Hwf _ _ E) as (_ & m & Hm & Em).
    rewrite Hid in Em. apply id_of_inj in Em. lia. }
  split; try done.
  - intros k x [[<- <-]|[? Hx]]%lookup_insert_Some; [|eauto]. split; [done|].
    exists n. split; [lia|done].
  - intros r Hr. destruct (W6 r Hr) as (d' & Hd' & ?). exists d'.
    rewrite lookup_insert_ne; [done|congruence].
  - intros k x [[<- <-]|[? Hx]]%lookup_insert_Some; [congruence|eauto].
  - intros k rec Hk. destruct (W8 k rec Hk) as [Hd|?]; [left|by right].
    apply lookup_insert_is_Some. destruct (decide (cd_draft_id d = idr_resource_id rec)); auto.
Qed.

(** A release of a draft of the store, under counters past the current ones,
    the draft marked as published. *)
Lemma config_wf_release n rev' d r :
  seq < n → rev < rev' → ds !! cd_draft_id d = Some d → release_of d r →
  cr_release_id r = id_of "release" n → cr_revision r = rev' →
  config_wf n rev' (<[cd_draft_id d := mark_published d]> ds) (rs ++ [r]) idem.
Proof.
  intros Hn Hr Hd Hrel Hid Hrev.
  destruct (config_wf_mono seq n rev rev' _ _ _ ltac:(lia) ltac:(lia) Hwf)
    as [W1 W2 W3 W4 W5 W6 W7 W8]. split.
  - intros k x [[<- <-]|[? Hx]]%lookup_insert_Some; [|eauto]. exact (W1 _ _ Hd).
  - intros x [Hx| ->%list_elem_of_singleton]%elem_of_app; [eauto|]. exists n. split; [lia|done].
  - rewrite fmap_app. apply NoDup_app. split_and!; [done| |apply NoDup_singleton].
    intros i (x & -> & Hx)%list_elem_of_fmap E%list_elem_of_singleton.
    destruct (cw_release_id _ _ _ _ _ Hwf x Hx) as (m & Hm & Em).
    rewrite Em, Hid in E. apply id_of_inj in E. lia.
  - apply StronglySorted_snoc; [done|]. apply Forall_forall. intros x Hx.
    pose proof (cw_release_rev _ _ _ _ _ Hwf x Hx). lia.
  - intros x [Hx| ->%list_elem_of_singleton]%elem_of_app; [eauto|lia].
  - intros x [Hx| ->%list_elem_of_singleton]%elem_of_app.
    + destruct (W6 x Hx) as (d' & Hd' & Hp & Hof).
      destruct (decide (cd_draft_id d = cr_draft_id x)) as [E|Hne].
      * rewrite <- E, Hd in Hd'. injection Hd' as <-. exists (mark_published d).
        rewrite <- E, lookup_insert_eq. done.
      * exists d'. by rewrite lookup_insert_ne.
    + exists (mark_published d). pose proof Hrel as [E _].
      rewrite E, lookup_insert_eq. split_and!; [done|done|exact Hrel].
  - intros k x [[<- <-]|[? Hx]]%lookup_insert_Some Hp.
    + exists r. destruct Hrel as [? _]. set_solver.
    + destruct (W7 k x Hx Hp) as (r' & ? & ?). set_solver.
  - intros k rec Hk. destruct (W8 k rec Hk) as [Hd'|(r' & ? & ?)].
    + left. apply lookup_insert_is_Some.
      destruct (decide (cd_draft_id d = idr_resource_id rec)); auto.
    + right. exists r'. set_solver.
Qed.

Lemma config_wf_idem key rec :
  is_Some (ds !! idr_resource_id rec)
  ∨ (∃ r, r ∈ rs ∧ cr_release_id r = idr_resource_id rec) →
  config_wf seq rev ds rs (<[key := rec]> idem).
Proof.
  intros Htarget. destruct Hwf. split; try done.
  intros k x [[<- <-]|[? Hx]]%lookup_insert_Some; eauto.
Qed.
End config_wf_lemmas.

Lemma remember_wf c resource_id s :
  store_wf s →
  is_Some (drafts s !! resource_id) ∨ (∃ r, r ∈ releases s ∧ cr_release_id r = resource_id) →
  store_wf (remember c resource_id s).
Proof.
  intros [? Hc ?] Ht. destruct c as [c|]; [|by split]. split; simpl; [done| |done].
  by apply config_wf_idem.
Qed.

Lemma create_config_draft_wf h command s :
  store_wf s → headroom 1 s → store_wf (create_config_draft h command s).1.
Proof.
  intros Hwf [_ Hs]. rewrite create_config_draft_run.
  destruct (validate_config_draft_command command); [|done].
  destruct (replay_config_draft command s) as [[]|]; [done| |done].
  rewrite u64_succ_small by lia. simpl. apply remember_wf.
  - split; simpl; [eapply registry_wf_mono; [| |apply Hwf]; simpl; lia| |apply Hwf].
    apply (config_wf_draft (next_sequence s) _ _ _ _ (wf_config _ Hwf) (next_sequence s + 1)
             (new_draft h command (id_of "draft" (next_sequence s + 1)))); [lia|done|done].
  - left. simpl. rewrite lookup_insert_eq. eauto.
Qed.

(** Adding a release of a draft of the store keeps the store well formed. *)
Lemma release_commit_wf c kind d r s :
  store_wf s → headroom 1 s → drafts s !! cd_draft_id d = Some d → release_of d r →
  cr_release_id r = id_of "release" (u64_succ (next_sequence s)) →
  cr_revision r = u64_succ (revision s) →
  store_wf (release_commit c kind (<[cd_draft_id d := mark_published d]> (drafts s)) r s).
Proof.
  intros Hwf [Hr Hs] Hd Hof Hid Hrev. unfold release_commit.
  rewrite u64_succ_small in * by lia. rewrite u64_succ_small in * by lia.
  apply remember_wf; [|right; simpl; set_solver]. split; simpl.
  - eapply registry_wf_mono; [| |apply Hwf]; lia.
  - eapply config_wf_release; [apply Hwf|lia|lia|done..].
  - eapply events_wf_push; [apply Hwf|simpl; lia|simpl; lia].
Qed.

Lemma mark_published_id d : cd_published d = true → mark_published d = d.
Proof. destruct d; simpl. by intros ->. Qed.

Lemma publish_config_wf command s :
  store_wf s → headroom 1 s → store_wf (publish_config command s).1.
Proof.
  intros Hwf Hroom. rewrite publish_config_run.
  destruct (validate_publish_config_command command); [|done].
  destruct (replay_config_release _ s) as [[]|]; [done| |done].
  destruct (drafts s !! _) as [d|] eqn:Ed; [|done]. destruct (cd_published d); [done|]. simpl.
  destruct (cw_draft _ _ _ _ _ (wf_config _ Hwf) _ _ Ed) as [Hid _].
  rewrite <- Hid in *. by apply release_commit_wf.
Qed.

Lemma rollback_config_wf command s :
  store_wf s → headroom 1 s → store_wf (rollback_config command s).1.
Proof.
  intros Hwf Hroom. rewrite rollback_config_run.
  destruct (validate_rollback_config_command command); [|done].
  destruct (replay_config_release _ s) as [[]|]; [done| |done].
  destruct (find_release _ s) as [r|] eqn:Er; [|done]. simpl.
  apply find_release_Some in Er as [Hin _].
  destruct (cw_release_draft _ _ _ _ _ (wf_config _ Hwf) _ Hin) as (d & Hd & Hp & Hof).
  pose proof Hof as [Hid _].
  assert (<[cd_draft_id d := mark_published d]> (drafts s) = drafts s) as Hds.
  { rewrite mark_published_id by done. apply insert_id. by rewrite <- Hid. }
  rewrite <- Hds. apply release_commit_wf; [done|done|by rewrite <- Hid| |done|done].
  exact Hof.
Qed.

(** ** What the config operations never do

    Drafts keep their content, releases are only appended, and an idempotency
    record is never replaced. *)

Definition same_content (d d' : ConfigDraft) : Prop :=
  d' = d ∨ d' = mark_published d.

Record config_extends (s s' : MemoryDiscoveryStore) : Prop := {
  cx_drafts k d : drafts s !! k = Some d → ∃ d', drafts s' !! k = Some d' ∧ same_content d d';
  cx_releases : releases s `prefix_of` releases s';
  cx_idempotency : idempotency s ⊆ idempotency s';
}.

#[export] Instance config_extends_refl : Reflexive config_extends.
Proof. intros s. split; [|done|done]. intros k d Hd. exists d. split; [done|by left]. Qed.

#[export] Instance config_extends_trans : Transitive config_extends.
Proof.
  intros s1 s2 s3 [D1 R1 I1] [D2 R2 I2]. split; [|by etrans|by etrans].
  intros k d Hd. destruct (D1 k d Hd) as (d1 & Hd1 & C1).
  destruct (D2 k d1 Hd1) as (d2 & Hd2 & C2). exists d2. split; [done|].
  destruct C1 as [->| ->], C2 as [->| ->]; unfold same_content; auto.
Qed.

(** An operation that leaves the config part alone. *)
Lemma config_extends_same s s' :
  drafts s' = drafts s → releases s' = releases s → idempotency s' = idempotency s →
  config_extends s s'.
Proof.
  intros Hd Hr Hi. split; [rewrite Hd|by rewrite Hr|by rewrite Hi].
  intros k d E. exists d. split; [done|by left].
Qed.

Lemma remember_extends c resource_id s s' :
  match c with Some c => idempotency s !! idempotency_key c = None | None => True end →
  config_extends s s' → idempotency s' = idempotency s →
  config_extends s (remember c resource_id s').
Proof.
  intros Hc [D R I] Hi. destruct c as [c|]; simpl; [|by split]. split; simpl; [done|done|].
  rewrite Hi. by apply insert_subseteq.
Qed.

Lemma replay_config_release_None c s :
  replay_config_release c s = Ok None →
  match c with Some c => idempotency s !! idempotency_key c = None | None => True end.
Proof.
  unfold replay_config_release. destruct c as [c|]; [|done].
  destruct (idempotency s !! idempotency_key c) as [rec|]; [|done].
  rewrite result_bind_Ok. intros (_ & _ & H). apply result_bind_Ok in H as (? & _ & [=]).
Qed.

Lemma replay_config_draft_None command s :
  replay_config_draft command s = Ok None →
  match cc_idempotency command with
  | Some c => idempotency s !! idempotency_key c = None
  | None => True
  end.
Proof.
  unfold replay_config_draft. destruct (cc_idempotency command) as [c|]; [|done].
  destruct (idempotency s !! idempotency_key c) as [rec|]; [|done].
  rewrite result_bind_Ok. intros (_ & _ & H). apply result_bind_Ok in H as (? & _ & [=]).
Qed.

Lemma create_config_draft_extends h command s :
  store_wf s → headroom 1 s → config_extends s (create_config_draft h command s).1.
Proof.
  intros Hwf [_ Hs]. rewrite create_config_draft_run.
  destruct (validate_config_draft_command command); [|done].
  destruct (replay_config_draft command s) as [[]|] eqn:Er; [done| |done].
  apply replay_config_draft_None in Er. rewrite u64_succ_small by lia. simpl.
  apply remember_extends; [done| |done]. split; simpl; [|done|done].
  intros k d Hd. exists d. split; [|by left]. rewrite lookup_insert_ne; [done|].
  intros <-. destruct (cw_draft _ _ _ _ _ (wf_config _ Hwf) _ _ Hd) as (_ & m & Hm & Em).
  apply id_of_inj in Em. lia.
Qed.

Lemma publish_config_extends command s : config_extends s (publish_config command s).1.
Proof.
  rewrite publish_config_run. destruct (validate_publish_config_command command); [|done].
  destruct (replay_config_release _ s) as [[]|] eqn:Er; [done| |done].
  apply replay_config_release_None in Er.
  destruct (drafts s !! _) as [d|] eqn:Ed; [|done]. destruct (cd_published d); [done|]. simpl.
  apply remember_extends; [done| |done]. split; simpl; [|by apply prefix_app_r|done].
  intros k d' Hd'. destruct (decide (pc_draft_id command = k)) as [<-|].
  - rewrite Ed in Hd'. injection Hd' as <-. eexists. rewrite lookup_insert_eq.
    split; [done|by right].
  - exists d'. rewrite lookup_insert_ne by done. split; [done|by left].
Qed.

Lemma rollback_config_extends command s : config_extends s (rollback_config command s).1.
Proof.
  rewrite rollback_config_run. destruct (validate_rollback_config_command command); [|done].
  destruct (replay_config_release _ s) as [[]|] eqn:Er; [done| |done].
  apply replay_config_release_None in Er. destruct (find_release _ s) as [r|]; [|done]. simpl.
  apply remember_extends; [done| |done]. split; simpl; [|by apply prefix_app_r|done].
  intros k d Hd. exists d. split; [done|by left].
Qed.
