(* ===== verification/ConfigTheorems.v ===== *)
(** * Theorems about the in-memory config registry

    Which release an effective configuration takes each key from, publishing,
    rolling back, and idempotent replay. *)
From S2P Require Import Prelude RustStr Collections Contract MemoryStore MemoryConfig.

(** ** Concrete inputs for the witnesses *)

Definition sample_draft (key value : string) (scope : ConfigScope) : CreateConfigDraftCommand :=
  {| cc_namespace := "acme"; cc_environment := "prod"; cc_group := "app"; cc_key := key;
     cc_format := FormatText; cc_value := value; cc_scope := scope; cc_created_by := "ops";
     cc_idempotency := None |}.

Definition sample_publish (draft_id : string) (now : N) : PublishConfigCommand :=
  {| pc_draft_id := draft_id; pc_published_by := "ops"; pc_now_ms := now;
     pc_idempotency := None |}.

Definition sample_rollback (release_id : string) (now : N) : RollbackConfigCommand :=
  {| rb_source_release_id := release_id; rb_rolled_back_by := "ops"; rb_now_ms := now;
     rb_idempotency := None |}.

Definition sample_config_query : RetrieveEffectiveConfigQuery :=
  {| ecq_namespace := "acme"; ecq_environment := "prod"; ecq_application := "shop";
     ecq_service_name := "drive"; ecq_group := "app" |}.

Definition sample_hash (value : string) : string := "sha256:" +:+ value.

(** Two drafts of the key [mode], the first one published. *)
Definition sample_config_store : MemoryDiscoveryStore :=
  (publish_config (sample_publish "draft-1" 1000)
     (create_config_draft sample_hash (sample_draft "mode" "fast" ScopeNamespace)
        (create_config_draft sample_hash (sample_draft "mode" "safe" ScopeNamespace)
           new_store).1).1).1.

Lemma sample_config_store_wf :
  store_wf sample_config_store ∧ headroom 1000 sample_config_store.
Proof.
  split; [|vm_compute; split; discriminate].
  apply publish_config_wf; [apply create_config_draft_wf; [apply create_config_draft_wf;
    [apply store_wf_new|]|]|]; vm_compute; split; discriminate.
Qed.

(** ** Effective configuration *)

(** [r] takes precedence over [r']: it is more specific, or as specific and not
    older. *)
Definition precedes (r' r : ConfigRelease) : Prop :=
  specificity (cr_scope r') < specificity (cr_scope r)
  ∨ specificity (cr_scope r') = specificity (cr_scope r) ∧ cr_revision r' <= cr_revision r.

Lemma precedes_refl r : precedes r r.
Proof. unfold precedes. lia. Qed.

Lemma precedes_trans r1 r2 r3 : precedes r1 r2 → precedes r2 r3 → precedes r1 r3.
Proof. unfold precedes. lia. Qed.

Lemma supersedes_spec r r' : supersedes r (effective_value r') = true ↔ precedes r' r.
Proof.
  unfold supersedes, effective_value, precedes. simpl.
  rewrite orb_true_iff, andb_true_iff, N.ltb_lt, N.eqb_eq, N.leb_le. lia.
Qed.

Lemma not_supersedes r r' : supersedes r (effective_value r') = false → precedes r r'.
Proof.
  unfold supersedes, effective_value, precedes. simpl.
  rewrite orb_false_iff, andb_false_iff, N.ltb_ge, N.eqb_neq, N.leb_gt. lia.
Qed.

(** [r] is the release of [l] that takes precedence for its key. *)
Definition governs (l : list ConfigRelease) (key : string) (r : ConfigRelease) : Prop :=
  r ∈ l ∧ cr_key r = key ∧ ∀ r', r' ∈ l → cr_key r' = key → precedes r' r.

Definition latest_release (l : list ConfigRelease) : N :=
  foldl (λ m r, N.max m (cr_revision r)) 0 l.

Lemma effective_loop_spec l :
  let c := foldl effective_step {| ec_revision := 0; ec_values := ∅ |} l in
  ec_revision c = latest_release l ∧
  ∀ key, match ec_values c !! key with
         | Some v => ∃ r, v = effective_value r ∧ governs l key r
         | None => ∀ r, r ∈ l → cr_key r ≠ key
         end.
Proof.
  induction l as [|x l [IHr IHv]] using rev_ind; simpl.
  { split; [done|]. intros key. rewrite lookup_empty. intros r Hr.
    by apply elem_of_nil in Hr. }
  unfold latest_release. rewrite !foldl_app. cbn [foldl].
  set (c := foldl effective_step _ l) in *. unfold effective_step. simpl.
  split; [by rewrite IHr|]. intros key. specialize (IHv key).
  assert (∀ r, governs l key r → precedes x r ∨ cr_key x ≠ key → governs (l ++ [x]) key r) as Hold.
  { intros r (Hin & Hk & Hmax) Hx. split_and!; [set_solver|done|].
    intros r' [Hr'| ->%list_elem_of_singleton]%elem_of_app Hk'; [by apply Hmax|naive_solver]. }
  destruct (decide (cr_key x = key)) as [<-|Hne].
  - destruct (ec_values c !! cr_key x) as [v|] eqn:Ev; cbv iota.
    + destruct IHv as (r & -> & Hr). destruct (supersedes x _) eqn:Es.
      * rewrite lookup_insert_eq. exists x. split; [done|]. apply supersedes_spec in Es.
        split_and!; [set_solver|done|]. intros r' [Hr'| ->%list_elem_of_singleton]%elem_of_app Hk';
          [|apply precedes_refl]. eapply precedes_trans; [by apply Hr|done].
      * rewrite Ev. exists r. split; [done|]. apply Hold; [done|]. left. by apply not_supersedes.
    + rewrite lookup_insert_eq. exists x. split; [done|]. split_and!; [set_solver|done|].
      intros r' [Hr'| ->%list_elem_of_singleton]%elem_of_app Hk'; [|apply precedes_refl].
      by destruct (IHv r').
  - assert (∀ b : bool, (if b then <[cr_key x := effective_value x]> (ec_values c)
                         else ec_values c) !! key = ec_values c !! key) as ->.
    { intros []; [by rewrite lookup_insert_ne|done]. }
    destruct (ec_values c !! key) as [v|].
    + destruct IHv as (r & -> & Hr). exists r. split; [done|]. apply Hold; auto.
    + intros r [Hr| ->%list_elem_of_singleton]%elem_of_app; [by apply IHv|done].
Qed.

Definition valid_config_query (q : RetrieveEffectiveConfigQuery) : Prop :=
  is_blank (ecq_namespace q) = false ∧ is_blank (ecq_environment q) = false
  ∧ is_blank (ecq_application q) = false ∧ is_blank (ecq_service_name q) = false
  ∧ is_blank (ecq_group q) = false.

(** The releases a query sees. *)
Definition visible (q : RetrieveEffectiveConfigQuery) (s : MemoryDiscoveryStore)
    : list ConfigRelease := retain (effective_filter q) (releases s).

Lemma retrieve_effective_config_valid q s :
  valid_config_query q →
  retrieve_effective_config q s =
    Ok (foldl effective_step {| ec_revision := 0; ec_values := ∅ |} (visible q s)).
Proof.
  intros (H1 & H2 & H3 & H4 & H5). unfold retrieve_effective_config, validate_non_empty.
  by rewrite H1, H2, H3, H4, H5.
Qed.

Lemma precedes_antisym s r r' :
  store_wf s → r ∈ releases s → r' ∈ releases s → precedes r r' → precedes r' r → r = r'.
Proof.
  intros Hwf Hr Hr' H1 H2. assert (cr_revision r = cr_revision r') as E
    by (unfold precedes in *; lia).
  pose proof (cw_release_sorted _ _ _ _ _ (wf_config _ Hwf)) as Hs.
  induction Hs as [|x l Hl IH Hall]; [by apply elem_of_nil in Hr|].
  rewrite Forall_forall in Hall. apply elem_of_cons in Hr as [->|Hr];
    apply elem_of_cons in Hr' as [->|Hr']; [done| | |by apply IH].
  - specialize (Hall _ Hr'). lia.
  - specialize (Hall _ Hr). lia.
Qed.

(** C9: an effective configuration maps a key exactly to the value of the release
    that governs it: among the releases of the queried namespace, environment and
    group whose scope covers the application and the service, the most specific
    one, and the newest of these; a key without such a release is absent.  The
    reported revision is the newest revision among the releases considered. *)
Theorem effective_config_exact q s :
  store_wf s → valid_config_query q →
  ∃ c, retrieve_effective_config q s = Ok c
    ∧ ec_revision c = latest_release (visible q s)
    ∧ ∀ key v, ec_values c !! key = Some v ↔
               ∃ r, governs (visible q s) key r ∧ v = effective_value r.
Proof.
  intros Hwf Hq. eexists. split; [by apply retrieve_effective_config_valid|].
  destruct (effective_loop_spec (visible q s)) as [Hrev Hval]. split; [done|].
  intros key v. specialize (Hval key). destruct (ec_values _ !! key) as [w|].
  - destruct Hval as (r & -> & Hr). split; [naive_solver|].
    intros (r' & Hr' & ->). destruct Hr as (Hin & Hk & Hmax), Hr' as (Hin' & Hk' & Hmax').
    pose proof (proj2 (proj1 (elem_of_retain _ _ _) Hin)).
    pose proof (proj2 (proj1 (elem_of_retain _ _ _) Hin')).
    rewrite (precedes_antisym s r r'); auto.
  - split; [done|]. intros (r & (Hin & Hk & _) & _). by destruct (Hval r).
Qed.

Lemma effective_config_exact_witness :
  ∃ c, retrieve_effective_config sample_config_query sample_config_store = Ok c
       ∧ ec_revision c = 1.
Proof.
  destruct (effective_config_exact sample_config_query sample_config_store
              (proj1 sample_config_store_wf) ltac:(by split_and!)) as (c & H1 & H2 & _).
  exists c. split; [exact H1|]. rewrite H2. vm_compute. reflexivity.
Defined.

(** ** Publishing and rolling back *)

Lemma releases_commit c kind ds r s : releases (release_commit c kind ds r s) = releases s ++ [r].
Proof. by destruct c. Qed.

Lemma drafts_commit c kind ds r s : drafts (release_commit c kind ds r s) = ds.
Proof. by destruct c. Qed.

Lemma visible_commit c kind ds r s q :
  visible q (release_commit c kind ds r s) =
  visible q s ++ (if effective_filter q r then [r] else []).
Proof. unfold visible. by rewrite releases_commit, retain_snoc. Qed.

(** A new release takes effect for the queries it is visible to, and only for
    its own key. *)
Lemma effective_commit q s c kind ds r cfg :
  store_wf s → valid_config_query q → revision s < cr_revision r →
  effective_filter q r = true →
  (∀ r', r' ∈ visible q s → cr_key r' = cr_key r →
         specificity (cr_scope r') <= specificity (cr_scope r)) →
  retrieve_effective_config q s = Ok cfg →
  ∃ cfg', retrieve_effective_config q (release_commit c kind ds r s) = Ok cfg'
    ∧ ec_revision cfg' = cr_revision r
    ∧ ec_values cfg' = <[cr_key r := effective_value r]> (ec_values cfg).
Proof.
  intros Hwf Hq Hrev Hf Hspec Hcfg. rewrite retrieve_effective_config_valid in Hcfg |- * by done.
  injection Hcfg as <-. eexists. split; [done|]. rewrite visible_commit, Hf, foldl_app. cbn [foldl].
  destruct (effective_loop_spec (visible q s)) as [Hl Hval].
  set (cfg := foldl effective_step _ (visible q s)) in *. unfold effective_step. simpl.
  assert (∀ r', r' ∈ visible q s → cr_revision r' < cr_revision r) as Hnew.
  { intros r' [_ Hr']%elem_of_retain.
    pose proof (cw_release_rev _ _ _ _ _ (wf_config _ Hwf) _ Hr'). lia. }
  split.
  - rewrite Hl. unfold latest_release.
    assert (∀ l m, m <= cr_revision r → (∀ r', r' ∈ l → cr_revision r' < cr_revision r) →
              foldl (λ m r, N.max m (cr_revision r)) m l <= cr_revision r) as Hle.
    { induction l as [|x l IH]; intros m Hm Hall; simpl; [done|].
      apply IH; [|set_solver]. specialize (Hall x ltac:(left)). lia. }
    specialize (Hle (visible q s) 0 ltac:(lia) Hnew). lia.
  - specialize (Hval (cr_key r)). destruct (ec_values cfg !! cr_key r) as [v|]; [|done].
    destruct Hval as (r' & -> & Hin & Hk & _).
    rewrite (proj2 (supersedes_spec r r')); [done|].
    specialize (Hspec r' Hin Hk). specialize (Hnew r' Hin). unfold precedes. lia.
Qed.

(** A publication that is not answered from an earlier one. *)
Lemma publish_config_fresh command s s' r :
  publish_config command s = (s', Ok r) →
  replay_config_release (pc_idempotency command) s = Ok None →
  ∃ d, drafts s !! pc_draft_id command = Some d ∧ cd_published d = false
    ∧ r = draft_release d (id_of "release" (u64_succ (next_sequence s)))
            (pc_published_by command) (pc_now_ms command) (u64_succ (revision s))
    ∧ s' = release_commit (pc_idempotency command) ConfigPublished
             (<[pc_draft_id command := mark_published d]> (drafts s)) r s.
Proof.
  intros Hp Hr. rewrite publish_config_run in Hp.
  destruct (validate_publish_config_command command); [|done]. rewrite Hr in Hp.
  destruct (drafts s !! pc_draft_id command) as [d|]; [|done].
  destruct (cd_published d) eqn:Ed; [done|]. exists d. naive_solver.
Qed.

(** C14: publishing a draft takes effect at once: a query the release is visible
    to gets the draft's value for its key, at the new revision, provided no more
    specific release of that key is visible to it, and every other key of the
    answer keeps its value; the earlier releases stay, in order. *)
Theorem publish_takes_effect command s s' r q cfg :
  store_wf s → headroom 1 s →
  publish_config command s = (s', Ok r) →
  replay_config_release (pc_idempotency command) s = Ok None →
  valid_config_query q → effective_filter q r = true →
  (∀ r', r' ∈ visible q s → cr_key r' = cr_key r →
         specificity (cr_scope r') <= specificity (cr_scope r)) →
  retrieve_effective_config q s = Ok cfg →
  ∃ d cfg', drafts s !! pc_draft_id command = Some d ∧ release_of d r
    ∧ releases s' = releases s ++ [r] ∧ revision s' = revision s + 1
    ∧ retrieve_effective_config q s' = Ok cfg' ∧ ec_revision cfg' = revision s'
    ∧ ec_values cfg' !! cd_key d = Some (effective_value r) ∧ cr_value r = cd_value d
    ∧ ∀ key, key ≠ cd_key d → ec_values cfg' !! key = ec_values cfg !! key.
Proof.
  intros Hwf [Hr _] Hp Hnew Hq Hf Hspec Hcfg.
  destruct (publish_config_fresh _ _ _ _ Hp Hnew) as (d & Hd & _ & Er & ->).
  assert (cr_revision r = revision s + 1) as Erev
    by (rewrite Er; simpl; apply u64_succ_small; lia).
  destruct (effective_commit q s (pc_idempotency command) ConfigPublished
              (<[pc_draft_id command := mark_published d]> (drafts s)) r cfg Hwf Hq
              ltac:(lia) Hf Hspec Hcfg) as (cfg' & Hcfg' & Hrev & Hval).
  assert (revision (release_commit (pc_idempotency command) ConfigPublished
            (<[pc_draft_id command := mark_published d]> (drafts s)) r s) = revision s + 1) as Es'.
  { destruct (pc_idempotency command); simpl; apply u64_succ_small; lia. }
  exists d, cfg'. rewrite releases_commit, Es', Hrev, Hval, Erev.
  assert (cr_key r = cd_key d) as <- by (by rewrite Er).
  split_and!; [done|by rewrite Er|done|done|done|done|apply lookup_insert_eq|by rewrite Er|].
  intros key Hk. by apply lookup_insert_ne.
Qed.

Definition sample_release : ConfigRelease :=
  draft_release (new_draft sample_hash (sample_draft "mode" "fast" ScopeNamespace) "draft-2")
    "release-4" "ops" 2000 2.

Lemma publish_takes_effect_witness :
  ∃ cfg', retrieve_effective_config sample_config_query
            (publish_config (sample_publish "draft-2" 2000) sample_config_store).1 = Ok cfg'
          ∧ ec_values cfg' !! "mode" = Some (effective_value sample_release).
Proof.
  destruct (publish_takes_effect (sample_publish "draft-2" 2000) sample_config_store
    (publish_config (sample_publish "draft-2" 2000) sample_config_store).1 sample_release
    sample_config_query
    (foldl effective_step {| ec_revision := 0; ec_values := ∅ |}
       (visible sample_config_query sample_config_store))
    (proj1 sample_config_store_wf) ltac:(vm_compute; split; discriminate)
    ltac:(vm_compute; reflexivity) ltac:(reflexivity) ltac:(by split_and!)
    ltac:(vm_compute; reflexivity) ltac:(intros r' Hr _; unfold visible in Hr;
      change (r' ∈ [draft_release (new_draft sample_hash (sample_draft "mode" "safe"
                ScopeNamespace) "draft-1") "release-3" "ops" 1000 1]) in Hr;
      apply list_elem_of_singleton in Hr as ->; vm_compute; discriminate)
    ltac:(apply retrieve_effective_config_valid; by split_and!))
    as (d & cfg' & Hd & _ & _ & _ & H1 & _ & H2 & _).
  exists cfg'. split; [exact H1|]. vm_compute in Hd. injection Hd as <-. exact H2.
Defined.

Lemma rollback_config_fresh command s s' r :
  rollback_config command s = (s', Ok r) →
  replay_config_release (rb_idempotency command) s = Ok None →
  ∃ source, find_release (rb_source_release_id command) s = Some source
    ∧ r = copied_release source (id_of "release" (u64_succ (next_sequence s)))
            (rb_rolled_back_by command) (rb_now_ms command) (u64_succ (revision s))
    ∧ s' = release_commit (rb_idempotency command) ConfigRolledBack (drafts s) r s.
Proof.
  intros Hp Hr. rewrite rollback_config_run in Hp.
  destruct (validate_rollback_config_command command); [|done]. rewrite Hr in Hp.
  destruct (find_release _ s) as [source|]; [|done]. exists source. naive_solver.
Qed.

(** C15: rolling back to a release restores its value without rewriting history:
    a new release with the source's content is appended, and every query that
    sees the source, and no more specific release of its key, gets the source's
    value and format again; its other keys keep their values. *)
Theorem rollback_restores command s s' r q cfg :
  store_wf s → headroom 1 s →
  rollback_config command s = (s', Ok r) →
  replay_config_release (rb_idempotency command) s = Ok None →
  valid_config_query q → effective_filter q r = true →
  (∀ r', r' ∈ visible q s → cr_key r' = cr_key r →
         specificity (cr_scope r') <= specificity (cr_scope r)) →
  retrieve_effective_config q s = Ok cfg →
  ∃ source cfg' v, source ∈ releases s ∧ cr_release_id source = rb_source_release_id command
    ∧ releases s' = releases s ++ [r] ∧ drafts s' = drafts s
    ∧ cr_content_hash r = cr_content_hash source ∧ (cr_release_id r ∉ (cr_release_id <$> releases s))
    ∧ retrieve_effective_config q s' = Ok cfg'
    ∧ ec_values cfg' !! cr_key source = Some v
    ∧ ev_value v = cr_value source ∧ ev_format v = cr_format source
    ∧ ∀ key, key ≠ cr_key source → ec_values cfg' !! key = ec_values cfg !! key.
Proof.
  intros Hwf [Hr Hs] Hp Hnew Hq Hf Hspec Hcfg.
  destruct (rollback_config_fresh _ _ _ _ Hp Hnew) as (source & Hd & Er & ->).
  assert (cr_revision r = revision s + 1) as Erev
    by (rewrite Er; simpl; apply u64_succ_small; lia).
  destruct (effective_commit q s (rb_idempotency command) ConfigRolledBack
              (drafts s) r cfg Hwf Hq ltac:(lia) Hf Hspec Hcfg) as (cfg' & Hcfg' & Hrev & Hval).
  apply find_release_Some in Hd as [Hin Hid].
  exists source, cfg', (effective_value r). rewrite releases_commit, drafts_commit, Hval.
  assert (cr_key r = cr_key source) as <- by (by rewrite Er).
  split_and!; [done|done|done|done|by rewrite Er| |done|apply lookup_insert_eq
    |by rewrite Er|by rewrite Er|].
  - rewrite Er. simpl. rewrite u64_succ_small by lia.
    intros (x & Ex & Hx)%list_elem_of_fmap.
    destruct (cw_release_id _ _ _ _ _ (wf_config _ Hwf) x Hx) as (n & Hn & En).
    rewrite En in Ex. apply id_of_inj in Ex. lia.
  - intros key Hk. by apply lookup_insert_ne.
Qed.

(** The second draft published over the first. *)
Definition sample_config_store2 : MemoryDiscoveryStore :=
  (publish_config (sample_publish "draft-2" 2000) sample_config_store).1.

Definition sample_rolled_back : ConfigRelease :=
  copied_release (draft_release (new_draft sample_hash (sample_draft "mode" "safe"
    ScopeNamespace) "draft-1") "release-3" "ops" 1000 1) "release-5" "ops" 3000 3.

Lemma rollback_restores_witness :
  ∃ cfg' v, retrieve_effective_config sample_config_query
              (rollback_config (sample_rollback "release-3" 3000) sample_config_store2).1 = Ok cfg'
            ∧ ec_values cfg' !! "mode" = Some v ∧ ev_value v = "safe".
Proof.
  destruct (rollback_restores (sample_rollback "release-3" 3000) sample_config_store2
    (rollback_config (sample_rollback "release-3" 3000) sample_config_store2).1
    sample_rolled_back sample_config_query
    (foldl effective_step {| ec_revision := 0; ec_values := ∅ |}
       (visible sample_config_query sample_config_store2))
    ltac:(apply publish_config_wf; [apply sample_config_store_wf|vm_compute; split; discriminate])
    ltac:(vm_compute; split; discriminate)
    ltac:(vm_compute; reflexivity) ltac:(reflexivity) ltac:(by split_and!)
    ltac:(vm_compute; reflexivity)
    ltac:(intros r' Hr _; unfold visible in Hr; apply elem_of_retain in Hr as [_ Hr];
      change (r' ∈ [draft_release (new_draft sample_hash (sample_draft "mode" "safe"
                ScopeNamespace) "draft-1") "release-3" "ops" 1000 1; sample_release]) in Hr;
      apply elem_of_cons in Hr as [->|Hr]; [vm_compute; discriminate|];
      apply list_elem_of_singleton in Hr as ->; vm_compute; discriminate)
    ltac:(apply retrieve_effective_config_valid; by split_and!))
    as (source & cfg' & v & Hin & Hid & _ & _ & _ & _ & H1 & H2 & H3 & _).
  exists cfg', v. assert (source = draft_release (new_draft sample_hash (sample_draft "mode" "safe"
    ScopeNamespace) "draft-1") "release-3" "ops" 1000 1) as ->.
  { change (source ∈ [draft_release (new_draft sample_hash (sample_draft "mode" "safe"
                ScopeNamespace) "draft-1") "release-3" "ops" 1000 1; sample_release]) in Hin.
    apply elem_of_cons in Hin as [->|Hin]; [done|]. apply list_elem_of_singleton in Hin as ->.
    discriminate Hid. }
  split_and!; [exact H1|exact H2|exact H3].
Defined.

(** A draft is published at most once: after a publication, no later
    publication of the same draft succeeds as a new one, whatever other config
    operations came between; it is refused and changes nothing. *)
Theorem publish_exactly_once command s s1 r s2 command2 :
  publish_config command s = (s1, Ok r) →
  replay_config_release (pc_idempotency command) s = Ok None →
  config_extends s1 s2 →
  pc_draft_id command2 = pc_draft_id command →
  validate_publish_config_command command2 = Ok () →
  replay_config_release (pc_idempotency command2) s2 = Ok None →
  publish_config command2 s2
  = (s2, Err (AlreadyPublished "config draft is already published")).
Proof.
  intros Hp Hnew Hext Hid Hv Hr2.
  destruct (publish_config_fresh _ _ _ _ Hp Hnew) as (d & Hd & _ & _ & ->).
  rewrite publish_config_run, Hv, Hr2, Hid.
  destruct (cx_drafts _ _ Hext (pc_draft_id command) (mark_published d)) as (d' & -> & Hc).
  { rewrite drafts_commit. apply lookup_insert_eq. }
  destruct Hc as [->| ->]; done.
Qed.

Lemma publish_exactly_once_witness :
  publish_config (sample_publish "draft-2" 9000)
    (rollback_config (sample_rollback "release-3" 3000) sample_config_store2).1
  = ((rollback_config (sample_rollback "release-3" 3000) sample_config_store2).1,
     Err (AlreadyPublished "config draft is already published")).
Proof.
  apply (publish_exactly_once (sample_publish "draft-2" 2000) sample_config_store
           sample_config_store2 sample_release).
  - vm_compute. reflexivity.
  - reflexivity.
  - apply rollback_config_extends.
  - reflexivity.
  - reflexivity.
  - reflexivity.
Defined.

(** ** Idempotent retries *)

Lemma find_release_extends release_id s s' r :
  config_extends s s' → find_release release_id s = Some r →
  find_release release_id s' = Some r.
Proof.
  intros [_ [l Hl] _]. unfold find_release. intros ([n r'] & E & ->)%fmap_Some.
  rewrite Hl, (list_find_app_l _ _ _ _ _ E). done.
Qed.

(** The record an answered command leaves behind. *)
Definition recorded (c : IdempotencyContext) (resource_id : string) (s : MemoryDiscoveryStore)
    : Prop :=
  idempotency s !! idempotency_key c =
    Some {| idr_request_hash := ic_request_hash c; idr_resource_id := resource_id |}.

Lemma recorded_extends c resource_id s s' :
  config_extends s s' → recorded c resource_id s → recorded c resource_id s'.
Proof. intros [_ _ Hi]. unfold recorded. intros Hr. by eapply lookup_weaken. Qed.

Lemma replay_recorded c resource_id s r :
  recorded c resource_id s → find_release resource_id s = Some r →
  replay_config_release (Some c) s = Ok (Some r).
Proof.
  unfold recorded. intros Hr Hf. simpl. rewrite Hr. unfold validate_idempotency_hash. simpl.
  rewrite bool_decide_true by done. simpl. by rewrite Hf.
Qed.

Lemma replay_config_release_Some c s r :
  replay_config_release (Some c) s = Ok (Some r) →
  ∃ resource_id, recorded c resource_id s ∧ find_release resource_id s = Some r.
Proof.
  simpl. destruct (idempotency s !! idempotency_key c) as [rec|] eqn:E; [|done].
  rewrite result_bind_Ok. intros ([] & Hh & H). apply result_bind_Ok in H as (r' & Hr & [= ->]).
  apply ok_or_Ok in Hr. unfold validate_idempotency_hash in Hh. case_bool_decide as Eh; [|done].
  exists (idr_resource_id rec). split; [|done]. unfold recorded. rewrite E, <- Eh.
  by destruct rec.
Qed.

(** Answering a keyed draft leaves a record that answers the key again, whatever
    draft is asked for. *)
Lemma draft_leaves_record hash command c s s1 d :
  create_config_draft hash command s = (s1, Ok d) → cc_idempotency command = Some c →
  ∀ command2, cc_idempotency command2 = Some c → replay_config_draft command2 s1 = Ok (Some d).
Proof.
  rewrite create_config_draft_run. intros Hd Hc command2 Hc2.
  destruct (validate_config_draft_command command) as [u|]; [|done].
  destruct (replay_config_draft command s) as [[d'|]|] eqn:Er; [| |done].
  - injection Hd as <- <-. unfold replay_config_draft in *. by rewrite Hc2; rewrite Hc in Er.
  - injection Hd as <- <-. unfold replay_config_draft. rewrite Hc2, Hc. simpl.
    rewrite lookup_insert_eq. unfold validate_idempotency_hash. simpl.
    rewrite bool_decide_true by done. simpl. by rewrite lookup_insert_eq.
Qed.

Lemma recorded_commit c kind ds r s :
  recorded c (cr_release_id r) (release_commit (Some c) kind ds r s).
Proof. unfold recorded, release_commit. simpl. apply lookup_insert_eq. Qed.

Lemma find_release_commit c kind ds r s n :
  store_wf s → next_sequence s < n → cr_release_id r = id_of "release" n →
  find_release (cr_release_id r) (release_commit c kind ds r s) = Some r.
Proof.
  intros Hwf Hn Hid. unfold find_release. rewrite releases_commit, list_find_app_r.
  - simpl. by rewrite decide_True.
  - apply list_find_None, Forall_forall. intros x Hx E.
    destruct (cw_release_id _ _ _ _ _ (wf_config _ Hwf) x Hx) as (m & Hm & Em).
    rewrite Em, Hid in E. apply id_of_inj in E. lia.
Qed.

(** Answering a keyed command leaves a record that answers it again. *)
Lemma publish_leaves_record command c s s1 r :
  store_wf s → headroom 1 s → pc_idempotency command = Some c →
  publish_config command s = (s1, Ok r) →
  validate_publish_config_command command = Ok () ∧
  ∃ resource_id, recorded c resource_id s1 ∧ find_release resource_id s1 = Some r.
Proof.
  intros Hwf [_ Hs] Hc Hp. pose proof Hp as Hp'. rewrite publish_config_run, Hc in Hp.
  destruct (validate_publish_config_command command) as [[]|]; [|done]. split; [done|].
  destruct (replay_config_release (Some c) s) as [[r'|]|] eqn:Er; [| |done].
  - injection Hp as <- <-. by apply replay_config_release_Some.
  - rewrite <- Hc in Er. destruct (publish_config_fresh _ _ _ _ Hp' Er) as (d & _ & _ & Hr & ->).
    exists (cr_release_id r). rewrite Hc. split; [apply recorded_commit|].
    eapply find_release_commit; [done| |by rewrite Hr]. rewrite u64_succ_small; lia.
Qed.

Lemma rollback_leaves_record command c s s1 r :
  store_wf s → headroom 1 s → rb_idempotency command = Some c →
  rollback_config command s = (s1, Ok r) →
  validate_rollback_config_command command = Ok () ∧
  ∃ resource_id, recorded c resource_id s1 ∧ find_release resource_id s1 = Some r.
Proof.
  intros Hwf [_ Hs] Hc Hp. pose proof Hp as Hp'. rewrite rollback_config_run, Hc in Hp.
  destruct (validate_rollback_config_command command) as [[]|]; [|done]. split; [done|].
  destruct (replay_config_release (Some c) s) as [[r'|]|] eqn:Er; [| |done].
  - injection Hp as <- <-. by apply replay_config_release_Some.
  - rewrite <- Hc in Er. destruct (rollback_config_fresh _ _ _ _ Hp' Er) as (d & _ & Hr & ->).
    exists (cr_release_id r). rewrite Hc. split; [apply recorded_commit|].
    eapply find_release_commit; [done| |by rewrite Hr]. rewrite u64_succ_small; lia.
Qed.

(** C16: a publication with an idempotency key can be retried at any later time:
    the same command gets the same release back and the store does not change;
    the same key with another request hash is refused as an invalid argument. *)
Theorem publish_retry_idempotent command c s s1 r s2 :
  store_wf s → headroom 1 s → pc_idempotency command = Some c →
  publish_config command s = (s1, Ok r) → config_extends s1 s2 →
  publish_config command s2 = (s2, Ok r) ∧
  ∀ command' c', pc_idempotency command' = Some c' → idempotency_key c' = idempotency_key c →
    ic_request_hash c' ≠ ic_request_hash c →
    validate_publish_config_command command' = Ok () →
    publish_config command' s2 =
      (s2, Err (InvalidArgument "idempotency request hash does not match original request")).
Proof.
  intros Hwf Hroom Hc Hp Hext.
  destruct (publish_leaves_record _ _ _ _ _ Hwf Hroom Hc Hp) as (Hv & id & Hrec & Hf).
  apply (recorded_extends _ _ _ _ Hext) in Hrec. apply (find_release_extends _ _ _ _ Hext) in Hf.
  split.
  - rewrite publish_config_run, Hv, Hc. by rewrite (replay_recorded c id s2 r).
  - intros command' c' Hc' Hk Hh Hv'. rewrite publish_config_run, Hv', Hc'. simpl.
    rewrite Hk. unfold recorded in Hrec. rewrite Hrec. unfold validate_idempotency_hash. simpl.
    by rewrite bool_decide_false.
Qed.

Definition sample_context (hash : string) : IdempotencyContext :=
  {| ic_operation_id := "publish"; ic_key := "k1"; ic_request_hash := hash |}.

Definition sample_keyed_publish (hash : string) : PublishConfigCommand :=
  {| pc_draft_id := "draft-2"; pc_published_by := "ops"; pc_now_ms := 2000;
     pc_idempotency := Some (sample_context hash) |}.

Lemma publish_retry_idempotent_witness :
  publish_config (sample_keyed_publish "h1")
    (rollback_config (sample_rollback "release-3" 3000)
       (publish_config (sample_keyed_publish "h1") sample_config_store).1).1
  = ((rollback_config (sample_rollback "release-3" 3000)
        (publish_config (sample_keyed_publish "h1") sample_config_store).1).1,
     Ok sample_release).
Proof.
  apply (publish_retry_idempotent (sample_keyed_publish "h1") (sample_context "h1")
           sample_config_store (publish_config (sample_keyed_publish "h1") sample_config_store).1
           sample_release).
  - apply sample_config_store_wf.
  - vm_compute; split; discriminate.
  - reflexivity.
  - vm_compute. reflexivity.
  - apply rollback_config_extends.
Defined.

(** A rollback with an idempotency key can be retried at any later time: it
    returns the release of the first attempt and appends no other. *)
Theorem rollback_retry_idempotent command c s s1 r s2 :
  store_wf s → headroom 1 s → rb_idempotency command = Some c →
  rollback_config command s = (s1, Ok r) → config_extends s1 s2 →
  rollback_config command s2 = (s2, Ok r).
Proof.
  intros Hwf Hroom Hc Hp Hext.
  destruct (rollback_leaves_record _ _ _ _ _ Hwf Hroom Hc Hp) as (Hv & id & Hrec & Hf).
  apply (recorded_extends _ _ _ _ Hext) in Hrec. apply (find_release_extends _ _ _ _ Hext) in Hf.
  rewrite rollback_config_run, Hv, Hc. by rewrite (replay_recorded c id s2 r).
Qed.

Definition sample_keyed_rollback : RollbackConfigCommand :=
  {| rb_source_release_id := "release-3"; rb_rolled_back_by := "ops"; rb_now_ms := 3000;
     rb_idempotency := Some (sample_context "h2") |}.

Lemma rollback_retry_idempotent_witness :
  rollback_config sample_keyed_rollback
    (rollback_config sample_keyed_rollback sample_config_store2).1
  = ((rollback_config sample_keyed_rollback sample_config_store2).1, Ok sample_rolled_back).
Proof.
  apply (rollback_retry_idempotent sample_keyed_rollback (sample_context "h2")
           sample_config_store2
           (rollback_config sample_keyed_rollback sample_config_store2).1 sample_rolled_back).
  - apply publish_config_wf; [apply sample_config_store_wf|vm_compute; split; discriminate].
  - vm_compute; split; discriminate.
  - reflexivity.
  - vm_compute. reflexivity.
  - reflexivity.
Defined.
