(* ===== verification/MemoryWatch.v ===== *)
(** * The in-memory event log (storage-memory: watch.rs)

    Every method of [impl WatchEventStore for MemoryDiscoveryStore]: reading the
    log from a cursor, trimming it, and compacting it per resource. *)
From S2P Require Import Prelude RustStr Collections Contract MemoryStore.

(** ** Operations *)

Definition validate_watch_query (query : WatchEventsQuery) : DiscoveryResult () :=
  validate_non_empty "namespace" (wq_namespace query);;
  validate_non_empty "environment" (wq_environment query);;
  validate_optional_filter "service_name" (wq_service_name query);;
  validate_optional_filter "config_group" (wq_config_group query);;
  validate_optional_filter "config_application" (wq_config_application query);;
  if wq_max_events query =? 0
  then Err (InvalidArgument "max_events must be greater than zero") else Ok ().

Definition watch_events (query : WatchEventsQuery) (s : MemoryDiscoveryStore)
    : DiscoveryResult (list DiscoveryEvent) :=
  validate_watch_query query;;
  mret (take_N (wq_max_events query) (retain (matches_event query) (events s))).

(** The [retain] closure of [gc_watch_events], which counts what it drops. *)
Fixpoint gc_retain (before_revision max_deletes removed : N) (l : list DiscoveryEvent)
    : list DiscoveryEvent * N :=
  match l with
  | [] => ([], removed)
  | event :: l =>
      if (de_revision event <=? before_revision) && (removed <? max_deletes)
      then gc_retain before_revision max_deletes (u64_succ removed) l
      else let '(kept, removed) := gc_retain before_revision max_deletes removed l in
           (event :: kept, removed)
  end.

Definition gc_watch_events (before_revision max_deletes : N) : Op MemoryDiscoveryStore N :=
  lift (if max_deletes =? 0
        then Err (InvalidArgument "max_deletes must be greater than zero") else Ok ());;
  trimmed ← gets (λ s, gc_retain before_revision max_deletes 0 (events s));
  modify (set_events trimmed.1);;
  mret trimmed.2.

(** [iter().enumerate()]. *)
Fixpoint enumerate {A} (i : nat) (l : list A) : list (nat * A) :=
  match l with [] => [] | x :: l => (i, x) :: enumerate (S i) l end.

Definition in_scope (namespace environment : string) (event : DiscoveryEvent) : bool :=
  bool_decide (de_namespace event = namespace)
  && bool_decide (de_environment event = environment).

(** One turn of the loop that groups indices by resource. *)
Definition group_event (namespace environment : string)
    (groups : gmap string (list nat)) (x : nat * DiscoveryEvent) : gmap string (list nat) :=
  let '(idx, event) := x in
  if in_scope namespace environment event
  then <[de_resource_id event := default [] (groups !! de_resource_id event) ++ [idx]]> groups
  else groups.

(** What one group contributes to [indices_to_remove]. *)
Definition surplus (max_events_per_resource : N) (indices : list nat) : list nat :=
  if max_events_per_resource <? len_N indices
  then take (length indices - N.to_nat max_events_per_resource) indices else [].

(** [Vec::remove], which panics out of range. *)
Definition vec_remove {A} (idx : nat) (l : list A) : option (list A) :=
  if (idx <? length l)%nat then Some (delete idx l) else None.

Fixpoint remove_indices {A} (idxs : list nat) (l : list A) : option (list A) :=
  match idxs with
  | [] => Some l
  | idx :: idxs => l ← vec_remove idx l; remove_indices idxs l
  end.

Section with_hash_order.
Context `{HashOrder}.

Definition indices_to_remove (namespace environment : string) (max_events_per_resource : N)
    (l : list DiscoveryEvent) : list nat :=
  let groups := foldl (group_event namespace environment) ∅ (enumerate 0 l) in
  reverse (sort_by Nat.compare (hash_values groups ≫= surplus max_events_per_resource)).

(** The log after the removal loop; [None] is a panic of [Vec::remove]. *)
Definition compacted (namespace environment : string) (max_events_per_resource : N)
    (l : list DiscoveryEvent) : option (list DiscoveryEvent) :=
  remove_indices (indices_to_remove namespace environment max_events_per_resource l) l.

(** [compacted_total] below shows that the panic is never taken. *)
Definition compact_watch_events (namespace environment : string)
    (max_events_per_resource : N) : Op MemoryDiscoveryStore N := λ s,
  let before_count := len_N (events s) in
  let kept := default (events s)
                (compacted namespace environment max_events_per_resource (events s)) in
  (set_events kept s, Ok (before_count - len_N kept)).
End with_hash_order.

(** ** Trimming *)

Lemma gc_retain_sublist before max removed l : (gc_retain before max removed l).1 `sublist_of` l.
Proof.
  revert removed. induction l as [|e l IH]; intros removed; simpl; [done|].
  destruct (_ && _); [by constructor|].
  specialize (IH removed). destruct (gc_retain before max removed l). by constructor.
Qed.

(** On a log with ascending revisions the trimmed events are a prefix. *)
Lemma gc_retain_none before max removed l :
  (∀ e, e ∈ l → before < de_revision e) → gc_retain before max removed l = (l, removed).
Proof.
  induction l as [|e l IH]; intros Hall; simpl; [done|].
  destruct (N.leb_spec (de_revision e) before) as [Hle|].
  { specialize (Hall e ltac:(left)). lia. }
  simpl. rewrite IH; [done|]. intros x Hx. apply Hall. by right.
Qed.

Lemma gc_retain_prefix before max removed l :
  StronglySorted (λ a b, de_revision a < de_revision b) l →
  removed + len_N l <= u64_max →
  let n := N.min (max - removed)
             (len_N (retain (λ e, de_revision e <=? before) l)) in
  gc_retain before max removed l = (drop (N.to_nat n) l, removed + n).
Proof.
  revert removed. induction l as [|e l IH]; intros removed Hs Hlen; cbn [gc_retain].
  { simpl. rewrite drop_nil. f_equal. unfold len_N. simpl. lia. }
  apply StronglySorted_inv in Hs as [Hs Hall]. rewrite Forall_forall in Hall.
  unfold len_N in Hlen. simpl in Hlen. unfold retain. rewrite filter_cons.
  fold (retain (λ e, de_revision e <=? before) l).
  destruct (N.leb_spec (de_revision e) before) as [Hle|Hgt]; cbn [andb].
  - rewrite decide_True by done. destruct (N.ltb_spec removed max) as [Hlt|Hge].
    + rewrite u64_succ_small by lia. rewrite IH by (done || (unfold len_N; lia)).
      set (m := len_N (retain _ l)).
      assert (len_N (e :: retain (λ e, de_revision e <=? before) l) = m + 1) as ->
        by (unfold m, len_N; simpl; lia).
      replace (N.min (max - removed) (m + 1)) with (N.min (max - (removed + 1)) m + 1) by lia.
      rewrite N2Nat.inj_add, Nat.add_1_r. simpl. f_equal. lia.
    + rewrite IH by (done || (unfold len_N; lia)).
      replace (max - removed) with 0 by lia. rewrite !N.min_0_l. simpl. by rewrite drop_0.
  - rewrite gc_retain_none by (intros x Hx; specialize (Hall x Hx); lia).
    rewrite decide_False by done.
    assert (retain (λ e, de_revision e <=? before) l = []) as ->.
    { apply retain_none. intros x Hx. specialize (Hall x Hx). apply N.leb_gt. lia. }
    unfold len_N. simpl. rewrite N.min_0_r. simpl. by rewrite N.add_0_r.
Qed.

(** ** Compaction

    A reference definition: an event of the scope goes when at least
    [max_events_per_resource] later events of the scope are about the same
    resource. *)

Definition about (namespace environment resource_id : string) (e : DiscoveryEvent) : bool :=
  in_scope namespace environment e && bool_decide (de_resource_id e = resource_id).

Definition stale (namespace environment : string) (max : N) (e : DiscoveryEvent)
    (later : list DiscoveryEvent) : bool :=
  in_scope namespace environment e
  && (max <=? len_N (retain (about namespace environment (de_resource_id e)) later)).

Fixpoint keep_latest (namespace environment : string) (max : N) (l : list DiscoveryEvent)
    : list DiscoveryEvent :=
  match l with
  | [] => []
  | e :: l =>
      if stale namespace environment max e l then keep_latest namespace environment max l
      else e :: keep_latest namespace environment max l
  end.

(** *** Removing a set of indices *)

Fixpoint keep_from {A} (i : nat) (drop : nat → bool) (l : list A) : list A :=
  match l with
  | [] => []
  | x :: l => if drop i then keep_from (S i) drop l else x :: keep_from (S i) drop l
  end.

Lemma keep_from_ext {A} i (f g : nat → bool) (l : list A) :
  (∀ j, (i <= j)%nat → f j = g j) → keep_from i f l = keep_from i g l.
Proof.
  revert i. induction l as [|x l IH]; intros i Hfg; simpl; [done|].
  rewrite Hfg by lia. rewrite (IH (S i)); [done|]. intros j Hj. apply Hfg. lia.
Qed.

Lemma keep_from_none {A} i (f : nat → bool) (l : list A) :
  (∀ j, (i <= j)%nat → f j = false) → keep_from i f l = l.
Proof.
  revert i. induction l as [|x l IH]; intros i Hf; simpl; [done|].
  rewrite Hf by lia. rewrite IH; [done|]. intros j Hj. apply Hf. lia.
Qed.

Lemma keep_from_delete {A} i n (f : nat → bool) (l : list A) :
  (∀ j, (i + n <= j)%nat → f j = false) →
  keep_from i f (delete n l) = keep_from i (λ j, f j || (j =? i + n)%nat) l.
Proof.
  revert i n. induction l as [|x l IH]; intros i n Hf; [by destruct n|].
  destruct n as [|n].
  - change (delete 0%nat (x :: l)) with l. cbn [keep_from]. rewrite Nat.add_0_r, Nat.eqb_refl, orb_true_r. rewrite Nat.add_0_r in Hf.
    rewrite !keep_from_none; [done| |].
    + intros j Hj. rewrite Hf by lia. simpl. apply Nat.eqb_neq. lia.
    + intros j Hj. apply Hf. lia.
  - change (delete (S n) (x :: l)) with (x :: delete n l). cbn [keep_from]. rewrite (IH (S i) n) by (intros; apply Hf; lia).
    replace (i =? i + S n)%nat with false by (symmetry; apply Nat.eqb_neq; lia).
    rewrite orb_false_r. rewrite (Nat.add_succ_r i n). done.
Qed.

Lemma remove_indices_desc {A} idxs (l : list A) :
  StronglySorted (λ a b, (b < a)%nat) idxs → (∀ i, i ∈ idxs → (i < length l)%nat) →
  remove_indices idxs l = Some (keep_from 0 (λ i, bool_decide (i ∈ idxs)) l).
Proof.
  intros Hs. revert l. induction Hs as [|n idxs Hs IH Hall]; intros l Hlt; simpl.
  { rewrite keep_from_none; [done|]. done. }
  rewrite Forall_forall in Hall. unfold vec_remove.
  destruct (Nat.ltb_spec n (length l)) as [Hn|Hn]; [|specialize (Hlt n ltac:(left)); lia].
  simpl. rewrite IH.
  - rewrite keep_from_delete.
    + f_equal. apply keep_from_ext. intros j _. rewrite Nat.add_0_l.
      destruct (Nat.eqb_spec j n) as [->|Hne].
      * rewrite orb_true_r. symmetry. apply bool_decide_true. left.
      * rewrite orb_false_r. apply bool_decide_ext. rewrite elem_of_cons. naive_solver.
    + intros j Hj. apply bool_decide_false. intros Hin. specialize (Hall j Hin). lia.
  - intros i Hi. specialize (Hall i Hi). rewrite length_delete; [lia|].
    by apply lookup_lt_is_Some.
Qed.

(** *** The groups *)

Definition positions (namespace environment resource_id : string)
    (l : list (nat * DiscoveryEvent)) : list nat :=
  (retain (about namespace environment resource_id ∘ snd) l).*1.

Lemma group_event_spec ns env l r :
  foldl (group_event ns env) ∅ l !! r =
    if decide (positions ns env r l = []) then None else Some (positions ns env r l).
Proof.
  induction l as [|[i e] l IH] using rev_ind; [done|].
  rewrite foldl_app. cbn [foldl]. unfold group_event at 1. unfold positions.
  rewrite retain_snoc, fmap_app. fold (positions ns env r l). unfold compose, about. simpl.
  destruct (in_scope ns env e); simpl; [|by rewrite app_nil_r].
  case_bool_decide as Er.
  - subst r. rewrite lookup_insert_eq, IH. simpl.
    rewrite (decide_False (P := positions _ _ _ _ ++ [i] = [])) by (by destruct (positions _ _ _ _)).
    case_decide as Ep; simpl; [by rewrite Ep|done].
  - rewrite lookup_insert_ne by done. by rewrite app_nil_r.
Qed.

Lemma enumerate_app {A} i (l1 l2 : list A) :
  enumerate i (l1 ++ l2) = enumerate i l1 ++ enumerate (i + length l1) l2.
Proof.
  revert i. induction l1 as [|x l1 IH]; intros i; simpl; [by rewrite Nat.add_0_r|].
  by rewrite IH, Nat.add_succ_r.
Qed.

Lemma elem_of_enumerate {A} i (l : list A) j x :
  (j, x) ∈ enumerate i l ↔ (i <= j)%nat ∧ l !! (j - i)%nat = Some x.
Proof.
  revert i. induction l as [|y l IH]; intros i; simpl.
  { split; [intros H; by apply elem_of_nil in H|intros [_ [=]]]. }
  rewrite elem_of_cons, IH. split.
  - intros [[= -> ->]|[Hle Hl]]; [by rewrite Nat.sub_diag|].
    replace (j - i)%nat with (S (j - S i)) by lia. split; [lia|done].
  - intros [Hle Hl]. destruct (decide (j = i)) as [->|Hne].
    + rewrite Nat.sub_diag in Hl. left. naive_solver.
    + right. replace (j - i)%nat with (S (j - S i)) in Hl by lia. split; [lia|done].
Qed.

Lemma enumerate_fst_sorted {A} i (l : list A) : StronglySorted lt (enumerate i l).*1.
Proof.
  revert i. induction l as [|x l IH]; intros i; simpl; constructor; [done|].
  apply Forall_forall. intros j ([j' x'] & -> & Hin)%list_elem_of_fmap.
  apply elem_of_enumerate in Hin. simpl. lia.
Qed.

Lemma positions_enumerate ns env r i l :
  positions ns env r (enumerate i l) `sublist_of` (enumerate i l).*1.
Proof. unfold positions. apply fmap_sublist, retain_sublist. Qed.

Lemma positions_length ns env r i l :
  len_N (positions ns env r (enumerate i l)) = len_N (retain (about ns env r) l).
Proof.
  unfold positions, len_N. rewrite length_fmap. f_equal. revert i.
  induction l as [|x l IH]; intros i; [done|]. unfold retain in *. simpl enumerate.
  rewrite !filter_cons. simpl. case_decide; simpl; by rewrite IH.
Qed.

Lemma StronglySorted_lt_NoDup (l : list nat) : StronglySorted lt l → NoDup l.
Proof.
  induction 1 as [|x l Hs IH Hall]; constructor; [|done].
  rewrite Forall_forall in Hall. intros Hx. specialize (Hall x Hx). lia.
Qed.

Lemma NoDup_positions ns env r i l : NoDup (positions ns env r (enumerate i l)).
Proof.
  eapply sublist_NoDup; [|apply positions_enumerate].
  apply StronglySorted_lt_NoDup, enumerate_fst_sorted.
Qed.

Lemma elem_of_positions ns env r l j :
  j ∈ positions ns env r (enumerate 0 l) ↔ ∃ e, l !! j = Some e ∧ about ns env r e = true.
Proof.
  unfold positions. rewrite list_elem_of_fmap. split.
  - intros ([j' e] & -> & [He Hin]%elem_of_retain). apply elem_of_enumerate in Hin as [_ Hin].
    simpl. rewrite Nat.sub_0_r in Hin. eauto.
  - intros (e & Hl & He). exists (j, e). split; [done|]. apply elem_of_retain.
    split; [done|]. apply elem_of_enumerate. rewrite Nat.sub_0_r. split; [lia|done].
Qed.

(** An index is in the surplus of its group when enough of the group follow it. *)
Lemma elem_of_surplus ns env max pre e post :
  in_scope ns env e = true →
  length pre ∈ surplus max (positions ns env (de_resource_id e) (enumerate 0 (pre ++ e :: post)))
  ↔ stale ns env max e post = true.
Proof.
  intros He. unfold stale. rewrite He. simpl. rewrite N.leb_le.
  rewrite enumerate_app. simpl enumerate.
  set (r := de_resource_id e). set (n := length pre).
  pose proof (NoDup_positions ns env r 0 (pre ++ e :: post)) as Hnd.
  rewrite enumerate_app in Hnd. simpl enumerate in Hnd. fold n in Hnd.
  assert (positions ns env r (enumerate 0 pre ++ (n, e) :: enumerate (S n) post) =
          positions ns env r (enumerate 0 pre) ++ n :: positions ns env r (enumerate (S n) post)) as Hp.
  { unfold positions. rewrite retain_app, fmap_app. f_equal. unfold retain at 1.
    rewrite filter_cons_True; [done|]. unfold compose, about. simpl. rewrite He. simpl.
    by apply bool_decide_true. }
  rewrite Hp in *. rewrite <- (positions_length ns env r (S n) post).
  set (p1 := positions ns env r (enumerate 0 pre)) in *.
  set (p2 := positions ns env r (enumerate (S n) post)) in *.
  unfold surplus, len_N. rewrite length_app. simpl length.
  apply NoDup_app in Hnd as (_ & Hdisj & Hnd). apply NoDup_cons in Hnd as [Hn2 _].
  destruct (N.ltb_spec max (N.of_nat (length p1 + S (length p2)))) as [Hlt|Hge].
  - set (k := (length p1 + S (length p2) - N.to_nat max)%nat). split.
    + intros Hin. destruct (decide (length p1 < k)%nat); [lia|].
      rewrite take_app_le in Hin by lia. apply subseteq_take in Hin.
      destruct (Hdisj n Hin). left.
    + intros Hle. rewrite take_app_ge by lia. apply elem_of_app. right.
      replace (k - length p1)%nat with (S (k - length p1 - 1)) by lia. left.
  - split; [intros Hin; by apply elem_of_nil in Hin|lia].
Qed.

(** *** The removed indices *)

Lemma StronglySorted_reverse {A} (R : relation A) l :
  StronglySorted R l → StronglySorted (flip R) (reverse l).
Proof.
  induction 1 as [|x l Hl IH Hall]; [constructor|]. rewrite reverse_cons.
  apply StronglySorted_snoc; [done|]. by apply Forall_reverse.
Qed.

Lemma StronglySorted_strict {A} (R S : relation A) l :
  (∀ x y, R x y → x ≠ y → S x y) → NoDup l → StronglySorted R l → StronglySorted S l.
Proof.
  intros HRS Hnd Hs. revert Hnd. induction Hs as [|x l Hl IH Hall]; [constructor|].
  intros [Hx Hnd]%NoDup_cons. constructor; [by apply IH|].
  rewrite Forall_forall in *. intros y Hy. apply HRS; [by apply Hall|]. by intros ->.
Qed.

Lemma surplus_sublist max l : surplus max l `sublist_of` l.
Proof.
  unfold surplus. destruct (_ <? _); [apply sublist_take|apply sublist_nil_l].
Qed.

Section removed.
Context `{HashOrder} (ns env : string) (max : N) (l : list DiscoveryEvent).

Let groups : gmap string (list nat) := foldl (group_event ns env) ∅ (enumerate 0 l).

Lemma group_lookup r ps :
  groups !! r = Some ps → ps = positions ns env r (enumerate 0 l).
Proof. unfold groups. rewrite group_event_spec. case_decide; naive_solver. Qed.

Lemma NoDup_surplus : NoDup (hash_values groups ≫= surplus max).
Proof.
  unfold hash_values. rewrite list_fmap_bind. apply NoDup_bind.
  - intros [r1 p1] [r2 p2] j Hi1 Hi2 Hj1 Hj2. simpl in *.
    apply elem_of_hash_iter, group_lookup in Hi1, Hi2. subst p1 p2.
    assert (j ∈ positions ns env r1 (enumerate 0 l)) as H1
      by (eapply elem_of_sublist; [exact Hj1|apply surplus_sublist]).
    assert (j ∈ positions ns env r2 (enumerate 0 l)) as H2
      by (eapply elem_of_sublist; [exact Hj2|apply surplus_sublist]).
    apply elem_of_positions in H1 as (e1 & He1 & [_ E1%bool_decide_eq_true]%andb_true_iff).
    apply elem_of_positions in H2 as (e2 & He2 & [_ E2%bool_decide_eq_true]%andb_true_iff).
    congruence.
  - intros [r ps] Hi%elem_of_hash_iter%group_lookup. simpl. subst ps.
    eapply sublist_NoDup; [apply NoDup_positions|apply surplus_sublist].
  - apply NoDup_hash_iter.
Qed.

Lemma elem_of_indices j :
  j ∈ indices_to_remove ns env max l ↔
  ∃ e, l !! j = Some e ∧ in_scope ns env e = true
       ∧ j ∈ surplus max (positions ns env (de_resource_id e) (enumerate 0 l)).
Proof.
  unfold indices_to_remove. fold groups.
  rewrite elem_of_reverse, elem_of_sort_by. unfold hash_values.
  rewrite list_fmap_bind, list_elem_of_bind. split.
  - intros ([r ps] & Hj & Hi%elem_of_hash_iter%group_lookup). simpl in *. subst ps.
    assert (j ∈ positions ns env r (enumerate 0 l)) as Hp
      by (eapply elem_of_sublist; [exact Hj|apply surplus_sublist]).
    apply elem_of_positions in Hp as (e & He & [Hs Hr%bool_decide_eq_true]%andb_true_iff).
    exists e. by rewrite Hr.
  - intros (e & He & Hs & Hj). exists (de_resource_id e, positions ns env (de_resource_id e)
                                                           (enumerate 0 l)).
    split; [done|]. apply elem_of_hash_iter. unfold groups. rewrite group_event_spec.
    rewrite decide_False; [done|]. intros E. rewrite E in Hj.
    apply (elem_of_nil j). eapply elem_of_sublist; [exact Hj|apply surplus_sublist].
Qed.

Lemma indices_desc : StronglySorted (λ a b, (b < a)%nat) (indices_to_remove ns env max l).
Proof.
  unfold indices_to_remove. fold groups. apply (StronglySorted_reverse lt).
  eapply StronglySorted_strict; [|rewrite sort_by_perm; apply NoDup_surplus
                                 |apply sort_by_sorted, _].
  unfold cmp_le. intros x y Hle Hne. rewrite Nat.compare_gt_iff in Hle. lia.
Qed.

(** The removal loop never leaves the range of the log, and keeps what the
    reference definition keeps. *)
Lemma compacted_total : compacted ns env max l = Some (keep_latest ns env max l).
Proof.
  unfold compacted. rewrite remove_indices_desc; [f_equal|apply indices_desc|].
  - assert (∀ pre post, l = pre ++ post →
              keep_from (length pre) (λ i, bool_decide (i ∈ indices_to_remove ns env max l)) post
              = keep_latest ns env max post) as Hgen.
    { intros pre post. revert pre. induction post as [|e post IH]; intros pre El; [done|].
      simpl. specialize (IH (pre ++ [e])). rewrite length_app, Nat.add_1_r in IH.
      rewrite IH by (by rewrite <- app_assoc).
      assert (bool_decide (length pre ∈ indices_to_remove ns env max l)
              = stale ns env max e post) as ->; [|done].
      assert (l !! length pre = Some e) as He by (by rewrite El, list_lookup_middle).
      apply eq_true_iff_eq. rewrite bool_decide_eq_true, elem_of_indices. split.
      - intros (e' & He' & Hs & Hj). rewrite He in He'. injection He' as <-.
        rewrite El in Hj at 1. by apply elem_of_surplus in Hj.
      - intros Hst. pose proof Hst as [Hs _]%andb_true_iff. exists e. split_and!; [done..|].
        rewrite El. by apply elem_of_surplus. }
    apply (Hgen [] l eq_refl).
  - intros i (e & He & _)%elem_of_indices. by eapply lookup_lt_Some.
Qed.
End removed.
