(* ===== verification/WatchTheorems.v ===== *)
(** * Theorems about the in-memory event log

    Resuming from a cursor loses and repeats nothing, trimming only takes events
    a current watcher has passed, and compaction keeps the latest events of each
    resource. *)
From S2P Require Import Prelude RustStr Collections Contract MemoryStore MemoryRegistry.
From S2P Require Import RegistryTheorems MemoryConfig ConfigTheorems MemoryWatch.

(** ** Preservation of the invariant *)

Lemma set_events_wf l s : l `sublist_of` events s → store_wf s → store_wf (set_events l s).
Proof. intros Hl [? ? He]. split; simpl; [done|done|]. by eapply events_wf_sublist. Qed.

Lemma gc_watch_events_run before max s :
  max ≠ 0 → gc_watch_events before max s =
    (set_events (gc_retain before max 0 (events s)).1 s,
     Ok (gc_retain before max 0 (events s)).2).
Proof.
  intros Hmax. unfold gc_watch_events. apply N.eqb_neq in Hmax. by rewrite Hmax.
Qed.

Lemma gc_watch_events_wf before max s : store_wf s → store_wf (gc_watch_events before max s).1.
Proof.
  intros Hwf. destruct (N.eqb_spec max 0) as [->|]; [done|].
  rewrite gc_watch_events_run by done. apply set_events_wf; [apply gc_retain_sublist|done].
Qed.

Lemma keep_latest_sublist ns env max l : keep_latest ns env max l `sublist_of` l.
Proof.
  induction l as [|e l IH]; simpl; [done|]. destruct (stale _ _ _ _ _); by constructor.
Qed.

Lemma compact_watch_events_run `{HashOrder} ns env max s :
  compact_watch_events ns env max s =
    (set_events (keep_latest ns env max (events s)) s,
     Ok (len_N (events s) - len_N (keep_latest ns env max (events s)))).
Proof. unfold compact_watch_events. by rewrite compacted_total. Qed.

Lemma compact_watch_events_wf `{HashOrder} ns env max s :
  store_wf s → store_wf (compact_watch_events ns env max s).1.
Proof.
  intros Hwf. rewrite compact_watch_events_run.
  apply set_events_wf; [apply keep_latest_sublist|done].
Qed.

(** ** Watching from a cursor *)

Definition with_cursor (q : WatchEventsQuery) (r : N) : WatchEventsQuery :=
  {| wq_namespace := wq_namespace q; wq_environment := wq_environment q;
     wq_from_revision := r; wq_service_name := wq_service_name q;
     wq_config_group := wq_config_group q;
     wq_config_application := wq_config_application q; wq_max_events := wq_max_events q |}.

(** A client polls each of a sequence of stores, moving its cursor to the
    revision of the last event it received. *)
Fixpoint poll (q : WatchEventsQuery) (cursor : N) (stores : list MemoryDiscoveryStore)
    : option (list DiscoveryEvent) :=
  match stores with
  | [] => Some []
  | s :: stores =>
      match watch_events (with_cursor q cursor) s with
      | Err _ => None
      | Ok es => (es ++.) <$> poll q (default cursor (de_revision <$> last es)) stores
      end
  end.

Definition valid_watch_query (q : WatchEventsQuery) : Prop := validate_watch_query q = Ok ().

Lemma watch_events_valid q c s :
  valid_watch_query q →
  watch_events (with_cursor q c) s =
    Ok (take_N (wq_max_events q) (retain (matches_event (with_cursor q c)) (events s))).
Proof.
  intros Hq. unfold watch_events.
  change (validate_watch_query (with_cursor q c)) with (validate_watch_query q).
  unfold valid_watch_query in Hq. by rewrite Hq.
Qed.

Definition matches_filters (q : WatchEventsQuery) (e : DiscoveryEvent) : bool :=
  bool_decide (de_namespace e = wq_namespace q)
  && bool_decide (de_environment e = wq_environment q)
  && is_none_or (wq_service_name q) (λ service_name,
       is_none_or (de_service_name e) (λ event_service,
         bool_decide (event_service = service_name)))
  && is_none_or (wq_config_group q) (λ config_group,
       bool_decide (de_config_group e = Some config_group))
  && is_none_or (wq_config_application q) (λ application,
       bool_decide (de_config_application e = Some application)).

Lemma matches_event_cursor q c e :
  matches_event (with_cursor q c) e = (c <? de_revision e) && matches_filters q e.
Proof.
  unfold matches_event, matches_filters. simpl. destruct (c <? de_revision e); simpl.
  - by rewrite andb_true_r.
  - by rewrite andb_false_r.
Qed.

(** Past the last delivered event, exactly the undelivered ones match. *)
Lemma retain_after q c l1 e l2 :
  StronglySorted (λ a b, de_revision a < de_revision b) (l1 ++ e :: l2) →
  c < de_revision e →
  retain (matches_event (with_cursor q (de_revision e))) (l1 ++ e :: l2) =
  retain (matches_event (with_cursor q c)) l2.
Proof.
  intros Hs Hc. assert ((∀ x, x ∈ l1 ++ [e] → de_revision x <= de_revision e) ∧
                        (∀ x, x ∈ l2 → de_revision e < de_revision x)) as [H1 H2].
  { induction l1 as [|y l1 IH]; simpl in *; apply StronglySorted_inv in Hs as [Hs Hall];
      rewrite Forall_forall in Hall.
    - split; [|done]. intros x ->%list_elem_of_singleton. done.
    - destruct (IH Hs) as [I1 I2]. split; [|done].
      intros x [->|Hx]%elem_of_cons; [|by apply I1]. specialize (Hall e ltac:(set_solver)). lia. }
  replace (l1 ++ e :: l2) with ((l1 ++ [e]) ++ l2) by (by rewrite <- app_assoc).
  rewrite retain_app, retain_none; simpl.
  - apply retain_ext. intros x Hx. specialize (H2 x Hx). rewrite !matches_event_cursor.
    destruct (N.ltb_spec (de_revision e) (de_revision x)), (N.ltb_spec c (de_revision x)); try lia.
    done.
  - intros x Hx. specialize (H1 x Hx). rewrite matches_event_cursor.
    destruct (N.ltb_spec (de_revision e) (de_revision x)); [lia|done].
Qed.

Lemma valid_query_max q : valid_watch_query q → wq_max_events q ≠ 0.
Proof.
  unfold valid_watch_query, validate_watch_query. intros Hq E. rewrite E in Hq.
  repeat (apply result_bind_Ok in Hq as (? & _ & Hq)). done.
Qed.

Section polling.
Context (q : WatchEventsQuery) (final : MemoryDiscoveryStore).
Context (Hq : valid_watch_query q) (Hwf : store_wf final).

Definition pending (c : N) (s : MemoryDiscoveryStore) : list DiscoveryEvent :=
  retain (matches_event (with_cursor q c)) (events s).

(** One poll delivers the next pending events. *)
Lemma poll_step c s :
  events s `prefix_of` events final →
  let es := take_N (wq_max_events q) (pending c s) in
  pending c final = es ++ pending (default c (de_revision <$> last es)) final.
Proof.
  intros Hp es. assert (es `prefix_of` pending c final) as Hes.
  { etransitivity; [apply take_N_prefix|]. unfold pending. destruct Hp as [k ->].
    rewrite retain_app. by apply prefix_app_r. }
  clearbody es. destruct es as [|e0 es0 _] using rev_ind; [done|].
  rewrite last_snoc. simpl. unfold pending in *.
  destruct (retain_prefix_split _ _ _ _ Hes) as (l1 & l2 & El & Hr & Hm).
  rewrite matches_event_cursor in Hm. apply andb_true_iff in Hm as [Hc%N.ltb_lt _].
  pose proof (ew_sorted _ _ (wf_events _ Hwf)) as Hs. rewrite El in *.
  rewrite (retain_after q c) by done.
  replace (l1 ++ e0 :: l2) with ((l1 ++ [e0]) ++ l2) by (by rewrite <- app_assoc).
  by rewrite retain_app, Hr.
Qed.

Lemma poll_cons c s stores :
  poll q c (s :: stores) =
    let es := take_N (wq_max_events q) (pending c s) in
    (es ++.) <$> poll q (default c (de_revision <$> last es)) stores.
Proof. cbn [poll]. by rewrite watch_events_valid. Qed.

(** What the polls of growing logs delivered is an initial part of what was
    pending, and the cursor they leave stands before the rest. *)
Lemma poll_prefix c stores :
  (∀ s, s ∈ stores → events s `prefix_of` events final) →
  ∃ l c', pending c final = l ++ pending c' final
    ∧ ∀ rest, poll q c (stores ++ rest) = (l ++.) <$> poll q c' rest.
Proof.
  revert c. induction stores as [|s stores IH]; intros c Hp.
  { exists [], c. split; [done|]. intros rest. simpl. by rewrite option_fmap_id. }
  pose proof (poll_step c s (Hp s ltac:(left))) as Hstep.
  set (es := take_N (wq_max_events q) (pending c s)) in *.
  destruct (IH (default c (de_revision <$> last es))) as (l & c' & Hl & Hpoll).
  { intros s' Hs'. apply Hp. by right. }
  exists (es ++ l), c'. split; [by rewrite Hstep, Hl, app_assoc|].
  intros rest. change ((s :: stores) ++ rest) with (s :: (stores ++ rest)).
  rewrite poll_cons. cbv zeta. fold es. rewrite Hpoll, <- option_fmap_compose.
  apply option_fmap_ext. intros x. simpl. by rewrite app_assoc.
Qed.

Lemma poll_drain c n :
  (length (pending c final) <= n)%nat →
  poll q c (replicate n final) = Some (pending c final).
Proof.
  revert c. induction n as [|n IH]; intros c Hn.
  { simpl. f_equal. symmetry. apply length_zero_iff_nil. lia. }
  cbn [replicate]. rewrite poll_cons. cbv zeta.
  pose proof (poll_step c final ltac:(done)) as Hstep. cbv zeta in Hstep.
  set (es := take_N (wq_max_events q) (pending c final)) in *.
  set (c' := default c (de_revision <$> last es)) in *.
  rewrite (IH c'); [simpl; by rewrite <- Hstep|].
  assert (length (pending c final) = (length es + length (pending c' final))%nat) as Hlen
    by (rewrite Hstep at 1; apply length_app).
  pose proof (valid_query_max q Hq) as Hmax.
  destruct (pending c final) as [|e l] eqn:Ep; [simpl in Hlen; lia|].
  assert (length es ≠ 0)%nat; [|lia]. unfold es. simpl.
  by destruct (N.eqb_spec (wq_max_events q) 0).
Qed.
End polling.

(** C17: a watcher that resumes each poll at the revision of the last event it
    received loses no event and receives none twice while the log grows: what the
    polls delivered, in order, is an initial part of the matching events past its
    first cursor; and as many more polls as there are events deliver the rest. *)
Theorem watch_resume_exact q c stores final :
  valid_watch_query q → store_wf final →
  (∀ s, s ∈ stores → events s `prefix_of` events final) →
  (∃ l, poll q c stores = Some l ∧ l `prefix_of` pending q c final) ∧
  poll q c (stores ++ replicate (length (events final)) final) = Some (pending q c final).
Proof.
  intros Hq Hwf Hp. destruct (poll_prefix q final Hq Hwf c stores Hp) as (l & c' & Hl & Hpoll).
  split.
  - exists l. specialize (Hpoll []). rewrite app_nil_r in Hpoll. rewrite Hpoll. simpl.
    rewrite app_nil_r, Hl. split; [done|]. by apply prefix_app_r.
  - rewrite Hpoll, poll_drain by (done || apply sublist_length, retain_sublist). simpl.
    by rewrite Hl.
Qed.

Definition sample_watch_query : WatchEventsQuery :=
  {| wq_namespace := "acme"; wq_environment := "prod"; wq_from_revision := 0;
     wq_service_name := Some "drive"; wq_config_group := None; wq_config_application := None;
     wq_max_events := 1 |}.

Lemma watch_resume_exact_witness :
  poll sample_watch_query 0
    ([(register_instance (sample_register "drive-1" 1000) new_store).1]
     ++ replicate (length (events sample_store)) sample_store)
  = Some (events sample_store).
Proof.
  refine (proj2 (watch_resume_exact sample_watch_query 0
    [(register_instance (sample_register "drive-1" 1000) new_store).1] sample_store
    eq_refl (proj1 sample_store_wf) _)).
  intros s ->%list_elem_of_singleton. vm_compute. eexists [_]. reflexivity.
Defined.

(** ** Trimming *)

(** In a log with ascending revisions the old events come first. *)
Lemma take_old before l :
  StronglySorted (λ a b, de_revision a < de_revision b) l →
  ∀ n e, n <= len_N (retain (λ e, de_revision e <=? before) l) →
         e ∈ take (N.to_nat n) l → de_revision e <= before.
Proof.
  induction 1 as [|x l Hl IH Hall]; intros n e Hn He.
  { rewrite take_nil in He. by apply elem_of_nil in He. }
  destruct (N.to_nat n) as [|k] eqn:Ek; [by apply elem_of_nil in He|].
  rewrite Forall_forall in Hall. destruct (N.leb_spec (de_revision x) before) as [Hx|Hx].
  - simpl in He. apply elem_of_cons in He as [->|He]; [done|].
    apply (IH (n - 1)); [|by replace (N.to_nat (n - 1)) with k by lia].
    unfold retain, len_N in *. rewrite filter_cons_True in Hn by (by apply N.leb_le).
    simpl in Hn. lia.
  - rewrite retain_none in Hn; [unfold len_N in Hn; simpl in Hn; lia|].
    intros y [->|Hy]%elem_of_cons; apply N.leb_gt; [done|]. specialize (Hall y Hy). lia.
Qed.

(** Trimming removes exactly the oldest events at or below the given revision,
    at most the given number, and reports how many; a watcher whose cursor is at
    or past that revision gets the same answer before and after. *)
Theorem gc_trims_oldest before max s q :
  store_wf s → 0 < max → len_N (events s) <= u64_max →
  let n := N.min max (len_N (retain (λ e, de_revision e <=? before) (events s))) in
  ∃ s', gc_watch_events before max s = (s', Ok n)
    ∧ s' = set_events (drop (N.to_nat n) (events s)) s
    ∧ (∀ e, e ∈ take (N.to_nat n) (events s) → de_revision e <= before)
    ∧ (before <= wq_from_revision q → watch_events q s' = watch_events q s).
Proof.
  intros Hwf Hmax Hlen n. pose proof (ew_sorted _ _ (wf_events _ Hwf)) as Hs.
  rewrite gc_watch_events_run by lia.
  rewrite (gc_retain_prefix before max 0 (events s) Hs) by lia. cbv zeta.
  rewrite N.sub_0_r. fold n. rewrite N.add_0_l. eexists. split; [done|]. split; [done|].
  assert (∀ e, e ∈ take (N.to_nat n) (events s) → de_revision e <= before) as Hold.
  { intros e He. eapply (take_old before _ Hs); [|exact He]. unfold n. lia. }
  split; [exact Hold|]. intros Hq. unfold watch_events. simpl.
  assert (retain (matches_event q) (events s)
          = retain (matches_event q) (drop (N.to_nat n) (events s))) as ->; [|done].
  rewrite <- (take_drop (N.to_nat n) (events s)) at 1. rewrite retain_app, retain_none; [done|].
  intros e He. specialize (Hold e He). unfold matches_event.
  destruct (N.ltb_spec (wq_from_revision q) (de_revision e)); [lia|].
  by rewrite andb_false_r.
Qed.

Lemma gc_trims_oldest_witness :
  ∃ s', gc_watch_events 1 10 sample_store = (s', Ok 1)
        ∧ watch_events (with_cursor sample_watch_query 1) s'
          = watch_events (with_cursor sample_watch_query 1) sample_store.
Proof.
  destruct (gc_trims_oldest 1 10 sample_store (with_cursor sample_watch_query 1)
              (proj1 sample_store_wf) ltac:(reflexivity) ltac:(vm_compute; discriminate))
    as (s' & H1 & _ & _ & H2).
  exists s'. split; [exact H1|apply H2; vm_compute; discriminate].
Defined.

(** ** Compaction *)

Lemma retain_keep_latest ns env max r l :
  retain (about ns env r) (keep_latest ns env max l) =
  drop (N.to_nat (len_N (retain (about ns env r) l) - max)) (retain (about ns env r) l).
Proof.
  induction l as [|e l IH]; [done|]. cbn [keep_latest].
  rewrite (retain_cons _ e l). destruct (about ns env r e) eqn:Ea.
  - pose proof Ea as [Hs Hr%bool_decide_eq_true]%andb_true_iff. unfold stale. rewrite Hs, Hr.
    set (m := len_N (retain (about ns env r) l)) in *.
    assert (len_N (e :: retain (about ns env r) l) = m + 1) as -> by (unfold m, len_N; simpl; lia).
    simpl. destruct (N.leb_spec max m) as [Hle|Hgt].
    + rewrite IH. replace (m + 1 - max) with (N.succ (m - max)) by lia.
      by rewrite N2Nat.inj_succ.
    + replace (m + 1 - max) with 0 by lia. rewrite retain_cons, Ea, IH.
      by replace (m - max) with 0 by lia.
  - rewrite <- IH. destruct (stale _ _ _ _ _); [done|]. by rewrite retain_cons, Ea.
Qed.

Lemma retain_keep_other ns env max f l :
  (∀ e, f e = true → in_scope ns env e = false) →
  retain f (keep_latest ns env max l) = retain f l.
Proof.
  intros Hf. induction l as [|e l IH]; [done|]. cbn [keep_latest]. unfold stale.
  rewrite retain_cons. destruct (f e) eqn:Ef.
  - rewrite (Hf e Ef). simpl. by rewrite retain_cons, Ef, IH.
  - rewrite <- IH. destruct (_ && _); [done|]. by rewrite retain_cons, Ef.
Qed.

(** Compaction never removes out of range, keeps for every resource of the
    namespace and environment exactly its latest events up to the limit, keeps
    every other event, leaves the order alone, and reports how many events it
    removed; the order in which the groups are visited does not matter. *)
Theorem compact_keeps_latest `{HashOrder} ns env max s :
  ∃ l, compacted ns env max (events s) = Some l
    ∧ compact_watch_events ns env max s
      = (set_events l s, Ok (len_N (events s) - len_N l))
    ∧ l `sublist_of` events s
    ∧ (∀ r, let mine := retain (about ns env r) (events s) in
            retain (about ns env r) l = drop (N.to_nat (len_N mine - max)) mine)
    ∧ (∀ q, wq_namespace q ≠ ns ∨ wq_environment q ≠ env →
            watch_events q (set_events l s) = watch_events q s).
Proof.
  exists (keep_latest ns env max (events s)). split_and!.
  - apply compacted_total.
  - apply compact_watch_events_run.
  - apply keep_latest_sublist.
  - intros r. apply retain_keep_latest.
  - intros q Hq. unfold watch_events. simpl. rewrite retain_keep_other; [done|].
    intros e He. unfold matches_event in He. rewrite !andb_true_iff, !bool_decide_eq_true in He.
    unfold in_scope. apply andb_false_iff. rewrite !bool_decide_eq_false. naive_solver.
Qed.
