(* ===== verification/MemoryInstance.v ===== *)
(** * The in-memory backend as an implementation of the storage contract

    The three classes of [StorageContract] instantiated with the memory store,
    the states a sequence of calls can reach, and what every such sequence
    preserves.  Also the snapshot conversion of storage-memory: snapshot.rs. *)
From S2P Require Import Prelude RustStr Collections Contract Discover StorageContract MemoryStore.
From S2P Require Import MemoryRegistry RegistryTheorems MemoryConfig ConfigTheorems MemoryWatch.
From S2P Require Import WatchTheorems.

(** ** Instances *)

Section instances.
Context `{HashOrder} (default_hash : N → N → N) (sha256_hash : string → string).

#[export] Instance memory_registry_store : RegistryStore MemoryDiscoveryStore := {|
  store_current_revision s := Ok (current_revision s);
  store_register_instance := register_instance;
  store_batch_register_instances := batch_register_instances;
  store_renew_lease := renew_lease;
  store_report_instance_status := report_instance_status;
  store_deregister_instance := deregister_instance;
  store_batch_deregister_instances := batch_deregister_instances;
  store_expire_instances := expire_instances;
  store_discover_instances := discover_instances default_hash;
  store_retrieve_instance := retrieve_instance;
  store_list_services := list_services;
  store_list_active_instances_with_health_check := list_active_instances_with_health_check;
  store_update_health_check_state := update_health_check_state;
|}.

#[export] Instance memory_config_store : ConfigStore MemoryDiscoveryStore := {|
  store_create_config_draft := create_config_draft sha256_hash;
  store_publish_config := publish_config;
  store_rollback_config := rollback_config;
  store_retrieve_effective_config := retrieve_effective_config;
|}.

#[export] Instance memory_watch_store : WatchEventStore MemoryDiscoveryStore := {|
  store_watch_events := watch_events;
  store_gc_watch_events := gc_watch_events;
  store_compact_watch_events := compact_watch_events;
|}.
End instances.

(** ** Calls that can change the store *)

Inductive StoreCall : Type :=
| CallRegister (command : RegisterInstanceCommand)
| CallBatchRegister (commands : list RegisterInstanceCommand)
| CallRenew (command : RenewLeaseCommand)
| CallReportStatus (command : ReportInstanceStatusCommand)
| CallDeregister (namespace environment service_name instance_id : string) (now_ms : N)
| CallBatchDeregister (namespace environment service_name : string) (ids : list string)
    (now_ms : N)
| CallExpire (now_ms max_instances : N)
| CallUpdateHealth (namespace environment service_name instance_id : string)
    (state : HealthCheckRuntimeState)
| CallCreateDraft (command : CreateConfigDraftCommand)
| CallPublish (command : PublishConfigCommand)
| CallRollback (command : RollbackConfigCommand)
| CallGc (before_revision max_deletes : N)
| CallCompact (namespace environment : string) (max_events_per_resource : N).

(** The store a call leaves, whether it succeeds or fails. *)
Definition run_call {S} `{RegistryStore S, ConfigStore S, WatchEventStore S} (c : StoreCall)
    (s : S) : S :=
  match c with
  | CallRegister command => (store_register_instance command s).1
  | CallBatchRegister commands => (store_batch_register_instances commands s).1
  | CallRenew command => (store_renew_lease command s).1
  | CallReportStatus command => (store_report_instance_status command s).1
  | CallDeregister ns env svc id now => (store_deregister_instance ns env svc id now s).1
  | CallBatchDeregister ns env svc ids now =>
      (store_batch_deregister_instances ns env svc ids now s).1
  | CallExpire now max => (store_expire_instances now max s).1
  | CallUpdateHealth ns env svc id state =>
      (store_update_health_check_state ns env svc id state s).1
  | CallCreateDraft command => (store_create_config_draft command s).1
  | CallPublish command => (store_publish_config command s).1
  | CallRollback command => (store_rollback_config command s).1
  | CallGc before max => (store_gc_watch_events before max s).1
  | CallCompact ns env max => (store_compact_watch_events ns env max s).1
  end.

(** How many revisions and identifiers a call can take. *)
Definition call_cost (c : StoreCall) (s : MemoryDiscoveryStore) : N :=
  match c with
  | CallBatchRegister commands => len_N commands
  | CallBatchDeregister _ _ _ ids _ => len_N ids
  | CallExpire _ _ => N.of_nat (size (instances s))
  | _ => 1
  end.

(** One call, under any iteration order and any hash functions, that does not
    exhaust a 64-bit counter. *)
Inductive step : relation MemoryDiscoveryStore :=
| step_call (h : HashOrder) (dh : N → N → N) (sha : string → string) c s :
    headroom (call_cost c s) s →
    step s (@run_call _ (@memory_registry_store h dh) (memory_config_store sha)
              (@memory_watch_store h) c s).

Definition reachable (s : MemoryDiscoveryStore) : Prop := rtc step new_store s.

(** ** What a call preserves *)

Lemma step_wf s s' : store_wf s → step s s' → store_wf s'.
Proof.
  intros Hwf Hst. revert Hwf. destruct Hst as [h dh sha c s Hroom]. intros Hwf.
  destruct c; simpl in *.
  - by apply register_instance_wf.
  - by apply batch_register_instances_wf.
  - by apply renew_lease_wf.
  - by apply report_instance_status_wf.
  - by apply deregister_instance_wf.
  - by apply batch_deregister_instances_wf.
  - by apply expire_instances_wf.
  - by apply update_health_check_state_wf.
  - by apply create_config_draft_wf.
  - by apply publish_config_wf.
  - by apply rollback_config_wf.
  - by apply gc_watch_events_wf.
  - by apply compact_watch_events_wf.
Qed.

(** The config registry only grows, the revision never goes back, and an event
    that was not there before is newer than everything the store had seen. *)
Record history (s s' : MemoryDiscoveryStore) : Prop := {
  hi_config : config_extends s s';
  hi_revision : revision s <= revision s';
  hi_events e : e ∈ events s' → e ∈ events s ∨ revision s < de_revision e;
}.

#[export] Instance history_refl : Reflexive history.
Proof. intros s. split; [done|done|auto]. Qed.

#[export] Instance history_trans : Transitive history.
Proof.
  intros s1 s2 s3 [C1 R1 E1] [C2 R2 E2]. split; [by etrans|lia|].
  intros e He. destruct (E2 e He) as [He2|]; [by apply E1|right; lia].
Qed.

(** A change of the registry that takes a revision and logs it. *)
Lemma history_push s s' e :
  drafts s' = drafts s → releases s' = releases s → idempotency s' = idempotency s →
  revision s' = revision s + 1 → de_revision e = revision s + 1 →
  events s' = events s ++ [e] → history s s'.
Proof.
  intros Hd Hr Hi Hrev He Hev. split; [by apply config_extends_same|lia|].
  rewrite Hev. intros x [Hx| ->%list_elem_of_singleton]%elem_of_app; [by left|right; lia].
Qed.

(** A change that logs nothing. *)
Lemma history_quiet s s' :
  drafts s' = drafts s → releases s' = releases s → idempotency s' = idempotency s →
  revision s <= revision s' → (∀ e, e ∈ events s' → e ∈ events s) → history s s'.
Proof.
  intros Hd Hr Hi Hrev Hev. split; [by apply config_extends_same|done|].
  intros e He. left. by apply Hev.
Qed.

Lemma register_instance_history command s :
  headroom 1 s → history s (register_instance command s).1.
Proof.
  intros Hroom. destruct (headroom_succ s Hroom) as [Hr _]. rewrite register_instance_run.
  destruct (register_checks command); [|done]. destruct (cas_check _ _); [|done].
  destruct (lease_for command s) as [lease seq]. destruct (expiry_of command); simpl.
  - eapply history_push; simpl; try done; by rewrite Hr.
  - apply history_quiet; simpl; (done || lia).
Qed.

Lemma batch_register_loop_history index commands s :
  headroom (len_N commands) s → history s (batch_register_loop index commands s).1.
Proof.
  revert index s. induction commands as [|c commands IH]; intros index s Hroom; [done|].
  assert (headroom (len_N commands + 1) s) as Hroom'
    by (revert Hroom; apply headroom_weaken; unfold len_N; simpl; lia).
  simpl. pose proof (register_instance_history c s) as H1.
  pose proof (register_instance_advances c s _ Hroom') as H2.
  destruct (register_instance c s) as [s1 r]. specialize (IH (index + 1) s1 H2).
  destruct (batch_register_loop (index + 1) commands s1). simpl in *.
  etrans; [apply H1|exact IH]. revert Hroom'. apply headroom_weaken. lia.
Qed.

Lemma renew_lease_history command s : headroom 1 s → history s (renew_lease command s).1.
Proof.
  intros Hroom. destruct (headroom_succ s Hroom) as [Hr _]. unfold renew_lease.
  rewrite lift_bind_run. destruct (validate_non_empty _ _); [|done]. rewrite lift_bind_run.
  destruct (if _ =? 0 then _ else _); [|done]. rewrite gets_bind_run, lift_bind_run.
  destruct (lease_index s !! _) as [key|]; [|done]. simpl ok_or. cbv beta iota.
  rewrite lift_bind_run. destruct (lease_expires_at_ms _ _); [|done].
  rewrite gets_bind_run, lift_bind_run. destruct (instances s !! key) as [i|]; [|done].
  simpl ok_or. cbv beta iota. destruct (_ <=? _); simpl.
  - apply history_quiet; simpl; (done || lia).
  - eapply history_push; simpl; try done; by rewrite Hr.
Qed.

Lemma report_instance_status_history command s :
  headroom 1 s → history s (report_instance_status command s).1.
Proof.
  intros Hroom. destruct (headroom_succ s Hroom) as [Hr _]. unfold report_instance_status.
  rewrite !lift_bind_run. do 4 (destruct (validate_non_empty _ _); [rewrite ?lift_bind_run|done]).
  rewrite gets_bind_run, lift_bind_run. destruct (instances s !! _) as [i|]; [|done].
  simpl ok_or. cbv beta iota. rewrite lift_bind_run. destruct (if _ <=? _ then _ else _); [|done].
  rewrite lift_bind_run. destruct (cas_check _ _); [|done]. rewrite eff_bind_run. simpl.
  eapply history_push; simpl; try done; by rewrite Hr.
Qed.

Lemma remove_instance_history key i s : headroom 1 s → history s (remove_instance key i s).1.
Proof.
  intros Hroom. destruct (headroom_succ s Hroom) as [Hr _]. rewrite remove_instance_run.
  eapply history_push; simpl; try done; by rewrite Hr.
Qed.

Lemma deregister_instance_history ns env svc id now s :
  headroom 1 s → history s (deregister_instance ns env svc id now s).1.
Proof.
  intros Hroom. destruct (deregister_instance_run ns env svc id now s)
    as [r [->|(i & _ & _ & ->)]]; [done|]. by apply remove_instance_history.
Qed.

Lemma batch_deregister_history ns env svc ids now s :
  headroom (len_N ids) s → history s (batch_deregister_instances ns env svc ids now s).1.
Proof.
  revert s. induction ids as [|id ids IH]; intros s Hroom; [done|].
  assert (headroom (len_N ids + 1) s) as Hroom'
    by (revert Hroom; apply headroom_weaken; unfold len_N; simpl; lia).
  assert (headroom 1 s) as H0 by (revert Hroom'; apply headroom_weaken; lia).
  cbn [batch_deregister_instances]. rewrite eff_bind_run.
  pose proof (deregister_instance_history ns env svc id now s H0) as H1.
  pose proof (deregister_instance_advances ns env svc id now s _ Hroom') as H2.
  destruct (deregister_instance ns env svc id now s) as [s1 [r|e]]; simpl in *; [|done].
  rewrite eff_bind_run. specialize (IH s1 H2).
  destruct (batch_deregister_instances ns env svc ids now s1) as [s2 []]; simpl in *; by etrans.
Qed.

Lemma expire_loop_history keys s :
  headroom (len_N keys) s → history s (expire_loop keys s).1.
Proof.
  revert s. induction keys as [|key keys IH]; intros s Hroom; [done|].
  assert (headroom (len_N keys + 1) s) as Hroom'
    by (revert Hroom; apply headroom_weaken; unfold len_N; simpl; lia).
  rewrite expire_loop_cons. destruct (instances s !! key) as [i|].
  - assert (headroom 1 s) as H0 by (revert Hroom'; apply headroom_weaken; lia).
    pose proof (remove_instance_history key i s H0) as H1.
    pose proof (remove_instance_advances key i s _ Hroom') as H2.
    destruct (remove_instance key i s) as [s1 [r|e]]; simpl in *; [|done].
    specialize (IH s1 H2). destruct (expire_loop keys s1) as [s2 []]; simpl in *; by etrans.
  - apply IH. revert Hroom'. apply headroom_weaken. lia.
Qed.

Lemma step_history s s' : store_wf s → step s s' → history s s'.
Proof.
  intros Hwf Hst. revert Hwf. destruct Hst as [h dh sha c s Hroom]. intros Hwf.
  destruct c; simpl in *.
  - by apply register_instance_history.
  - pose proof (batch_register_loop_history 0 commands s Hroom) as Hh.
    unfold batch_register_instances. by destruct (batch_register_loop 0 commands s).
  - by apply renew_lease_history.
  - by apply report_instance_status_history.
  - by apply deregister_instance_history.
  - by apply batch_deregister_history.
  - unfold expire_instances. rewrite lift_bind_run. destruct (if _ =? 0 then _ else _); [|done].
    rewrite gets_bind_run. apply expire_loop_history. revert Hroom. apply headroom_weaken.
    pose proof (expired_keys_length now_ms s). rewrite take_N_length. lia.
  - unfold update_health_check_state. rewrite gets_bind_run, lift_bind_run.
    destruct (instances s !! _); simpl; [|done]. by apply history_quiet.
  - pose proof (create_config_draft_extends sha command s Hwf Hroom) as Hx.
    rewrite create_config_draft_run in *. destruct (validate_config_draft_command command); [|done].
    destruct (replay_config_draft command s) as [[]|]; [done| |done].
    by destruct (cc_idempotency command); split; auto.
  - split; [apply publish_config_extends| |]; rewrite publish_config_run;
      (destruct (validate_publish_config_command command); [|auto]);
      (destruct (replay_config_release _ s) as [[]|]; [auto| |auto]);
      (destruct (drafts s !! _) as [d|]; [|auto]); (destruct (cd_published d); [auto|]);
      destruct (headroom_succ s Hroom) as [Hr _];
      destruct (pc_idempotency command); simpl; rewrite Hr; try lia;
      intros e [He| ->%list_elem_of_singleton]%elem_of_app; simpl; (by left) || (right; lia).
  - split; [apply rollback_config_extends| |]; rewrite rollback_config_run;
      (destruct (validate_rollback_config_command command); [|auto]);
      (destruct (replay_config_release _ s) as [[]|]; [auto| |auto]);
      (destruct (find_release _ s) as [d|]; [|auto]);
      destruct (headroom_succ s Hroom) as [Hr _];
      destruct (rb_idempotency command); simpl; rewrite Hr; try lia;
      intros e [He| ->%list_elem_of_singleton]%elem_of_app; simpl; (by left) || (right; lia).
  - destruct (N.eqb_spec max_deletes 0) as [->|]; [done|]. rewrite gc_watch_events_run by done.
    apply history_quiet; try done. simpl. intros e He.
    eapply elem_of_sublist; [exact He|apply gc_retain_sublist].
  - rewrite compacted_total. apply history_quiet; try done. simpl. intros e He.
    eapply elem_of_sublist; [exact He|apply keep_latest_sublist].
Qed.

Lemma steps_wf s s' : store_wf s → rtc step s s' → store_wf s'.
Proof.
  intros Hwf Hs. induction Hs as [|s1 s2 s3 H12 _ IH]; [done|]. apply IH. by eapply step_wf.
Qed.

Lemma steps_history s s' : store_wf s → rtc step s s' → history s s'.
Proof.
  intros Hwf Hs. induction Hs as [|s1 s2 s3 H12 H23 IH]; [done|].
  etrans; [by apply step_history|]. apply IH. by eapply step_wf.
Qed.

(** C1: every store a sequence of calls can reach is well formed, whatever the
    iteration orders: each entry is filed under its own identity and carries a
    revision the store has issued, the lease index leads to entries that hold the
    lease, no two entries share a lease, releases and events have strictly
    ascending revisions, each release carries the content of a published draft of
    the store and each published draft has a release, and each idempotency record
    has its target. *)
Theorem reachable_store_wf s : reachable s → store_wf s.
Proof. apply steps_wf, store_wf_new. Qed.

Lemma sample_reachable : reachable sample_config_store.
Proof.
  eapply rtc_l; [apply (step_call canonical_order (λ _ _, 0) sample_hash
                          (CallCreateDraft (sample_draft "mode" "safe" ScopeNamespace)))
                |eapply rtc_l; [apply (step_call canonical_order (λ _ _, 0) sample_hash
                          (CallCreateDraft (sample_draft "mode" "fast" ScopeNamespace)))
                |apply rtc_once, (step_call canonical_order (λ _ _, 0) sample_hash
                          (CallPublish (sample_publish "draft-1" 1000)))]];
  vm_compute; split; discriminate.
Qed.

Lemma reachable_store_wf_witness : store_wf sample_config_store.
Proof. apply reachable_store_wf. apply sample_reachable. Defined.

(** C2: nothing is lost along any sequence of calls: drafts keep their content,
    the releases are only appended to, idempotency records stay, the revision
    never goes back, and an event that appears is newer than every revision the
    store had issued before. *)
Theorem reachable_history s s' :
  reachable s → rtc step s s' →
  (∀ k d, drafts s !! k = Some d → ∃ d', drafts s' !! k = Some d' ∧ same_content d d')
  ∧ releases s `prefix_of` releases s' ∧ idempotency s ⊆ idempotency s'
  ∧ revision s <= revision s'
  ∧ ∀ e, e ∈ events s' → e ∈ events s ∨ revision s < de_revision e.
Proof.
  intros Hr Hs. destruct (steps_history s s') as [[] ? ?]; [|done|by split_and!].
  eapply steps_wf; [apply store_wf_new|exact Hr].
Qed.

Lemma reachable_history_witness :
  releases sample_config_store `prefix_of` releases sample_config_store2.
Proof.
  refine (proj1 (proj2 (reachable_history sample_config_store sample_config_store2
                          sample_reachable (rtc_once _ _ _)))).
  apply (step_call canonical_order (λ _ _, 0) sample_hash
           (CallPublish (sample_publish "draft-2" 2000))). vm_compute; split; discriminate.
Defined.

(** ** Snapshots (snapshot.rs) *)

Record MemoryDiscoverySnapshot : Type := {
  sn_revision : N;
  sn_next_sequence : N;
  sn_instances : gmap InstanceKey ServiceInstance;
  sn_lease_index : gmap string InstanceKey;
  sn_drafts : gmap string ConfigDraft;
  sn_releases : list ConfigRelease;
  sn_events : list DiscoveryEvent;
  sn_idempotency : gmap IdempotencyKey IdempotencyRecord;
}.

Definition to_snapshot (s : MemoryDiscoveryStore) : MemoryDiscoverySnapshot :=
  {| sn_revision := revision s; sn_next_sequence := next_sequence s;
     sn_instances := instances s; sn_lease_index := lease_index s; sn_drafts := drafts s;
     sn_releases := releases s; sn_events := events s; sn_idempotency := idempotency s |}.

Definition from_snapshot (n : MemoryDiscoverySnapshot) : MemoryDiscoveryStore :=
  {| revision := sn_revision n; next_sequence := sn_next_sequence n;
     instances := sn_instances n; lease_index := sn_lease_index n; drafts := sn_drafts n;
     releases := sn_releases n; events := sn_events n; idempotency := sn_idempotency n |}.

Section bytes.
(** [serde_json::to_vec] and [serde_json::from_slice]; the error is its text. *)
Context (to_vec : MemoryDiscoverySnapshot → Result string string)
        (from_slice : string → Result string MemoryDiscoverySnapshot).

Definition to_snapshot_bytes (s : MemoryDiscoveryStore) : DiscoveryResult string :=
  match to_vec (to_snapshot s) with
  | Ok bytes => Ok bytes
  | Err error => Err (InvalidConfig ("memory snapshot encode failed: " +:+ error))
  end.

Definition from_snapshot_bytes (bytes : string) : DiscoveryResult MemoryDiscoveryStore :=
  match from_slice bytes with
  | Ok snapshot => Ok (from_snapshot snapshot)
  | Err error => Err (InvalidConfig ("memory snapshot decode failed: " +:+ error))
  end.
End bytes.

Lemma from_to_snapshot s : from_snapshot (to_snapshot s) = s.
Proof. by destruct s. Qed.
