(* ===== verification/ControlPlane.v ===== *)
(** * The control plane (crates/sdkwork-discovery-core)

    Permissions, policies, tenant scoping, and the operations of
    [DiscoveryControlPlane<S>] over any store that implements the storage
    contract.  The theorems of this file hold for every such store. *)
From S2P Require Import Prelude RustStr Collections Contract StorageContract.
From Stdlib Require Import Ascii.

(** ** Permissions (permissions.rs) *)

Definition require_registry_permission (caller : CallerContext)
    (permission : RegistryPermission) : DiscoveryResult () :=
  if has_registry_permission caller permission then Ok ()
  else Err (PermissionDenied ("subject " +:+ subject_id caller +:+ " lacks registry permission")).

Definition require_config_permission (caller : CallerContext)
    (permission : ConfigPermission) : DiscoveryResult () :=
  if has_config_permission caller permission then Ok ()
  else Err (PermissionDenied ("subject " +:+ subject_id caller +:+ " lacks config permission")).

(** ** Tenant scope (tenant_scope.rs) *)

(** Whether a namespace belongs to a tenant. *)
Definition owned_by (tenant_id namespace : string) : bool :=
  bool_decide (namespace = tenant_id) || starts_with namespace (tenant_id +:+ "/").

Definition require_namespace_tenant_access (caller : CallerContext) (namespace : string)
    : DiscoveryResult () :=
  match tenant_id caller with
  | None => Ok ()
  | Some tenant_id =>
      if owned_by tenant_id namespace then Ok ()
      else Err (PermissionDenied ("subject " +:+ subject_id caller
                 +:+ " is not authorized for namespace " +:+ namespace))
  end.

(** ** Policies (policy.rs) *)

Record ConfigPolicy : Type := {
  cp_enabled : bool;
  cp_require_publish_for_reads : bool;
  cp_allow_secret_values : bool;
  cp_allow_secret_refs : bool;
  cp_max_config_body_bytes : N;
}.

Record RegistryPolicy : Type := {
  rp_default_lease_ttl_seconds : N;
  rp_min_lease_ttl_seconds : N;
  rp_max_lease_ttl_seconds : N;
}.

(** [RegistryPolicy::default]. *)
Definition default_registry_policy : RegistryPolicy :=
  {| rp_default_lease_ttl_seconds := 30; rp_min_lease_ttl_seconds := 1;
     rp_max_lease_ttl_seconds := 300 |}.

Definition require_config_registry_enabled (policy : ConfigPolicy) : DiscoveryResult () :=
  if negb (cp_enabled policy) then Err (InvalidConfig "config registry is disabled") else Ok ().

Definition is_secret_reference (value : string) : bool :=
  starts_with (trim_start value) "secret_ref:".

Definition looks_like_literal_secret (value : string) : bool :=
  let normalized := to_ascii_lowercase value in
  contains normalized "password" || contains normalized "secret"
  || contains normalized "access_token" || contains normalized "auth_token"
  || contains normalized "api_key".

Definition validate_effective_config_read_policy (policy : ConfigPolicy)
    (effective : EffectiveConfig) : DiscoveryResult () :=
  if cp_require_publish_for_reads policy && bool_decide (ec_values effective = ∅)
  then Err (NotFound "published config not found for requested scope") else Ok ().

Definition validate_registry_lease_ttl (policy : RegistryPolicy) (lease_ttl_seconds : N)
    : DiscoveryResult () :=
  if (rp_default_lease_ttl_seconds policy <? rp_min_lease_ttl_seconds policy)
     || (rp_max_lease_ttl_seconds policy <? rp_default_lease_ttl_seconds policy)
  then Err (InvalidConfig "lease ttl bounds must satisfy min <= default <= max")
  else if (lease_ttl_seconds <? rp_min_lease_ttl_seconds policy)
          || (rp_max_lease_ttl_seconds policy <? lease_ttl_seconds)
  then Err (PolicyViolation ("lease ttl must be between "
              +:+ show_N (rp_min_lease_ttl_seconds policy) +:+ " and "
              +:+ show_N (rp_max_lease_ttl_seconds policy) +:+ " seconds"))
  else Ok ().

(** The JSON and TOML parsers are external: for a text that does not parse they
    give the error. *)
Class ConfigParsers : Type := {
  json_error : string → option string;
  toml_error : string → option string;
}.

Section policies.
Context `{ConfigParsers}.

Definition validate_config_format (format : ConfigFormat) (value : string)
    : DiscoveryResult () :=
  match format with
  | FormatText => Ok ()
  | FormatJson =>
      match json_error value with
      | None => Ok ()
      | Some error => Err (InvalidArgument
          ("config value must be valid JSON for JSON format: " +:+ error))
      end
  | FormatToml =>
      match toml_error value with
      | None => Ok ()
      | Some error => Err (InvalidArgument
          ("config value must be valid TOML for TOML format: " +:+ error))
      end
  end.

Definition validate_config_policy (policy : ConfigPolicy) (format : ConfigFormat)
    (value : string) : DiscoveryResult () :=
  if cp_max_config_body_bytes policy <? len value
  then Err (PolicyViolation "config body exceeds configured maximum size")
  else
    validate_config_format format value;;
    if is_secret_reference value then
      if cp_allow_secret_refs policy then Ok ()
      else Err (PolicyViolation "secret references are disabled by policy")
    else if negb (cp_allow_secret_values policy) && looks_like_literal_secret value
    then Err (PolicyViolation "literal secret values are disabled by policy")
    else Ok ().
End policies.

(** ** The control plane (control_plane.rs) *)

Record DiscoveryControlPlane (S : Type) : Type := {
  store : S;
  config_policy : ConfigPolicy;
  registry_policy : RegistryPolicy;
}.
Arguments store {S} _.
Arguments config_policy {S} _.
Arguments registry_policy {S} _.

Definition set_store {S} (st : S) (cp : DiscoveryControlPlane S) : DiscoveryControlPlane S :=
  {| store := st; config_policy := config_policy cp; registry_policy := registry_policy cp |}.

(** [self.store.method(..)] on the store, and on the store read only. *)
Definition on_store {S A} (op : Op S A) : Op (DiscoveryControlPlane S) A := λ cp,
  let '(st, r) := op (store cp) in (set_store st cp, r).
Definition from_store {S A} (f : S → DiscoveryResult A) : Op (DiscoveryControlPlane S) A :=
  λ cp, (cp, f (store cp)).

Section operations.
Context {S : Type} `{RegistryStore S, ConfigStore S, WatchEventStore S, ConfigParsers}.

Definition create_config_draft (caller : CallerContext) (command : CreateConfigDraftCommand)
    : Op (DiscoveryControlPlane S) ConfigDraft :=
  lift (require_config_permission caller ConfigPublish);;
  lift (require_namespace_tenant_access caller (cc_namespace command));;
  policy ← gets config_policy;
  lift (require_config_registry_enabled policy);;
  lift (validate_config_policy policy (cc_format command) (cc_value command));;
  on_store (store_create_config_draft command).

Definition publish_config (caller : CallerContext) (command : PublishConfigCommand)
    : Op (DiscoveryControlPlane S) ConfigRelease :=
  lift (require_config_permission caller ConfigPublish);;
  policy ← gets config_policy;
  lift (require_config_registry_enabled policy);;
  on_store (store_publish_config command).

Definition rollback_config (caller : CallerContext) (command : RollbackConfigCommand)
    : Op (DiscoveryControlPlane S) ConfigRelease :=
  lift (require_config_permission caller ConfigRollback);;
  policy ← gets config_policy;
  lift (require_config_registry_enabled policy);;
  on_store (store_rollback_config command).

Definition retrieve_effective_config (caller : CallerContext)
    (query : RetrieveEffectiveConfigQuery) : Op (DiscoveryControlPlane S) EffectiveConfig :=
  lift (require_config_permission caller ConfigRead);;
  lift (require_namespace_tenant_access caller (ecq_namespace query));;
  policy ← gets config_policy;
  lift (require_config_registry_enabled policy);;
  effective ← from_store (store_retrieve_effective_config query);
  lift (validate_effective_config_read_policy policy effective);;
  mret effective.

Definition register_instance (caller : CallerContext) (command : RegisterInstanceCommand)
    : Op (DiscoveryControlPlane S) RegisterInstanceResult :=
  lift (require_registry_permission caller RegistryWrite);;
  lift (require_namespace_tenant_access caller (rc_namespace command));;
  policy ← gets registry_policy;
  lift (validate_registry_lease_ttl policy (rc_lease_ttl_seconds command));;
  on_store (store_register_instance command).

(** The [for] loop of [batch_register_instances]. *)
Fixpoint check_batch (caller : CallerContext) (policy : RegistryPolicy)
    (commands : list RegisterInstanceCommand) : DiscoveryResult () :=
  match commands with
  | [] => Ok ()
  | command :: commands =>
      require_namespace_tenant_access caller (rc_namespace command);;
      validate_registry_lease_ttl policy (rc_lease_ttl_seconds command);;
      check_batch caller policy commands
  end.

Definition batch_register_instances (caller : CallerContext)
    (commands : list RegisterInstanceCommand)
    : Op (DiscoveryControlPlane S) BatchRegisterResult :=
  lift (require_registry_permission caller RegistryWrite);;
  policy ← gets registry_policy;
  lift (check_batch caller policy commands);;
  on_store (store_batch_register_instances commands).

Definition report_instance_status (caller : CallerContext)
    (command : ReportInstanceStatusCommand)
    : Op (DiscoveryControlPlane S) ReportInstanceStatusResult :=
  lift (require_registry_permission caller RegistryWrite);;
  lift (require_namespace_tenant_access caller (sc_namespace command));;
  on_store (store_report_instance_status command).

Definition renew_lease (caller : CallerContext) (command : RenewLeaseCommand)
    : Op (DiscoveryControlPlane S) RenewLeaseResult :=
  lift (require_registry_permission caller RegistryWrite);;
  policy ← gets registry_policy;
  lift (validate_registry_lease_ttl policy (lc_lease_ttl_seconds command));;
  on_store (store_renew_lease command).

Definition deregister_instance (caller : CallerContext)
    (namespace environment service_name instance_id : string) (now_ms : N)
    : Op (DiscoveryControlPlane S) DeregisterInstanceResult :=
  lift (require_registry_permission caller RegistryWrite);;
  lift (require_namespace_tenant_access caller namespace);;
  on_store (store_deregister_instance namespace environment service_name instance_id now_ms).

Definition expire_instances (now_ms max_instances : N)
    : Op (DiscoveryControlPlane S) (list DeregisterInstanceResult) :=
  on_store (store_expire_instances now_ms max_instances).

Definition discover_instances (caller : CallerContext) (query : DiscoverInstancesQuery)
    (now_ms : N) : Op (DiscoveryControlPlane S) DiscoverInstancesResult :=
  lift (require_registry_permission caller RegistryRead);;
  lift (require_namespace_tenant_access caller (dq_namespace query));;
  from_store (store_discover_instances query now_ms).

Definition retrieve_instance (caller : CallerContext) (query : RetrieveInstanceQuery)
    (now_ms : N) : Op (DiscoveryControlPlane S) (option ServiceInstance) :=
  lift (require_registry_permission caller RegistryRead);;
  lift (require_namespace_tenant_access caller (rq_namespace query));;
  from_store (store_retrieve_instance query now_ms).

Definition list_services (caller : CallerContext) (query : ListServicesQuery)
    (now_ms : N) : Op (DiscoveryControlPlane S) ListServicesResult :=
  lift (require_registry_permission caller RegistryRead);;
  lift (require_namespace_tenant_access caller (lq_namespace query));;
  from_store (store_list_services query now_ms).

Definition watch_registry_events (caller : CallerContext) (query : WatchEventsQuery)
    : Op (DiscoveryControlPlane S) (list DiscoveryEvent) :=
  lift (require_registry_permission caller RegistryRead);;
  from_store (store_watch_events query).

Definition watch_config_events (caller : CallerContext) (query : WatchEventsQuery)
    : Op (DiscoveryControlPlane S) (list DiscoveryEvent) :=
  lift (require_config_permission caller ConfigRead);;
  policy ← gets config_policy;
  lift (require_config_registry_enabled policy);;
  from_store (store_watch_events query).

Definition gc_watch_events (before_revision max_deletes : N)
    : Op (DiscoveryControlPlane S) N :=
  on_store (store_gc_watch_events before_revision max_deletes).
End operations.
