(* ===== verification/ControlPlaneTheorems.v ===== *)
(** * Theorems about the control plane

    What an unauthorized caller can do over any store (nothing), and what a
    caller bound to a tenant can change and read over the in-memory store. *)
From S2P Require Import Prelude RustStr Collections Contract Discover StorageContract MemoryStore.
From S2P Require Import MemoryRegistry RegistryTheorems MemoryConfig ConfigTheorems MemoryWatch.
From S2P Require Import WatchTheorems MemoryInstance ControlPlane.
From Stdlib Require Import Ascii.

(** ** Calls made on behalf of a caller *)

Inductive ControlCall : Type :=
| CpCreateDraft (command : CreateConfigDraftCommand)
| CpPublish (command : PublishConfigCommand)
| CpRollback (command : RollbackConfigCommand)
| CpEffective (query : RetrieveEffectiveConfigQuery)
| CpRegister (command : RegisterInstanceCommand)
| CpBatchRegister (commands : list RegisterInstanceCommand)
| CpReport (command : ReportInstanceStatusCommand)
| CpRenew (command : RenewLeaseCommand)
| CpDeregister (namespace environment service_name instance_id : string) (now_ms : N)
| CpDiscover (query : DiscoverInstancesQuery) (now_ms : N)
| CpRetrieve (query : RetrieveInstanceQuery) (now_ms : N)
| CpList (query : ListServicesQuery) (now_ms : N)
| CpWatchRegistry (query : WatchEventsQuery)
| CpWatchConfig (query : WatchEventsQuery).

Definition outcome {S A} (r : S * DiscoveryResult A) : S * DiscoveryResult () :=
  (r.1, match r.2 with Ok _ => Ok () | Err e => Err e end).

Definition control {S} `{RegistryStore S, ConfigStore S, WatchEventStore S, ConfigParsers}
    (caller : CallerContext) (c : ControlCall) (cp : DiscoveryControlPlane S)
    : DiscoveryControlPlane S * DiscoveryResult () :=
  match c with
  | CpCreateDraft command => outcome (ControlPlane.create_config_draft caller command cp)
  | CpPublish command => outcome (ControlPlane.publish_config caller command cp)
  | CpRollback command => outcome (ControlPlane.rollback_config caller command cp)
  | CpEffective query => outcome (ControlPlane.retrieve_effective_config caller query cp)
  | CpRegister command => outcome (ControlPlane.register_instance caller command cp)
  | CpBatchRegister commands =>
      outcome (ControlPlane.batch_register_instances caller commands cp)
  | CpReport command => outcome (ControlPlane.report_instance_status caller command cp)
  | CpRenew command => outcome (ControlPlane.renew_lease caller command cp)
  | CpDeregister ns env svc id now =>
      outcome (ControlPlane.deregister_instance caller ns env svc id now cp)
  | CpDiscover query now => outcome (ControlPlane.discover_instances caller query now cp)
  | CpRetrieve query now => outcome (ControlPlane.retrieve_instance caller query now cp)
  | CpList query now => outcome (ControlPlane.list_services caller query now cp)
  | CpWatchRegistry query => outcome (watch_registry_events caller query cp)
  | CpWatchConfig query => outcome (watch_config_events caller query cp)
  end.

(** The permission a call needs. *)
Definition permitted (caller : CallerContext) (c : ControlCall) : bool :=
  match c with
  | CpCreateDraft _ | CpPublish _ => has_config_permission caller ConfigPublish
  | CpRollback _ => has_config_permission caller ConfigRollback
  | CpEffective _ | CpWatchConfig _ => has_config_permission caller ConfigRead
  | CpRegister _ | CpBatchRegister _ | CpReport _ | CpRenew _ | CpDeregister _ _ _ _ _ =>
      has_registry_permission caller RegistryWrite
  | CpDiscover _ _ | CpRetrieve _ _ | CpList _ _ | CpWatchRegistry _ =>
      has_registry_permission caller RegistryRead
  end.

(** The namespaces a call names and has checked against the caller's tenant. *)
Definition checked_namespaces (c : ControlCall) : list string :=
  match c with
  | CpCreateDraft command => [cc_namespace command]
  | CpEffective query => [ecq_namespace query]
  | CpRegister command => [rc_namespace command]
  | CpBatchRegister commands => rc_namespace <$> commands
  | CpReport command => [sc_namespace command]
  | CpDeregister ns _ _ _ _ => [ns]
  | CpDiscover query _ => [dq_namespace query]
  | CpRetrieve query _ => [rq_namespace query]
  | CpList query _ => [lq_namespace query]
  | CpPublish _ | CpRollback _ | CpRenew _ | CpWatchRegistry _ | CpWatchConfig _ => []
  end.

Definition in_tenant (caller : CallerContext) (namespace : string) : bool :=
  match tenant_id caller with None => true | Some t => owned_by t namespace end.

Lemma tenant_access_Ok caller namespace u :
  require_namespace_tenant_access caller namespace = Ok u ↔ in_tenant caller namespace = true.
Proof.
  unfold require_namespace_tenant_access, in_tenant. destruct u, (tenant_id caller); [|done].
  by destruct (owned_by _ _).
Qed.

Lemma check_batch_Ok caller policy commands u :
  check_batch caller policy commands = Ok u →
  ∀ c, c ∈ commands → in_tenant caller (rc_namespace c) = true
    ∧ validate_registry_lease_ttl policy (rc_lease_ttl_seconds c) = Ok ().
Proof.
  induction commands as [|c0 commands IH]; intros Hb c Hc; [by apply elem_of_nil in Hc|].
  simpl in Hb. apply result_bind_Ok in Hb as ([] & H1 & Hb).
  apply result_bind_Ok in Hb as ([] & H2 & Hb).
  apply elem_of_cons in Hc as [->|Hc]; [|by apply IH].
  split; [by apply tenant_access_Ok in H1|done].
Qed.

(** Steps a call through its checks. *)
Ltac cp_checks :=
  repeat (rewrite ?lift_bind_run, ?gets_bind_run;
          match goal with
          | |- context [match require_registry_permission ?a ?b with _ => _ end] =>
              unfold require_registry_permission; destruct (has_registry_permission a b)
          | |- context [match require_config_permission ?a ?b with _ => _ end] =>
              unfold require_config_permission; destruct (has_config_permission a b)
          | |- context [match require_namespace_tenant_access ?a ?b with _ => _ end] =>
              destruct (require_namespace_tenant_access a b) eqn:?
          | |- context [match require_config_registry_enabled ?a with _ => _ end] =>
              destruct (require_config_registry_enabled a)
          | |- context [match validate_config_policy ?a ?b ?c with _ => _ end] =>
              destruct (validate_config_policy a b c)
          | |- context [match validate_registry_lease_ttl ?a ?b with _ => _ end] =>
              destruct (validate_registry_lease_ttl a b) eqn:?
          | |- context [match check_batch ?a ?b ?c with _ => _ end] =>
              destruct (check_batch a b c) eqn:?
          end; try done).

Ltac cp_unfold :=
  unfold ControlPlane.create_config_draft, ControlPlane.publish_config,
    ControlPlane.rollback_config, ControlPlane.retrieve_effective_config,
    ControlPlane.register_instance, ControlPlane.batch_register_instances,
    ControlPlane.report_instance_status, ControlPlane.renew_lease,
    ControlPlane.deregister_instance, ControlPlane.discover_instances,
    ControlPlane.retrieve_instance, ControlPlane.list_services, watch_registry_events,
    watch_config_events.

(** A permission or tenant error, or one of the lease policy. *)
Definition refusal (e : DiscoveryError) : bool :=
  match e with PermissionDenied _ | PolicyViolation _ | InvalidConfig _ => true | _ => false end.

Lemma tenant_access_Err caller ns e :
  require_namespace_tenant_access caller ns = Err e → refusal e = true.
Proof.
  unfold require_namespace_tenant_access. destruct (tenant_id caller); [|done].
  destruct (owned_by _ _); [done|]. by intros [= <-].
Qed.

Lemma lease_ttl_Err policy ttl e : validate_registry_lease_ttl policy ttl = Err e → refusal e = true.
Proof.
  unfold validate_registry_lease_ttl. destruct (_ || _); [by intros [= <-]|].
  destruct (_ || _); [by intros [= <-]|done].
Qed.

Lemma check_batch_Err caller policy commands e :
  check_batch caller policy commands = Err e → refusal e = true.
Proof.
  induction commands as [|c commands IH]; [done|]. simpl.
  destruct (require_namespace_tenant_access caller (rc_namespace c)) eqn:E1; simpl;
    [|intros [= <-]; by eapply tenant_access_Err].
  destruct (validate_registry_lease_ttl policy (rc_lease_ttl_seconds c)) eqn:E2; simpl;
    [done|intros [= <-]; by eapply lease_ttl_Err].
Qed.

Definition unauthorized (caller : CallerContext) (c : ControlCall) : Prop :=
  permitted caller c = false
  ∨ Exists (λ ns, in_tenant caller ns = false) (checked_namespaces c).

Section any_store.
Context {S : Type} `{RegistryStore S, ConfigStore S, WatchEventStore S, ConfigParsers}.

Lemma unauthorized_refused caller c (cp : DiscoveryControlPlane S) :
  unauthorized caller c →
  ∃ e, control caller c cp = (cp, Err e) ∧ refusal e = true
       ∧ (permitted caller c = false → ∃ m, e = PermissionDenied m).
Proof.
  intros Hbad. assert (∀ ns, Exists (λ ns, in_tenant caller ns = false) [ns] →
    ∃ e, require_namespace_tenant_access caller ns = Err e ∧ refusal e = true) as Hns.
  { intros ns [Hf|Hf]%Exists_cons; [|by apply Exists_nil in Hf].
    destruct (require_namespace_tenant_access caller ns) as [u|e] eqn:E;
      [|exists e; split; [done|by eapply tenant_access_Err]].
    apply tenant_access_Ok in E. congruence. }
  unfold unauthorized in Hbad.
  destruct c; cp_unfold; simpl in *; cp_unfold; unfold outcome;
    rewrite lift_bind_run; unfold require_registry_permission, require_config_permission;
    match goal with |- context [if ?b then Ok () else _] => destruct b end;
    try (eexists; split_and!; [reflexivity|reflexivity|eauto]; fail);
    (destruct Hbad as [?|Hbad]; [done|]); try (by apply Exists_nil in Hbad);
    try (destruct (Hns _ Hbad) as (e & He & Hr); rewrite lift_bind_run, He; eexists;
         split_and!; [done|exact Hr|done]).
  rewrite gets_bind_run, lift_bind_run.
  destruct (check_batch caller (registry_policy cp) commands) as [u|e] eqn:E;
    [|eexists; split_and!; [done|by eapply check_batch_Err|done]].
  exfalso. apply Exists_exists in Hbad as (ns & (cmd & -> & Hc)%list_elem_of_fmap & Hf).
  destruct (check_batch_Ok _ _ _ _ E cmd Hc) as [? _]. congruence.
Qed.

(** Over any store, a call whose caller lacks the permission it needs, or
    that names a namespace outside the caller's tenant, fails and leaves the
    control plane and its store exactly as they were; without the permission
    the error is the permission error. *)
Theorem unauthorized_call_changes_nothing caller c (cp : DiscoveryControlPlane S) :
  permitted caller c = false
  ∨ Exists (λ ns, in_tenant caller ns = false) (checked_namespaces c) →
  ∃ e, control caller c cp = (cp, Err e)
       ∧ (permitted caller c = false → ∃ m, e = PermissionDenied m).
Proof.
  intros Hbad. destruct (unauthorized_refused caller c cp Hbad) as (e & He & _ & Hp). eauto.
Qed.
End any_store.

(** *** A control plane over the in-memory store *)

Definition sample_policy : ConfigPolicy :=
  {| cp_enabled := true; cp_require_publish_for_reads := false; cp_allow_secret_values := false;
     cp_allow_secret_refs := true; cp_max_config_body_bytes := 65536 |}.

#[export] Instance permissive_parsers : ConfigParsers :=
  {| json_error _ := None; toml_error _ := None |}.

Definition sample_plane (s : MemoryDiscoveryStore) : DiscoveryControlPlane MemoryDiscoveryStore :=
  {| store := s; config_policy := sample_policy; registry_policy := default_registry_policy |}.

#[export] Instance sample_registry : RegistryStore MemoryDiscoveryStore :=
  @memory_registry_store canonical_order (λ _ _, 0).
#[export] Instance sample_config : ConfigStore MemoryDiscoveryStore :=
  memory_config_store sample_hash.
#[export] Instance sample_watch : WatchEventStore MemoryDiscoveryStore :=
  @memory_watch_store canonical_order.

(** An administrator bound to a tenant. *)
Definition tenant_admin (tenant : string) : CallerContext :=
  with_config_permission (with_registry_permission
    (with_tenant_id (new_caller "ops") tenant) RegistryAdmin) ConfigAdmin.

Lemma unauthorized_call_changes_nothing_witness :
  ∃ e, control (tenant_admin "globex") (CpRegister (sample_register "drive-9" 7000))
         (sample_plane sample_store) = (sample_plane sample_store, Err e).
Proof.
  destruct (unauthorized_call_changes_nothing (tenant_admin "globex")
              (CpRegister (sample_register "drive-9" 7000)) (sample_plane sample_store)
              ltac:(right; constructor; vm_compute; reflexivity)) as (e & He & _).
  exists e. exact He.
Defined.

(** ** Tenants *)

Lemma owned_by_spec t ns : owned_by t ns = true ↔ ns = t ∨ ∃ rest, ns = t +:+ "/" +:+ rest.
Proof.
  unfold owned_by. rewrite orb_true_iff, bool_decide_eq_true, starts_with_spec.
  setoid_rewrite <- string_app_assoc. tauto.
Qed.

(** A namespace belongs to at most one tenant whose identifier has no slash. *)
Theorem tenant_namespaces_disjoint t1 t2 ns :
  contains_char "/" t1 = false → contains_char "/" t2 = false →
  owned_by t1 ns = true → owned_by t2 ns = true → t1 = t2.
Proof.
  intros H1 H2 [->|(r1 & ->)]%owned_by_spec [E|(r2 & E)]%owned_by_spec.
  - done.
  - rewrite E, contains_char_app in H1. simpl in H1.
    rewrite orb_true_r in H1. done.
  - rewrite <- E, contains_char_app in H2. simpl in H2. rewrite orb_true_r in H2. done.
  - by destruct (sep_cut_inj "/" t1 r1 t2 r2 H1 H2 E).
Qed.

Lemma tenant_namespaces_disjoint_witness : "acme" = "acme".
Proof.
  apply (tenant_namespaces_disjoint "acme" "acme" "acme/prod"); vm_compute; reflexivity.
Defined.

(** The change from [s] to [s'] stays within the namespaces of [P]. *)
Record within (P : string → bool) (s s' : MemoryDiscoveryStore) : Prop := {
  wi_instances k : P (ik_namespace k) = false → instances s' !! k = instances s !! k;
  wi_drafts k d : drafts s !! k = Some d → drafts s' !! k = Some d;
  wi_new_drafts k d : drafts s' !! k = Some d → drafts s !! k = Some d ∨ P (cd_namespace d) = true;
  wi_releases : releases s' = releases s;
  wi_events e : e ∈ events s' → e ∈ events s ∨ P (de_namespace e) = true;
}.

#[export] Instance within_refl P : Reflexive (within P).
Proof. intros s. split; auto. Qed.

#[export] Instance within_trans P : Transitive (within P).
Proof.
  intros s1 s2 s3 [I1 D1 N1 R1 E1] [I2 D2 N2 R2 E2]. split.
  - intros k Hk. by rewrite I2, I1.
  - auto.
  - intros k d Hd. destruct (N2 k d Hd); auto.
  - congruence.
  - intros e He. destruct (E2 e He) as [?|?]; auto.
Qed.

(** Changing the entry of one key of a namespace of [P] and logging it. *)
Lemma within_push P s s' k e :
  P (ik_namespace k) = true → P (de_namespace e) = true →
  (∀ k', k' ≠ k → instances s' !! k' = instances s !! k') →
  drafts s' = drafts s → releases s' = releases s →
  events s' = events s ∨ events s' = events s ++ [e] → within P s s'.
Proof.
  intros Hk He Hi Hd Hr Hev. split.
  - intros k' Hk'. apply Hi. intros ->. congruence.
  - by rewrite Hd.
  - rewrite Hd. auto.
  - done.
  - intros x. destruct Hev as [->| ->]; [auto|].
    intros [Hx| ->%list_elem_of_singleton]%elem_of_app; auto.
Qed.

Lemma register_instance_within P command s :
  P (rc_namespace command) = true → within P s (MemoryRegistry.register_instance command s).1.
Proof.
  intros HP. rewrite register_instance_run. destruct (register_checks command); [|done].
  destruct (cas_check _ _); [|done]. destruct (lease_for command s) as [lease seq].
  destruct (expiry_of command); simpl.
  - eapply (within_push P _ _ (register_key command));
      [done| | |done|done|right; reflexivity]; simpl; [done|].
    intros k' Hk'. by rewrite lookup_insert_ne.
  - by split; auto.
Qed.

Lemma batch_register_within P commands s :
  (∀ c, c ∈ commands → P (rc_namespace c) = true) →
  within P s (MemoryRegistry.batch_register_instances commands s).1.
Proof.
  unfold MemoryRegistry.batch_register_instances. intros HP. generalize 0. revert s.
  induction commands as [|c commands IH]; intros s i; [done|]. simpl.
  pose proof (register_instance_within P c s (HP c ltac:(left))) as H1.
  destruct (MemoryRegistry.register_instance c s) as [s1 r].
  specialize (IH ltac:(intros c' Hc'; apply HP; by right) s1 (i + 1)).
  destruct (batch_register_loop (i + 1) commands s1). simpl in *. by etrans.
Qed.

Lemma report_instance_status_within P command s :
  store_wf s → P (sc_namespace command) = true →
  within P s (MemoryRegistry.report_instance_status command s).1.
Proof.
  intros Hwf HP. unfold MemoryRegistry.report_instance_status.
  rewrite !lift_bind_run. do 4 (destruct (validate_non_empty _ _); [rewrite ?lift_bind_run|done]).
  rewrite gets_bind_run, lift_bind_run. destruct (instances s !! _) as [i|] eqn:Ei; [|done].
  simpl ok_or. cbv beta iota. rewrite lift_bind_run. destruct (if _ <=? _ then _ else _); [|done].
  rewrite lift_bind_run. destruct (cas_check _ _); [|done]. rewrite eff_bind_run. simpl.
  pose proof (rw_key _ _ _ _ (wf_registry _ Hwf) _ _ Ei) as Hk. injection Hk as Hns _ _ _.
  eapply (within_push P _ _
    {| ik_namespace := sc_namespace command; ik_environment := sc_environment command;
       ik_service_name := sc_service_name command; ik_instance_id := sc_instance_id command |});
    simpl; [done| | |done|done|right; reflexivity]; simpl; [by rewrite Hns|].
  intros k' Hk'. by rewrite lookup_insert_ne.
Qed.

Lemma deregister_instance_within P ns env svc id now s :
  store_wf s → P ns = true →
  within P s (MemoryRegistry.deregister_instance ns env svc id now s).1.
Proof.
  intros Hwf HP. destruct (deregister_instance_run ns env svc id now s)
    as [r [->|(i & Hi & _ & ->)]]; [done|]. rewrite remove_instance_run.
  pose proof (rw_key _ _ _ _ (wf_registry _ Hwf) _ _ Hi) as Hk. injection Hk as Hns _ _ _.
  eapply (within_push P _ _ {| ik_namespace := ns; ik_environment := env;
                               ik_service_name := svc; ik_instance_id := id |});
    simpl; [done| | |done|done|right; reflexivity]; simpl; [by rewrite Hns|].
  intros k' Hk'. by rewrite lookup_delete_ne.
Qed.

Lemma create_config_draft_within P h command s :
  store_wf s → headroom 1 s → P (cc_namespace command) = true →
  within P s (MemoryConfig.create_config_draft h command s).1.
Proof.
  intros Hwf [_ Hs] HP. rewrite create_config_draft_run.
  destruct (validate_config_draft_command command); [|done].
  destruct (replay_config_draft command s) as [[]|]; [done| |done].
  rewrite u64_succ_small by lia. cbv zeta. unfold remember.
  assert (∀ k d, drafts s !! k = Some d →
    <[id_of "draft" (next_sequence s + 1) :=
        new_draft h command (id_of "draft" (next_sequence s + 1))]> (drafts s) !! k = Some d) as Hd.
  { intros k d Hd. rewrite lookup_insert_ne; [done|]. intros <-.
    destruct (cw_draft _ _ _ _ _ (wf_config _ Hwf) _ _ Hd) as (_ & m & Hm & Em).
    apply id_of_inj in Em. lia. }
  assert (∀ k d, <[id_of "draft" (next_sequence s + 1) :=
        new_draft h command (id_of "draft" (next_sequence s + 1))]> (drafts s) !! k = Some d →
      drafts s !! k = Some d ∨ P (cd_namespace d) = true) as Hnew.
  { intros k d [[_ <-]|[_ Hk]]%lookup_insert_Some; [by right|by left]. }
  destruct (cc_idempotency command); split; simpl; auto.
Qed.

(** Calls that name the namespace they change. *)
Definition names_its_namespace (c : ControlCall) : bool :=
  match c with CpPublish _ | CpRollback _ | CpRenew _ => false | _ => true end.

Section memory_store.
Context (h : HashOrder) (dh : N → N → N) (sha : string → string) `{ConfigParsers}.

Definition control_memory (caller : CallerContext) (c : ControlCall)
    (cp : DiscoveryControlPlane MemoryDiscoveryStore)
    : DiscoveryControlPlane MemoryDiscoveryStore * DiscoveryResult () :=
  @control _ (@memory_registry_store h dh) (memory_config_store sha) (@memory_watch_store h) _
    caller c cp.

Lemma on_store_within {A} P (op : Op MemoryDiscoveryStore A) cp :
  within P (store cp) (op (store cp)).1 →
  within P (store cp) (store (outcome (on_store op cp)).1).
Proof. unfold on_store, outcome. by destruct (op (store cp)). Qed.

(** C18: over the in-memory store, a caller bound to a tenant writes nothing outside it
    with the calls that name a namespace, while its counters have room for another value:
    the entries of the registry in other namespaces stay as they are, every draft that
    appears is of a namespace of the tenant and no draft that was there changes or goes,
    the releases stay as they are, and each event that appears is about a namespace of
    the tenant. *)
Theorem tenant_writes_confined caller t c cp :
  store_wf (store cp) → headroom 1 (store cp) →
  tenant_id caller = Some t → names_its_namespace c = true →
  let s := store cp in
  let s' := store (control_memory caller c cp).1 in
  (∀ k, owned_by t (ik_namespace k) = false → instances s' !! k = instances s !! k)
  ∧ (∀ k d, drafts s !! k = Some d → drafts s' !! k = Some d)
  ∧ (∀ k d, drafts s' !! k = Some d → drafts s !! k = Some d ∨ owned_by t (cd_namespace d) = true)
  ∧ releases s' = releases s
  ∧ ∀ e, e ∈ events s' → e ∈ events s ∨ owned_by t (de_namespace e) = true.
Proof.
  intros Hwf Hroom Ht Hn. cbv zeta.
  assert (within (owned_by t) (store cp) (store (control_memory caller c cp).1)) as [];
    [|by split_and!].
  assert (∀ ns, in_tenant caller ns = owned_by t ns) as Hin
    by (intros ns; unfold in_tenant; by rewrite Ht).
  unfold control_memory. destruct c; try done; simpl control; cp_unfold; cp_checks;
    repeat match goal with
           | E : require_namespace_tenant_access _ _ = Ok _ |- _ =>
               apply tenant_access_Ok in E; rewrite Hin in E
           end; try (apply on_store_within; simpl).
  - by apply create_config_draft_within.
  - rewrite eff_bind_run. unfold from_store.
    destruct (store_retrieve_effective_config query (store cp)); [|done].
    rewrite lift_bind_run. by destruct (validate_effective_config_read_policy _ _).
  - by apply register_instance_within.
  - apply batch_register_within. intros c Hc. rewrite <- Hin.
    by eapply check_batch_Ok.
  - by apply report_instance_status_within.
  - by apply deregister_instance_within.
Qed.
End memory_store.

Lemma tenant_writes_confined_witness :
  instances (store (control_memory canonical_order (λ _ _, 0) sample_hash (tenant_admin "globex")
    (CpDeregister "acme" "prod" "drive" "drive-1" 6000) (sample_plane sample_store)).1)
  !! register_key (sample_register "drive-1" 1000)
  = instances sample_store !! register_key (sample_register "drive-1" 1000).
Proof.
  refine (proj1 (tenant_writes_confined canonical_order (λ _ _, 0) sample_hash
    (tenant_admin "globex") "globex" (CpDeregister "acme" "prod" "drive" "drive-1" 6000)
    (sample_plane sample_store) (proj1 sample_store_wf) _ eq_refl eq_refl) _ _).
  - vm_compute; split; discriminate.
  - reflexivity.
Defined.

(** ** Reading *)

Lemma finalize_discover_elem dh l q rev i :
  i ∈ di_instances (finalize_discover_instances dh l q rev) → i ∈ l.
Proof.
  assert (∀ i, i ∈ selected q l → i ∈ l) as Hsel.
  { intros j Hj. apply elem_of_selected in Hj. tauto. }
  destruct (decide (default ByInstanceId (dq_sort_by q) = WeightedRandom)) as [E|E].
  - unfold finalize_discover_instances, selected in *. rewrite E in *. simpl.
    intros Hi. apply Hsel. rewrite <- (weighted_shuffle_perm dh).
    destruct (_ <? _); [by apply elem_of_take_N in Hi|done].
  - rewrite finalize_discover_pages by done.
    destruct (paginate_sorted_keys _ _ _ _) as [page next] eqn:Ep. simpl.
    apply paginate_window in Ep as (-> & _). intros Hi%elem_of_take_N%subseteq_drop. auto.
Qed.

Lemma finalize_list_elem l rev q x :
  x ∈ ls_services (finalize_list_services l rev q) → x ∈ l.
Proof.
  unfold finalize_list_services.
  destruct (paginate_sorted_keys _ _ _ _) as [page next] eqn:Ep. simpl.
  apply paginate_window in Ep as (-> & _). intros Hi%elem_of_take_N%subseteq_drop.
  by apply elem_of_sort_by in Hi.
Qed.

Section memory_reads.
Context (h : HashOrder) (dh : N → N → N).
#[local] Existing Instance memory_registry_store.

(** Over the in-memory store, what a caller bound to a tenant reads from the
    registry is about the tenant's namespaces only: the instances a discovery
    returns, the instance a lookup returns, and the services a listing names. *)
Theorem tenant_reads_confined caller t (cp : DiscoveryControlPlane MemoryDiscoveryStore) :
  tenant_id caller = Some t → store_wf (store cp) →
  N.of_nat (size (instances (store cp))) <= u64_max →
  (∀ q now r, (@ControlPlane.discover_instances _ (@memory_registry_store h dh) caller q now cp).2
              = Ok r → ∀ i, i ∈ di_instances r → owned_by t (si_namespace i) = true)
  ∧ (∀ q now i, (@ControlPlane.retrieve_instance _ (@memory_registry_store h dh) caller q now cp).2
                = Ok (Some i) → owned_by t (si_namespace i) = true)
  ∧ (∀ q now r, (@ControlPlane.list_services _ (@memory_registry_store h dh) caller q now cp).2
                = Ok r → ∀ x, x ∈ ls_services r → owned_by t (ss_namespace x) = true).
Proof.
  intros Ht Hwf Hsize. assert (∀ ns, in_tenant caller ns = owned_by t ns) as Hin
    by (intros ns; unfold in_tenant; by rewrite Ht).
  split_and!; intros q now r; cp_unfold; cp_checks; unfold from_store; simpl;
    match goal with
    | E : require_namespace_tenant_access _ _ = Ok _ |- _ =>
        apply tenant_access_Ok in E; rewrite Hin in E; rename E into Hns
    end.
  - unfold MemoryRegistry.discover_instances. intros Hr i Hi.
    repeat (apply result_bind_Ok in Hr as (_ & _ & Hr)). injection Hr as <-.
    apply finalize_discover_elem, elem_of_retain in Hi as [Hf _]. unfold discover_filter in Hf.
    rewrite !andb_true_iff, bool_decide_eq_true in Hf. destruct Hf as (((((-> & _) & _) & _) & _) & _).
    done.
  - unfold MemoryRegistry.retrieve_instance. intros Hr.
    repeat (apply result_bind_Ok in Hr as (_ & _ & Hr)). injection Hr as Hr.
    apply bind_Some in Hr as (i & Hi & Hr). destruct (_ <? _); [|done]. injection Hr as <-.
    pose proof (rw_key _ _ _ _ (wf_registry _ Hwf) _ _ Hi) as Hk. injection Hk as -> _ _ _. done.
  - unfold MemoryRegistry.list_services. intros Hr x Hx.
    repeat (apply result_bind_Ok in Hr as (_ & _ & Hr)). injection Hr as <-.
    apply finalize_list_elem in Hx. unfold btree_values in Hx.
    apply list_elem_of_fmap in Hx as ([name y] & -> & Hy%elem_of_btree_iter). simpl.
    rewrite lookup_services in Hy by done. unfold summarize in Hy.
    case_decide; [done|]. injection Hy as <-. done.
Qed.
End memory_reads.

Lemma tenant_reads_confined_witness : owned_by "acme" "acme" = true.
Proof.
  refine (proj1 (tenant_reads_confined canonical_order (λ _ _, 0) (tenant_admin "acme") "acme"
    (sample_plane sample_store) eq_refl (proj1 sample_store_wf) ltac:(vm_compute; discriminate))
    (sample_query 10 None) 6000 _ _ (registered_instance (sample_register "drive-1" 1000)
      "lease-1" 31000 1) _).
  - vm_compute. reflexivity.
  - left.
Defined.

(** Publishing, rolling back, renewing a lease and watching never consult the
    caller's tenant: over any store, two callers with the same subject and
    permissions get the same outcome and leave the same state, whatever tenants
    they are bound to. *)
Theorem tenant_not_consulted {S} `{RegistryStore S, ConfigStore S, WatchEventStore S, ConfigParsers}
    caller1 caller2 c (cp : DiscoveryControlPlane S) :
  checked_namespaces c = [] → subject_id caller1 = subject_id caller2 →
  registry_permissions caller1 = registry_permissions caller2 →
  config_permissions caller1 = config_permissions caller2 →
  control caller1 c cp = control caller2 c cp.
Proof.
  intros Hc Hs Hr Hp.
  assert (∀ p, require_registry_permission caller1 p = require_registry_permission caller2 p) as Er.
  { intros p. unfold require_registry_permission, has_registry_permission. by rewrite Hs, Hr. }
  assert (∀ p, require_config_permission caller1 p = require_config_permission caller2 p) as Ep.
  { intros p. unfold require_config_permission, has_config_permission. by rewrite Hs, Hp. }
  destruct c; try done; simpl in *; cp_unfold; rewrite ?Er, ?Ep; try done.
  destruct commands; [done|discriminate Hc].
Qed.

(** A caller of the tenant globex publishes a draft of the namespace acme. *)
Definition globex_published : MemoryDiscoveryStore :=
  store (control (tenant_admin "globex") (CpPublish (sample_publish "draft-2" 2000))
           (sample_plane sample_config_store)).1.

Lemma tenant_not_consulted_witness :
  control (tenant_admin "globex") (CpPublish (sample_publish "draft-2" 2000))
    (sample_plane sample_config_store)
  = control (tenant_admin "acme") (CpPublish (sample_publish "draft-2" 2000))
      (sample_plane sample_config_store).
Proof. apply tenant_not_consulted; reflexivity. Defined.

(** The release it makes is in a namespace the tenant does not own. *)
Lemma cross_tenant_publish :
  releases globex_published = releases sample_config_store ++ [sample_release]
  ∧ owned_by "globex" (cr_namespace sample_release) = false.
Proof. split; vm_compute; reflexivity. Qed.

(** ** Lease times *)

(** Over any store, a registration or a renewal reaches the store only with a
    lease time within the policy's bounds, and only under a policy whose bounds
    are ordered; otherwise it fails and nothing changes. *)
Theorem lease_policy_enforced {S} `{RegistryStore S, ConfigStore S, WatchEventStore S, ConfigParsers}
    caller (cp : DiscoveryControlPlane S) :
  let p := registry_policy cp in
  let allowed ttl := rp_min_lease_ttl_seconds p <= rp_default_lease_ttl_seconds p
                     ∧ rp_default_lease_ttl_seconds p <= rp_max_lease_ttl_seconds p
                     ∧ rp_min_lease_ttl_seconds p <= ttl ∧ ttl <= rp_max_lease_ttl_seconds p in
  (∀ c, (∃ e, control caller (CpRegister c) cp = (cp, Err e))
        ∨ allowed (rc_lease_ttl_seconds c)
          ∧ control caller (CpRegister c) cp = outcome (on_store (store_register_instance c) cp))
  ∧ (∀ c, (∃ e, control caller (CpRenew c) cp = (cp, Err e))
          ∨ allowed (lc_lease_ttl_seconds c)
            ∧ control caller (CpRenew c) cp = outcome (on_store (store_renew_lease c) cp))
  ∧ (∀ cs, (∃ e, control caller (CpBatchRegister cs) cp = (cp, Err e))
           ∨ (∀ c, c ∈ cs → allowed (rc_lease_ttl_seconds c))
             ∧ control caller (CpBatchRegister cs) cp
               = outcome (on_store (store_batch_register_instances cs) cp)).
Proof.
  intros p allowed.
  assert (∀ ttl u, validate_registry_lease_ttl p ttl = Ok u → allowed ttl) as Hv.
  { intros ttl u. unfold validate_registry_lease_ttl, allowed.
    destruct (N.ltb_spec (rp_default_lease_ttl_seconds p) (rp_min_lease_ttl_seconds p)); [done|].
    destruct (N.ltb_spec (rp_max_lease_ttl_seconds p) (rp_default_lease_ttl_seconds p)); [done|].
    destruct (N.ltb_spec ttl (rp_min_lease_ttl_seconds p)); [done|].
    destruct (N.ltb_spec (rp_max_lease_ttl_seconds p) ttl); [done|]. simpl. lia. }
  split_and!; intros c; simpl; cp_unfold; cp_checks; try (left; eexists; reflexivity); right;
    (split; [|done]); [by eapply Hv|by eapply Hv|].
  intros c' Hc'. eapply Hv. by eapply check_batch_Ok.
Qed.
