(* ===== verification/Resilience.v ===== *)
(** * Runtime resilience (rpc: circuit_breaker.rs, rate_limiter.rs, degradation.rs,
    stale_read_cache.rs, resilience.rs)

    The circuit breaker, the token bucket, read-only degradation and the caches of
    stale reads, and their composition in [RuntimeResilience].  An [Instant] is a
    number of nanoseconds on the monotonic clock; the methods take the reading of
    the clock as an argument. *)
From S2P Require Import Prelude RustStr Collections Contract.
From Stdlib Require Import SpecFloat.

(** [Duration::from_millis] and [Instant::elapsed], which saturates at zero. *)
Definition from_millis (ms : N) : N := ms * 1000000.
Definition elapsed (now since : N) : N := saturating_sub now since.

(** ** Circuit breaker (circuit_breaker.rs) *)

Inductive CircuitState : Type := Closed | Open | HalfOpen.

#[export] Instance CircuitState_eq_dec : EqDecision CircuitState.
Proof. solve_decision. Defined.

Record CircuitBreakerConfig : Type := {
  cb_enabled : bool;
  failure_threshold : N;
  recovery_timeout_ms : N;
  half_open_max_requests : N;
}.

Definition default_circuit_breaker_config : CircuitBreakerConfig :=
  {| cb_enabled := false; failure_threshold := 5; recovery_timeout_ms := 30000;
     half_open_max_requests := 3 |}.

Record CircuitBreaker : Type := {
  cb_state : CircuitState;
  failure_count : N;
  success_count : N;
  cb_config : CircuitBreakerConfig;
  last_failure : option N;
  half_open_requests : N;
}.

Definition new_breaker (config : CircuitBreakerConfig) : CircuitBreaker :=
  {| cb_state := Closed; failure_count := 0; success_count := 0; cb_config := config;
     last_failure := None; half_open_requests := 0 |}.

Definition is_open (now : N) (cb : CircuitBreaker) : bool :=
  if negb (cb_enabled (cb_config cb)) then false
  else match cb_state cb with
       | Open =>
           match last_failure cb with
           | Some t => negb (from_millis (recovery_timeout_ms (cb_config cb)) <=? elapsed now t)
           | None => true
           end
       | _ => false
       end.

Definition allow_request (now : N) (cb : CircuitBreaker) : CircuitBreaker * bool :=
  if negb (cb_enabled (cb_config cb)) then (cb, true)
  else match cb_state cb with
       | Closed => (cb, true)
       | Open =>
           match last_failure cb with
           | Some t =>
               if from_millis (recovery_timeout_ms (cb_config cb)) <=? elapsed now t then
                 ({| cb_state := HalfOpen; failure_count := failure_count cb;
                     success_count := success_count cb; cb_config := cb_config cb;
                     last_failure := last_failure cb; half_open_requests := 0 |}, true)
               else (cb, false)
           | None => (cb, false)
           end
       | HalfOpen =>
           if half_open_requests cb <? half_open_max_requests (cb_config cb) then
             ({| cb_state := cb_state cb; failure_count := failure_count cb;
                 success_count := success_count cb; cb_config := cb_config cb;
                 last_failure := last_failure cb;
                 half_open_requests := u32_succ (half_open_requests cb) |}, true)
           else (cb, false)
       end.

Definition record_success (cb : CircuitBreaker) : CircuitBreaker :=
  if negb (cb_enabled (cb_config cb)) then cb
  else match cb_state cb with
       | Closed =>
           {| cb_state := Closed; failure_count := 0; success_count := success_count cb;
              cb_config := cb_config cb; last_failure := last_failure cb;
              half_open_requests := half_open_requests cb |}
       | HalfOpen =>
           let n := u32_succ (success_count cb) in
           if half_open_max_requests (cb_config cb) <=? n then
             {| cb_state := Closed; failure_count := 0; success_count := 0;
                cb_config := cb_config cb; last_failure := last_failure cb;
                half_open_requests := half_open_requests cb |}
           else
             {| cb_state := HalfOpen; failure_count := failure_count cb; success_count := n;
                cb_config := cb_config cb; last_failure := last_failure cb;
                half_open_requests := half_open_requests cb |}
       | Open => cb
       end.

Definition record_failure (now : N) (cb : CircuitBreaker) : CircuitBreaker :=
  if negb (cb_enabled (cb_config cb)) then cb
  else match cb_state cb with
       | Closed =>
           let n := u32_succ (failure_count cb) in
           if failure_threshold (cb_config cb) <=? n then
             {| cb_state := Open; failure_count := n; success_count := success_count cb;
                cb_config := cb_config cb; last_failure := Some now;
                half_open_requests := half_open_requests cb |}
           else
             {| cb_state := Closed; failure_count := n; success_count := success_count cb;
                cb_config := cb_config cb; last_failure := last_failure cb;
                half_open_requests := half_open_requests cb |}
       | HalfOpen =>
           {| cb_state := Open; failure_count := failure_count cb; success_count := 0;
              cb_config := cb_config cb; last_failure := Some now;
              half_open_requests := half_open_requests cb |}
       | Open => cb
       end.

Definition reset (cb : CircuitBreaker) : CircuitBreaker :=
  {| cb_state := Closed; failure_count := 0; success_count := 0; cb_config := cb_config cb;
     last_failure := None; half_open_requests := 0 |}.

(** ** Token bucket (rate_limiter.rs)

    [f64] is IEEE 754 binary64, as the Standard Library specifies it. *)

Definition f64 : Type := spec_float.
Definition f64_prec : Z := 53.
Definition f64_emax : Z := 1024.
Definition f64_add : f64 → f64 → f64 := SFadd f64_prec f64_emax.
Definition f64_sub : f64 → f64 → f64 := SFsub f64_prec f64_emax.
Definition f64_mul : f64 → f64 → f64 := SFmul f64_prec f64_emax.
Definition f64_div : f64 → f64 → f64 := SFdiv f64_prec f64_emax.
(** [x >= y], false when either is NaN. *)
Definition f64_ge (x y : f64) : bool := SFleb y x.
(** [x as f64] of an unsigned integer. *)
Definition f64_of_N (n : N) : f64 :=
  binary_normalize f64_prec f64_emax (Z.of_N n) 0 false.
(** [f64::min]: the other operand when one is NaN. *)
Definition f64_min (x y : f64) : f64 :=
  match x with
  | S754_nan => y
  | _ => match y with S754_nan => x | _ => if SFltb x y then x else y end
  end.

Record TokenBucketRateLimiter : Type := {
  capacity : N;
  tokens : f64;
  refill_rate : f64;
  last_refill : N;
}.

Definition new_limiter (capacity : N) (refill_rate_per_second : f64) (now : N)
    : TokenBucketRateLimiter :=
  {| capacity := capacity; tokens := f64_of_N capacity;
     refill_rate := refill_rate_per_second; last_refill := now |}.

(** [Duration::as_secs_f64]: whole seconds plus the fraction. *)
Definition as_secs_f64 (ns : N) : f64 :=
  f64_add (f64_of_N (ns / 1000000000))
          (f64_div (f64_of_N (ns mod 1000000000)) (f64_of_N 1000000000)).

Definition refill (now : N) (l : TokenBucketRateLimiter) : TokenBucketRateLimiter :=
  let elapsed := as_secs_f64 (saturating_sub now (last_refill l)) in
  {| capacity := capacity l;
     tokens := f64_min (f64_add (tokens l) (f64_mul elapsed (refill_rate l)))
                       (f64_of_N (capacity l));
     refill_rate := refill_rate l; last_refill := now |}.

Definition try_acquire (now : N) (l : TokenBucketRateLimiter)
    : TokenBucketRateLimiter * bool :=
  let l := refill now l in
  if f64_ge (tokens l) (f64_of_N 1) then
    ({| capacity := capacity l; tokens := f64_sub (tokens l) (f64_of_N 1);
        refill_rate := refill_rate l; last_refill := last_refill l |}, true)
  else (l, false).

Record RateLimitConfig : Type := {
  rl_enabled : bool;
  requests_per_second : N;
  burst_capacity : N;
}.

Definition default_rate_limit_config : RateLimitConfig :=
  {| rl_enabled := false; requests_per_second := 1000; burst_capacity := 1000 |}.

(** ** Degradation (degradation.rs) *)

Record DegradationConfig : Type := {
  read_only_on_storage_failure : bool;
  stale_read_max_age_ms : N;
}.

Definition default_degradation_config : DegradationConfig :=
  {| read_only_on_storage_failure := false; stale_read_max_age_ms := 60000 |}.

Inductive OperationType : Type := OpRead | OpWrite.
Inductive DegradationState : Type := Normal | ReadOnly.

#[export] Instance OperationType_eq_dec : EqDecision OperationType.
Proof. solve_decision. Defined.
#[export] Instance DegradationState_eq_dec : EqDecision DegradationState.
Proof. solve_decision. Defined.

Definition allows (state : DegradationState) (op : OperationType) : bool :=
  match state with
  | Normal => true
  | ReadOnly => match op with OpRead => true | OpWrite => false end
  end.

(** ** Stale reads (stale_read_cache.rs) *)

Record StaleReadCache (T : Type) : Type := {
  entries : gmap string (N * T);
}.
Arguments entries {T} _.

(** [StaleReadCache::default]. *)
Definition empty_cache {T} : StaleReadCache T := {| entries := ∅ |}.

Definition is_storage_unavailable (e : DiscoveryError) : bool :=
  match e with Unavailable _ => true | _ => false end.

(** [StaleReadCache::resolve]. *)
Definition resolve {T} (now : N) (key : string) (max_age : N) (serve_stale : bool)
    (result : DiscoveryResult T) (c : StaleReadCache T)
    : StaleReadCache T * DiscoveryResult T :=
  match result with
  | Ok value => ({| entries := <[key := (now, value)]> (entries c) |}, Ok value)
  | Err error =>
      if serve_stale && is_storage_unavailable error then
        match entries c !! key with
        | Some (cached_at, value) =>
            if elapsed now cached_at <=? max_age then (c, Ok value) else (c, Err error)
        | None => (c, Err error)
        end
      else (c, Err error)
  end.

(** ** The composition (resilience.rs) *)

Record RuntimeResilienceConfig : Type := {
  rrc_circuit_breaker : CircuitBreakerConfig;
  rrc_rate_limit : RateLimitConfig;
  rrc_degradation : DegradationConfig;
}.

Record RuntimeResilience : Type := {
  circuit_breaker : CircuitBreaker;
  rate_limiter : TokenBucketRateLimiter;
  rate_limit : RateLimitConfig;
  degradation : DegradationState;
  degradation_config : DegradationConfig;
  discover_reads : StaleReadCache DiscoverInstancesResult;
  retrieve_reads : StaleReadCache (option ServiceInstance);
  list_services_reads : StaleReadCache ListServicesResult;
  effective_config_reads : StaleReadCache EffectiveConfig;
  watch_reads : StaleReadCache (list DiscoveryEvent);
}.

Definition new_resilience (config : RuntimeResilienceConfig) (now : N) : RuntimeResilience :=
  {| circuit_breaker := new_breaker (rrc_circuit_breaker config);
     rate_limiter := new_limiter (burst_capacity (rrc_rate_limit config))
                       (f64_of_N (requests_per_second (rrc_rate_limit config))) now;
     rate_limit := rrc_rate_limit config; degradation := Normal;
     degradation_config := rrc_degradation config; discover_reads := empty_cache;
     retrieve_reads := empty_cache; list_services_reads := empty_cache;
     effective_config_reads := empty_cache; watch_reads := empty_cache |}.

(** Assignments to the guard part and to one cache. *)
Definition set_guards (cb : CircuitBreaker) (l : TokenBucketRateLimiter) (d : DegradationState)
    (r : RuntimeResilience) : RuntimeResilience :=
  {| circuit_breaker := cb; rate_limiter := l; rate_limit := rate_limit r; degradation := d;
     degradation_config := degradation_config r; discover_reads := discover_reads r;
     retrieve_reads := retrieve_reads r; list_services_reads := list_services_reads r;
     effective_config_reads := effective_config_reads r; watch_reads := watch_reads r |}.

Definition set_caches (c1 : StaleReadCache DiscoverInstancesResult)
    (c2 : StaleReadCache (option ServiceInstance)) (c3 : StaleReadCache ListServicesResult)
    (c4 : StaleReadCache EffectiveConfig) (c5 : StaleReadCache (list DiscoveryEvent))
    (r : RuntimeResilience) : RuntimeResilience :=
  {| circuit_breaker := circuit_breaker r; rate_limiter := rate_limiter r;
     rate_limit := rate_limit r; degradation := degradation r;
     degradation_config := degradation_config r; discover_reads := c1; retrieve_reads := c2;
     list_services_reads := c3; effective_config_reads := c4; watch_reads := c5 |}.

Definition configured_rate_limit (r : RuntimeResilience) : bool := rl_enabled (rate_limit r).

Definition serve_stale_reads (r : RuntimeResilience) : bool :=
  bool_decide (degradation r = ReadOnly) && read_only_on_storage_failure (degradation_config r).

Definition stale_read_max_age (r : RuntimeResilience) : N :=
  from_millis (stale_read_max_age_ms (degradation_config r)).

(** The readings of the monotonic clock while a command is handled: by the rate
    limiter and the breaker at the gate, by the cache, and when the outcome is
    recorded.  They are separate calls of [Instant::now]. *)
Record Instants : Type := {
  at_limiter : N;
  at_breaker : N;
  at_cache : N;
  at_record : N;
}.

(** The two later checks of [gate]. *)
Definition gate_storage (now : Instants) (operation : OperationType) : Op RuntimeResilience () := λ r,
  if negb (allows (degradation r) operation) then
    (r, Err (Unavailable "discovery runtime is in read-only degradation mode"))
  else
    let enforce_circuit_breaker :=
      bool_decide (operation = OpWrite) || bool_decide (degradation r = Normal) in
    if enforce_circuit_breaker then
      let '(cb, allowed) := allow_request (at_breaker now) (circuit_breaker r) in
      let r := set_guards cb (rate_limiter r) (degradation r) r in
      if allowed then (r, Ok ()) else (r, Err (Unavailable "storage circuit breaker is open"))
    else (r, Ok ()).

Definition gate (now : Instants) (operation : OperationType) : Op RuntimeResilience () := λ r,
  if configured_rate_limit r then
    let '(l, acquired) := try_acquire (at_limiter now) (rate_limiter r) in
    let r := set_guards (circuit_breaker r) l (degradation r) r in
    if acquired then gate_storage now operation r
    else (r, Err (Unavailable "rpc rate limit exceeded"))
  else gate_storage now operation r.

Definition is_storage_failure (e : DiscoveryError) : bool :=
  match e with Unavailable _ => true | _ => false end.

Definition record_result {T} (now : N) (result : DiscoveryResult T) (r : RuntimeResilience)
    : RuntimeResilience :=
  match result with
  | Ok _ =>
      set_guards (record_success (circuit_breaker r)) (rate_limiter r)
        (if bool_decide (degradation r = ReadOnly) then Normal else degradation r) r
  | Err error =>
      if is_storage_failure error then
        set_guards (record_failure now (circuit_breaker r)) (rate_limiter r)
          (if read_only_on_storage_failure (degradation_config r) then ReadOnly
           else degradation r) r
      else r
  end.

Definition resolve_discover_instances (now : N) (key : string)
    (result : DiscoveryResult DiscoverInstancesResult)
    : Op RuntimeResilience DiscoverInstancesResult := λ r,
  let '(c, res) := resolve now key (stale_read_max_age r) (serve_stale_reads r) result
                     (discover_reads r) in
  (set_caches c (retrieve_reads r) (list_services_reads r) (effective_config_reads r)
     (watch_reads r) r, res).

Definition resolve_retrieve_instance (now : N) (key : string)
    (result : DiscoveryResult (option ServiceInstance))
    : Op RuntimeResilience (option ServiceInstance) := λ r,
  let '(c, res) := resolve now key (stale_read_max_age r) (serve_stale_reads r) result
                     (retrieve_reads r) in
  (set_caches (discover_reads r) c (list_services_reads r) (effective_config_reads r)
     (watch_reads r) r, res).

Definition resolve_list_services (now : N) (key : string)
    (result : DiscoveryResult ListServicesResult)
    : Op RuntimeResilience ListServicesResult := λ r,
  let '(c, res) := resolve now key (stale_read_max_age r) (serve_stale_reads r) result
                     (list_services_reads r) in
  (set_caches (discover_reads r) (retrieve_reads r) c (effective_config_reads r)
     (watch_reads r) r, res).

Definition resolve_effective_config (now : N) (key : string)
    (result : DiscoveryResult EffectiveConfig) : Op RuntimeResilience EffectiveConfig := λ r,
  let '(c, res) := resolve now key (stale_read_max_age r) (serve_stale_reads r) result
                     (effective_config_reads r) in
  (set_caches (discover_reads r) (retrieve_reads r) (list_services_reads r) c
     (watch_reads r) r, res).

Definition resolve_watch_events (now : N) (key : string)
    (result : DiscoveryResult (list DiscoveryEvent))
    : Op RuntimeResilience (list DiscoveryEvent) := λ r,
  let '(c, res) := resolve now key (stale_read_max_age r) (serve_stale_reads r) result
                     (watch_reads r) in
  (set_caches (discover_reads r) (retrieve_reads r) (list_services_reads r)
     (effective_config_reads r) c r, res).
