(* ===== verification/ResilienceTheorems.v ===== *)
(** * Theorems about runtime resilience

    The circuit breaker as a state machine over any sequence of calls, the bound
    of the token bucket, what a stale read may answer, and read-only degradation. *)
From S2P Require Import Prelude RustStr Collections Contract Resilience.
From Stdlib Require Import SpecFloat.

(** ** The circuit breaker *)

Inductive BreakerEvent : Type :=
| BreakerAllow (now : N)
| BreakerSuccess
| BreakerFailure (now : N)
| BreakerReset.

Definition breaker_step (cb : CircuitBreaker) (e : BreakerEvent) : CircuitBreaker :=
  match e with
  | BreakerAllow now => (allow_request now cb).1
  | BreakerSuccess => record_success cb
  | BreakerFailure now => record_failure now cb
  | BreakerReset => reset cb
  end.

Definition breaker_run (cb : CircuitBreaker) (es : list BreakerEvent) : CircuitBreaker :=
  foldl breaker_step cb es.

(** A breaker with its counters in range; an open one knows when it opened. *)
Record breaker_wf (config : CircuitBreakerConfig) (cb : CircuitBreaker) : Prop := {
  bw_config : cb_config cb = config;
  bw_open : cb_state cb = Open → is_Some (last_failure cb);
  bw_half : half_open_requests cb <= half_open_max_requests config;
  bw_success : success_count cb = 0 ∨ success_count cb < half_open_max_requests config;
  bw_success_half : cb_state cb ≠ HalfOpen → success_count cb = 0;
  bw_failures : cb_state cb = Closed → failure_count cb = 0
                ∨ failure_count cb < failure_threshold config;
}.

Lemma new_breaker_wf config : breaker_wf config (new_breaker config).
Proof. split; simpl; auto; lia || done. Qed.

Ltac breaker_cases :=
  split; simpl; solve [done | lia | congruence | auto | rewrite u32_succ_small; lia].

Lemma breaker_step_wf config cb e :
  half_open_max_requests config <= u32_max →
  breaker_wf config cb → breaker_wf config (breaker_step cb e).
Proof.
  intros Hmax Hwf. pose proof Hwf as [Hc Ho Hh Hs Hz Hf]. destruct e; simpl.
  - unfold allow_request. rewrite Hc. destruct (negb _); [done|].
    destruct (cb_state cb) eqn:Est; [done| |].
    + destruct (last_failure cb) as [t|] eqn:El; [|done]. destruct (_ <=? _); [|done].
      breaker_cases.
    + destruct (N.ltb_spec (half_open_requests cb) (half_open_max_requests config)); [|done].
      breaker_cases.
  - unfold record_success. rewrite Hc. destruct (negb _); [done|].
    destruct (cb_state cb) eqn:Est; [| done |]; [breaker_cases|].
    destruct (N.leb_spec (half_open_max_requests config) (u32_succ (success_count cb)));
      breaker_cases.
  - unfold record_failure. rewrite Hc. destruct (negb _); [done|].
    destruct (cb_state cb) eqn:Est; [|done|breaker_cases].
    destruct (N.leb_spec (failure_threshold config) (u32_succ (failure_count cb)));
      breaker_cases.
  - breaker_cases.
Qed.

Lemma breaker_run_wf config es :
  half_open_max_requests config <= u32_max →
  breaker_wf config (breaker_run (new_breaker config) es).
Proof.
  intros Hmax. unfold breaker_run. induction es as [|e es IH] using rev_ind;
    [apply new_breaker_wf|]. rewrite foldl_app. by apply breaker_step_wf.
Qed.

(** After any sequence of calls an open breaker refuses every request until
    the recovery time has passed since it opened, changes nothing while it does,
    and then lets a request through and tries half open: it never stays shut for
    good in the open state. *)
Theorem open_breaker_timing config es :
  half_open_max_requests config <= u32_max → cb_enabled config = true →
  let cb := breaker_run (new_breaker config) es in
  cb_state cb = Open →
  ∃ t, last_failure cb = Some t ∧
    (∀ now, elapsed now t < from_millis (recovery_timeout_ms config) →
            allow_request now cb = (cb, false) ∧ is_open now cb = true) ∧
    (∀ now, from_millis (recovery_timeout_ms config) <= elapsed now t →
            (allow_request now cb).2 = true ∧ cb_state (allow_request now cb).1 = HalfOpen
            ∧ is_open now cb = false).
Proof.
  intros Hmax Hen cb Hopen. destruct (breaker_run_wf config es Hmax) as [Hc Ho _ _ _ _].
  fold cb in Hc, Ho. destruct (Ho Hopen) as [t Ht]. exists t. split; [done|].
  unfold allow_request, is_open. rewrite Hc, Hen, Hopen, Ht. simpl.
  split; intros now Hnow; destruct (N.leb_spec (from_millis (recovery_timeout_ms config))
    (elapsed now t)); try lia; done.
Qed.

Definition sample_breaker_config : CircuitBreakerConfig :=
  {| cb_enabled := true; failure_threshold := 2; recovery_timeout_ms := 10;
     half_open_max_requests := 1 |}.

Lemma open_breaker_timing_witness :
  ∃ t, last_failure (breaker_run (new_breaker sample_breaker_config)
                       [BreakerFailure 5; BreakerFailure 7]) = Some t.
Proof.
  destruct (open_breaker_timing sample_breaker_config [BreakerFailure 5; BreakerFailure 7]
              ltac:(vm_compute; discriminate) eq_refl ltac:(vm_compute; reflexivity))
    as (t & Ht & _).
  exists t. exact Ht.
Defined.

(** Failures in a row. *)
Definition fail_at (cb : CircuitBreaker) (times : list N) : CircuitBreaker :=
  breaker_run cb (BreakerFailure <$> times).

Lemma fail_below config cb times :
  cb_config cb = config → cb_enabled config = true → cb_state cb = Closed →
  failure_count cb + len_N times < failure_threshold config →
  failure_threshold config <= u32_max →
  cb_state (fail_at cb times) = Closed
  ∧ failure_count (fail_at cb times) = failure_count cb + len_N times
  ∧ cb_config (fail_at cb times) = config.
Proof.
  intros Hc Hen Hst Hlt Hmax. unfold fail_at, breaker_run.
  revert cb Hc Hst Hlt. induction times as [|t times IH]; intros cb Hc Hst Hlt.
  { split_and!; [done|unfold len_N; simpl; lia|done]. }
  assert (len_N (t :: times) = len_N times + 1) as El by (unfold len_N; simpl; lia).
  assert (record_failure t cb = {| cb_state := Closed; failure_count := failure_count cb + 1;
    success_count := success_count cb; cb_config := cb_config cb;
    last_failure := last_failure cb; half_open_requests := half_open_requests cb |}) as Hrf.
  { unfold record_failure. rewrite Hc, Hen, Hst. simpl. rewrite u32_succ_small by lia.
    destruct (N.leb_spec (failure_threshold config) (failure_count cb + 1)); [lia|done]. }
  simpl. rewrite Hrf. destruct (IH {| cb_state := Closed; failure_count := failure_count cb + 1;
    success_count := success_count cb; cb_config := cb_config cb;
    last_failure := last_failure cb; half_open_requests := half_open_requests cb |})
    as (H1 & H2 & H3); [done|done|simpl; lia|]. split_and!; [done| |done].
  etransitivity; [exact H2|simpl; lia].
Qed.

(** A closed breaker opens at the configured number of failures in a row and
    not before: fewer failures leave it closed and letting requests through, the
    failure that reaches the threshold opens it at its time, and one success in
    between starts the count again. *)
Theorem breaker_opens_at_threshold config cb times now :
  cb_enabled config = true → 1 <= failure_threshold config →
  failure_threshold config <= u32_max →
  cb_config cb = config → cb_state cb = Closed →
  let fresh := record_success cb in
  (len_N times < failure_threshold config →
     cb_state (fail_at fresh times) = Closed
     ∧ allow_request now (fail_at fresh times) = (fail_at fresh times, true)) ∧
  (len_N times + 1 = failure_threshold config →
     cb_state (fail_at fresh (times ++ [now])) = Open
     ∧ last_failure (fail_at fresh (times ++ [now])) = Some now).
Proof.
  intros Hen Hlo Hmax Hc Hst fresh.
  assert (cb_config fresh = config ∧ cb_state fresh = Closed ∧ failure_count fresh = 0)
    as (Hfc & Hfs & Hff) by (unfold fresh, record_success; by rewrite Hc, Hen, Hst).
  assert (len_N times < failure_threshold config →
          cb_state (fail_at fresh times) = Closed
          ∧ failure_count (fail_at fresh times) = len_N times
          ∧ cb_config (fail_at fresh times) = config) as Hbelow.
  { intros Hlt. rewrite <- (N.add_0_l (len_N times)), <- Hff. apply fail_below; auto. lia. }
  split; intros Hlt.
  - destruct (Hbelow Hlt) as (H1 & _ & H3). split; [done|].
    unfold allow_request. by rewrite H3, Hen, H1.
  - destruct (Hbelow ltac:(lia)) as (H1 & H2 & H3). unfold fail_at, breaker_run in *.
    rewrite fmap_app, foldl_app. simpl. set (cb' := foldl breaker_step fresh _) in *.
    unfold record_failure. rewrite H3, Hen, H1, H2. simpl.
    rewrite u32_succ_small by lia.
    destruct (N.leb_spec (failure_threshold config) (len_N times + 1)); [done|lia].
Qed.

Lemma breaker_opens_at_threshold_witness :
  cb_state (fail_at (record_success (new_breaker sample_breaker_config)) ([3] ++ [9])) = Open.
Proof.
  refine (proj1 (proj2 (breaker_opens_at_threshold sample_breaker_config
    (new_breaker sample_breaker_config) [3] 9 eq_refl _ _ eq_refl eq_refl) eq_refl));
    vm_compute; discriminate.
Defined.

(** Requests one after the other, none of which reports back. *)
Fixpoint request_all (cb : CircuitBreaker) (times : list N) : CircuitBreaker * list bool :=
  match times with
  | [] => (cb, [])
  | now :: times =>
      let '(cb1, b) := allow_request now cb in
      let '(cb2, bs) := request_all cb1 times in (cb2, b :: bs)
  end.

Definition granted (bs : list bool) : N := len_N (retain id bs).

Lemma half_open_requests_exact config cb times :
  cb_config cb = config → cb_enabled config = true → cb_state cb = HalfOpen →
  half_open_max_requests config <= u32_max →
  half_open_requests cb <= half_open_max_requests config →
  granted (request_all cb times).2 =
    N.min (len_N times) (half_open_max_requests config - half_open_requests cb).
Proof.
  intros Hc Hen Hst Hmax. revert cb Hc Hst.
  induction times as [|now times IH]; intros cb Hc Hst Hle.
  { unfold granted, len_N. simpl. lia. }
  simpl. unfold allow_request. rewrite Hc, Hen, Hst. simpl.
  assert (len_N (now :: times) = len_N times + 1) as -> by (unfold len_N; simpl; lia).
  destruct (N.ltb_spec (half_open_requests cb) (half_open_max_requests config)) as [Hlt|Hge].
  - rewrite u32_succ_small by lia.
    match goal with |- context [request_all ?c times] => specialize (IH c) end.
    simpl in IH. specialize (IH eq_refl eq_refl ltac:(lia)).
    destruct (request_all _ times) as [cb2 bs]. simpl in *. unfold granted in *.
    rewrite retain_cons. simpl. unfold len_N at 1. simpl. unfold len_N at 1 in IH. lia.
  - specialize (IH cb Hc Hst Hle). destruct (request_all cb times) as [cb2 bs]. simpl in *.
    unfold granted in *. rewrite retain_cons. simpl. lia.
Qed.

(** Of the requests made after an open breaker's recovery time, with no result
    reported in between, exactly one more than the configured number of trial
    requests is let through: the request that moves the breaker to half open is
    not counted. *)
Theorem half_open_admits_one_more config cb t now times :
  cb_config cb = config → cb_enabled config = true → cb_state cb = Open →
  last_failure cb = Some t → half_open_max_requests config <= u32_max →
  from_millis (recovery_timeout_ms config) <= elapsed now t →
  half_open_max_requests config <= len_N times →
  granted (request_all cb (now :: times)).2 = half_open_max_requests config + 1.
Proof.
  intros Hc Hen Hst Hl Hmax Hnow Hlen. simpl. unfold allow_request. rewrite Hc, Hen, Hst, Hl. simpl.
  destruct (N.leb_spec (from_millis (recovery_timeout_ms config)) (elapsed now t)); [|lia].
  match goal with |- context [request_all ?c times] => set (cb' := c) end.
  pose proof (half_open_requests_exact config cb' times eq_refl Hen eq_refl Hmax
                ltac:(simpl; lia)) as Hg.
  simpl in Hg. destruct (request_all cb' times) as [cb2 bs]. simpl in *. unfold granted in *.
  rewrite retain_cons. simpl. unfold len_N at 1. simpl. unfold len_N at 1 in Hg. lia.
Qed.

Definition opened_breaker : CircuitBreaker :=
  {| cb_state := Open; failure_count := 2; success_count := 0; cb_config := sample_breaker_config;
     last_failure := Some 0; half_open_requests := 0 |}.

Lemma half_open_admits_one_more_witness :
  granted (request_all opened_breaker (20000000 :: [20000001; 20000002])).2 = 2.
Proof.
  apply (half_open_admits_one_more sample_breaker_config opened_breaker 0 20000000
           [20000001; 20000002]); solve [reflexivity | vm_compute; discriminate].
Defined.

(** A half-open breaker whose trial requests are used up, and whose results
    are never reported, refuses every later request, however much time passes. *)
Theorem half_open_exhausted_stays config cb times :
  cb_config cb = config → cb_enabled config = true → cb_state cb = HalfOpen →
  half_open_max_requests config <= half_open_requests cb →
  request_all cb times = (cb, replicate (length times) false).
Proof.
  intros Hc Hen Hst Hle. induction times as [|now times IH]; [done|]. simpl.
  unfold allow_request at 1. rewrite Hc, Hen, Hst. simpl.
  destruct (N.ltb_spec (half_open_requests cb) (half_open_max_requests config)); [lia|].
  by rewrite IH.
Qed.

Definition stuck_breaker : CircuitBreaker :=
  {| cb_state := HalfOpen; failure_count := 2; success_count := 0;
     cb_config := sample_breaker_config; last_failure := Some 0; half_open_requests := 1 |}.

Lemma half_open_exhausted_stays_witness :
  request_all stuck_breaker [1000000000000; 2000000000000] = (stuck_breaker, [false; false]).
Proof.
  apply (half_open_exhausted_stays sample_breaker_config stuck_breaker
           [1000000000000; 2000000000000]); solve [reflexivity | vm_compute; discriminate].
Defined.

(** A half-open breaker closes after the configured number of reported
    successes and not before; one reported failure opens it again and forgets the
    successes. *)
Theorem half_open_recovery config cb n now :
  cb_config cb = config → cb_enabled config = true → cb_state cb = HalfOpen →
  success_count cb = 0 → half_open_max_requests config <= u32_max →
  (N.of_nat n < half_open_max_requests config →
     cb_state (breaker_run cb (replicate n BreakerSuccess)) = HalfOpen
     ∧ cb_state (breaker_run cb (replicate n BreakerSuccess ++ [BreakerFailure now])) = Open
     ∧ success_count (breaker_run cb (replicate n BreakerSuccess ++ [BreakerFailure now])) = 0) ∧
  (N.of_nat n + 1 = half_open_max_requests config →
     cb_state (breaker_run cb (replicate n BreakerSuccess ++ [BreakerSuccess])) = Closed
     ∧ failure_count (breaker_run cb (replicate n BreakerSuccess ++ [BreakerSuccess])) = 0).
Proof.
  intros Hc Hen Hst Hs Hmax. unfold breaker_run.
  assert (N.of_nat n < half_open_max_requests config →
    let cb' := foldl breaker_step cb (replicate n BreakerSuccess) in
    cb_state cb' = HalfOpen ∧ success_count cb' = N.of_nat n ∧ cb_config cb' = config) as Hn.
  { induction n as [|n IH]; intros Hlt; [done|]. rewrite replicate_S_end, foldl_app.
    destruct (IH ltac:(lia)) as (H1 & H2 & H3). simpl in *.
    set (cb' := foldl breaker_step cb (replicate n BreakerSuccess)) in *.
    unfold record_success. rewrite H3, Hen, H1, H2. simpl. rewrite u32_succ_small by lia.
    destruct (N.leb_spec (half_open_max_requests config) (N.of_nat n + 1)); [lia|].
    simpl. split_and!; [done|lia|done]. }
  split; intros Hlt; destruct (Hn ltac:(lia)) as (H1 & H2 & H3); simpl in *;
    rewrite !foldl_app; simpl; set (cb' := foldl breaker_step cb _) in *.
  - split; [done|]. unfold record_failure. by rewrite H3, Hen, H1.
  - unfold record_success. rewrite H3, Hen, H1, H2. simpl. rewrite u32_succ_small by lia.
    destruct (N.leb_spec (half_open_max_requests config) (N.of_nat n + 1)); [done|lia].
Qed.

Lemma half_open_recovery_witness :
  cb_state (breaker_run stuck_breaker (replicate 0 BreakerSuccess ++ [BreakerSuccess])) = Closed.
Proof.
  refine (proj1 (proj2 (half_open_recovery sample_breaker_config stuck_breaker 0 0
    eq_refl eq_refl eq_refl eq_refl _) eq_refl)). vm_compute; discriminate.
Defined.

(** ** The token bucket *)

Lemma SFcompare_refl x : SFcompare x x = Some Eq ∨ SFcompare x x = None.
Proof.
  destruct x as [[]|[]| |[] m e]; simpl; auto; by rewrite Z.compare_refl, Pos.compare_refl; auto.
Qed.

Lemma SFltb_asym x y : SFltb x y = true → SFltb y x = false.
Proof.
  unfold SFltb. destruct x as [[]|[]| |[] m e], y as [[]|[]| |[] m' e']; simpl; try done;
    rewrite (Z.compare_antisym e e'), <- ?(Pos.compare_antisym m m');
    destruct (Z.compare e e'); simpl; try done;
    change (Pos.compare_cont Eq m m') with (Pos.compare m m');
    change (Pos.compare_cont Eq m' m) with (Pos.compare m' m);
    rewrite (Pos.compare_antisym m m'); by destruct (Pos.compare m m').
Qed.

Lemma f64_min_not_above x c : SFltb c (f64_min x c) = false.
Proof.
  assert (SFltb c c = false) as Hrefl
    by (unfold SFltb; destruct (SFcompare_refl c) as [-> | ->]; done).
  assert (SFltb c (if SFltb x c then x else c) = false) as Hif.
  { destruct (SFltb x c) eqn:E; [by apply SFltb_asym|done]. }
  destruct x, c; exact Hif || exact Hrefl || done.
Qed.

(** The bucket never holds more than its capacity when a request is decided,
    whatever its state and however long it waited; a request is let through only
    if the bucket then holds a whole token, and takes exactly that token. *)
Theorem bucket_bounded now l l' granted :
  try_acquire now l = (l', granted) →
  SFltb (f64_of_N (capacity l)) (tokens (refill now l)) = false
  ∧ granted = f64_ge (tokens (refill now l)) (f64_of_N 1)
  ∧ capacity l' = capacity l ∧ refill_rate l' = refill_rate l ∧ last_refill l' = now
  ∧ tokens l' = (if granted then f64_sub (tokens (refill now l)) (f64_of_N 1)
                 else tokens (refill now l)).
Proof.
  unfold try_acquire. intros E. split; [apply f64_min_not_above|].
  destruct (f64_ge (tokens (refill now l)) (f64_of_N 1)); injection E as <- <-; done.
Qed.

(** Grants of a sequence of requests. *)
Fixpoint acquire_all (l : TokenBucketRateLimiter) (times : list N) : list bool :=
  match times with
  | [] => []
  | now :: times => let '(l, b) := try_acquire now l in b :: acquire_all l times
  end.

(** A burst of the capacity, then one request per refilled token. *)
Lemma burst_then_refill :
  acquire_all (new_limiter 3 (f64_of_N 2) 0) [0; 0; 0; 0; 400000000; 500000000; 500000000; 1000000000]
  = [true; true; true; false; false; true; false; true].
Proof. vm_compute. reflexivity. Qed.

Lemma bucket_bounded_witness :
  SFltb (f64_of_N 3) (tokens (refill 9000000000 (new_limiter 3 (f64_of_N 2) 0))) = false.
Proof.
  refine (proj1 (bucket_bounded 9000000000 (new_limiter 3 (f64_of_N 2) 0)
    (try_acquire 9000000000 (new_limiter 3 (f64_of_N 2) 0)).1 true _)).
  vm_compute. reflexivity.
Defined.

(** ** Stale reads *)

(** One read: when, under which key, in which mode, and what the storage said. *)
Record ReadAttempt (T : Type) : Type := {
  ra_now : N;
  ra_key : string;
  ra_serve_stale : bool;
  ra_result : DiscoveryResult T;
}.
Arguments ra_now {T} _.
Arguments ra_key {T} _.
Arguments ra_serve_stale {T} _.
Arguments ra_result {T} _.

Section stale_reads.
Context {T : Type} (max_age : N).

Definition attempt (a : ReadAttempt T) (c : StaleReadCache T)
    : StaleReadCache T * DiscoveryResult T :=
  resolve (ra_now a) (ra_key a) max_age (ra_serve_stale a) (ra_result a) c.

Definition cache_after (l : list (ReadAttempt T)) : StaleReadCache T :=
  foldl (λ c a, (attempt a c).1) empty_cache l.

(** The last answer of the storage under a key. *)
Definition last_answer (key : string) (l : list (ReadAttempt T)) : option (N * T) :=
  foldl (λ acc a, match ra_result a with
                  | Ok v => if bool_decide (ra_key a = key) then Some (ra_now a, v) else acc
                  | Err _ => acc
                  end) None l.

Lemma resolve_Err_cache now key serve e c :
  (resolve now key max_age serve (Err e) c : StaleReadCache T * DiscoveryResult T).1 = c.
Proof.
  unfold resolve. destruct (_ && _); [|done]. destruct (entries c !! key) as [[t v]|]; [|done].
  by destruct (_ <=? _).
Qed.

Lemma cache_after_lookup l key : entries (cache_after l) !! key = last_answer key l.
Proof.
  unfold cache_after, last_answer. induction l as [|a l IH] using rev_ind; [done|].
  rewrite !foldl_app. cbn [foldl]. unfold attempt at 1.
  destruct (ra_result a) as [v|e] eqn:E; [|by rewrite resolve_Err_cache].
  cbn [resolve fst entries]. case_bool_decide as Hk.
  - subst key. apply lookup_insert_eq.
  - rewrite <- IH. by apply lookup_insert_ne.
Qed.

(** After any sequence of reads, a read answers with what the storage said,
    or, only while stale reads are served and only when the storage is
    unavailable, with the storage's last answer under the same key, and then
    only if that answer is not older than the maximum age; otherwise it passes
    the storage's error on. *)
Theorem stale_read_sound l a :
  (attempt a (cache_after l)).2 =
    match ra_result a with
    | Ok v => Ok v
    | Err e =>
        if ra_serve_stale a && is_storage_unavailable e then
          match last_answer (ra_key a) l with
          | Some (t, v) => if elapsed (ra_now a) t <=? max_age then Ok v else Err e
          | None => Err e
          end
        else Err e
    end.
Proof.
  unfold attempt, resolve. destruct (ra_result a) as [v|e]; [done|].
  rewrite cache_after_lookup. destruct (_ && _); [|done].
  destruct (last_answer (ra_key a) l) as [[t v]|]; [|done]. by destruct (_ <=? _).
Qed.
End stale_reads.

(** ** Degradation *)

(** In read-only mode a write never reaches the storage and touches neither
    the circuit breaker nor the mode, and a read is not held back by the circuit
    breaker; only the rate limit applies to both. *)
Theorem read_only_gate now r :
  degradation r = ReadOnly → rl_enabled (rate_limit r) = false →
  gate now OpWrite r = (r, Err (Unavailable "discovery runtime is in read-only degradation mode"))
  ∧ gate now OpRead r = (r, Ok ()).
Proof.
  intros Hd Hl. unfold gate, configured_rate_limit, gate_storage. rewrite Hl, Hd. done.
Qed.

Definition sample_resilience : RuntimeResilience :=
  record_result (T := ()) 1000 (Err (Unavailable "down"))
    (new_resilience {| rrc_circuit_breaker := sample_breaker_config;
                       rrc_rate_limit := default_rate_limit_config;
                       rrc_degradation := {| read_only_on_storage_failure := true;
                                             stale_read_max_age_ms := 60000 |} |} 0).

Lemma read_only_gate_witness :
  gate {| at_limiter := 2000; at_breaker := 2000; at_cache := 2000; at_record := 2000 |}
    OpWrite sample_resilience
  = (sample_resilience, Err (Unavailable "discovery runtime is in read-only degradation mode")).
Proof. apply read_only_gate; reflexivity. Defined.

(** An outcome moves the mode and the breaker as follows: a storage failure
    enters read-only mode when that is configured, an answer leaves it, any other
    error changes nothing at all; the caches and the rate limiter are untouched. *)
Theorem record_result_modes {T} now (res : DiscoveryResult T) r :
  let r' := record_result now res r in
  match res with
  | Ok _ => degradation r' = Normal ∧ circuit_breaker r' = record_success (circuit_breaker r)
  | Err (Unavailable _) =>
      degradation r' = (if read_only_on_storage_failure (degradation_config r) then ReadOnly
                        else degradation r)
      ∧ circuit_breaker r' = record_failure now (circuit_breaker r)
  | Err _ => r' = r
  end
  ∧ rate_limiter r' = rate_limiter r ∧ discover_reads r' = discover_reads r
  ∧ retrieve_reads r' = retrieve_reads r ∧ list_services_reads r' = list_services_reads r
  ∧ effective_config_reads r' = effective_config_reads r ∧ watch_reads r' = watch_reads r.
Proof.
  destruct res as [v|[]]; simpl; try done. destruct (degradation r); done.
Qed.

(** A stale answer ends read-only mode although the storage is still down:
    when a cached discovery is served for an unavailable storage, recording it as
    the actor does returns the runtime to normal operation and counts a success
    for the circuit breaker. *)
Theorem stale_answer_ends_read_only now key e t v r :
  degradation r = ReadOnly → read_only_on_storage_failure (degradation_config r) = true →
  entries (discover_reads r) !! key = Some (t, v) → elapsed now t <= stale_read_max_age r →
  let '(r1, res) := resolve_discover_instances now key (Err (Unavailable e)) r in
  res = Ok v ∧ degradation (record_result now res r1) = Normal
  ∧ circuit_breaker (record_result now res r1) = record_success (circuit_breaker r).
Proof.
  intros Hd Hc Hl Ha. unfold resolve_discover_instances, resolve, serve_stale_reads.
  rewrite Hc, Hl. rewrite bool_decide_true by done. simpl.
  destruct (N.leb_spec (elapsed now t) (stale_read_max_age r)); [|lia]. simpl. by rewrite Hd.
Qed.

Definition sample_answer : DiscoverInstancesResult :=
  {| di_revision := 1; di_instances := []; di_next_page_token := None |}.

Definition sample_cached : RuntimeResilience :=
  set_caches {| entries := {[ "k" := (500, sample_answer) ]} |} empty_cache empty_cache
    empty_cache empty_cache sample_resilience.

Lemma stale_answer_ends_read_only_witness :
  (resolve_discover_instances 3000 "k" (Err (Unavailable "down")) sample_cached).2
  = Ok sample_answer.
Proof.
  exact (proj1 (stale_answer_ends_read_only 3000 "k" "down" 500 sample_answer sample_cached
    eq_refl eq_refl eq_refl ltac:(vm_compute; discriminate))).
Defined.
