(* ===== verification/Proto.v ===== *)
(** * Wire messages (proto/sdkwork/discovery)

    The messages of the protocol buffer files, as the structs the build generates
    from them: a message field is an [option], an enum field the number on the wire
    ([i32]), a [repeated] field a list, a [map] field a map, an [optional] field an
    [option].  Numbers have the width the protocol file gives them. *)
From S2P Require Import Prelude RustStr Collections Contract.

(** ** common/v1/discovery_types.proto *)

(** [google.protobuf.Timestamp]. *)
Record Timestamp : Type := {
  ts_seconds : N;
  ts_nanos : N;
}.

Record ResponseMetadata : Type := {
  rm_request_id : string;
  rm_trace_id : string;
  rm_server_time : option Timestamp;
  rm_revision : N;
}.

Record PbHealthCheckProbe : Type := {
  pp_kind : Z;
  pp_http_path : string;
  pp_http_expected_status : N;
  pp_grpc_service_name : string;
}.

Record PbHealthCheckConfig : Type := {
  ph_probe : option PbHealthCheckProbe;
  ph_interval_ms : N;
  ph_timeout_ms : N;
  ph_unhealthy_threshold : N;
  ph_healthy_threshold : N;
}.

Record PbServiceInstance : Type := {
  pi_namespace : string;
  pi_environment : string;
  pi_service_name : string;
  pi_instance_id : string;
  pi_endpoint : string;
  pi_protocol : string;
  pi_version : string;
  pi_region : string;
  pi_zone : string;
  pi_weight : N;
  pi_priority : N;
  pi_status : Z;
  pi_metadata : gmap string string;
  pi_lease_id : string;
  pi_expires_at : option Timestamp;
  pi_revision : N;
  pi_health_check : option PbHealthCheckConfig;
}.

Record PbServiceSummary : Type := {
  pu_namespace : string;
  pu_environment : string;
  pu_service_name : string;
  pu_active_instance_count : N;
  pu_latest_revision : N;
}.

Record PbConfigValue : Type := {
  pv_key : string;
  pv_value : string;
  pv_format : Z;
  pv_source_release_id : string;
  pv_source_specificity : N;
  pv_source_revision : N;
}.

Record PbConfigRelease : Type := {
  pr_release_id : string;
  pr_draft_id : string;
  pr_namespace : string;
  pr_environment : string;
  pr_group : string;
  pr_key : string;
  pr_format : Z;
  pr_value : string;
  pr_scope_type : Z;
  pr_application : string;
  pr_service_name : string;
  pr_content_hash : string;
  pr_published_by : string;
  pr_published_at : option Timestamp;
  pr_revision : N;
}.

Record PbLabelFilter : Type := {
  pf_key : string;
  pf_op : Z;
  pf_value : string;
}.

Record PbBatchOperationError : Type := {
  pe_index : N;
  pe_error_code : string;
  pe_error_message : string;
}.

Record PageRequest : Type := {
  pg_page_size : N;
  pg_page_token : string;
}.

Record PageResponse : Type := {
  pg_next_page_token : string;
}.

(** The numbers of the enums. *)
Definition INSTANCE_STATUS_SERVING : Z := 1.
Definition INSTANCE_STATUS_DEGRADED : Z := 2.
Definition INSTANCE_STATUS_NOT_SERVING : Z := 3.
Definition CONFIG_FORMAT_TEXT : Z := 1.
Definition CONFIG_FORMAT_JSON : Z := 2.
Definition CONFIG_FORMAT_TOML : Z := 3.
Definition CONFIG_SCOPE_TYPE_NAMESPACE : Z := 1.
Definition CONFIG_SCOPE_TYPE_APPLICATION : Z := 2.
Definition CONFIG_SCOPE_TYPE_SERVICE : Z := 3.
Definition HEALTH_CHECK_PROBE_KIND_TCP : Z := 1.
Definition HEALTH_CHECK_PROBE_KIND_HTTP : Z := 2.
Definition HEALTH_CHECK_PROBE_KIND_GRPC : Z := 3.
Definition WATCH_EVENT_TYPE_HEARTBEAT : Z := 8.

(** ** internal/v1/registry_service.proto *)

Record RegisterInstanceRequest : Type := {
  ri_namespace : string;
  ri_environment : string;
  ri_service_name : string;
  ri_instance_id : string;
  ri_endpoint : string;
  ri_protocol : string;
  ri_version : string;
  ri_region : string;
  ri_zone : string;
  ri_weight : N;
  ri_priority : N;
  ri_status : Z;
  ri_metadata : gmap string string;
  ri_lease_ttl_seconds : N;
  ri_expected_revision : option N;
  ri_persistent : bool;
  ri_health_check : option PbHealthCheckConfig;
}.

Record RegisterInstanceResponse : Type := {
  ro_lease_id : string;
  ro_expires_at : option Timestamp;
  ro_metadata : option ResponseMetadata;
}.

Record BatchRegisterInstancesResponse : Type := {
  bo_results : list RegisterInstanceResponse;
  bo_errors : list PbBatchOperationError;
  bo_metadata : option ResponseMetadata;
}.

Record RenewLeaseRequest : Type := {
  rl_lease_id : string;
  rl_lease_ttl_seconds : N;
}.

Record RenewLeaseResponse : Type := {
  lo_lease_id : string;
  lo_expires_at : option Timestamp;
  lo_metadata : option ResponseMetadata;
}.

(** [DeregisterInstanceRequest] and [RetrieveInstanceRequest]: four names. *)
Record InstanceRequest : Type := {
  ir_namespace : string;
  ir_environment : string;
  ir_service_name : string;
  ir_instance_id : string;
}.

Record ReportInstanceStatusRequest : Type := {
  rs_namespace : string;
  rs_environment : string;
  rs_service_name : string;
  rs_instance_id : string;
  rs_status : Z;
  rs_expected_revision : option N;
}.

Record RetrieveInstanceResponse : Type := {
  to_instance : option PbServiceInstance;
  to_metadata : option ResponseMetadata;
}.

Record DiscoverInstancesRequest : Type := {
  dreq_namespace : string;
  dreq_environment : string;
  dreq_service_name : string;
  dreq_healthy_only : bool;
  dreq_protocol : string;
  dreq_label_filters : list PbLabelFilter;
  dreq_sort_by : Z;
  dreq_page : option PageRequest;
}.

Record DiscoverInstancesResponse : Type := {
  do_instances : list PbServiceInstance;
  do_metadata : option ResponseMetadata;
  do_page : option PageResponse;
}.

Record WatchServiceRequest : Type := {
  wsr_namespace : string;
  wsr_environment : string;
  wsr_service_name : string;
  wsr_from_revision : N;
}.

Record WatchServiceResponse : Type := {
  wso_event_type : Z;
  wso_instance : option PbServiceInstance;
  wso_metadata : option ResponseMetadata;
}.

(** ** internal/v1/discovery_config_service.proto *)

Record RetrieveEffectiveConfigRequest : Type := {
  ereq_namespace : string;
  ereq_environment : string;
  ereq_application : string;
  ereq_service_name : string;
  ereq_group : string;
}.

Record RetrieveEffectiveConfigResponse : Type := {
  eo_values : list PbConfigValue;
  eo_metadata : option ResponseMetadata;
}.

Record WatchConfigRequest : Type := {
  wcr_namespace : string;
  wcr_environment : string;
  wcr_application : string;
  wcr_service_name : string;
  wcr_group : string;
  wcr_from_revision : N;
}.

Record WatchConfigResponse : Type := {
  wco_event_type : Z;
  wco_release_id : string;
  wco_group : string;
  wco_key : string;
  wco_metadata : option ResponseMetadata;
}.

(** ** backend/v3/discovery_admin_service.proto *)

Record CreateConfigDraftRequest : Type := {
  creq_namespace : string;
  creq_environment : string;
  creq_group : string;
  creq_key : string;
  creq_format : Z;
  creq_value : string;
  creq_scope_type : Z;
  creq_application : string;
  creq_service_name : string;
}.

Record CreateConfigDraftResponse : Type := {
  co_draft_id : string;
  co_content_hash : string;
  co_metadata : option ResponseMetadata;
}.

Record PublishConfigResponse : Type := {
  po_release_id : string;
  po_metadata : option ResponseMetadata;
}.

Record RollbackConfigResponse : Type := {
  bk_release : option PbConfigRelease;
  bk_metadata : option ResponseMetadata;
}.

Record ListServicesRequest : Type := {
  lreq_namespace : string;
  lreq_environment : string;
  lreq_page : option PageRequest;
}.

Record ListServicesResponse : Type := {
  lso_services : list PbServiceSummary;
  lso_metadata : option ResponseMetadata;
  lso_page : option PageResponse;
}.
