(* ===== verification/Codec.v ===== *)
(** * Wire codecs (rpc: codec.rs)

    The checks on request fields, the conversion of requests to commands and
    queries, and of results to responses. *)
From S2P Require Import Prelude RustStr Collections Contract Discover Proto.
From Stdlib Require Import Ascii.

(** ** Field checks *)

Definition MAX_IDENTITY_FIELD_LEN : N := 128.
Definition MAX_ENDPOINT_LEN : N := 512.
Definition MAX_SHORT_FIELD_LEN : N := 64.
Definition MAX_METADATA_ENTRIES : N := 64.
Definition MAX_METADATA_KEY_LEN : N := 128.
Definition MAX_METADATA_VALUE_LEN : N := 4096.
Definition MAX_LABEL_FILTERS : N := 32.

Definition is_ascii_alphanumeric (a : ascii) : bool :=
  let n := byte_at a in
  ((48 <=? n) && (n <=? 57)) || ((65 <=? n) && (n <=? 90)) || ((97 <=? n) && (n <=? 122)).

Definition is_identity_char (a : ascii) : bool :=
  is_ascii_alphanumeric a || (byte_at a =? 46) || (byte_at a =? 95) || (byte_at a =? 45).

Definition is_printable_ascii (a : ascii) : bool :=
  (32 <=? byte_at a) && (byte_at a <=? 126).

Definition is_control_char (a : ascii) : bool :=
  (byte_at a <? 32) || (byte_at a =? 127).

(** [value.bytes().find(..)]. *)
Fixpoint find_byte (f : ascii → bool) (s : string) : option ascii :=
  match s with
  | "" => None
  | String a s' => if f a then Some a else find_byte f s'
  end.

(** [{byte:02X}]. *)
Definition hex_digit (n : N) : string :=
  match String.get (N.to_nat n) "0123456789ABCDEF" with
  | Some a => String a ""
  | None => ""
  end.
Definition hex2 (a : ascii) : string :=
  hex_digit (byte_at a / 16) +:+ hex_digit (byte_at a mod 16).

Definition validate_required_field (field value : string) : DiscoveryResult () :=
  if is_blank value then Err (InvalidArgument (field +:+ " must not be empty")) else Ok ().

Definition at_most (what : string) (max : N) : DiscoveryError :=
  InvalidArgument (what +:+ " must be at most " +:+ show_N max +:+ " characters").

Definition invalid_char (what : string) (a : ascii) : DiscoveryError :=
  InvalidArgument (what +:+ " contains an invalid character (0x" +:+ hex2 a
    +:+ "); allowed set is [a-zA-Z0-9._-]").

Definition validate_identity_field (field value : string) : DiscoveryResult () :=
  validate_required_field field value;;
  if MAX_IDENTITY_FIELD_LEN <? len value then Err (at_most field MAX_IDENTITY_FIELD_LEN)
  else match find_byte (λ a, negb (is_identity_char a)) value with
       | Some byte => Err (invalid_char field byte)
       | None => Ok ()
       end.

Definition validate_endpoint_field (field value : string) : DiscoveryResult () :=
  validate_required_field field value;;
  if MAX_ENDPOINT_LEN <? len value then Err (at_most field MAX_ENDPOINT_LEN)
  else match find_byte (λ a, negb (is_printable_ascii a)) value with
       | Some byte => Err (InvalidArgument
           (field +:+ " contains a non-printable ASCII byte (0x" +:+ hex2 byte +:+ ")"))
       | None => Ok ()
       end.

Definition validate_short_text_field (field value : string) : DiscoveryResult () :=
  validate_required_field field value;;
  if MAX_SHORT_FIELD_LEN <? len value then Err (at_most field MAX_SHORT_FIELD_LEN)
  else match find_byte is_control_char value with
       | Some byte => Err (InvalidArgument
           (field +:+ " contains a control character (0x" +:+ hex2 byte +:+ ")"))
       | None => Ok ()
       end.

Definition validate_optional_short_text_field (field value : string) : DiscoveryResult () :=
  if negb (is_empty value) then validate_short_text_field field value else Ok ().

(** The body of the loop of [validate_metadata] for one entry. *)
Definition validate_metadata_entry (key value : string) : DiscoveryResult () :=
  if MAX_METADATA_KEY_LEN <? len key then Err (at_most "metadata key" MAX_METADATA_KEY_LEN)
  else match find_byte (λ a, negb (is_identity_char a)) key with
       | Some byte => Err (invalid_char "metadata key" byte)
       | None =>
           if MAX_METADATA_VALUE_LEN <? len value
           then Err (at_most ("metadata value for key '" +:+ key +:+ "'") MAX_METADATA_VALUE_LEN)
           else Ok ()
       end.

(** A loop that stops at the first error. *)
Fixpoint check_all {A} (f : A → DiscoveryResult ()) (l : list A) : DiscoveryResult () :=
  match l with
  | [] => Ok ()
  | x :: l => f x;; check_all f l
  end.

Definition validate_metadata `{HashOrder} (metadata : gmap string string) : DiscoveryResult () :=
  if MAX_METADATA_ENTRIES <? N.of_nat (size metadata)
  then Err (InvalidArgument ("metadata must contain at most " +:+ show_N MAX_METADATA_ENTRIES
              +:+ " entries"))
  else check_all (λ '(key, value), validate_metadata_entry key value) (hash_iter metadata).

Definition validate_label_filter (filter : LabelFilter) : DiscoveryResult () :=
  if MAX_IDENTITY_FIELD_LEN <? len (lf_key filter)
  then Err (at_most "label_filters key" MAX_IDENTITY_FIELD_LEN)
  else match find_byte (λ a, negb (is_identity_char a)) (lf_key filter) with
       | Some byte => Err (invalid_char "label_filters key" byte)
       | None =>
           if MAX_METADATA_VALUE_LEN <? len (lf_value filter)
           then Err (at_most "label_filters value" MAX_METADATA_VALUE_LEN)
           else Ok ()
       end.

Definition validate_label_filters (filters : list LabelFilter) : DiscoveryResult () :=
  if MAX_LABEL_FILTERS <? len_N filters
  then Err (InvalidArgument ("label_filters must contain at most " +:+ show_N MAX_LABEL_FILTERS
              +:+ " entries"))
  else check_all validate_label_filter filters.

(** ** Enums *)

Definition instance_status_from_proto (value : Z) : DiscoveryResult InstanceStatus :=
  if bool_decide (value = INSTANCE_STATUS_SERVING) then Ok Serving
  else if bool_decide (value = INSTANCE_STATUS_DEGRADED) then Ok Degraded
  else if bool_decide (value = INSTANCE_STATUS_NOT_SERVING) then Ok NotServing
  else if bool_decide (value = 0%Z)
  then Err (InvalidArgument "instance status must be specified")
  else Err (InvalidArgument "instance status is not recognized").

Definition instance_status_to_proto (status : InstanceStatus) : Z :=
  match status with
  | Serving => INSTANCE_STATUS_SERVING
  | Degraded => INSTANCE_STATUS_DEGRADED
  | NotServing => INSTANCE_STATUS_NOT_SERVING
  end.

Definition config_format_from_proto (value : Z) : DiscoveryResult ConfigFormat :=
  if bool_decide (value = CONFIG_FORMAT_TEXT) then Ok FormatText
  else if bool_decide (value = CONFIG_FORMAT_JSON) then Ok FormatJson
  else if bool_decide (value = CONFIG_FORMAT_TOML) then Ok FormatToml
  else if bool_decide (value = 0%Z)
  then Err (InvalidArgument "config format must be specified")
  else Err (InvalidArgument "config format is not recognized").

Definition config_format_to_proto (format : ConfigFormat) : Z :=
  match format with
  | FormatText => CONFIG_FORMAT_TEXT
  | FormatJson => CONFIG_FORMAT_JSON
  | FormatToml => CONFIG_FORMAT_TOML
  end.

Definition config_scope_from_proto (value : Z) (application service_name : string)
    : DiscoveryResult ConfigScope :=
  if bool_decide (value = CONFIG_SCOPE_TYPE_NAMESPACE) then Ok ScopeNamespace
  else if bool_decide (value = CONFIG_SCOPE_TYPE_APPLICATION) then
    if is_blank application
    then Err (InvalidArgument "application config scope requires application")
    else Ok (ScopeApplication application)
  else if bool_decide (value = CONFIG_SCOPE_TYPE_SERVICE) then
    if is_blank application || is_blank service_name
    then Err (InvalidArgument "service config scope requires application and service_name")
    else Ok (ScopeService application service_name)
  else if bool_decide (value = 0%Z)
  then Err (InvalidArgument "config scope type must be specified")
  else Err (InvalidArgument "config scope type is not recognized").

Definition config_scope_to_proto_fields (scope : ConfigScope) : Z * string * string :=
  match scope with
  | ScopeNamespace => (CONFIG_SCOPE_TYPE_NAMESPACE, "", "")
  | ScopeApplication application => (CONFIG_SCOPE_TYPE_APPLICATION, application, "")
  | ScopeService application service_name =>
      (CONFIG_SCOPE_TYPE_SERVICE, application, service_name)
  end.

Definition watch_event_type (event : DiscoveryEvent) : Z :=
  match de_kind event with
  | InstanceRegistered => 1
  | InstanceUpdated => 2
  | InstanceStatusReported => 3
  | InstanceRenewed => 4
  | InstanceDeregistered => 5
  | ConfigPublished => 6
  | ConfigRolledBack => 7
  end%Z.

(** ** Times *)

Definition i64_max : N := 9223372036854775807.

Definition timestamp_from_millis (milliseconds : N) : Timestamp :=
  {| ts_seconds := N.min (milliseconds / 1000) i64_max;
     ts_nanos := (milliseconds mod 1000) * 1000000 |}.

Definition empty_string_as_none (value : string) : option string :=
  if is_blank value then None else Some value.

(** [response_metadata]; [now] is the wall clock it reads. *)
Definition response_metadata (now revision : N) (request_id trace_id : string)
    : ResponseMetadata :=
  {| rm_request_id := request_id; rm_trace_id := trace_id;
     rm_server_time := Some (timestamp_from_millis now); rm_revision := revision |}.

(** ** Health checks *)

(** [as u16]. *)
Definition u16_modulus : N := 65536.

Definition health_check_probe_from_proto (probe : PbHealthCheckProbe)
    : DiscoveryResult HealthCheckProbe :=
  if bool_decide (pp_kind probe = HEALTH_CHECK_PROBE_KIND_TCP) then Ok ProbeTcp
  else if bool_decide (pp_kind probe = HEALTH_CHECK_PROBE_KIND_HTTP)
  then Ok (ProbeHttp (pp_http_path probe) (pp_http_expected_status probe mod u16_modulus))
  else if bool_decide (pp_kind probe = HEALTH_CHECK_PROBE_KIND_GRPC)
  then Ok (ProbeGrpc (pp_grpc_service_name probe))
  else Err (InvalidArgument "health_check.probe kind is required").

Definition health_check_from_proto (config : PbHealthCheckConfig)
    : DiscoveryResult HealthCheckConfig :=
  match ph_probe config with
  | None => Err (InvalidArgument "health_check.probe is required")
  | Some probe =>
      probe ← health_check_probe_from_proto probe;
      mret {| hc_probe := probe; hc_interval_ms := ph_interval_ms config;
              hc_timeout_ms := ph_timeout_ms config;
              hc_unhealthy_threshold := ph_unhealthy_threshold config;
              hc_healthy_threshold := ph_healthy_threshold config |}
  end.

Definition health_check_to_proto (config : HealthCheckConfig) : PbHealthCheckConfig :=
  {| ph_probe := Some
       match hc_probe config with
       | ProbeTcp =>
           {| pp_kind := HEALTH_CHECK_PROBE_KIND_TCP; pp_http_path := "";
              pp_http_expected_status := 0; pp_grpc_service_name := "" |}
       | ProbeHttp path expected_status =>
           {| pp_kind := HEALTH_CHECK_PROBE_KIND_HTTP; pp_http_path := path;
              pp_http_expected_status := expected_status; pp_grpc_service_name := "" |}
       | ProbeGrpc service_name =>
           {| pp_kind := HEALTH_CHECK_PROBE_KIND_GRPC; pp_http_path := "";
              pp_http_expected_status := 0; pp_grpc_service_name := service_name |}
       end;
     ph_interval_ms := hc_interval_ms config; ph_timeout_ms := hc_timeout_ms config;
     ph_unhealthy_threshold := hc_unhealthy_threshold config;
     ph_healthy_threshold := hc_healthy_threshold config |}.

(** [Option::map(f).transpose()?]. *)
Definition transpose {A B} (f : A → DiscoveryResult B) (o : option A)
    : DiscoveryResult (option B) :=
  match o with
  | None => Ok None
  | Some a => b ← f a; mret (Some b)
  end.

(** [map(f).collect::<Result<Vec<_>, _>>()]. *)
Fixpoint collect {A B} (f : A → DiscoveryResult B) (l : list A) : DiscoveryResult (list B) :=
  match l with
  | [] => Ok []
  | a :: l => b ← f a; bs ← collect f l; mret (b :: bs)
  end.

(** ** Requests *)

Definition ttl_required (lease_ttl_seconds : N) : DiscoveryResult () :=
  if lease_ttl_seconds =? 0
  then Err (InvalidArgument "lease_ttl_seconds must be greater than zero") else Ok ().

Definition register_instance_command `{HashOrder} (request : RegisterInstanceRequest) (now_ms : N)
    : DiscoveryResult RegisterInstanceCommand :=
  validate_identity_field "namespace" (ri_namespace request);;
  validate_identity_field "environment" (ri_environment request);;
  validate_identity_field "service_name" (ri_service_name request);;
  validate_identity_field "instance_id" (ri_instance_id request);;
  validate_endpoint_field "endpoint" (ri_endpoint request);;
  validate_short_text_field "protocol" (ri_protocol request);;
  validate_short_text_field "version" (ri_version request);;
  validate_short_text_field "region" (ri_region request);;
  validate_short_text_field "zone" (ri_zone request);;
  validate_metadata (ri_metadata request);;
  ttl_required (ri_lease_ttl_seconds request);;
  status ← instance_status_from_proto (ri_status request);
  health_check ← transpose health_check_from_proto (ri_health_check request);
  mret {| rc_namespace := ri_namespace request; rc_environment := ri_environment request;
          rc_service_name := ri_service_name request; rc_instance_id := ri_instance_id request;
          rc_endpoint := ri_endpoint request; rc_protocol := ri_protocol request;
          rc_version := ri_version request; rc_region := ri_region request;
          rc_zone := ri_zone request; rc_weight := ri_weight request;
          rc_priority := ri_priority request; rc_status := status;
          rc_metadata := ri_metadata request;
          rc_lease_ttl_seconds := ri_lease_ttl_seconds request; rc_now_ms := now_ms;
          rc_expected_revision := ri_expected_revision request;
          rc_persistent := ri_persistent request; rc_health_check := health_check |}.

Definition batch_register_instances_commands `{HashOrder}
    (instances : list RegisterInstanceRequest) (now_ms : N)
    : DiscoveryResult (list RegisterInstanceCommand) :=
  collect (λ instance, register_instance_command instance now_ms) instances.

Definition renew_lease_command (request : RenewLeaseRequest) (now_ms : N)
    : DiscoveryResult RenewLeaseCommand :=
  validate_identity_field "lease_id" (rl_lease_id request);;
  ttl_required (rl_lease_ttl_seconds request);;
  mret {| lc_lease_id := rl_lease_id request;
          lc_lease_ttl_seconds := rl_lease_ttl_seconds request; lc_now_ms := now_ms |}.

Definition validate_instance_names (namespace environment service_name instance_id : string)
    : DiscoveryResult () :=
  validate_identity_field "namespace" namespace;;
  validate_identity_field "environment" environment;;
  validate_identity_field "service_name" service_name;;
  validate_identity_field "instance_id" instance_id.

Definition report_status_command (request : ReportInstanceStatusRequest) (now_ms : N)
    : DiscoveryResult ReportInstanceStatusCommand :=
  validate_instance_names (rs_namespace request) (rs_environment request)
    (rs_service_name request) (rs_instance_id request);;
  status ← instance_status_from_proto (rs_status request);
  mret {| sc_namespace := rs_namespace request; sc_environment := rs_environment request;
          sc_service_name := rs_service_name request; sc_instance_id := rs_instance_id request;
          sc_status := status; sc_now_ms := now_ms;
          sc_expected_revision := rs_expected_revision request |}.

Definition deregister_instance_request (request : InstanceRequest)
    : DiscoveryResult InstanceRequest :=
  validate_instance_names (ir_namespace request) (ir_environment request)
    (ir_service_name request) (ir_instance_id request);;
  mret request.

Definition label_filter_from_proto (filter : PbLabelFilter) : LabelFilter :=
  {| lf_key := pf_key filter;
     lf_op := match pf_op filter with
              | 1 => LabelEq
              | 2 => LabelNotEq
              | 3 => LabelIn
              | 4 => LabelExists
              | _ => LabelEq
              end%Z;
     lf_value := pf_value filter |}.

Definition sort_by_from_proto (sort_by : Z) : option DiscoverSortBy :=
  match sort_by with
  | 1 => Some ByInstanceId
  | 2 => Some ByPriority
  | 3 => Some ByWeight
  | 4 => Some WeightedRandom
  | _ => None
  end%Z.

(** [if page_token.is_empty() { None } else { Some(page_token) }]. *)
Definition token_of (page_token : string) : option string :=
  if is_empty page_token then None else Some page_token.

(** [PageRequest::default]. *)
Definition default_page : PageRequest := {| pg_page_size := 0; pg_page_token := "" |}.

Definition discover_instances_query (request : DiscoverInstancesRequest)
    : DiscoveryResult DiscoverInstancesQuery :=
  validate_identity_field "namespace" (dreq_namespace request);;
  validate_identity_field "environment" (dreq_environment request);;
  validate_identity_field "service_name" (dreq_service_name request);;
  validate_optional_short_text_field "protocol" (dreq_protocol request);;
  let label_filters := label_filter_from_proto <$> dreq_label_filters request in
  validate_label_filters label_filters;;
  let sort_by := sort_by_from_proto (dreq_sort_by request) in
  (if bool_decide (sort_by = Some WeightedRandom)
      && match dreq_page request with
         | Some page => negb (is_empty (pg_page_token page))
         | None => false
         end
   then Err (InvalidArgument
               "page_token is not supported with weighted-random discovery sorting")
   else Ok ());;
  let page := default default_page (dreq_page request) in
  mret {| dq_namespace := dreq_namespace request; dq_environment := dreq_environment request;
          dq_service_name := dreq_service_name request;
          dq_healthy_only := dreq_healthy_only request;
          dq_protocol := empty_string_as_none (dreq_protocol request);
          dq_label_filters := label_filters; dq_sort_by := sort_by;
          dq_page_size := pg_page_size page;
          dq_page_token := normalize_page_token (token_of (pg_page_token page)) |}.

Definition retrieve_instance_query (request : InstanceRequest)
    : DiscoveryResult RetrieveInstanceQuery :=
  validate_instance_names (ir_namespace request) (ir_environment request)
    (ir_service_name request) (ir_instance_id request);;
  mret {| rq_namespace := ir_namespace request; rq_environment := ir_environment request;
          rq_service_name := ir_service_name request;
          rq_instance_id := ir_instance_id request |}.

Definition retrieve_effective_config_query (request : RetrieveEffectiveConfigRequest)
    : DiscoveryResult RetrieveEffectiveConfigQuery :=
  validate_identity_field "namespace" (ereq_namespace request);;
  validate_identity_field "environment" (ereq_environment request);;
  validate_identity_field "application" (ereq_application request);;
  validate_identity_field "service_name" (ereq_service_name request);;
  validate_identity_field "group" (ereq_group request);;
  mret {| ecq_namespace := ereq_namespace request; ecq_environment := ereq_environment request;
          ecq_application := ereq_application request;
          ecq_service_name := ereq_service_name request; ecq_group := ereq_group request |}.

Definition create_config_draft_command (request : CreateConfigDraftRequest) (created_by : string)
    (idempotency : IdempotencyContext) : DiscoveryResult CreateConfigDraftCommand :=
  validate_identity_field "namespace" (creq_namespace request);;
  validate_identity_field "environment" (creq_environment request);;
  validate_identity_field "group" (creq_group request);;
  validate_identity_field "key" (creq_key request);;
  format ← config_format_from_proto (creq_format request);
  scope ← config_scope_from_proto (creq_scope_type request) (creq_application request)
            (creq_service_name request);
  mret {| cc_namespace := creq_namespace request; cc_environment := creq_environment request;
          cc_group := creq_group request; cc_key := creq_key request; cc_format := format;
          cc_value := creq_value request; cc_scope := scope; cc_created_by := created_by;
          cc_idempotency := Some idempotency |}.

Definition publish_config_command (draft_id published_by : string) (now_ms : N)
    (idempotency : IdempotencyContext) : DiscoveryResult PublishConfigCommand :=
  validate_identity_field "draft_id" draft_id;;
  mret {| pc_draft_id := draft_id; pc_published_by := published_by; pc_now_ms := now_ms;
          pc_idempotency := Some idempotency |}.

Definition rollback_config_command (source_release_id rolled_back_by : string) (now_ms : N)
    (idempotency : IdempotencyContext) : DiscoveryResult RollbackConfigCommand :=
  validate_identity_field "source_release_id" source_release_id;;
  mret {| rb_source_release_id := source_release_id; rb_rolled_back_by := rolled_back_by;
          rb_now_ms := now_ms; rb_idempotency := Some idempotency |}.

Definition list_services_query (request : ListServicesRequest)
    : DiscoveryResult ListServicesQuery :=
  validate_identity_field "namespace" (lreq_namespace request);;
  validate_identity_field "environment" (lreq_environment request);;
  mret {| lq_namespace := lreq_namespace request; lq_environment := lreq_environment request;
          lq_page_size := match lreq_page request with
                          | Some page => pg_page_size page
                          | None => 0
                          end;
          lq_page_token := normalize_page_token
            (page ← lreq_page request; token_of (pg_page_token page)) |}.

(** ** Responses

    [now] is the wall clock [response_metadata] reads. *)

Section responses.
Context (now : N) (request_id trace_id : string).

Abbreviation metadata revision := (Some (response_metadata now revision request_id trace_id)).

Definition register_instance_response (result : RegisterInstanceResult)
    : RegisterInstanceResponse :=
  {| ro_lease_id := rr_lease_id result;
     ro_expires_at := Some (timestamp_from_millis (rr_expires_at_ms result));
     ro_metadata := metadata (rr_revision result) |}.

(** [error.index as u32]. *)
Definition batch_error_to_proto (error : BatchOperationError) : PbBatchOperationError :=
  {| pe_index := be_index error mod u32_modulus; pe_error_code := be_error_code error;
     pe_error_message := be_error_message error |}.

Definition batch_register_instances_response (result : BatchRegisterResult)
    : BatchRegisterInstancesResponse :=
  let revision := match last (br_results result) with
                  | Some register_result => rr_revision register_result
                  | None => 0
                  end in
  {| bo_results := (λ r, {| ro_lease_id := rr_lease_id r;
                            ro_expires_at := Some (timestamp_from_millis (rr_expires_at_ms r));
                            ro_metadata := None |}) <$> br_results result;
     bo_errors := batch_error_to_proto <$> br_errors result;
     bo_metadata := metadata revision |}.

Definition renew_lease_response (result : RenewLeaseResult) : RenewLeaseResponse :=
  {| lo_lease_id := lr_lease_id result;
     lo_expires_at := Some (timestamp_from_millis (lr_expires_at_ms result));
     lo_metadata := metadata (lr_revision result) |}.

(** The only field of the answer to a status report. *)
Definition report_status_response (result : ReportInstanceStatusResult)
    : option ResponseMetadata := metadata (sr_revision result).

Definition service_instance_to_proto (instance : ServiceInstance) : PbServiceInstance :=
  {| pi_namespace := si_namespace instance; pi_environment := si_environment instance;
     pi_service_name := si_service_name instance; pi_instance_id := si_instance_id instance;
     pi_endpoint := si_endpoint instance; pi_protocol := si_protocol instance;
     pi_version := si_version instance; pi_region := si_region instance;
     pi_zone := si_zone instance; pi_weight := si_weight instance;
     pi_priority := si_priority instance;
     pi_status := instance_status_to_proto (si_status instance);
     pi_metadata := si_metadata instance; pi_lease_id := si_lease_id instance;
     pi_expires_at := Some (timestamp_from_millis (si_expires_at_ms instance));
     pi_revision := si_revision instance;
     pi_health_check := health_check_to_proto <$> si_health_check instance |}.

Definition discover_instances_response (result : DiscoverInstancesResult)
    : DiscoverInstancesResponse :=
  {| do_instances := service_instance_to_proto <$> di_instances result;
     do_metadata := metadata (di_revision result);
     do_page := Some {| pg_next_page_token := default "" (di_next_page_token result) |} |}.

Definition retrieve_instance_response (instance : ServiceInstance) : RetrieveInstanceResponse :=
  {| to_instance := Some (service_instance_to_proto instance);
     to_metadata := metadata (si_revision instance) |}.

(** The values of a [BTreeMap] in ascending key order. *)
Definition effective_values_to_proto (values : gmap string EffectiveConfigValue)
    : list PbConfigValue :=
  (λ '(key, value),
     {| pv_key := key; pv_value := ev_value value;
        pv_format := config_format_to_proto (ev_format value);
        pv_source_release_id := ev_source_release_id value;
        pv_source_specificity := ev_source_specificity value;
        pv_source_revision := ev_source_revision value |}) <$> btree_iter values.

Definition retrieve_effective_config_response (result : EffectiveConfig)
    : RetrieveEffectiveConfigResponse :=
  {| eo_values := effective_values_to_proto (ec_values result);
     eo_metadata := metadata (ec_revision result) |}.

Definition create_config_draft_response (draft_id content_hash : string)
    : CreateConfigDraftResponse :=
  {| co_draft_id := draft_id; co_content_hash := content_hash; co_metadata := metadata 0 |}.

Definition publish_config_response (release : ConfigRelease) : PublishConfigResponse :=
  {| po_release_id := cr_release_id release; po_metadata := metadata (cr_revision release) |}.

Definition config_release_to_proto (release : ConfigRelease) : PbConfigRelease :=
  let '(scope_type, application, service_name) :=
    config_scope_to_proto_fields (cr_scope release) in
  {| pr_release_id := cr_release_id release; pr_draft_id := cr_draft_id release;
     pr_namespace := cr_namespace release; pr_environment := cr_environment release;
     pr_group := cr_group release; pr_key := cr_key release;
     pr_format := config_format_to_proto (cr_format release); pr_value := cr_value release;
     pr_scope_type := scope_type; pr_application := application;
     pr_service_name := service_name; pr_content_hash := cr_content_hash release;
     pr_published_by := cr_published_by release;
     pr_published_at := Some (timestamp_from_millis (cr_published_at_ms release));
     pr_revision := cr_revision release |}.

Definition rollback_config_response (release : ConfigRelease) : RollbackConfigResponse :=
  {| bk_release := Some (config_release_to_proto release);
     bk_metadata := metadata (cr_revision release) |}.

Definition service_summary_to_proto (summary : ServiceSummary) : PbServiceSummary :=
  {| pu_namespace := ss_namespace summary; pu_environment := ss_environment summary;
     pu_service_name := ss_service_name summary;
     pu_active_instance_count := ss_active_instance_count summary;
     pu_latest_revision := ss_latest_revision summary |}.

Definition list_services_response (result : ListServicesResult) : ListServicesResponse :=
  {| lso_services := service_summary_to_proto <$> ls_services result;
     lso_metadata := metadata (ls_revision result);
     lso_page := Some {| pg_next_page_token := default "" (ls_next_page_token result) |} |}.
End responses.
