(* ===== verification/RpcContext.v ===== *)
(** * Callers of the RPC surface (rpc: service_token.rs, context.rs)

    Verification of service tokens, and how a caller context, a request id, a
    trace id and an idempotency context are taken from the request metadata. *)
From S2P Require Import Prelude RustStr Collections Contract.
From Stdlib Require Import Ascii.

(** ** External code

    The packages [sdkwork_utils_rust] (base64url, HMAC, digest), [serde_json] and
    [tonic] ([to_str] of a metadata value). *)

Record ServiceTokenHeader : Type := {
  th_alg : string;
  th_typ : string;
}.

Record ServiceTokenClaims : Type := {
  tc_issuer : string;
  tc_audience : string;
  tc_subject_id : string;
  tc_tenant_id : option string;
  tc_organization_id : option string;
  tc_iat_ms : N;
  tc_exp_ms : N;
  tc_access_token_sha256 : string;
  tc_registry_permissions : list string;
  tc_config_permissions : list string;
}.

Class RpcExternals : Type := {
  base64url_decode : string → option string;
  verify_hmac_sha256_base64url : string → string → string → bool;
  sha256_hash : string → string;
  header_from_slice : string → option ServiceTokenHeader;
  claims_from_slice : string → option ServiceTokenClaims;
  value_to_str : string → option string;
}.

(** ** Service tokens (service_token.rs) *)

Definition TOKEN_PREFIX : string := "sdkwork-discovery-v1".
Definition TOKEN_HEADER_TYPE : string := "sdkwork.discovery.service-token.v1".
Definition TOKEN_ALGORITHM : string := "HS256".
Definition MIN_HMAC_SECRET_BYTES : N := 32.

Record ServiceTokenVerifier : Type := {
  hmac_secret : string;
  vc_issuer : string;
  vc_audience : string;
  max_token_ttl_seconds : N;
}.

Definition validate_config (v : ServiceTokenVerifier) : DiscoveryResult () :=
  if len (hmac_secret v) <? MIN_HMAC_SECRET_BYTES
  then Err (InvalidConfig "service-token HMAC secret must contain at least 32 bytes")
  else if is_blank (vc_issuer v)
  then Err (InvalidConfig "service-token issuer must not be empty")
  else if is_blank (vc_audience v)
  then Err (InvalidConfig "service-token audience must not be empty")
  else if max_token_ttl_seconds v =? 0
  then Err (InvalidConfig "service-token max ttl must be greater than zero")
  else Ok ().

Record ParsedServiceToken : Type := {
  pt_header : string;
  pt_claims : string;
  pt_signature : string;
  pt_signing_input : string;
}.

(** [ParsedServiceToken::parse]. *)
Definition parse (token : string) : DiscoveryResult ParsedServiceToken :=
  match split "." token with
  | [p0; p1; p2; p3] =>
      if negb (bool_decide (p0 = TOKEN_PREFIX))
      then Err (Unauthenticated
                  "authorization bearer token is not an SDKWork Discovery service-token")
      else if is_empty p1 || is_empty p2 || is_empty p3
      then Err (Unauthenticated "service-token must include header, claims, and signature")
      else Ok {| pt_header := p1; pt_claims := p2; pt_signature := p3;
                 pt_signing_input := p1 +:+ "." +:+ p2 |}
  | _ => Err (Unauthenticated
                "authorization bearer token is not an SDKWork Discovery service-token")
  end.

Definition validate_header (header : ServiceTokenHeader) : DiscoveryResult () :=
  if negb (bool_decide (th_alg header = TOKEN_ALGORITHM))
  then Err (Unauthenticated "service-token algorithm is not supported")
  else if negb (bool_decide (th_typ header = TOKEN_HEADER_TYPE))
  then Err (Unauthenticated "service-token type is not supported")
  else Ok ().

(** [parse_registry_permission] and [parse_config_permission] of service_token.rs
    and of context.rs, which differ in the error. *)
Definition registry_permission_of (error : string → DiscoveryError) (value : string)
    : DiscoveryResult RegistryPermission :=
  if bool_decide (value = "read") then Ok RegistryRead
  else if bool_decide (value = "write") then Ok RegistryWrite
  else if bool_decide (value = "admin") then Ok RegistryAdmin
  else Err (error value).

Definition config_permission_of (error : string → DiscoveryError) (value : string)
    : DiscoveryResult ConfigPermission :=
  if bool_decide (value = "read") then Ok ConfigRead
  else if bool_decide (value = "write") then Ok ConfigWrite
  else if bool_decide (value = "publish") then Ok ConfigPublish
  else if bool_decide (value = "rollback") then Ok ConfigRollback
  else if bool_decide (value = "admin") then Ok ConfigAdmin
  else Err (error value).

(** The [for] loops that add permissions one by one. *)
Fixpoint add_registry_permissions (error : string → DiscoveryError) (values : list string)
    (caller : CallerContext) : DiscoveryResult CallerContext :=
  match values with
  | [] => Ok caller
  | v :: values =>
      p ← registry_permission_of error v;
      add_registry_permissions error values (with_registry_permission caller p)
  end.

Fixpoint add_config_permissions (error : string → DiscoveryError) (values : list string)
    (caller : CallerContext) : DiscoveryResult CallerContext :=
  match values with
  | [] => Ok caller
  | v :: values =>
      p ← config_permission_of error v;
      add_config_permissions error values (with_config_permission caller p)
  end.

Definition add_tenant (t : option string) (caller : CallerContext) : CallerContext :=
  match t with Some t => with_tenant_id caller t | None => caller end.
Definition add_organization (o : option string) (caller : CallerContext) : CallerContext :=
  match o with Some o => with_organization_id caller o | None => caller end.

Definition caller_from_claims (claims : ServiceTokenClaims) : DiscoveryResult CallerContext :=
  let caller := new_caller (trim (tc_subject_id claims)) in
  let caller := add_tenant (tc_tenant_id claims) caller in
  let caller := add_organization (tc_organization_id claims) caller in
  caller ← add_registry_permissions
             (λ v, Unauthenticated ("service-token contains unknown registry permission " +:+ v))
             (tc_registry_permissions claims) caller;
  add_config_permissions
    (λ v, Unauthenticated ("service-token contains unknown config permission " +:+ v))
    (tc_config_permissions claims) caller.

Section verifier.
Context `{RpcExternals}.
(** The system clock in milliseconds since the epoch, if it is not before it. *)
Context (clock : option N).

Definition current_time_millis : DiscoveryResult N :=
  match clock with
  | Some ms => Ok (ms mod u64_modulus)
  | None => Err (InvalidConfig "system clock is before UNIX_EPOCH")
  end.

Definition verify_signature (v : ServiceTokenVerifier) (token : ParsedServiceToken)
    : DiscoveryResult () :=
  signature ← ok_or (base64url_decode (pt_signature token))
                (Unauthenticated "service-token signature is not base64url");
  if negb (verify_hmac_sha256_base64url (pt_signing_input token) (hmac_secret v) signature)
  then Err (Unauthenticated "service-token signature is invalid") else Ok ().

Definition decode_json_part {T} (from_slice : string → option T) (label value : string)
    : DiscoveryResult T :=
  bytes ← ok_or (base64url_decode value) (Unauthenticated (label +:+ " is not base64url"));
  ok_or (from_slice bytes) (Unauthenticated (label +:+ " is not valid JSON")).

Definition validate_claims (v : ServiceTokenVerifier) (claims : ServiceTokenClaims)
    (access_token : string) : DiscoveryResult () :=
  if negb (bool_decide (tc_issuer claims = vc_issuer v))
  then Err (Unauthenticated "service-token issuer is invalid")
  else if negb (bool_decide (tc_audience claims = vc_audience v))
  then Err (Unauthenticated "service-token audience is invalid")
  else if is_blank (tc_subject_id claims)
  then Err (Unauthenticated "service-token subject must not be empty")
  else if is_empty (default "" (trim <$> tc_tenant_id claims))
  then Err (Unauthenticated "service-token must carry a tenant_id claim")
  else
    now ← current_time_millis;
    if tc_exp_ms claims <=? now then Err (Unauthenticated "service-token is expired")
    else if tc_exp_ms claims <=? tc_iat_ms claims
    then Err (Unauthenticated "service-token expiry must be after issue time")
    else
      let ttl_ms := tc_exp_ms claims - tc_iat_ms claims in
      max_ttl_ms ← ok_or (checked_mul (max_token_ttl_seconds v) 1000)
                     (InvalidConfig "service-token max ttl overflows milliseconds");
      if max_ttl_ms <? ttl_ms
      then Err (Unauthenticated "service-token ttl exceeds configured maximum")
      else if negb (bool_decide (tc_access_token_sha256 claims
                                 = sha256_hash (trim access_token)))
      then Err (Unauthenticated "access-token is not bound to service-token")
      else Ok ().

Definition verify (v : ServiceTokenVerifier) (service_token access_token : string)
    : DiscoveryResult CallerContext :=
  validate_config v;;
  token ← parse service_token;
  verify_signature v token;;
  header ← decode_json_part header_from_slice "service token header" (pt_header token);
  claims ← decode_json_part claims_from_slice "service token claims" (pt_claims token);
  validate_header header;;
  validate_claims v claims access_token;;
  caller_from_claims claims.

(** ** Request metadata (context.rs) *)

(** [MetadataMap] of [tonic], seen through [get]: the first value of each key. *)
Abbreviation MetadataMap := (gmap string string).

Record RpcContextPolicy : Type := {
  allow_unsigned_local_context : bool;
  service_token_verifier : option ServiceTokenVerifier;
}.

Definition optional_metadata_value (metadata : MetadataMap) (key : string)
    : DiscoveryResult (option string) :=
  match metadata !! key with
  | None => Ok None
  | Some value =>
      match value_to_str value with
      | Some s => Ok (Some s)
      | None => Err (InvalidArgument ("metadata " +:+ key +:+ " must be visible ASCII"))
      end
  end.

Definition has (metadata : MetadataMap) (key : string) : bool :=
  bool_decide (is_Some (metadata !! key)).

Definition has_unsigned_context_metadata (metadata : MetadataMap) : bool :=
  has metadata "x-sdkwork-subject-id" || has metadata "x-sdkwork-registry-permissions"
  || has metadata "x-sdkwork-config-permissions".

Definition split_permissions (value : option string) : list string :=
  retain (λ v, negb (is_empty v)) (trim <$> split "," (default "" value)).

Definition caller_from_validated_metadata (metadata : MetadataMap)
    : DiscoveryResult CallerContext :=
  subject ← optional_metadata_value metadata "x-sdkwork-subject-id";
  let subject_id := default "" (trim <$> subject) in
  if is_empty subject_id
  then Err (Unauthenticated "missing required RPC metadata: x-sdkwork-subject-id")
  else
    let caller := new_caller subject_id in
    tenant ← optional_metadata_value metadata "x-sdkwork-tenant-id";
    let caller := add_tenant tenant caller in
    organization ← optional_metadata_value metadata "x-sdkwork-organization-id";
    let caller := add_organization organization caller in
    registry ← optional_metadata_value metadata "x-sdkwork-registry-permissions";
    caller ← add_registry_permissions
               (λ v, InvalidArgument ("unknown registry permission " +:+ v))
               (split_permissions registry) caller;
    config ← optional_metadata_value metadata "x-sdkwork-config-permissions";
    add_config_permissions (λ v, InvalidArgument ("unknown config permission " +:+ v))
      (split_permissions config) caller.

Record AuthenticatedMetadata : Type := {
  am_bearer_token : string;
  am_access_token : string;
}.

Definition bearer_token (value : string) : option string :=
  token ← strip_prefix value "Bearer ";
  let token := trim token in
  if is_empty token then None else Some token.

Definition authenticated_metadata (metadata : MetadataMap)
    : DiscoveryResult AuthenticatedMetadata :=
  authorization ← optional_metadata_value metadata "authorization";
  access_token ← optional_metadata_value metadata "access-token";
  bearer ← match trim <$> authorization with
           | Some value =>
               match bearer_token value with
               | Some token => Ok (Some token)
               | None => Err (Unauthenticated
                                "authorization metadata must use Bearer token format")
               end
           | None => Ok None
           end;
  let access_token :=
    a ← access_token; if is_empty (trim a) then None else Some (trim a) in
  match bearer, access_token with
  | Some b, Some a => Ok {| am_bearer_token := b; am_access_token := a |}
  | b, a =>
      Err (Unauthenticated ("missing required RPC metadata: "
        +:+ join ", " ((if bool_decide (is_Some b) then [] else ["authorization"])
                       ++ (if bool_decide (is_Some a) then [] else ["access-token"]))))
  end.

Definition validate_required_idempotency_metadata (metadata : MetadataMap)
    : DiscoveryResult () :=
  idempotency_key ← optional_metadata_value metadata "idempotency-key";
  request_hash ← optional_metadata_value metadata "x-request-hash";
  let missing :=
    (if is_empty (default "" (trim <$> idempotency_key)) then ["idempotency-key"] else [])
    ++ (if is_empty (default "" (trim <$> request_hash)) then ["x-request-hash"] else []) in
  match missing with
  | [] => Ok ()
  | _ => Err (InvalidArgument ("missing required RPC idempotency metadata: "
                               +:+ join ", " missing))
  end.

Definition unsigned_not_accepted : DiscoveryError :=
  Unauthenticated
    "unsigned context metadata is not accepted with verified service-token authentication".

Definition unsigned_disabled : DiscoveryError :=
  Unauthenticated
    "unsigned local context is disabled; a verified service-token context resolver is required".

Definition validate_unsigned_local_context_policy (policy : RpcContextPolicy)
    : DiscoveryResult () :=
  if allow_unsigned_local_context policy then Ok () else Err unsigned_disabled.

Definition caller_from_authenticated_metadata (metadata : MetadataMap)
    (policy : RpcContextPolicy) (authenticated : AuthenticatedMetadata)
    : DiscoveryResult CallerContext :=
  let has_unsigned := has_unsigned_context_metadata metadata in
  match service_token_verifier policy with
  | Some verifier =>
      if has_unsigned then Err unsigned_not_accepted
      else verify verifier (am_bearer_token authenticated) (am_access_token authenticated)
  | None =>
      if negb (allow_unsigned_local_context policy) then Err unsigned_disabled
      else
        validate_unsigned_local_context_policy policy;;
        caller_from_validated_metadata metadata
  end.

Definition caller_from_metadata (metadata : MetadataMap) (policy : RpcContextPolicy)
    : DiscoveryResult CallerContext :=
  if allow_unsigned_local_context policy && has_unsigned_context_metadata metadata then
    if bool_decide (is_Some (service_token_verifier policy)) then Err unsigned_not_accepted
    else caller_from_validated_metadata metadata
  else
    authenticated ← authenticated_metadata metadata;
    caller_from_authenticated_metadata metadata policy authenticated.

Definition caller_from_metadata_with_required_idempotency (metadata : MetadataMap)
    (policy : RpcContextPolicy) : DiscoveryResult CallerContext :=
  if allow_unsigned_local_context policy && has_unsigned_context_metadata metadata then
    if bool_decide (is_Some (service_token_verifier policy)) then Err unsigned_not_accepted
    else
      validate_required_idempotency_metadata metadata;;
      caller_from_validated_metadata metadata
  else
    authenticated ← authenticated_metadata metadata;
    validate_required_idempotency_metadata metadata;;
    caller_from_authenticated_metadata metadata policy authenticated.

Definition registry_reader_from_metadata (metadata : MetadataMap) (policy : RpcContextPolicy)
    : DiscoveryResult CallerContext :=
  caller ← caller_from_metadata metadata policy;
  if has_registry_permission caller RegistryRead then Ok caller
  else Err (PermissionDenied ("subject " +:+ subject_id caller
                              +:+ " lacks registry permission")).

Definition config_reader_from_metadata (metadata : MetadataMap) (policy : RpcContextPolicy)
    : DiscoveryResult CallerContext :=
  caller ← caller_from_metadata metadata policy;
  if has_config_permission caller ConfigRead then Ok caller
  else Err (PermissionDenied ("subject " +:+ subject_id caller
                              +:+ " lacks config permission")).

Definition validate_request_id (value : string) : DiscoveryResult () :=
  if 128 <? len value
  then Err (InvalidArgument "x-request-id must be at most 128 characters") else Ok ().

(** [generated] is a fresh version 7 UUID. *)
Definition request_id_from_metadata (generated : string) (metadata : MetadataMap)
    : DiscoveryResult string :=
  request_id ← optional_metadata_value metadata "x-request-id";
  match request_id with
  | Some request_id =>
      let trimmed := trim request_id in
      if negb (is_empty trimmed) then validate_request_id trimmed;; mret trimmed
      else mret ("req_" +:+ generated)
  | None => mret ("req_" +:+ generated)
  end.

Definition parse_trace_id_from_traceparent (traceparent : string) : option string :=
  let trimmed := trim traceparent in
  if is_empty trimmed then None
  else match split "-" trimmed with
       | _version :: trace_id :: _ =>
           if negb (len trace_id =? 32) || negb (all_bytes is_ascii_hexdigit trace_id)
           then None else Some (to_ascii_lowercase trace_id)
       | _ => None
       end.

Definition trace_id_from_metadata (metadata : MetadataMap) : DiscoveryResult string :=
  traceparent ← optional_metadata_value metadata "traceparent";
  mret (default "" (parse_trace_id_from_traceparent (default "" traceparent))).

Definition idempotency_from_metadata (metadata : MetadataMap) (operation_id : string)
    : DiscoveryResult IdempotencyContext :=
  key ← optional_metadata_value metadata "idempotency-key";
  request_hash ← optional_metadata_value metadata "x-request-hash";
  mret {| ic_operation_id := operation_id; ic_key := default "" (trim <$> key);
          ic_request_hash := default "" (trim <$> request_hash) |}.
End verifier.
