(* ===== verification/Actor.v ===== *)
(** * The runtime actor (rpc: actor.rs, watch.rs, health.rs, health_probes.rs, error.rs)

    One actor owns the control plane and handles one command at a time: it gates
    the command, runs it, records the outcome, mirrors the health, and publishes
    the events of the revision the command took.  Timers run the expiry scan, the
    event trimming and the health checks between commands. *)
From S2P Require Import Prelude RustStr Collections Contract StorageContract RpcContext.
From S2P Require Import ControlPlane Resilience.

(** ** Derived health (health.rs) *)

Inductive DiscoveryHealthStatus : Type := HealthNotServing | HealthServing | HealthDegraded.

#[export] Instance DiscoveryHealthStatus_eq_dec : EqDecision DiscoveryHealthStatus.
Proof. solve_decision. Defined.

Definition is_ready (s : DiscoveryHealthStatus) : bool :=
  match s with HealthServing => true | _ => false end.

(** Whether the gRPC serving status is [SERVING]. *)
Definition grpc_serving (s : DiscoveryHealthStatus) : bool :=
  match s with HealthServing | HealthDegraded => true | HealthNotServing => false end.

Record DiscoveryHealthState : Type := {
  hs_status : DiscoveryHealthStatus;
  hs_last_reason : option string;
}.

Definition new_health : DiscoveryHealthState :=
  {| hs_status := HealthServing; hs_last_reason := None |}.

Definition from_resilience (r : RuntimeResilience) : DiscoveryHealthStatus :=
  if bool_decide (degradation r = ReadOnly) then HealthDegraded
  else if bool_decide (cb_state (circuit_breaker r) = Open) then HealthNotServing
  else HealthServing.

Definition sync_from_resilience (r : RuntimeResilience) (h : DiscoveryHealthState)
    : DiscoveryHealthState :=
  let next := from_resilience r in
  if bool_decide (hs_status h = next) then h
  else {| hs_status := next;
          hs_last_reason :=
            match next with
            | HealthDegraded => Some "storage degraded: serving stale reads"
            | HealthNotServing => Some "storage circuit breaker open"
            | HealthServing => None
            end |}.

(** ** Commands *)

Inductive RuntimeCommand : Type :=
| RegisterInstance (caller : CallerContext) (command : RegisterInstanceCommand)
| BatchRegisterInstances (caller : CallerContext) (commands : list RegisterInstanceCommand)
| RenewLease (caller : CallerContext) (command : RenewLeaseCommand)
| DeregisterInstance (caller : CallerContext)
    (namespace environment service_name instance_id : string) (now_ms : N)
| ExpireInstances (now_ms max_instances : N)
| ReportInstanceStatus (caller : CallerContext) (command : ReportInstanceStatusCommand)
| DiscoverInstances (caller : CallerContext) (query : DiscoverInstancesQuery) (now_ms : N)
| RetrieveInstance (caller : CallerContext) (query : RetrieveInstanceQuery) (now_ms : N)
| ListServices (caller : CallerContext) (query : ListServicesQuery) (now_ms : N)
| CreateConfigDraft (caller : CallerContext) (command : CreateConfigDraftCommand)
| PublishConfig (caller : CallerContext) (command : PublishConfigCommand)
| RollbackConfig (caller : CallerContext) (command : RollbackConfigCommand)
| RetrieveEffectiveConfig (caller : CallerContext) (query : RetrieveEffectiveConfigQuery)
| WatchRegistryEvents (caller : CallerContext) (query : WatchEventsQuery)
| WatchConfigEvents (caller : CallerContext) (query : WatchEventsQuery).

(** What is sent back on the response channel of a command. *)
Inductive RuntimeReply : Type :=
| ReplyRegister (r : DiscoveryResult RegisterInstanceResult)
| ReplyBatch (r : DiscoveryResult BatchRegisterResult)
| ReplyRenew (r : DiscoveryResult RenewLeaseResult)
| ReplyDeregister (r : DiscoveryResult DeregisterInstanceResult)
| ReplyExpire (r : DiscoveryResult (list DeregisterInstanceResult))
| ReplyStatus (r : DiscoveryResult ReportInstanceStatusResult)
| ReplyDiscover (r : DiscoveryResult DiscoverInstancesResult)
| ReplyRetrieve (r : DiscoveryResult (option ServiceInstance))
| ReplyServices (r : DiscoveryResult ListServicesResult)
| ReplyDraft (r : DiscoveryResult ConfigDraft)
| ReplyRelease (r : DiscoveryResult ConfigRelease)
| ReplyConfig (r : DiscoveryResult EffectiveConfig)
| ReplyEvents (r : DiscoveryResult (list DiscoveryEvent)).

(** A component change event (component_events.rs): registry or config, scope and
    revision. *)
Inductive ComponentChange : Type :=
| RegistryChanged (namespace environment : string) (revision : N)
| ConfigChanged (namespace environment : string) (revision : N).

(** [DiscoveryRpcRuntimeConfig], and the part of it that goes to the request
    metadata ([with_config]). *)
Record DiscoveryRpcRuntimeConfig : Type := {
  rtc_registry_expiry_scan_interval_ms : N;
  rtc_registry_expiry_scan_batch_size : N;
  rtc_allow_unsigned_local_context : bool;
  rtc_service_token_verifier : option ServiceTokenVerifier;
  rtc_event_gc_interval_ms : N;
  rtc_event_gc_retention_count : N;
  rtc_event_gc_batch_size : N;
  rtc_resilience : RuntimeResilienceConfig;
  rtc_health_check_scan_interval_ms : N;
}.

(** [DiscoveryRpcRuntimeConfig::default]. *)
Definition default_runtime_config : DiscoveryRpcRuntimeConfig :=
  {| rtc_registry_expiry_scan_interval_ms := 0; rtc_registry_expiry_scan_batch_size := 1000;
     rtc_allow_unsigned_local_context := false; rtc_service_token_verifier := None;
     rtc_event_gc_interval_ms := 60000; rtc_event_gc_retention_count := 10000;
     rtc_event_gc_batch_size := 1000;
     rtc_resilience :=
       {| rrc_circuit_breaker := default_circuit_breaker_config;
          rrc_rate_limit := default_rate_limit_config;
          rrc_degradation := default_degradation_config |};
     rtc_health_check_scan_interval_ms := 0 |}.

Definition context_policy_of (config : DiscoveryRpcRuntimeConfig) : RpcContextPolicy :=
  {| allow_unsigned_local_context := rtc_allow_unsigned_local_context config;
     service_token_verifier := rtc_service_token_verifier config |}.

Record Actor (S : Type) : Type := {
  ac_plane : DiscoveryControlPlane S;
  ac_resilience : RuntimeResilience;
  ac_health : DiscoveryHealthState;
  ac_published : list DiscoveryEvent;
  ac_emitted : list ComponentChange;
}.
Arguments ac_plane {S} _.
Arguments ac_resilience {S} _.
Arguments ac_health {S} _.
Arguments ac_published {S} _.
Arguments ac_emitted {S} _.

Definition set_plane {S} (p : DiscoveryControlPlane S) (a : Actor S) : Actor S :=
  {| ac_plane := p; ac_resilience := ac_resilience a; ac_health := ac_health a;
     ac_published := ac_published a; ac_emitted := ac_emitted a |}.
Definition set_resilience {S} (r : RuntimeResilience) (a : Actor S) : Actor S :=
  {| ac_plane := ac_plane a; ac_resilience := r; ac_health := ac_health a;
     ac_published := ac_published a; ac_emitted := ac_emitted a |}.
Definition set_health {S} (h : DiscoveryHealthState) (a : Actor S) : Actor S :=
  {| ac_plane := ac_plane a; ac_resilience := ac_resilience a; ac_health := h;
     ac_published := ac_published a; ac_emitted := ac_emitted a |}.
Definition publish {S} (es : list DiscoveryEvent) (a : Actor S) : Actor S :=
  {| ac_plane := ac_plane a; ac_resilience := ac_resilience a; ac_health := ac_health a;
     ac_published := ac_published a ++ es; ac_emitted := ac_emitted a |}.
Definition emit {S} (cs : list ComponentChange) (a : Actor S) : Actor S :=
  {| ac_plane := ac_plane a; ac_resilience := ac_resilience a; ac_health := ac_health a;
     ac_published := ac_published a; ac_emitted := ac_emitted a ++ cs |}.

(** ** Cache keys *)

Section cache_keys.
(** [{:?}] of a string; which characters it escapes depends on Unicode tables. *)
Context (debug_str : string → string).

Definition debug_option (o : option string) : string :=
  match o with None => "None" | Some v => "Some(" +:+ debug_str v +:+ ")" end.

Definition show_bool (b : bool) : string := if b then "true" else "false".

Definition debug_label_op (op : LabelFilterOp) : string :=
  match op with
  | LabelEq => "Eq" | LabelNotEq => "NotEq" | LabelIn => "In" | LabelExists => "Exists"
  end.

Definition debug_sort_by (s : DiscoverSortBy) : string :=
  match s with
  | ByInstanceId => "InstanceId" | ByPriority => "Priority" | ByWeight => "Weight"
  | WeightedRandom => "WeightedRandom"
  end.

Definition discover_cache_key (q : DiscoverInstancesQuery) : string :=
  "discover:" +:+ dq_namespace q +:+ ":" +:+ dq_environment q +:+ ":" +:+ dq_service_name q
  +:+ ":healthy=" +:+ show_bool (dq_healthy_only q)
  +:+ ":protocol=" +:+ debug_option (dq_protocol q)
  +:+ foldr (λ f rest, ":lf:" +:+ lf_key f +:+ ":" +:+ debug_label_op (lf_op f) +:+ ":"
                       +:+ lf_value f +:+ rest) "" (dq_label_filters q)
  +:+ match dq_sort_by q with Some s => ":sort:" +:+ debug_sort_by s | None => "" end
  +:+ ":page_size=" +:+ show_N (dq_page_size q)
  +:+ match dq_page_token q with Some t => ":page_token=" +:+ t | None => "" end.

Definition retrieve_instance_cache_key (q : RetrieveInstanceQuery) : string :=
  "retrieve:" +:+ rq_namespace q +:+ ":" +:+ rq_environment q +:+ ":" +:+ rq_service_name q
  +:+ ":" +:+ rq_instance_id q.

Definition list_services_cache_key (q : ListServicesQuery) : string :=
  "list:" +:+ lq_namespace q +:+ ":" +:+ lq_environment q
  +:+ ":page_size=" +:+ show_N (lq_page_size q)
  +:+ ":page_token=" +:+ debug_option (lq_page_token q).

Definition effective_config_cache_key (q : RetrieveEffectiveConfigQuery) : string :=
  "config:" +:+ ecq_namespace q +:+ ":" +:+ ecq_environment q +:+ ":" +:+ ecq_application q
  +:+ ":" +:+ ecq_service_name q +:+ ":" +:+ ecq_group q.

Definition watch_events_cache_key (q : WatchEventsQuery) : string :=
  "watch:" +:+ wq_namespace q +:+ ":" +:+ wq_environment q
  +:+ ":from=" +:+ show_N (wq_from_revision q) +:+ ":max=" +:+ show_N (wq_max_events q)
  +:+ ":service=" +:+ debug_option (wq_service_name q)
  +:+ ":group=" +:+ debug_option (wq_config_group q)
  +:+ ":application=" +:+ debug_option (wq_config_application q).
End cache_keys.

(** How the network answers the probes of one scan, by endpoint, probe and timeout;
    [check_health] of the health checker asks it. *)
Abbreviation Network := (string → HealthCheckProbe → N → bool).

(** ** Publishing (watch.rs and the [publish_*] functions) *)

Section dispatch.
Context {S : Type} `{RegistryStore S, ConfigStore S, WatchEventStore S, ConfigParsers}.
Context (debug_str : string → string).

Definition events_for_revision (st : S) (namespace environment : string) (revision : N)
    : DiscoveryResult (list DiscoveryEvent) :=
  if revision =? 0 then Ok []
  else
    events ← store_watch_events
               {| wq_namespace := namespace; wq_environment := environment;
                  wq_from_revision := revision - 1; wq_service_name := None;
                  wq_config_group := None; wq_config_application := None;
                  wq_max_events := 1 |} st;
    mret (retain (λ e, de_revision e =? revision) events).

Definition publish_events_for_revision (scope : string * string) (revision : N) (a : Actor S)
    : Actor S :=
  match events_for_revision (store (ac_plane a)) scope.1 scope.2 revision with
  | Ok events => publish events a
  | Err _ => a
  end.

(** [publish_scoped_revision_events]; [T] is the [HasRevision] trait's method. *)
Definition publish_scoped_revision_events {T} (revision_of : T → N) (scope : string * string)
    (result : DiscoveryResult T) (a : Actor S) : Actor S :=
  match result with
  | Ok r => publish_events_for_revision scope (revision_of r) a
  | Err _ => a
  end.

Definition publish_revision_events_from_renewal (result : DiscoveryResult RenewLeaseResult)
    (a : Actor S) : Actor S :=
  match result with
  | Ok r => publish_events_for_revision (lr_namespace r, lr_environment r) (lr_revision r) a
  | Err _ => a
  end.

Definition publish_revision_events_from_deregister
    (result : DiscoveryResult DeregisterInstanceResult) (a : Actor S) : Actor S :=
  match result with
  | Ok r =>
      if negb (dr_deregistered r) then a
      else publish_events_for_revision (dr_namespace r, dr_environment r) (dr_revision r) a
  | Err _ => a
  end.

Definition publish_revision_events_from_deregisters
    (result : DiscoveryResult (list DeregisterInstanceResult)) (a : Actor S) : Actor S :=
  match result with
  | Ok rs => foldl (λ a r, publish_revision_events_from_deregister (Ok r) a) a rs
  | Err _ => a
  end.

Definition publish_revision_events_from_config_release
    (result : DiscoveryResult ConfigRelease) (a : Actor S) : Actor S :=
  match result with
  | Ok r => publish_events_for_revision (cr_namespace r, cr_environment r) (cr_revision r) a
  | Err _ => a
  end.

(** ** The dispatcher *)

Definition gate_command (now : Instants) (operation : OperationType) (a : Actor S)
    : Actor S * DiscoveryResult () :=
  let '(r, res) := gate now operation (ac_resilience a) in (set_resilience r a, res).

Definition on_plane {A} (op : Op (DiscoveryControlPlane S) A) (a : Actor S)
    : Actor S * DiscoveryResult A :=
  let '(p, res) := op (ac_plane a) in (set_plane p a, res).

(** [resolve_*] on the caches. *)
Definition on_caches {A} (op : Op RuntimeResilience A) (a : Actor S)
    : Actor S * DiscoveryResult A :=
  let '(r, res) := op (ac_resilience a) in (set_resilience r a, res).

(** [record_result] followed by [sync_from_resilience]. *)
Definition record {A} (now : N) (result : DiscoveryResult A) (a : Actor S) : Actor S :=
  let r := record_result now result (ac_resilience a) in
  set_health (sync_from_resilience r (ac_health a)) (set_resilience r a).

(** A write command after the gate: run it, record it, then tell the others. *)
Definition write_command {A} (now : Instants) (reply : DiscoveryResult A → RuntimeReply)
    (op : Op (DiscoveryControlPlane S) A)
    (announce : DiscoveryResult A → Actor S → Actor S) (a : Actor S)
    : Actor S * RuntimeReply :=
  match gate_command now OpWrite a with
  | (a, Err e) => (a, reply (Err e))
  | (a, Ok _) =>
      let '(a, result) := on_plane op a in
      (announce result (record (at_record now) result a), reply result)
  end.

(** A read command after the gate: run it, resolve it against the cache, record. *)
Definition read_command {A} (now : Instants) (reply : DiscoveryResult A → RuntimeReply)
    (op : Op (DiscoveryControlPlane S) A)
    (resolve_with : DiscoveryResult A → Op RuntimeResilience A) (a : Actor S)
    : Actor S * RuntimeReply :=
  match gate_command now OpRead a with
  | (a, Err e) => (a, reply (Err e))
  | (a, Ok _) =>
      let '(a, result) := on_plane op a in
      let '(a, result) := on_caches (resolve_with result) a in
      (record (at_record now) result a, reply result)
  end.

Definition emit_release (result : DiscoveryResult ConfigRelease) (a : Actor S) : Actor S :=
  match result with
  | Ok r => emit [ConfigChanged (cr_namespace r) (cr_environment r) (cr_revision r)] a
  | Err _ => a
  end.

(** The change events of a batch: the scope of a result is looked up by the
    result's own position. *)
Fixpoint batch_changes (scopes : list (string * string))
    (results : list RegisterInstanceResult) : list ComponentChange :=
  match results, scopes with
  | r :: results, (ns, env) :: scopes =>
      RegistryChanged ns env (rr_revision r) :: batch_changes scopes results
  | _, _ => []
  end.

Definition dispatch_command (now : Instants) (command : RuntimeCommand) (a : Actor S)
    : Actor S * RuntimeReply :=
  match command with
  | RegisterInstance caller command =>
      let event_scope := (rc_namespace command, rc_environment command) in
      write_command now ReplyRegister (register_instance caller command) (λ result a,
        let a := match result with
                 | Ok r => emit [RegistryChanged event_scope.1 event_scope.2 (rr_revision r)] a
                 | Err _ => a
                 end in
        publish_scoped_revision_events rr_revision event_scope result a) a
  | BatchRegisterInstances caller commands =>
      let scopes := (λ c, (rc_namespace c, rc_environment c)) <$> commands in
      write_command now ReplyBatch (batch_register_instances caller commands) (λ result a,
        match result with
        | Ok batch => emit (batch_changes scopes (br_results batch)) a
        | Err _ => a
        end) a
  | RenewLease caller command =>
      write_command now ReplyRenew (renew_lease caller command)
        publish_revision_events_from_renewal a
  | DeregisterInstance caller namespace environment service_name instance_id now_ms =>
      write_command now ReplyDeregister
        (deregister_instance caller namespace environment service_name instance_id now_ms)
        publish_revision_events_from_deregister a
  | ExpireInstances now_ms max_instances =>
      write_command now ReplyExpire (expire_instances now_ms max_instances)
        publish_revision_events_from_deregisters a
  | ReportInstanceStatus caller command =>
      let event_scope := (sc_namespace command, sc_environment command) in
      write_command now ReplyStatus (report_instance_status caller command)
        (publish_scoped_revision_events sr_revision event_scope) a
  | DiscoverInstances caller query now_ms =>
      read_command now ReplyDiscover (discover_instances caller query now_ms)
        (resolve_discover_instances (at_cache now) (discover_cache_key debug_str query)) a
  | RetrieveInstance caller query now_ms =>
      read_command now ReplyRetrieve (retrieve_instance caller query now_ms)
        (resolve_retrieve_instance (at_cache now) (retrieve_instance_cache_key query)) a
  | ListServices caller query now_ms =>
      read_command now ReplyServices (list_services caller query now_ms)
        (resolve_list_services (at_cache now) (list_services_cache_key debug_str query)) a
  | CreateConfigDraft caller command =>
      write_command now ReplyDraft (create_config_draft caller command) (λ _ a, a) a
  | PublishConfig caller command =>
      write_command now ReplyRelease (publish_config caller command) (λ result a,
        publish_revision_events_from_config_release result (emit_release result a)) a
  | RollbackConfig caller command =>
      write_command now ReplyRelease (rollback_config caller command) (λ result a,
        publish_revision_events_from_config_release result (emit_release result a)) a
  | RetrieveEffectiveConfig caller query =>
      read_command now ReplyConfig (retrieve_effective_config caller query)
        (resolve_effective_config (at_cache now) (effective_config_cache_key query)) a
  | WatchRegistryEvents caller query =>
      read_command now ReplyEvents (watch_registry_events caller query)
        (resolve_watch_events (at_cache now) (watch_events_cache_key debug_str query)) a
  | WatchConfigEvents caller query =>
      read_command now ReplyEvents (watch_config_events caller query)
        (resolve_watch_events (at_cache now) (watch_events_cache_key debug_str query)) a
  end.

(** ** Timers *)

Definition run_expiry_scan (now_ms max_instances : N) (a : Actor S) : Actor S :=
  let '(a, result) := on_plane (expire_instances now_ms max_instances) a in
  publish_revision_events_from_deregisters result a.

Definition run_event_gc (retention_count batch_size : N) (a : Actor S) : Actor S :=
  match store_current_revision (store (ac_plane a)) with
  | Ok current_revision =>
      (on_plane (gc_watch_events (saturating_sub current_revision retention_count)
                   batch_size) a).1
  | Err _ => a
  end.

Definition next_health_state (healthy : bool) (now_ms : N) (s : HealthCheckRuntimeState)
    : HealthCheckRuntimeState :=
  {| consecutive_successes := if healthy then u32_succ (consecutive_successes s) else 0;
     consecutive_failures := if healthy then 0 else u32_succ (consecutive_failures s);
     last_check_ms := now_ms |}.

Definition checker_caller : CallerContext :=
  with_registry_permission (new_caller "discovery-health-checker") RegistryWrite.

Definition status_command (i : ServiceInstance) (status : InstanceStatus) (now_ms : N)
    : ReportInstanceStatusCommand :=
  {| sc_namespace := si_namespace i; sc_environment := si_environment i;
     sc_service_name := si_service_name i; sc_instance_id := si_instance_id i;
     sc_status := status; sc_now_ms := now_ms; sc_expected_revision := None |}.

(** One turn of the loop of [run_health_checks]; errors are only logged. *)
Definition check_instance (check_health : Network) (now_ms : N) (instance : ServiceInstance)
    (p : DiscoveryControlPlane S) : DiscoveryControlPlane S :=
  match si_health_check instance with
  | None => p
  | Some config =>
      if negb (due_for_check (si_health_check_state instance) config now_ms) then p
      else
        let healthy := check_health (si_endpoint instance) (hc_probe config)
                         (hc_timeout_ms config) in
        let state := next_health_state healthy now_ms (si_health_check_state instance) in
        let p := (on_store (store_update_health_check_state (si_namespace instance)
                    (si_environment instance) (si_service_name instance)
                    (si_instance_id instance) state) p).1 in
        if is_unhealthy state config && is_discoverable (si_status instance) then
          (report_instance_status checker_caller
             (status_command instance NotServing now_ms) p).1
        else if is_healthy state config && negb (is_discoverable (si_status instance)) then
          (report_instance_status checker_caller
             (status_command instance Serving now_ms) p).1
        else p
  end.

Definition run_health_checks (check_health : Network) (now_ms : N) (p : DiscoveryControlPlane S)
    : DiscoveryControlPlane S :=
  match store_list_active_instances_with_health_check now_ms (store p) with
  | Err _ => p
  | Ok instances => foldl (λ p i, check_instance check_health now_ms i p) p instances
  end.

(** What can wake the [select!] of [run_actor]: a command of the channel, or a tick
    of one of the three timers, with the clock it reads. *)
Inductive ActorEvent : Type :=
| EvCommand (now : Instants) (command : RuntimeCommand)
| EvExpiryTick (now_ms : N)
| EvGcTick
| EvHealthTick (now_ms : N) (check_health : Network).

(** One turn of the loop; a branch of [select!] is taken only if its guard holds. *)
Definition actor_step (config : DiscoveryRpcRuntimeConfig) (a : Actor S) (e : ActorEvent)
    : Actor S :=
  match e with
  | EvCommand now command => (dispatch_command now command a).1
  | EvExpiryTick now_ms =>
      if 0 <? rtc_registry_expiry_scan_interval_ms config
      then run_expiry_scan now_ms (rtc_registry_expiry_scan_batch_size config) a else a
  | EvGcTick =>
      if 0 <? rtc_event_gc_interval_ms config
      then run_event_gc (rtc_event_gc_retention_count config)
             (rtc_event_gc_batch_size config) a else a
  | EvHealthTick now_ms check_health =>
      if 0 <? rtc_health_check_scan_interval_ms config
      then set_plane (run_health_checks check_health now_ms (ac_plane a)) a else a
  end.

(** The state [run_actor] starts from. *)
Definition spawn_actor (p : DiscoveryControlPlane S) (config : RuntimeResilienceConfig)
    (now : N) : Actor S :=
  {| ac_plane := p; ac_resilience := new_resilience config now; ac_health := new_health;
     ac_published := []; ac_emitted := [] |}.

(** [run_actor], on the sequence of events the channel and the timers give it. *)
Definition run_actor (config : DiscoveryRpcRuntimeConfig) (p : DiscoveryControlPlane S)
    (now : N) (es : list ActorEvent) : Actor S :=
  foldl (actor_step config) (spawn_actor p (rtc_resilience config) now) es.
End dispatch.

(** ** Errors on the wire (error.rs) *)

Definition grpc_status_code_for_discovery_error (e : DiscoveryError) : string :=
  match e with
  | Unauthenticated _ => "UNAUTHENTICATED"
  | InvalidConfig _ => "FAILED_PRECONDITION"
  | InvalidArgument _ => "INVALID_ARGUMENT"
  | NotFound _ => "NOT_FOUND"
  | AlreadyPublished _ => "ALREADY_EXISTS"
  | PermissionDenied _ => "PERMISSION_DENIED"
  | PolicyViolation _ => "PERMISSION_DENIED"
  | Conflict _ => "ABORTED"
  | Unavailable _ => "UNAVAILABLE"
  | ResourceExhausted _ => "RESOURCE_EXHAUSTED"
  end.

Definition sanitize_external_message (e : DiscoveryError) : string :=
  match e with
  | InvalidArgument m | NotFound m | AlreadyPublished m | Conflict m | Unauthenticated m
  | PermissionDenied m | PolicyViolation m | InvalidConfig m => m
  | Unavailable _ => "service unavailable"
  | ResourceExhausted _ => "resource exhausted"
  end.
