(* ===== verification/ActorTheorems.v ===== *)
(** * Theorems about the runtime actor *)
From S2P Require Import Prelude RustStr Collections Contract Discover StorageContract MemoryStore.
From S2P Require Import MemoryRegistry RegistryTheorems MemoryConfig ConfigTheorems MemoryWatch.
From S2P Require Import WatchTheorems MemoryInstance ControlPlane ControlPlaneTheorems Resilience.
From S2P Require Import ResilienceTheorems Actor.
From Stdlib Require Import Ascii.

(** ** Gating *)

Lemma allow_request_denied now cb cb' : allow_request now cb = (cb', false) → cb' = cb.
Proof.
  unfold allow_request. destruct (negb _); [done|]. destruct (cb_state cb); [done| |].
  - destruct (last_failure cb); [|by intros [= <-]]. destruct (_ <=? _); [done|by intros [= <-]].
  - destruct (_ <? _); [done|by intros [= <-]].
Qed.

(** A refused request costs at most a token. *)
Lemma gate_denied now op r r' e :
  gate now op r = (r', Err e) →
  circuit_breaker r' = circuit_breaker r ∧ degradation r' = degradation r
  ∧ ∃ m, e = Unavailable m.
Proof.
  assert (∀ r r', gate_storage now op r = (r', Err e) →
    circuit_breaker r' = circuit_breaker r ∧ degradation r' = degradation r
    ∧ ∃ m, e = Unavailable m) as Hst.
  { clear. intros r r'. unfold gate_storage. destruct (negb _); [intros [= <- <-]; eauto|].
    destruct (_ || _); [|done]. destruct (allow_request (at_breaker now) (circuit_breaker r)) as [cb []] eqn:E;
      [done|]. apply allow_request_denied in E as ->. intros [= <- <-]. eauto. }
  unfold gate. destruct (configured_rate_limit r); [|apply Hst].
  destruct (try_acquire (at_limiter now) (rate_limiter r)) as [l []]; [|intros [= <- <-]; eauto].
  intros Hg. exact (Hst _ _ Hg).
Qed.

Lemma from_resilience_guards r r' :
  circuit_breaker r' = circuit_breaker r → degradation r' = degradation r →
  from_resilience r' = from_resilience r.
Proof. unfold from_resilience. by intros -> ->. Qed.

(** ** The health mirror *)

Definition mirrored {S} (a : Actor S) : Prop :=
  hs_status (ac_health a) = from_resilience (ac_resilience a).

Lemma sync_status r h : hs_status (sync_from_resilience r h) = from_resilience r.
Proof. unfold sync_from_resilience. by case_bool_decide. Qed.

Section any_store.
Context {S : Type} `{RegistryStore S, ConfigStore S, WatchEventStore S, ConfigParsers}.
Context (debug_str : string → string).

(** Telling the others changes neither the health nor the guards. *)
Definition only_tells (f : Actor S → Actor S) : Prop :=
  ∀ a, ac_plane (f a) = ac_plane a ∧ ac_resilience (f a) = ac_resilience a
       ∧ ac_health (f a) = ac_health a.

Lemma publish_events_tells scope rev : only_tells (publish_events_for_revision scope rev).
Proof. intros a. unfold publish_events_for_revision. by destruct (events_for_revision _ _ _ _). Qed.

Lemma from_deregister_tells res : only_tells (publish_revision_events_from_deregister res).
Proof.
  intros a. destruct res as [r|]; [|done]. simpl. destruct (negb _); [done|].
  apply publish_events_tells.
Qed.

Lemma from_deregisters_tells res : only_tells (publish_revision_events_from_deregisters res).
Proof.
  intros a. destruct res as [rs|]; [|done]. cbn [publish_revision_events_from_deregisters].
  revert a. induction rs as [|r rs IH]; intros a; [done|]. cbn [foldl].
  destruct (IH (publish_revision_events_from_deregister (Ok r) a)) as (-> & -> & ->).
  apply from_deregister_tells.
Qed.

Lemma scoped_tells {T} (f : T → N) scope res : only_tells (publish_scoped_revision_events f scope res).
Proof. intros a. destruct res; [apply publish_events_tells|done]. Qed.

Lemma write_command_mirrored {A} now reply (op : Op (DiscoveryControlPlane S) A) announce a :
  (∀ res, only_tells (announce res)) → mirrored a →
  mirrored (write_command now reply op announce a).1.
Proof.
  intros Hann Hm. unfold write_command, gate_command.
  destruct (gate now OpWrite (ac_resilience a)) as [r [u|e]] eqn:Eg; simpl.
  - unfold on_plane. simpl. destruct (op (ac_plane a)) as [p res]. simpl.
    unfold mirrored. destruct (Hann res (record (at_record now) res (set_plane p (set_resilience r a))))
      as (_ & -> & ->). unfold record. simpl. apply sync_status.
  - apply gate_denied in Eg as (Hc & Hd & _). unfold mirrored. simpl.
    rewrite (from_resilience_guards (ac_resilience a) r) by done. exact Hm.
Qed.

(** A write answered with success: the operation succeeded, and its control plane is
    the one the actor is left with. *)
Lemma write_command_Ok {A} now reply (op : Op (DiscoveryControlPlane S) A) announce a a' r :
  (∀ x y, reply x = reply y → x = y) → (∀ res, only_tells (announce res)) →
  write_command now reply op announce a = (a', reply (Ok r)) →
  op (ac_plane a) = (ac_plane a', Ok r).
Proof.
  intros Hinj Htells. unfold write_command, gate_command.
  destruct (gate now OpWrite (ac_resilience a)) as [rs [u|e]]; [|by intros [= _ [=]%Hinj]].
  unfold on_plane. simpl. destruct (op (ac_plane a)) as [p res]. intros [= <- ->%Hinj].
  by rewrite (proj1 (Htells _ _)).
Qed.

(** A write that passes the gate and succeeds. *)
Lemma write_command_admitted {A} now reply (op : Op (DiscoveryControlPlane S) A) announce a p r :
  (gate_command now OpWrite a).2 = Ok () → op (ac_plane a) = (p, Ok r) →
  (∀ res, only_tells (announce res)) →
  ∃ a', write_command now reply op announce a = (a', reply (Ok r)) ∧ ac_plane a' = p.
Proof.
  unfold write_command, gate_command. intros Hg Hop Htells.
  destruct (gate now OpWrite (ac_resilience a)) as [rs res]. simpl in Hg. subst res.
  unfold on_plane. simpl. rewrite Hop. eexists. split; [done|]. by rewrite (proj1 (Htells _ _)).
Qed.

(** A read that passes the gate and succeeds. *)
Lemma read_command_admitted {A} now reply (op : Op (DiscoveryControlPlane S) A) rv a p r :
  (gate_command now OpRead a).2 = Ok () → op (ac_plane a) = (p, Ok r) →
  (∀ rs, (rv (Ok r) rs).2 = Ok r) →
  ∃ a', read_command now reply op rv a = (a', reply (Ok r)) ∧ ac_plane a' = p.
Proof.
  unfold read_command, gate_command. intros Hg Hop Hrv.
  destruct (gate now OpRead (ac_resilience a)) as [rs res]. simpl in Hg. subst res.
  unfold on_plane, on_caches. simpl. rewrite Hop. simpl. specialize (Hrv rs).
  destruct (rv (Ok r) rs) as [rs' res]. simpl in *. subst res. by eexists.
Qed.

Lemma read_command_mirrored {A} now reply (op : Op (DiscoveryControlPlane S) A) rv a :
  mirrored a → mirrored (read_command now reply op rv a).1.
Proof.
  intros Hm. unfold read_command, gate_command.
  destruct (gate now OpRead (ac_resilience a)) as [r [u|e]] eqn:Eg; simpl.
  - unfold on_plane, on_caches. simpl. destruct (op (ac_plane a)) as [p res]. simpl.
    destruct (rv res r) as [r' res']. unfold mirrored, record. simpl. apply sync_status.
  - apply gate_denied in Eg as (Hc & Hd & _). unfold mirrored. simpl.
    rewrite (from_resilience_guards (ac_resilience a) r) by done. exact Hm.
Qed.

Lemma emit_tells cs : only_tells (emit cs).
Proof. intros a. done. Qed.

Lemma tells_compose f g : only_tells f → only_tells g → only_tells (λ a, f (g a)).
Proof.
  intros Hf Hg a. destruct (Hf (g a)) as (-> & -> & ->). apply Hg.
Qed.

Lemma emit_release_tells res : only_tells (emit_release res).
Proof. by destruct res. Qed.

Lemma release_tells res :
  only_tells (λ a, publish_revision_events_from_config_release res (emit_release res a)).
Proof.
  apply tells_compose; [|apply emit_release_tells].
  intros a. destruct res; [apply publish_events_tells|done].
Qed.

Lemma dispatch_mirrored now command a :
  mirrored a → mirrored (dispatch_command debug_str now command a).1.
Proof.
  intros Hm. destruct command; simpl;
    first [by apply read_command_mirrored|apply write_command_mirrored; [intros res|done]].
  - apply (tells_compose _ (λ a, match res with Ok r => _ | Err _ => a end));
      [apply scoped_tells|]. by destruct res.
  - by destruct res.
  - intros a'. destruct res; [apply publish_events_tells|done].
  - apply from_deregister_tells.
  - apply from_deregisters_tells.
  - apply scoped_tells.
  - done.
  - apply release_tells.
  - apply release_tells.
Qed.

Lemma actor_step_mirrored config a e : mirrored a → mirrored (actor_step debug_str config a e).
Proof.
  intros IH. destruct e; simpl; [by apply dispatch_mirrored| | |];
    destruct (_ <? _); try exact IH.
  - unfold run_expiry_scan, on_plane. destruct (expire_instances _ _ _) as [p' res].
    unfold mirrored. destruct (from_deregisters_tells res (set_plane p' a)) as (_ & -> & ->).
    exact IH.
  - unfold run_event_gc, on_plane. destruct (store_current_revision _); [|exact IH].
    destruct (gc_watch_events _ _ _). exact IH.
Qed.

(** Whatever commands and timers the actor has run, the health it shows is
    the one its breaker and its mode imply: degraded exactly in read-only mode,
    otherwise not serving exactly when the breaker is open. *)
Theorem health_mirrors_resilience p config now es :
  let a := run_actor debug_str config p now es in
  hs_status (ac_health a) =
    if bool_decide (degradation (ac_resilience a) = ReadOnly) then HealthDegraded
    else if bool_decide (cb_state (circuit_breaker (ac_resilience a)) = Open)
    then HealthNotServing else HealthServing.
Proof.
  intros a. assert (mirrored a) as Hm; [|exact Hm]. unfold a, run_actor.
  induction es as [|e es IH] using rev_ind; [done|]. rewrite foldl_app.
  by apply actor_step_mirrored.
Qed.
End any_store.

(** ** Refused commands *)

(** The call a command makes on behalf of its caller. *)
Definition control_of (command : RuntimeCommand) : option (CallerContext * ControlCall) :=
  match command with
  | RegisterInstance caller c => Some (caller, CpRegister c)
  | BatchRegisterInstances caller cs => Some (caller, CpBatchRegister cs)
  | RenewLease caller c => Some (caller, CpRenew c)
  | DeregisterInstance caller ns env svc id now => Some (caller, CpDeregister ns env svc id now)
  | ExpireInstances _ _ => None
  | ReportInstanceStatus caller c => Some (caller, CpReport c)
  | DiscoverInstances caller q now => Some (caller, CpDiscover q now)
  | RetrieveInstance caller q now => Some (caller, CpRetrieve q now)
  | ListServices caller q now => Some (caller, CpList q now)
  | CreateConfigDraft caller c => Some (caller, CpCreateDraft c)
  | PublishConfig caller c => Some (caller, CpPublish c)
  | RollbackConfig caller c => Some (caller, CpRollback c)
  | RetrieveEffectiveConfig caller q => Some (caller, CpEffective q)
  | WatchRegistryEvents caller q => Some (caller, CpWatchRegistry q)
  | WatchConfigEvents caller q => Some (caller, CpWatchConfig q)
  end.

Definition error_of {A} (r : DiscoveryResult A) : option DiscoveryError :=
  match r with Ok _ => None | Err e => Some e end.

Definition reply_error (r : RuntimeReply) : option DiscoveryError :=
  match r with
  | ReplyRegister r => error_of r | ReplyBatch r => error_of r | ReplyRenew r => error_of r
  | ReplyDeregister r => error_of r | ReplyExpire r => error_of r | ReplyStatus r => error_of r
  | ReplyDiscover r => error_of r | ReplyRetrieve r => error_of r | ReplyServices r => error_of r
  | ReplyDraft r => error_of r | ReplyRelease r => error_of r | ReplyConfig r => error_of r
  | ReplyEvents r => error_of r
  end.

(** The store is as it was and nobody was told anything. *)
Definition untouched {S} (a a' : Actor S) : Prop :=
  ac_plane a' = ac_plane a ∧ ac_published a' = ac_published a ∧ ac_emitted a' = ac_emitted a.

Section refusals.
Context {S : Type} `{RegistryStore S, ConfigStore S, WatchEventStore S, ConfigParsers}.
Context (debug_str : string → string).

Lemma write_refused {A} now (reply : DiscoveryResult A → RuntimeReply) op announce (a : Actor S) e :
  (∀ r, reply_error (reply r) = error_of r) →
  (∀ e a, announce (Err e) a = a) → outcome (op (ac_plane a)) = (ac_plane a, Err e) →
  let '(a', r) := write_command now reply op announce a in
  untouched a a' ∧ ∃ e', reply_error r = Some e'.
Proof.
  intros Hr Hann Hop. unfold write_command, gate_command.
  destruct (gate now OpWrite (ac_resilience a)) as [r [u|e']]; simpl;
    [|rewrite Hr; by split; [|eexists]].
  unfold on_plane. simpl. unfold outcome in Hop. destruct (op (ac_plane a)) as [p [v|e']];
    simpl in *; [done|]. injection Hop as -> ->. rewrite Hann, Hr. by split; [|eexists].
Qed.

Lemma read_refused {A} now (reply : DiscoveryResult A → RuntimeReply) op rv (a : Actor S) e :
  (∀ r, reply_error (reply r) = error_of r) →
  (∀ r, (rv (Err e) r).2 = Err e) → outcome (op (ac_plane a)) = (ac_plane a, Err e) →
  let '(a', r) := read_command now reply op rv a in
  untouched a a' ∧ ∃ e', reply_error r = Some e'.
Proof.
  intros Hr Hrv Hop. unfold read_command, gate_command.
  destruct (gate now OpRead (ac_resilience a)) as [r [u|e']]; simpl;
    [|rewrite Hr; by split; [|eexists]].
  unfold on_plane, on_caches. simpl. unfold outcome in Hop.
  destruct (op (ac_plane a)) as [p [v|e']]; simpl in *; [done|]. injection Hop as -> ->.
  specialize (Hrv r). destruct (rv (Err e) r) as [r' res]. simpl in *. subst res.
  rewrite Hr. by split; [|eexists].
Qed.

(** A refusal is not an unavailable storage: no cache answers for it. *)
Lemma resolve_refusal {T} now key age serve e (c : StaleReadCache T) :
  refusal e = true → resolve now key age serve (Err e) c = (c, Err e).
Proof. unfold resolve. by destruct e, serve. Qed.

Lemma command_refused now command caller c (a : Actor S) :
  control_of command = Some (caller, c) → unauthorized caller c →
  let '(a', r) := dispatch_command debug_str now command a in
  untouched a a' ∧ ∃ e, reply_error r = Some e.
Proof.
  intros Hc Hu. destruct (unauthorized_refused caller c (ac_plane a) Hu) as (e & He & Hr & _).
  destruct command; simpl in Hc; try discriminate Hc; injection Hc as <- <-;
    simpl in He |- *;
    first [ eapply write_refused; [done|done|exact He]
          | eapply read_refused; [done| |exact He]; intros r;
            unfold resolve_discover_instances, resolve_retrieve_instance,
              resolve_list_services, resolve_effective_config, resolve_watch_events;
            by rewrite resolve_refusal ].
Qed.

(** Over any store, in any state of the breaker, the mode and the caches, a
    command of a caller without the permission it needs, or that names a
    namespace outside the caller's tenant, is answered with an error, even when
    a cached answer exists; the store stays as it was, no event is published
    and no change is announced. *)
Theorem unauthorized_command_refused now command caller c (a : Actor S) :
  control_of command = Some (caller, c) → unauthorized caller c →
  let '(a', r) := dispatch_command debug_str now command a in
  untouched a a' ∧ ∃ e, reply_error r = Some e.
Proof. apply command_refused. Qed.
End refusals.

(** All readings of the clock at once. *)
Definition instant (t : N) : Instants :=
  {| at_limiter := t; at_breaker := t; at_cache := t; at_record := t |}.

Definition sample_actor (s : MemoryDiscoveryStore) : Actor MemoryDiscoveryStore :=
  spawn_actor (sample_plane s) {| rrc_circuit_breaker := sample_breaker_config;
     rrc_rate_limit := default_rate_limit_config;
     rrc_degradation := default_degradation_config |} 0.

Lemma unauthorized_command_refused_witness :
  ∃ e, reply_error (dispatch_command id (instant 5) (DiscoverInstances (tenant_admin "globex")
         (sample_query 10 None) 6000) (sample_actor sample_store)).2 = Some e.
Proof.
  pose proof (unauthorized_command_refused id (instant 5) (DiscoverInstances (tenant_admin "globex")
    (sample_query 10 None) 6000) (tenant_admin "globex") (CpDiscover (sample_query 10 None) 6000)
    (sample_actor sample_store) eq_refl ltac:(right; constructor; vm_compute; reflexivity)) as Hu.
  destruct (dispatch_command id (instant 5) _ (sample_actor sample_store)) as [a' r].
  destruct Hu as (_ & e & He). exists e. exact He.
Defined.

(** ** Live events *)

Lemma retain_last q es (e : DiscoveryEvent) rev :
  StronglySorted (λ a b, de_revision a < de_revision b) (es ++ [e]) →
  de_revision e = rev → matches_event q e = true → wq_from_revision q + 1 = rev →
  retain (matches_event q) (es ++ [e]) = [e].
Proof.
  intros Hs He Hm Hq. rewrite retain_snoc, Hm. rewrite retain_none; [done|].
  intros x Hx. assert (de_revision x < de_revision e) as Hlt.
  { clear - Hs Hx. induction es as [|y es IH]; simpl in *; [by apply elem_of_nil in Hx|].
    apply StronglySorted_inv in Hs as [Hs Hall]. rewrite Forall_forall in Hall.
    apply elem_of_cons in Hx as [->|Hx]; [|by apply IH]. apply Hall. set_solver. }
  unfold matches_event. destruct (N.ltb_spec (wq_from_revision q) (de_revision x)); [lia|].
  by rewrite andb_false_r.
Qed.

(** The event just logged is the one its revision is looked up to. *)
Lemma events_for_revision_last `{HashOrder} s es e ns env rev :
  events_wf (revision s) (events s) → events s = es ++ [e] → de_revision e = rev → 0 < rev →
  de_namespace e = ns → de_environment e = env →
  is_blank ns = false → is_blank env = false →
  @events_for_revision _ memory_watch_store s ns env rev = Ok [e].
Proof.
  intros Hwf Hes He Hrev Hns Henv Hb1 Hb2. unfold events_for_revision.
  destruct (N.eqb_spec rev 0); [lia|]. simpl. unfold watch_events, validate_watch_query. simpl.
  unfold validate_non_empty. rewrite Hb1, Hb2. simpl. rewrite Hes.
  rewrite (retain_last _ es e rev); [|rewrite <- Hes; apply Hwf|done| |simpl; lia].
  - simpl. rewrite retain_cons. by rewrite He, N.eqb_refl.
  - unfold matches_event. simpl. rewrite !bool_decide_true by done. simpl.
    destruct (N.ltb_spec (rev - 1) (de_revision e)); [done|lia].
Qed.

Section memory_actor.
Context (h : HashOrder) (dh : N → N → N) (sha : string → string) `{ConfigParsers}.
Context (debug_str : string → string).

Definition dispatch_memory (now : Instants) (command : RuntimeCommand)
    (a : Actor MemoryDiscoveryStore) : Actor MemoryDiscoveryStore * RuntimeReply :=
  @dispatch_command _ (@memory_registry_store h dh) (memory_config_store sha)
    (@memory_watch_store h) _ debug_str now command a.

Abbreviation log a := (events (store (ac_plane a))).

(** The store part of a successful write through the control plane. *)
Lemma cp_register_Ok caller command cp p r :
  @ControlPlane.register_instance _ (@memory_registry_store h dh) caller command cp = (p, Ok r) →
  MemoryRegistry.register_instance command (store cp) = (store p, Ok r).
Proof.
  unfold ControlPlane.register_instance. cp_checks. unfold on_store. simpl.
  destruct (MemoryRegistry.register_instance command (store cp)). by intros [= <- ->].
Qed.

(** A registration that the actor answers with success appends one event to
    the log, and that event, and no other, is published to the live watchers;
    the announced change names the registration's scope and revision. *)
Theorem register_publishes_its_event now caller command a a' r :
  store_wf (store (ac_plane a)) → headroom 1 (store (ac_plane a)) →
  dispatch_memory now (RegisterInstance caller command) a = (a', ReplyRegister (Ok r)) →
  ∃ e, log a' = log a ++ [e] ∧ ac_published a' = ac_published a ++ [e]
    ∧ ac_emitted a' = ac_emitted a
        ++ [RegistryChanged (rc_namespace command) (rc_environment command) (rr_revision r)]
    ∧ de_revision e = rr_revision r ∧ de_resource_id e = rc_instance_id command
    ∧ de_namespace e = rc_namespace command ∧ de_environment e = rc_environment command.
Proof.
  intros Hwf Hroom Hd. unfold dispatch_memory in Hd. simpl in Hd.
  unfold write_command, gate_command in Hd.
  destruct (gate now OpWrite (ac_resilience a)) as [rs [u|e]]; simpl in Hd; [|done].
  unfold on_plane in Hd. simpl in Hd.
  destruct (ControlPlane.register_instance caller command (ac_plane a)) as [p res] eqn:Ec.
  injection Hd as Ha ->. simpl in Ha. apply cp_register_Ok in Ec.
  pose proof (register_instance_wf command _ Hwf Hroom) as Hwf'. rewrite Ec in Hwf'. simpl in Hwf'.
  destruct (register_instance_Ok _ _ _ _ Ec) as (Hck & _ & _ & Hrev & _ & Hs').
  destruct (headroom_succ _ Hroom) as [Hr1 _]. rewrite Hr1 in Hrev.
  destruct (register_checks_Ok _ _ Hck) as (Hb1 & Hb2 & _).
  assert (∃ e, events (store p) = log a ++ [e] ∧ de_revision e = rr_revision r
    ∧ de_resource_id e = rc_instance_id command ∧ de_namespace e = rc_namespace command
    ∧ de_environment e = rc_environment command) as (e & He & Herev & Hid & Hns & Henv).
  { rewrite Hs'. eexists. by split_and!. }
  exists e. unfold publish_events_for_revision in Ha. simpl in Ha.
  rewrite (events_for_revision_last (store p) (log a) e (rc_namespace command)
    (rc_environment command) (rr_revision r)) in Ha; [|apply Hwf'|done|done|lia|done..].
  subst a'. simpl. by split_and!.
Qed.

(** A batch registration appends the events of its entries to the log but
    publishes none of them: live watchers hear nothing of a batch. *)
Theorem batch_register_publishes_nothing now caller commands a :
  ac_published (dispatch_memory now (BatchRegisterInstances caller commands) a).1
  = ac_published a.
Proof.
  unfold dispatch_memory. simpl. unfold write_command, gate_command.
  destruct (gate now OpWrite (ac_resilience a)) as [r [u|e]]; [|done]. simpl.
  unfold on_plane. simpl.
  destruct (ControlPlane.batch_register_instances caller commands (ac_plane a)) as [p [b|e]]; done.
Qed.

(** The event trimming of the actor never takes an event of the last
    [retention] revisions, takes at most a batch at a time, oldest first, and
    changes nothing else of the store. *)
Theorem event_gc_keeps_retention retention batch a :
  store_wf (store (ac_plane a)) → 0 < batch → len_N (log a) <= u64_max →
  let a' := @run_event_gc _ (@memory_registry_store h dh) (@memory_watch_store h)
              retention batch a in
  ∃ n, store (ac_plane a') = set_events (drop n (log a)) (store (ac_plane a))
    ∧ N.of_nat n <= batch
    ∧ ∀ e, e ∈ take n (log a) → de_revision e <= revision (store (ac_plane a)) - retention.
Proof.
  intros Hwf Hb Hlen. simpl. unfold run_event_gc, on_plane. simpl.
  unfold ControlPlane.gc_watch_events, on_store. simpl.
  set (s := store (ac_plane a)) in *. unfold current_revision, saturating_sub.
  rewrite gc_watch_events_run by lia.
  pose proof (ew_sorted _ _ (wf_events _ Hwf)) as Hs.
  rewrite (gc_retain_prefix _ _ 0 (events s) Hs) by lia. simpl.
  set (before := revision s - retention).
  set (n := N.min (batch - 0) (len_N (retain (λ e, de_revision e <=? before) (events s)))).
  exists (N.to_nat n). split_and!; [done|lia|].
  intros e He. eapply (take_old before _ Hs n); [lia|exact He].
Qed.
End memory_actor.

Lemma register_publishes_its_event_witness :
  ∃ e, ac_published (dispatch_memory canonical_order (λ _ _, 0) sample_hash id (instant 5)
         (RegisterInstance (tenant_admin "acme") (sample_register "drive-3" 7000))
         (sample_actor sample_store)).1 = [e] ∧ de_resource_id e = "drive-3".
Proof.
  destruct (register_publishes_its_event canonical_order (λ _ _, 0) sample_hash id (instant 5)
    (tenant_admin "acme") (sample_register "drive-3" 7000) (sample_actor sample_store)
    (dispatch_memory canonical_order (λ _ _, 0) sample_hash id (instant 5)
       (RegisterInstance (tenant_admin "acme") (sample_register "drive-3" 7000))
       (sample_actor sample_store)).1
    {| rr_lease_id := "lease-3"; rr_namespace := "acme"; rr_environment := "prod";
       rr_service_name := "drive"; rr_instance_id := "drive-3"; rr_revision := 3;
       rr_expires_at_ms := 37000 |} (proj1 sample_store_wf) ltac:(vm_compute; split; discriminate)
    ltac:(vm_compute; reflexivity)) as (e & _ & H1 & _ & _ & H2 & _).
  exists e. split; [exact H1|exact H2].
Defined.

Lemma event_gc_keeps_retention_witness :
  ∃ n, store (ac_plane (@run_event_gc _ sample_registry sample_watch 1 10
                          (sample_actor sample_store)))
       = set_events (drop n (events sample_store)) sample_store.
Proof.
  destruct (event_gc_keeps_retention canonical_order (λ _ _, 0) 1 10 (sample_actor sample_store)
    (proj1 sample_store_wf) ltac:(reflexivity) ltac:(vm_compute; discriminate)) as (n & Hn & _).
  exists n. exact Hn.
Defined.

(** ** Cache keys *)

Definition retrieve_query (ns env svc id : string) : RetrieveInstanceQuery :=
  {| rq_namespace := ns; rq_environment := env; rq_service_name := svc; rq_instance_id := id |}.

(** Two lookups share a cache entry only if they are the same lookup, when the
    namespace, the environment and the service name contain no colon. *)
Theorem retrieve_key_injective q1 q2 :
  contains_char ":" (rq_namespace q1) = false → contains_char ":" (rq_namespace q2) = false →
  contains_char ":" (rq_environment q1) = false → contains_char ":" (rq_environment q2) = false →
  contains_char ":" (rq_service_name q1) = false →
  contains_char ":" (rq_service_name q2) = false →
  retrieve_instance_cache_key q1 = retrieve_instance_cache_key q2 → q1 = q2.
Proof.
  intros Hn1 Hn2 He1 He2 Hs1 Hs2. unfold retrieve_instance_cache_key. intros E.
  apply string_app_inj_l in E.
  apply sep_cut_inj in E as [En E]; [|done..]. apply sep_cut_inj in E as [Ee E]; [|done..].
  apply sep_cut_inj in E as [Es E]; [|done..]. destruct q1, q2. simpl in *. by subst.
Qed.

Lemma retrieve_key_injective_witness :
  retrieve_query "acme" "prod" "drive" "a:b" = retrieve_query "acme" "prod" "drive" "a:b".
Proof. apply retrieve_key_injective; reflexivity. Defined.

(** With a colon in a field, different namespaces share an entry. *)
Lemma retrieve_key_collision :
  retrieve_instance_cache_key (retrieve_query "acme" "eu:prod" "drive" "1")
  = retrieve_instance_cache_key (retrieve_query "acme:eu" "prod" "drive" "1").
Proof. vm_compute. reflexivity. Qed.

(** ** What callers are told *)

(** The message of a refusal that goes out to the caller carries the caller's
    subject identifier unchanged. *)
Theorem refusal_message_names_subject caller ns p u e :
  (require_registry_permission caller p = Err e → 
     ∃ a b, sanitize_external_message e = a +:+ subject_id caller +:+ b)
  ∧ (require_namespace_tenant_access caller ns = Err u →
     ∃ a b, sanitize_external_message u = a +:+ subject_id caller +:+ b +:+ ns).
Proof.
  unfold require_registry_permission, require_namespace_tenant_access. split.
  - destruct (has_registry_permission caller p); [done|]. intros [= <-].
    exists "subject ", " lacks registry permission". done.
  - destruct (tenant_id caller); [|done]. destruct (owned_by _ _); [done|]. intros [= <-].
    exists "subject ", " is not authorized for namespace ". done.
Qed.
