(* ===== verification/HealthScanTheorems.v ===== *)
(** * Theorems about the health scan (rpc: health_probes.rs, over the in-memory store)

    What one scan does to every stored instance, whatever the network answers and
    whatever order the instances are visited in, and what repeated scans do to an
    instance that stops answering. *)
From S2P Require Import Prelude RustStr Collections Contract StorageContract MemoryStore.
From S2P Require Import MemoryRegistry RegistryTheorems MemoryConfig ConfigTheorems MemoryWatch.
From S2P Require Import MemoryInstance ControlPlane ControlPlaneTheorems Actor.

(** ** The outcome of a probe for one instance *)

(** The check an instance is due for: it has one with an interval, its lease runs, and
    it was never probed or the interval has passed since. *)
Definition due (now : N) (i : ServiceInstance) : option HealthCheckConfig :=
  c ← si_health_check i;
  let last := last_check_ms (si_health_check_state i) in
  if (now <? si_expires_at_ms i) && ((0 <? hc_interval_ms c)
       && ((last =? 0) || (hc_interval_ms c <=? now - last)))
  then Some c else None.

(** The counters after the probe of a due instance: an answer counts as a success and
    ends a run of failures, no answer counts as a failure and ends a run of successes. *)
Definition probed (net : Network) (now : N) (c : HealthCheckConfig) (i : ServiceInstance)
    : HealthCheckRuntimeState :=
  let st := si_health_check_state i in
  if net (si_endpoint i) (hc_probe c) (hc_timeout_ms c)
  then {| consecutive_successes := u32_succ (consecutive_successes st);
          consecutive_failures := 0; last_check_ms := now |}
  else {| consecutive_successes := 0;
          consecutive_failures := u32_succ (consecutive_failures st); last_check_ms := now |}.

(** The status the probe moves the instance to, if it does. *)
Definition transition (net : Network) (now : N) (i : ServiceInstance) : option InstanceStatus :=
  c ← due now i;
  if is_discoverable (si_status i)
  then if hc_unhealthy_threshold c <=? consecutive_failures (probed net now c i)
       then Some NotServing else None
  else if hc_healthy_threshold c <=? consecutive_successes (probed net now c i)
       then Some Serving else None.

Lemma next_health_state_probed net now c i :
  next_health_state (net (si_endpoint i) (hc_probe c) (hc_timeout_ms c)) now
    (si_health_check_state i) = probed net now c i.
Proof. unfold probed. by destruct (net _ _ _). Qed.

Lemma due_for_check_spec st c now :
  due_for_check st c now = (0 <? hc_interval_ms c)
    && ((last_check_ms st =? 0) || (hc_interval_ms c <=? now - last_check_ms st)).
Proof.
  unfold due_for_check, saturating_sub.
  destruct (N.eqb_spec (hc_interval_ms c) 0) as [->|]; [done|].
  by rewrite (proj2 (N.ltb_lt 0 _)) by lia.
Qed.

(** The instance after the scan; [rev] is the revision of its transition. *)
Definition scanned (net : Network) (now rev : N) (i : ServiceInstance) : ServiceInstance :=
  match due now i with
  | None => i
  | Some c =>
      let j := set_health_check_state (probed net now c i) i in
      match transition net now i with Some st => set_status st rev j | None => j end
  end.

Definition transits (net : Network) (now : N) (i : ServiceInstance) : bool :=
  bool_decide (is_Some (transition net now i)).

Definition status_event (revision : N) (i : ServiceInstance) : DiscoveryEvent :=
  instance_event InstanceStatusReported revision (si_namespace i) (si_environment i)
    (si_service_name i) (si_instance_id i).

(** ** One instance *)

Section one_scan.
Context (h : HashOrder) (dh : N → N → N) (net : Network) (now : N).

Abbreviation check := (@check_instance _ (@memory_registry_store h dh) net now).

(** What a probe leaves of the store when the entry is the one that was listed. *)
Definition probe_commit (i : ServiceInstance) (s : MemoryDiscoveryStore) : MemoryDiscoveryStore :=
  let rev := u64_succ (revision s) in
  let s1 := set_instances (<[key_of i := scanned net now rev i]> (instances s)) s in
  if transits net now i then push_event (status_event rev i) (set_revision rev s1) else s1.

Lemma report_instance_status_run command s i :
  let key := {| ik_namespace := sc_namespace command; ik_environment := sc_environment command;
                ik_service_name := sc_service_name command;
                ik_instance_id := sc_instance_id command |} in
  key_named key → instances s !! key = Some i → key_of i = key →
  sc_now_ms command < si_expires_at_ms i → sc_expected_revision command = None →
  (MemoryRegistry.report_instance_status command s).1 =
    push_event (status_event (u64_succ (revision s)) i)
      (set_instances (<[key := set_status (sc_status command) (u64_succ (revision s)) i]>
         (instances s)) (set_revision (u64_succ (revision s)) s)).
Proof.
  intros key (N1 & N2 & N3 & N4) Hi Hkey Hlive Hcas.
  unfold MemoryRegistry.report_instance_status, validate_non_empty. fold key.
  simpl in N1, N2, N3, N4. rewrite N1, N2, N3, N4. rewrite !lift_bind_run, gets_bind_run, Hi.
  simpl ok_or. rewrite !lift_bind_run. destruct (N.leb_spec (si_expires_at_ms i) (sc_now_ms command)).
  { lia. } by rewrite Hcas.
Qed.

Lemma set_store_id {S} (p : DiscoveryControlPlane S) : set_store (store p) p = p.
Proof. by destruct p. Qed.

Lemma set_instances_id s : set_instances (instances s) s = s.
Proof. by destruct s. Qed.

(** A status report on behalf of the checker runs on the store. *)
Lemma checker_report p i st :
  (@ControlPlane.report_instance_status _ (@memory_registry_store h dh) checker_caller
     (status_command i st now) p).1 =
  set_store (MemoryRegistry.report_instance_status (status_command i st now) (store p)).1 p.
Proof.
  unfold ControlPlane.report_instance_status. rewrite lift_bind_run. simpl.
  rewrite lift_bind_run. simpl. unfold on_store. simpl.
  by destruct (MemoryRegistry.report_instance_status _ _).
Qed.

(** Persisting the counters of a stored instance. *)
Definition store_probed (i : ServiceInstance) (st : HealthCheckRuntimeState)
    (s : MemoryDiscoveryStore) : MemoryDiscoveryStore :=
  set_instances (<[key_of i := set_health_check_state st i]> (instances s)) s.

Lemma store_health_state p i st :
  instances (store p) !! key_of i = Some i →
  (on_store (update_health_check_state (si_namespace i) (si_environment i)
     (si_service_name i) (si_instance_id i) st) p).1 = set_store (store_probed i st (store p)) p.
Proof.
  intros Hi. unfold on_store, update_health_check_state. rewrite gets_bind_run, lift_bind_run.
  change (Build_InstanceKey _ _ _ _) with (key_of i). by rewrite Hi.
Qed.

Lemma check_instance_run p i :
  store_wf (store p) → instances (store p) !! key_of i = Some i →
  now < si_expires_at_ms i → is_Some (si_health_check i) →
  check i p = set_store (probe_commit i (store p)) p.
Proof.
  intros Hwf Hi Hlive [c Hc].
  pose proof (rw_named _ _ _ _ (wf_registry _ Hwf) _ _ Hi) as Hnamed.
  unfold check_instance, probe_commit, transits, scanned, transition, due. rewrite Hc. simpl.
  rewrite (proj2 (N.ltb_lt _ _) Hlive). simpl.
  rewrite <- due_for_check_spec.
  destruct (due_for_check (si_health_check_state i) c now); simpl.
  2:{ by rewrite insert_id, set_instances_id, set_store_id. }
  rewrite next_health_state_probed. set (st := probed net now c i).
  fold (is_unhealthy st c) (is_healthy st c).
  rewrite (store_health_state p i st Hi).
  assert (∀ status, (@ControlPlane.report_instance_status _ (@memory_registry_store h dh)
    checker_caller (status_command i status now)
    (set_store (store_probed i st (store p)) p)).1 = set_store
      (push_event (status_event (u64_succ (revision (store p))) i)
         (set_revision (u64_succ (revision (store p)))
            (set_instances (<[key_of i := set_status status (u64_succ (revision (store p)))
                                (set_health_check_state st i)]> (instances (store p)))
               (store p)))) p) as Hrep.
  { intros status. rewrite checker_report. simpl store.
    rewrite (report_instance_status_run _ _ (set_health_check_state st i)); [|done| |done|done|done].
    - unfold store_probed. simpl. change (Build_InstanceKey _ _ _ _) with (key_of i).
      by rewrite insert_insert_eq.
    - unfold store_probed. simpl. change (Build_InstanceKey _ _ _ _) with (key_of i).
      apply lookup_insert_eq. }
  destruct (is_discoverable (si_status i)); rewrite ?andb_true_r, ?andb_false_r; simpl.
  - destruct (is_unhealthy st c); [apply Hrep|done].
  - destruct (is_healthy st c); [apply Hrep|done].
Qed.

Lemma scanned_same rev i :
  key_of (scanned net now rev i) = key_of i ∧ si_lease_id (scanned net now rev i) = si_lease_id i
  ∧ si_revision (scanned net now rev i) = if transits net now i then rev else si_revision i.
Proof.
  unfold scanned, transits, transition. destruct (due now i) as [c|]; [|done]. simpl.
  destruct (is_discoverable _); destruct (_ <=? _); done.
Qed.

Lemma probe_commit_wf i s :
  store_wf s → headroom 1 s → instances s !! key_of i = Some i → store_wf (probe_commit i s).
Proof.
  intros Hwf Hroom Hi. destruct (headroom_succ s Hroom) as [Hr _]. unfold probe_commit. rewrite Hr.
  destruct (scanned_same (revision s + 1) i) as (Hk & Hl & Hv).
  destruct (transits net now i).
  - apply (store_wf_step s); [done|done|simpl; lia|done|simpl].
    eapply registry_wf_update; [|exact Hi|done|done|lia].
    eapply registry_wf_mono; [done| |apply Hwf]. lia.
  - apply (store_wf_quiet s); [done|simpl; lia..|simpl].
    eapply registry_wf_update; [apply Hwf|exact Hi|done|done|]. rewrite Hv.
    by eapply rw_rev; [apply Hwf|].
Qed.

Definition event_key (e : DiscoveryEvent) : InstanceKey :=
  {| ik_namespace := de_namespace e; ik_environment := de_environment e;
     ik_service_name := default "" (de_service_name e); ik_instance_id := de_resource_id e |}.

(** What a scan leaves of the store [s], given the instances it visits. *)
Record scan_of (l : list ServiceInstance) (s s' : MemoryDiscoveryStore)
    (es : list DiscoveryEvent) : Prop := {
  so_log : events s' = events s ++ es;
  so_revision : revision s' = revision s + len_N es;
  so_numbers n e : es !! n = Some e → de_revision e = revision s + N.of_nat n + 1;
  so_keys : event_key <$> es = key_of <$> retain (transits net now) l;
  so_kind e : e ∈ es → de_kind e = InstanceStatusReported;
  so_rest : lease_index s' = lease_index s ∧ drafts s' = drafts s ∧ releases s' = releases s
            ∧ idempotency s' = idempotency s ∧ next_sequence s' = next_sequence s;
  so_frame k : k ∉ key_of <$> l → instances s' !! k = instances s !! k;
  so_scanned i : i ∈ l → ∃ rev,
    instances s' !! key_of i = Some (scanned net now rev i)
    ∧ (transits net now i = true → status_event rev i ∈ es);
}.

Definition probe_events (i : ServiceInstance) (s : MemoryDiscoveryStore) : list DiscoveryEvent :=
  if transits net now i then [status_event (u64_succ (revision s)) i] else [].

Lemma scan_of_cons i l s s' es :
  headroom 1 s → instances s !! key_of i = Some i → key_of i ∉ key_of <$> l →
  scan_of l (probe_commit i s) s' es → scan_of (i :: l) s s' (probe_events i s ++ es).
Proof.
  intros Hroom Hi Hout [Hlog Hrev Hnum Hkeys Hkind Hrest Hframe Hscan].
  destruct (headroom_succ s Hroom) as [Hr _].
  assert (instances (probe_commit i s) = <[key_of i := scanned net now (revision s + 1) i]>
            (instances s)) as Hins by (unfold probe_commit; rewrite Hr; by destruct (transits _ _ _)).
  assert (∀ e, e ∈ probe_events i s → e = status_event (revision s + 1) i) as Hpe.
  { unfold probe_events. rewrite Hr. intros e. destruct (transits net now i);
      [by intros ->%list_elem_of_singleton|by intros ?%elem_of_nil]. }
  split.
  - rewrite Hlog, app_assoc. f_equal. unfold probe_commit, probe_events.
    destruct (transits net now i); [done|]. by rewrite app_nil_r.
  - rewrite Hrev. unfold probe_commit, probe_events, len_N. rewrite Hr.
    destruct (transits net now i); simpl; lia.
  - intros n e. unfold probe_commit, probe_events in *. rewrite Hr in *.
    destruct (transits net now i); [|apply Hnum]. destruct n as [|n]; [intros [= <-]; simpl; lia|].
    intros He. apply Hnum in He. simpl in He. lia.
  - rewrite fmap_app, Hkeys, retain_cons. unfold probe_events.
    by destruct (transits net now i).
  - intros e [->%Hpe|He]%elem_of_app; [done|by apply Hkind].
  - destruct Hrest as (-> & -> & -> & -> & ->). unfold probe_commit.
    by destruct (transits net now i).
  - intros k Hk. rewrite fmap_cons, not_elem_of_cons in Hk. destruct Hk as [Hk Hkl].
    rewrite Hframe, Hins by done. by rewrite lookup_insert_ne.
  - intros j [->|Hj]%elem_of_cons.
    + exists (revision s + 1). split.
      * rewrite Hframe, Hins by done. apply lookup_insert_eq.
      * intros Ht. apply elem_of_app. left. unfold probe_events. rewrite Ht, Hr. left.
    + destruct (Hscan j Hj) as (rev & Hj' & Hev). exists rev. split; [done|].
      intros Ht. apply elem_of_app. right. by apply Hev.
Qed.

Lemma scan_list l p :
  store_wf (store p) → headroom (len_N l) (store p) → NoDup (key_of <$> l) →
  (∀ i, i ∈ l → instances (store p) !! key_of i = Some i ∧ now < si_expires_at_ms i
                ∧ is_Some (si_health_check i)) →
  ∃ s' es, foldl (λ p i, check i p) p l = set_store s' p ∧ store_wf s'
           ∧ scan_of l (store p) s' es.
Proof.
  revert p. induction l as [|i l IH]; intros p Hwf Hroom Hnd Hl; simpl.
  { exists (store p), []. rewrite set_store_id. split_and!; [done|done|]. split; simpl; try done.
    - by rewrite app_nil_r.
    - unfold len_N. simpl. lia.
    - by intros e ?%elem_of_nil.
    - by intros i ?%elem_of_nil. }
  rewrite fmap_cons, NoDup_cons in Hnd. destruct Hnd as [Hout Hnd].
  destruct (Hl i ltac:(left)) as (Hi & Hlive & Hc).
  assert (headroom 1 (store p)) as H1 by (revert Hroom; apply headroom_weaken; unfold len_N; simpl; lia).
  rewrite check_instance_run by done.
  destruct (IH (set_store (probe_commit i (store p)) p)) as (s' & es & Hrun & Hwf' & Hscan).
  - by apply probe_commit_wf.
  - destruct Hroom as [Ha Hb], (headroom_succ _ H1) as [Hr _].
    unfold len_N in Ha, Hb |- *. simpl in *. unfold headroom, probe_commit.
    destruct (transits net now i); simpl; rewrite ?Hr; lia.
  - done.
  - intros j Hj. destruct (Hl j ltac:(by right)) as (Hj' & ? & ?). split; [|done]. simpl.
    assert (key_of i ≠ key_of j) by (intros E; apply Hout; rewrite E; by apply list_elem_of_fmap_2).
    unfold probe_commit. destruct (transits net now i); simpl; by rewrite lookup_insert_ne.
  - exists s', (probe_events i (store p) ++ es). rewrite Hrun. simpl in *.
    split_and!; [by destruct p|done|]. by apply scan_of_cons.
Qed.

(** The instances a scan visits. *)
Definition visited (s : MemoryDiscoveryStore) : list ServiceInstance :=
  retain (λ i, bool_decide (is_Some (si_health_check i)) && (now <? si_expires_at_ms i))
    (hash_values (instances s)).

Lemma elem_of_visited s i :
  store_wf s →
  i ∈ visited s ↔ instances s !! key_of i = Some i ∧ is_Some (si_health_check i)
                  ∧ now < si_expires_at_ms i.
Proof.
  intros Hwf. unfold visited.
  rewrite elem_of_retain, andb_true_iff, bool_decide_eq_true, N.ltb_lt, elem_of_hash_values. split.
  - intros [[Hc Hl] [k Hk]]. by rewrite (rw_key _ _ _ _ (wf_registry _ Hwf) _ _ Hk).
  - intros (Hk & Hc & Hl). eauto.
Qed.

Lemma visited_length s : len_N (visited s) <= N.of_nat (size (instances s)).
Proof.
  unfold len_N, visited. rewrite <- hash_iter_length.
  pose proof (sublist_length _ _ (retain_sublist (λ i, bool_decide (is_Some (si_health_check i))
    && (now <? si_expires_at_ms i)) (hash_values (instances s)))) as Hle.
  unfold hash_values in Hle at 2. rewrite length_fmap in Hle. lia.
Qed.

Lemma transits_visited s k i :
  store_wf s → instances s !! k = Some i → transits net now i = true → i ∈ visited s.
Proof.
  intros Hwf Hk Ht. apply elem_of_visited; [done|].
  pose proof (rw_key _ _ _ _ (wf_registry _ Hwf) _ _ Hk) as ->. split; [done|].
  unfold transits, transition, due in Ht. apply bool_decide_eq_true in Ht as [st Ht].
  destruct (si_health_check i) as [c|]; [|done]. split; [done|]. simpl in Ht.
  destruct (N.ltb_spec now (si_expires_at_ms i)); [done|]. done.
Qed.

Abbreviation scan p := (@run_health_checks _ (@memory_registry_store h dh) net now p).

Lemma run_health_checks_run p :
  store_wf (store p) → headroom (N.of_nat (size (instances (store p)))) (store p) →
  ∃ s' es, scan p = set_store s' p ∧ store_wf s' ∧ scan_of (visited (store p)) (store p) s' es.
Proof.
  intros Hwf Hroom. apply scan_list; [done| | |].
  - revert Hroom. apply headroom_weaken, visited_length.
  - eapply NoDup_fmap_sublist; [apply retain_sublist|]. rewrite hash_values_keys by done.
    apply NoDup_hash_keys.
  - intros i (Hi & Hc & Hl)%elem_of_visited; done.
Qed.

Lemma scanned_stored s s' es k i :
  store_wf s → scan_of (visited s) s s' es → instances s !! k = Some i →
  ∃ rev, instances s' !! k = Some (scanned net now rev i)
         ∧ (is_Some (transition net now i) → status_event rev i ∈ es).
Proof.
  intros Hwf Hscan Hk. pose proof (rw_key _ _ _ _ (wf_registry _ Hwf) _ _ Hk) as Hkey.
  destruct (decide (i ∈ visited s)) as [Hv|Hv].
  - destruct (so_scanned _ _ _ _ Hscan i Hv) as (rev & Hi' & Hev). rewrite Hkey in Hi'.
    exists rev. split; [done|]. intros Ht. apply Hev. by apply bool_decide_eq_true.
  - assert (due now i = None) as Hd.
    { unfold due. destruct (si_health_check i) as [c|] eqn:Ec; [|done]. simpl.
      destruct (N.ltb_spec now (si_expires_at_ms i)); [|done]. destruct Hv.
      apply elem_of_visited; [done|]. rewrite Hkey, Ec. eauto. }
    exists 0. unfold transition, scanned. rewrite Hd. simpl. split; [|by intros [? ?]].
    rewrite (so_frame _ _ _ _ Hscan); [done|].
    intros (j & Ej & Hj)%list_elem_of_fmap. apply Hv.
    pose proof Hj as (Hj' & _)%elem_of_visited; [|done].
    assert (i = j) as -> by (rewrite <- Ej in Hj'; congruence). done.
Qed.

(** C36: a health scan, whatever the network answers and whatever order it visits
    the instances in, updates exactly the instances whose check is due: each gets
    the counters of its probe, and is taken out of service, or back into it, exactly
    when the counters reach the threshold of its configuration.  The changes of status
    take the revisions after the store's one by one: each is logged as one event, and
    event and instance carry the same revision, which no other event has.  No instance
    appears or disappears. *)
Theorem health_scan_exact p :
  let s := store p in
  store_wf s → headroom (N.of_nat (size (instances s))) s →
  ∃ s' es, scan p = set_store s' p
    ∧ events s' = events s ++ es ∧ revision s' = revision s + len_N es
    ∧ (∀ n e, es !! n = Some e → de_revision e = revision s + N.of_nat n + 1)
    ∧ NoDup (event_key <$> es)
    ∧ (∀ e, e ∈ es → de_kind e = InstanceStatusReported)
    ∧ (∀ k, k ∈ event_key <$> es ↔
            ∃ i, instances s !! k = Some i ∧ is_Some (transition net now i))
    ∧ (∀ k, instances s !! k = None → instances s' !! k = None)
    ∧ ∀ k i, instances s !! k = Some i →
        ∃ rev, instances s' !! k = Some (scanned net now rev i)
               ∧ (is_Some (transition net now i) →
                  si_revision (scanned net now rev i) = rev ∧ status_event rev i ∈ es).
Proof.
  intros s Hwf Hroom. destruct (run_health_checks_run p Hwf Hroom) as (s' & es & Hrun & _ & Hscan).
  fold s in Hscan. exists s', es. split; [done|].
  assert (NoDup (key_of <$> visited s)) as Hnd.
  { eapply NoDup_fmap_sublist; [apply retain_sublist|]. rewrite hash_values_keys by done.
    apply NoDup_hash_keys. }
  split_and!; try apply Hscan.
  - rewrite (so_keys _ _ _ _ Hscan). eapply NoDup_fmap_sublist; [apply retain_sublist|done].
  - intros k. rewrite (so_keys _ _ _ _ Hscan), list_elem_of_fmap. split.
    + intros (i & -> & [Ht Hi]%elem_of_retain). exists i.
      pose proof Hi as (Hi' & _)%elem_of_visited; [|done]. split; [done|].
      by apply bool_decide_eq_true in Ht.
    + intros (i & Hi & Ht). exists i. split.
      * symmetry. by eapply rw_key; [apply Hwf|].
      * apply elem_of_retain. apply (bool_decide_eq_true_2 (is_Some _)) in Ht as Ht'.
        split; [done|]. by eapply transits_visited.
  - intros k Hk. rewrite (so_frame _ _ _ _ Hscan); [done|].
    intros (i & -> & (Hi & _)%elem_of_visited)%list_elem_of_fmap; [|done]. congruence.
  - intros k i Hi. destruct (scanned_stored s s' es k i Hwf Hscan Hi) as (rev & Hs & He).
    exists rev. split; [done|]. intros Ht. split; [|by apply He].
    destruct (scanned_same rev i) as (_ & _ & ->). unfold transits.
    by rewrite bool_decide_eq_true_2.
Qed.
End one_scan.

(** ** Repeated scans *)

Section many_scans.
Context (h : HashOrder) (dh : N → N → N).

Definition run_scans (p : DiscoveryControlPlane MemoryDiscoveryStore) (scans : list (N * Network))
    : DiscoveryControlPlane MemoryDiscoveryStore :=
  foldl (λ p '(t, net), @run_health_checks _ (@memory_registry_store h dh) net t p) p scans.

(** Each scan comes at least the interval of the check after the one before. *)
Fixpoint paced (interval last : N) (scans : list (N * Network)) : Prop :=
  match scans with
  | [] => True
  | (t, _) :: scans => (last = 0 ∨ interval <= t - last) ∧ paced interval t scans
  end.

(** One failing probe of a due instance that is still in service. *)
Lemma failing_probe net now rev c i :
  si_health_check i = Some c → 0 < hc_interval_ms c → now < si_expires_at_ms i →
  last_check_ms (si_health_check_state i) = 0
  ∨ hc_interval_ms c <= now - last_check_ms (si_health_check_state i) →
  net (si_endpoint i) (hc_probe c) (hc_timeout_ms c) = false →
  is_discoverable (si_status i) = true →
  consecutive_failures (si_health_check_state i) < u32_max →
  let i' := scanned net now rev i in
  let f := consecutive_failures (si_health_check_state i) + 1 in
  si_health_check_state i' =
    {| consecutive_successes := 0; consecutive_failures := f; last_check_ms := now |}
  ∧ si_status i' = (if hc_unhealthy_threshold c <=? f then NotServing else si_status i)
  ∧ si_health_check i' = Some c ∧ si_endpoint i' = si_endpoint i
  ∧ si_expires_at_ms i' = si_expires_at_ms i ∧ key_of i' = key_of i.
Proof.
  intros Hc Hint Hlive Hdue Hnet Hst Hmax. unfold scanned, transition, due. rewrite Hc. simpl.
  rewrite (proj2 (N.ltb_lt _ _) Hlive). simpl.
  rewrite (proj2 (N.ltb_lt 0 _) Hint), (proj2 (orb_true_iff _ _))
    by (rewrite N.eqb_eq, N.leb_le; done).
  simpl. unfold probed. rewrite Hnet, Hst. simpl.
  rewrite u32_succ_small by done. by destruct (_ <=? _).
Qed.

Lemma run_scans_step p t net :
  store_wf (store p) → headroom (N.of_nat (size (instances (store p)))) (store p) →
  ∃ s', @run_health_checks _ (@memory_registry_store h dh) net t p = set_store s' p
    ∧ store_wf s' ∧ size (instances s') = size (instances (store p))
    ∧ revision s' <= revision (store p) + N.of_nat (size (instances (store p)))
    ∧ next_sequence s' = next_sequence (store p)
    ∧ ∀ k i, instances (store p) !! k = Some i →
        ∃ rev, instances s' !! k = Some (scanned net t rev i).
Proof.
  intros Hwf Hroom. destruct (run_health_checks_run h dh net t p Hwf Hroom)
    as (s' & es & Hrun & Hwf' & Hscan). exists s'.
  assert (∀ k i, instances (store p) !! k = Some i →
    ∃ rev, instances s' !! k = Some (scanned net t rev i)) as Hin.
  { intros k i Hi. destruct (scanned_stored h net t _ _ _ k i Hwf Hscan Hi) as (rev & ? & _).
    eauto. }
  split_and!; [done|done| | |apply Hscan|done].
  - rewrite <- !size_dom. f_equal. apply set_eq. intros k. rewrite !elem_of_dom.
    destruct (instances (store p) !! k) as [i|] eqn:Ek.
    + destruct (Hin k i Ek) as (rev & ->). done.
    + rewrite (so_frame _ _ _ _ _ _ Hscan), Ek; [done|].
      intros (i & -> & (Hi & _)%elem_of_visited)%list_elem_of_fmap; [|done]. congruence.
  - rewrite (so_revision _ _ _ _ _ _ Hscan). pose proof (visited_length h t (store p)).
    pose proof (f_equal length (so_keys _ _ _ _ _ _ Hscan)) as Hlen.
    rewrite !length_fmap in Hlen.
    pose proof (sublist_length _ _ (retain_sublist (transits net t) (visited h t (store p)))).
    unfold len_N in *. lia.
Qed.

(** The same instance up to its status and the state of its checks. *)
Definition same_registration (i i' : ServiceInstance) : Prop :=
  ∃ status rev state, i' = set_status status rev (set_health_check_state state i).

Lemma scanned_registration net t rev i : same_registration i (scanned net t rev i).
Proof.
  unfold scanned, same_registration. destruct (due t i); [destruct (transition net t i)|].
  - by eexists _, _, _.
  - exists (si_status i), (si_revision i). by eexists.
  - exists (si_status i), (si_revision i), (si_health_check_state i). by destruct i.
Qed.

Lemma same_registration_trans i i' i'' :
  same_registration i i' → same_registration i' i'' → same_registration i i''.
Proof. intros (? & ? & ? & ->) (? & ? & ? & ->). by eexists _, _, _. Qed.

Lemma same_registration_filter i i' q now :
  same_registration i i' → dq_healthy_only q = false → discover_filter q now i' = discover_filter q now i.
Proof. intros (? & ? & ? & ->) Hq. unfold discover_filter. by rewrite Hq. Qed.

Lemma run_scans_present p scans k i :
  store_wf (store p) →
  headroom (len_N scans * N.of_nat (size (instances (store p)))) (store p) →
  instances (store p) !! k = Some i →
  store_wf (store (run_scans p scans))
  ∧ ∃ i', instances (store (run_scans p scans)) !! k = Some i' ∧ same_registration i i'.
Proof.
  revert p i. induction scans as [|[t net] scans IH]; intros p i Hwf Hroom Hk.
  { split; [done|]. exists i. split; [done|].
    exists (si_status i), (si_revision i), (si_health_check_state i). by destruct i. }
  assert (len_N ((t, net) :: scans) = len_N scans + 1) as Hlen by (unfold len_N; simpl; lia).
  rewrite Hlen in Hroom.
  destruct (run_scans_step p t net Hwf) as (s' & Hrun & Hwf' & Hsize & Hrev & Hseq & Hin).
  { revert Hroom. apply headroom_weaken. lia. }
  destruct (Hin k i Hk) as (rev & Hk'). unfold run_scans. simpl. rewrite Hrun.
  destruct (IH (set_store s' p) (scanned net t rev i)) as (Hwf2 & i' & Hi' & Hs); [done| |exact Hk'|].
  - simpl. rewrite Hsize. destruct Hroom. split; lia.
  - split; [done|]. exists i'. split; [done|].
    eapply same_registration_trans; [apply scanned_registration|exact Hs].
Qed.

(** What discovery tells of a scanned store about an instance that is out of service. *)
Lemma withdrawn_discovery s k i :
  store_wf s → instances s !! k = Some i → si_status i = NotServing →
  ∀ q now r j, MemoryRegistry.discover_instances dh q now s = Ok r → j ∈ di_instances r →
    key_of j = k → dq_healthy_only q = false ∧ j = i.
Proof.
  intros Hwf Hi Hst q now r j Hr Hj Hk. unfold MemoryRegistry.discover_instances in Hr.
  repeat apply result_bind_Ok in Hr as ([] & _ & Hr). injection Hr as <-.
  apply finalize_discover_elem, elem_of_retain in Hj as [Hf [k' Hj]%elem_of_hash_values].
  pose proof (rw_key _ _ _ _ (wf_registry _ Hwf) _ _ Hj) as Hk'.
  assert (j = i) as -> by congruence. split; [|done].
  unfold discover_filter in Hf. rewrite Hst in Hf. destruct (dq_healthy_only q); [|done].
  by rewrite andb_false_r in Hf.
Qed.

Lemma failing_scans c k scans p i :
  store_wf (store p) →
  headroom (len_N scans * N.of_nat (size (instances (store p)))) (store p) →
  instances (store p) !! k = Some i → si_health_check i = Some c →
  0 < hc_interval_ms c → hc_unhealthy_threshold c <= u32_max →
  is_discoverable (si_status i) = true →
  consecutive_failures (si_health_check_state i) + len_N scans <= hc_unhealthy_threshold c →
  paced (hc_interval_ms c) (last_check_ms (si_health_check_state i)) scans →
  (∀ t net, (t, net) ∈ scans → t < si_expires_at_ms i
                ∧ net (si_endpoint i) (hc_probe c) (hc_timeout_ms c) = false) →
  ∃ i', instances (store (run_scans p scans)) !! k = Some i'
    ∧ si_status i' =
        (if (0 <? len_N scans) &&
            (hc_unhealthy_threshold c <=?
             consecutive_failures (si_health_check_state i) + len_N scans)
         then NotServing else si_status i).
Proof.
  revert p i. induction scans as [|[t net] scans IH];
    intros p i Hwf Hroom Hk Hc Hint Hth Hst Hf Hpace Hscans; [by exists i|].
  destruct Hpace as [Hdue Hpace]. destruct (Hscans t net ltac:(left)) as [Hlive Hnet].
  assert (len_N ((t, net) :: scans) = len_N scans + 1) as Hlen by (unfold len_N; simpl; lia).
  rewrite Hlen in *.
  destruct (run_scans_step p t net Hwf) as (s' & Hrun & Hwf' & Hsize & Hrev & Hseq & Hin).
  { revert Hroom. apply headroom_weaken. lia. }
  destruct (Hin k i Hk) as (rev & Hk').
  destruct (failing_probe net t rev c i) as (Est & Estat & Ehc & Eep & Eexp & _); [done..|lia|].
  set (f := consecutive_failures (si_health_check_state i)) in *.
  change (run_scans p ((t, net) :: scans)) with
    (run_scans (@run_health_checks _ (@memory_registry_store h dh) net t p) scans).
  rewrite Hrun, (proj2 (N.ltb_lt 0 (len_N scans + 1))) by lia. simpl andb.
  destruct (decide (scans = [])) as [->|Hne].
  { eexists. split; [exact Hk'|]. rewrite Estat. change (len_N []) with 0.
    by replace (f + (0 + 1)) with (f + 1) by lia. }
  assert (0 < len_N scans) as Hpos by (destruct scans; [done|unfold len_N; simpl; lia]).
  assert (si_status (scanned net t rev i) = si_status i) as Esame.
  { rewrite Estat. destruct (N.leb_spec (hc_unhealthy_threshold c) (f + 1)); [lia|done]. }
  destruct (IH (set_store s' p) (scanned net t rev i)) as (i' & Hi' & Hi'st);
    rewrite ?Est, ?Esame, ?Eep, ?Eexp; simpl; try done.
  - rewrite Hsize. destruct Hroom as [Ha Hb]. split; lia.
  - lia.
  - intros t' net' Hx. apply Hscans. by right.
  - exists i'. split; [done|]. rewrite Hi'st, Esame, Est, (proj2 (N.ltb_lt 0 (len_N scans))) by done.
    simpl. by replace (f + 1 + len_N scans) with (f + (len_N scans + 1)) by lia.
Qed.

(** An instance whose endpoint no longer answers stays in service while fewer
    due scans than its unhealthy threshold have failed, and is out of service with the
    scan that reaches the threshold, whatever the network answers for the other
    instances: discovery of healthy instances no longer returns it, other discovery
    returns it as before but marked as not serving. *)
Theorem silent_instance_withdrawn p scans k i c :
  store_wf (store p) →
  headroom (len_N scans * N.of_nat (size (instances (store p)))) (store p) →
  instances (store p) !! k = Some i → si_health_check i = Some c →
  0 < hc_interval_ms c → hc_unhealthy_threshold c <= u32_max →
  is_discoverable (si_status i) = true → consecutive_failures (si_health_check_state i) = 0 →
  paced (hc_interval_ms c) (last_check_ms (si_health_check_state i)) scans →
  (∀ t net, (t, net) ∈ scans → t < si_expires_at_ms i
                ∧ net (si_endpoint i) (hc_probe c) (hc_timeout_ms c) = false) →
  let s' := store (run_scans p scans) in
  ∃ i', instances s' !! k = Some i'
    ∧ (len_N scans < hc_unhealthy_threshold c → si_status i' = si_status i)
    ∧ (len_N scans = hc_unhealthy_threshold c → 0 < len_N scans →
       si_status i' = NotServing
       ∧ ∀ q now r j, MemoryRegistry.discover_instances dh q now s' = Ok r →
           j ∈ di_instances r → key_of j = k → dq_healthy_only q = false ∧ j = i')
    ∧ ∀ q now, dq_healthy_only q = false → discover_filter q now i' = discover_filter q now i.
Proof.
  intros Hwf Hroom Hk Hc Hint Hth Hst H0 Hpace Hscans s'.
  destruct (run_scans_present p scans k i Hwf Hroom Hk) as (Hwf' & i' & Hi' & Hsame).
  exists i'. split; [done|].
  assert (∀ q now, dq_healthy_only q = false → discover_filter q now i' = discover_filter q now i)
    as Hfil by (intros; by apply same_registration_filter).
  destruct (N.le_gt_cases (len_N scans) (hc_unhealthy_threshold c)) as [Hle|Hgt];
    [|split_and!; [lia|lia|done]].
  destruct (failing_scans c k scans p i) as (i2 & Hi2 & Est); [done..|lia|done|done|].
  assert (i2 = i') as -> by congruence. rewrite H0 in Est. split_and!; [| |done].
  - intros Hlt. rewrite Est. destruct (N.leb_spec (hc_unhealthy_threshold c) (0 + len_N scans)); [lia|].
    by rewrite andb_false_r.
  - intros Heq Hpos. rewrite (proj2 (N.ltb_lt _ _) Hpos), (proj2 (N.leb_le _ _)) in Est by lia.
    split; [done|]. by apply withdrawn_discovery.
Qed.
End many_scans.

(** ** A checked instance *)

Definition sample_check : HealthCheckConfig :=
  {| hc_probe := ProbeTcp; hc_interval_ms := 1000; hc_timeout_ms := 500;
     hc_unhealthy_threshold := 2; hc_healthy_threshold := 1 |}.

Definition sample_probed : ServiceInstance :=
  {| si_namespace := "acme"; si_environment := "prod"; si_service_name := "drive";
     si_instance_id := "drive-9"; si_endpoint := "10.0.0.9:50051"; si_protocol := "grpc";
     si_version := "0.1.0"; si_region := "eu"; si_zone := "eu-a"; si_weight := 100;
     si_priority := 0; si_status := Serving; si_metadata := ∅; si_lease_id := "lease-3";
     si_expires_at_ms := 31000; si_revision := 3; si_health_check := Some sample_check;
     si_health_check_state := default_health_state |}.

Definition checked_register : RegisterInstanceCommand :=
  {| rc_namespace := "acme"; rc_environment := "prod"; rc_service_name := "drive";
     rc_instance_id := "drive-9"; rc_endpoint := "10.0.0.9:50051"; rc_protocol := "grpc";
     rc_version := "0.1.0"; rc_region := "eu"; rc_zone := "eu-a"; rc_weight := 100;
     rc_priority := 0; rc_status := Serving; rc_metadata := ∅;
     rc_lease_ttl_seconds := 30; rc_now_ms := 1000; rc_expected_revision := None;
     rc_persistent := false; rc_health_check := Some sample_check |}.

Definition checked_store : MemoryDiscoveryStore :=
  (MemoryRegistry.register_instance checked_register sample_store).1.

Lemma checked_store_wf : store_wf checked_store ∧ headroom 1000 checked_store.
Proof.
  split; [|vm_compute; split; discriminate]. apply register_instance_wf; [apply sample_store_wf|].
  vm_compute. split; discriminate.
Qed.

(** A network in which nothing answers. *)
Definition silent : Network := λ _ _ _, false.

Lemma health_scan_exact_witness :
  ∃ s' es, @run_health_checks _ sample_registry silent 2000 (sample_plane checked_store)
             = set_store s' (sample_plane checked_store)
    ∧ events s' = events checked_store ++ es.
Proof.
  destruct (health_scan_exact canonical_order (λ _ _, 0) silent 2000 (sample_plane checked_store)
    (proj1 checked_store_wf) ltac:(vm_compute; split; discriminate))
    as (s' & es & H1 & H2 & _). exists s', es. split; [exact H1|exact H2].
Defined.

Lemma silent_instance_withdrawn_witness :
  ∃ i', instances (store (run_scans canonical_order (λ _ _, 0) (sample_plane checked_store)
                            [(2000, silent); (3000, silent)])) !! key_of sample_probed = Some i'
        ∧ si_status i' = NotServing.
Proof.
  destruct (silent_instance_withdrawn canonical_order (λ _ _, 0) (sample_plane checked_store)
    [(2000, silent); (3000, silent)] (key_of sample_probed) sample_probed sample_check
    (proj1 checked_store_wf) ltac:(vm_compute; split; discriminate)
    ltac:(vm_compute; reflexivity) ltac:(reflexivity) ltac:(reflexivity)
    ltac:(vm_compute; discriminate) ltac:(reflexivity) ltac:(reflexivity)
    ltac:(split; [by left|split; [right; vm_compute; discriminate|done]]))
    as (i' & Hi' & _ & H2).
  - intros t net Ht. apply elem_of_cons in Ht as [[= -> ->]|Ht];
      [|apply list_elem_of_singleton in Ht as [= -> ->]]; split; reflexivity.
  - exists i'. split; [exact Hi'|]. apply H2; reflexivity.
Defined.
