(* ===== verification/CodecTheorems.v ===== *)
(** * Theorems about the wire codecs

    Which field values are accepted, that decoded requests satisfy what the store
    and the caches rely on, that the identifiers the store issues are accepted back,
    and that the conversions lose nothing. *)
From S2P Require Import Prelude RustStr Collections Contract Discover StorageContract MemoryStore.
From S2P Require Import MemoryRegistry RegistryTheorems MemoryConfig ConfigTheorems MemoryWatch.
From S2P Require Import ControlPlane ControlPlaneTheorems Proto Codec Actor ActorTheorems.
From Stdlib Require Import Ascii String.

(** ** Accepted characters *)

Lemma find_byte_None f s : find_byte f s = None ↔ all_bytes (λ a, negb (f a)) s = true.
Proof.
  induction s as [|a s IH]; simpl; [done|]. destruct (f a); simpl; [|exact IH].
  split; discriminate.
Qed.

Lemma all_bytes_ext f g s :
  (∀ a, f a = g a) → all_bytes f s = all_bytes g s.
Proof. intros Hfg. induction s as [|a s IH]; simpl; [done|]. by rewrite Hfg, IH. Qed.

Lemma identity_char_solid a : is_identity_char a = true → solid a = true.
Proof.
  unfold is_identity_char, is_ascii_alphanumeric, solid, white1. intros H.
  rewrite !orb_true_iff, !andb_true_iff, !N.eqb_eq, !N.leb_le in H.
  rewrite andb_true_iff, N.ltb_lt, negb_true_iff, orb_false_iff, andb_false_iff, !N.leb_gt,
    N.eqb_neq. lia.
Qed.

Lemma identity_not_blank s : s ≠ "" → all_bytes is_identity_char s = true → is_blank s = false.
Proof.
  destruct s as [|a s]; [done|]. simpl. rewrite andb_true_iff. intros _ [Ha _].
  apply solid_not_blank. simpl. by rewrite identity_char_solid.
Qed.

Lemma identity_no_char c s :
  is_identity_char c = false → all_bytes is_identity_char s = true → contains_char c s = false.
Proof.
  intros Hc. induction s as [|a s IH]; simpl; [done|]. rewrite andb_true_iff. intros [Ha Hs].
  rewrite IH by done. case_bool_decide; [|done]. congruence.
Qed.

(** What an accepted identity field is. *)
Record identity (s : string) : Prop := {
  id_nonempty : s ≠ "";
  id_length : len s <= 128;
  id_chars : all_bytes is_identity_char s = true;
}.

Lemma validate_identity_field_Ok field s u : validate_identity_field field s = Ok u ↔ identity s.
Proof.
  unfold validate_identity_field, validate_required_field, MAX_IDENTITY_FIELD_LEN.
  destruct (is_blank s) eqn:Eb; simpl.
  { split; [discriminate|]. intros [Hne _ Hc]. by rewrite identity_not_blank in Eb. }
  destruct (N.ltb_spec 128 (len s)).
  { split; [discriminate|]. intros [_ Hl _]. lia. }
  destruct (find_byte _ s) as [a|] eqn:Ef.
  - split; [discriminate|]. intros [_ _ Hc].
    assert (find_byte (λ a, negb (is_identity_char a)) s = None) as Hn; [|congruence].
    apply find_byte_None. rewrite <- Hc. apply all_bytes_ext. intros b. apply negb_involutive.
  - destruct u. split; [|done]. intros _. apply find_byte_None in Ef. split; [|done|].
    + intros ->. discriminate Eb.
    + rewrite <- Ef. apply all_bytes_ext. intros b. by rewrite negb_involutive.
Qed.

Lemma identity_blank s : identity s → is_blank s = false.
Proof. intros [? _ ?]. by apply identity_not_blank. Qed.

Lemma identity_no_colon s : identity s → contains_char ":" s = false.
Proof. intros [_ _ ?]. by apply identity_no_char. Qed.

Lemma identity_no_slash s : identity s → contains_char "/" s = false.
Proof. intros [_ _ ?]. by apply identity_no_char. Qed.

#[export] Hint Resolve identity_blank identity_no_colon identity_no_slash : discovery.




(** ** Decoded requests *)

#[local] Opaque validate_identity_field validate_endpoint_field validate_short_text_field
  validate_optional_short_text_field.

Lemma validate_instance_names_Ok ns env svc id u :
  validate_instance_names ns env svc id = Ok u ↔
  identity ns ∧ identity env ∧ identity svc ∧ identity id.
Proof.
  unfold validate_instance_names. repeat setoid_rewrite result_bind_Ok.
  setoid_rewrite validate_identity_field_Ok. destruct u. naive_solver.
Qed.

Lemma check_all_Ok {A} (f : A → DiscoveryResult ()) l u :
  check_all f l = Ok u ↔ ∀ x, x ∈ l → f x = Ok ().
Proof.
  destruct u. induction l as [|x l IH]; simpl.
  - split; [|done]. by intros _ x ?%elem_of_nil.
  - rewrite result_bind_Ok. setoid_rewrite elem_of_cons. split.
    + intros ([] & Hx & Hl) y [->|Hy]; [done|]. by apply IH.
    + intros Hall. exists (). split; [apply Hall; by left|]. apply IH. auto.
Qed.


Lemma retrieve_instance_query_Ok request q :
  retrieve_instance_query request = Ok q →
  identity (rq_namespace q) ∧ identity (rq_environment q) ∧ identity (rq_service_name q)
  ∧ identity (rq_instance_id q).
Proof.
  unfold retrieve_instance_query. rewrite result_bind_Ok.
  by intros (u & ?%validate_instance_names_Ok & [= <-]).
Qed.


Lemma retrieve_effective_config_query_Ok request q :
  retrieve_effective_config_query request = Ok q →
  identity (ecq_namespace q) ∧ identity (ecq_environment q) ∧ identity (ecq_application q)
  ∧ identity (ecq_service_name q) ∧ identity (ecq_group q).
Proof.
  unfold retrieve_effective_config_query. repeat setoid_rewrite result_bind_Ok.
  setoid_rewrite validate_identity_field_Ok.
  by intros (_ & H1 & _ & H2 & _ & H3 & _ & H4 & _ & H5 & [= <-]).
Qed.

Lemma discover_instances_query_Ok request q :
  discover_instances_query request = Ok q →
  valid_discover_query q ∧ (dq_sort_by q = Some WeightedRandom → dq_page_token q = None).
Proof.
  unfold discover_instances_query. repeat setoid_rewrite result_bind_Ok.
  setoid_rewrite validate_identity_field_Ok.
  intros (_ & H1 & _ & H2 & _ & H3 & [] & H4 & [] & H5 & [] & H6 & [= <-]).
  unfold valid_discover_query. simpl. split.
  - split_and!; [by apply identity_blank..|]. unfold empty_string_as_none.
    intros p. destruct (is_blank (dreq_protocol request)) eqn:E; naive_solver.
  - intros Hs. rewrite (bool_decide_true _ Hs) in H6. simpl in H6.
    destruct (dreq_page request) as [pg|]; simpl; [|done]. unfold token_of.
    by destruct (is_empty (pg_page_token pg)).
Qed.

















(** ** Caches and tenants behind the decoders *)

(** Behind the decoders the caches of single reads never mix two queries up: two
    lookups, or two reads of an effective configuration, share a cache entry only if
    they are the same query. *)
Theorem decoded_reads_cached_apart :
  (∀ r1 r2 q1 q2, retrieve_instance_query r1 = Ok q1 → retrieve_instance_query r2 = Ok q2 →
     retrieve_instance_cache_key q1 = retrieve_instance_cache_key q2 → q1 = q2)
  ∧ (∀ r1 r2 q1 q2,
     retrieve_effective_config_query r1 = Ok q1 → retrieve_effective_config_query r2 = Ok q2 →
     effective_config_cache_key q1 = effective_config_cache_key q2 → q1 = q2).
Proof.
  split.
  - intros r1 r2 q1 q2 (A1 & A2 & A3 & A4)%retrieve_instance_query_Ok
      (B1 & B2 & B3 & B4)%retrieve_instance_query_Ok. unfold retrieve_instance_cache_key.
    intros E%string_app_inj_l. apply sep_cut_inj in E as [En E]; [|auto with discovery..].
    apply sep_cut_inj in E as [Ee E]; [|auto with discovery..].
    apply sep_cut_inj in E as [Es E]; [|auto with discovery..]. destruct q1, q2. simpl in *. by subst.
  - intros r1 r2 q1 q2 (A1 & A2 & A3 & A4 & A5)%retrieve_effective_config_query_Ok
      (B1 & B2 & B3 & B4 & B5)%retrieve_effective_config_query_Ok. unfold effective_config_cache_key.
    intros E%string_app_inj_l. apply sep_cut_inj in E as [En E]; [|auto with discovery..].
    apply sep_cut_inj in E as [Ee E]; [|auto with discovery..].
    apply sep_cut_inj in E as [Ea E]; [|auto with discovery..].
    apply sep_cut_inj in E as [Es E]; [|auto with discovery..]. destruct q1, q2. simpl in *. by subst.
Qed.

(** A discovery with one label filter and one with two share an entry: label values
    may contain the separators of the key. *)
Lemma discover_key_collision debug_str :
  let query filters :=
    {| dq_namespace := "acme"; dq_environment := "prod"; dq_service_name := "drive";
       dq_healthy_only := false; dq_protocol := None; dq_label_filters := filters;
       dq_sort_by := None; dq_page_size := 0; dq_page_token := None |} in
  let eq k v := {| lf_key := k; lf_op := LabelEq; lf_value := v |} in
  validate_label_filters [eq "a" "1:lf:b:Eq:2"] = Ok ()
  ∧ discover_cache_key debug_str (query [eq "a" "1:lf:b:Eq:2"])
    = discover_cache_key debug_str (query [eq "a" "1"; eq "b" "2"]).
Proof. split; reflexivity. Qed.

(** A namespace that passes the decoders has no slash, so over the wire a caller
    bound to a tenant reaches one namespace only, the one named like the tenant. *)
Lemma wire_tenant_namespace field ns u tenant :
  validate_identity_field field ns = Ok u →
  owned_by tenant ns = true ↔ ns = tenant.
Proof.
  intros Hid%validate_identity_field_Ok. rewrite owned_by_spec. split.
  - intros [->|[rest ->]]; [done|]. apply identity_no_slash in Hid.
    rewrite contains_char_app in Hid. simpl in Hid. by rewrite orb_true_r in Hid.
  - intros ->. by left.
Qed.

(** ** Round trips *)

Lemma timestamp_exact ms :
  ms <= u64_max →
  let t := timestamp_from_millis ms in
  ts_seconds t * 1000 + ts_nanos t / 1000000 = ms ∧ ts_nanos t < 1000000000.
Proof.
  intros Hms. unfold timestamp_from_millis, i64_max. simpl.
  rewrite N.min_l. 2:{ apply N.Div0.div_le_upper_bound. unfold u64_max in Hms. lia. }
  rewrite N.div_mul by done. pose proof (N.mod_lt ms 1000 ltac:(done)).
  split; [|lia]. rewrite N.mul_comm. symmetry. by apply N.Div0.div_mod.
Qed.

Lemma health_check_round_trip c :
  (∀ path st, hc_probe c = ProbeHttp path st → st < u16_modulus) →
  health_check_from_proto (health_check_to_proto c) = Ok c.
Proof.
  destruct c as [[|path st|svc] i t u h]; simpl; intros Hst; try done.
  unfold health_check_from_proto, health_check_probe_from_proto. simpl.
  rewrite N.mod_small by eauto. done.
Qed.

(** C31: the wire form of a value determines it: scopes that the store accepts,
    formats, statuses and health checks decode to what was encoded, scopes it does not
    accept are refused, and times in milliseconds come back exactly from the seconds
    and nanoseconds of a timestamp. *)
Theorem wire_round_trips :
  (∀ scope, let '(ty, app, svc) := config_scope_to_proto_fields scope in
     match validate_config_scope scope with
     | Ok _ => config_scope_from_proto ty app svc = Ok scope
     | Err _ => ∃ m, config_scope_from_proto ty app svc = Err (InvalidArgument m)
     end)
  ∧ (∀ f, config_format_from_proto (config_format_to_proto f) = Ok f)
  ∧ (∀ st, instance_status_from_proto (instance_status_to_proto st) = Ok st)
  ∧ (∀ c, (∀ path st, hc_probe c = ProbeHttp path st → st < u16_modulus) →
       health_check_from_proto (health_check_to_proto c) = Ok c)
  ∧ (∀ ms, ms <= u64_max →
       ts_seconds (timestamp_from_millis ms) * 1000
       + ts_nanos (timestamp_from_millis ms) / 1000000 = ms).
Proof.
  split_and!.
  - intros [|app|app svc]; simpl; [done| |]; unfold config_scope_from_proto, validate_non_empty; simpl.
    + destruct (is_blank app); [by eexists|done].
    + destruct (is_blank app); [by eexists|]. simpl. destruct (is_blank svc); [by eexists|done].
  - by intros [].
  - by intros [].
  - apply health_check_round_trip.
  - intros ms Hms. apply timestamp_exact, Hms.
Qed.

(** ** Page tokens over the wire *)

Lemma strip_white_identity w2 w3 s :
  high2 w2 → high3 w3 → all_bytes is_identity_char s = true → strip_white w2 w3 s = s.
Proof.
  intros H2 H3. destruct s as [|a s]; [done|]. simpl all_bytes. rewrite andb_true_iff.
  intros [Ha _]. apply strip_white_first; [done|done|]. by apply identity_char_solid.
Qed.

(** An identity is not changed by trimming. *)
Lemma identity_trim s : all_bytes is_identity_char s = true → trim s = s.
Proof.
  intros Hs. unfold trim, trim_end, trim_start.
  rewrite (strip_white_identity white2 white3 s) by (done || apply white2_high || apply white3_high).
  rewrite strip_white_identity; [apply rev_rev| | |].
  - intros b a Hw. by destruct (white2_high a b Hw).
  - intros c b a Hw. by destruct (white3_high a b c Hw) as (? & ? & ?).
  - unfold String.rev. by rewrite all_bytes_rev_app, Hs.
Qed.

Lemma token_over_wire t :
  identity t → normalize_page_token (token_of t) = Some t.
Proof.
  intros [Hne _ Hc]. unfold token_of, normalize_page_token. destruct t as [|a t]; [done|].
  simpl is_empty. cbv iota. change (Some (String a t) ≫= ?f) with (f (String a t)). cbv beta zeta.
  by rewrite identity_trim.
Qed.

Definition with_request_token (request : DiscoverInstancesRequest) (page_size : N) (token : string)
    : DiscoverInstancesRequest :=
  {| dreq_namespace := dreq_namespace request; dreq_environment := dreq_environment request;
     dreq_service_name := dreq_service_name request;
     dreq_healthy_only := dreq_healthy_only request; dreq_protocol := dreq_protocol request;
     dreq_label_filters := dreq_label_filters request; dreq_sort_by := dreq_sort_by request;
     dreq_page := Some {| pg_page_size := page_size; pg_page_token := token |} |}.

(** The answers of a service to a client that sends its request again with the token
    of each response until a response carries none. *)
Fixpoint wire_walk `{HashOrder} (dh : N → N → N) (request : DiscoverInstancesRequest)
    (page_size now : N) (s : MemoryDiscoveryStore) (fuel : nat) (token : string)
    : option (list PbServiceInstance) :=
  match fuel with
  | O => None
  | S fuel =>
      match discover_instances_query (with_request_token request page_size token) with
      | Err _ => None
      | Ok q =>
          match MemoryRegistry.discover_instances dh q now s with
          | Err _ => None
          | Ok r =>
              let response := discover_instances_response now "request" "trace" r in
              let next := match do_page response with
                          | Some page => pg_next_page_token page
                          | None => ""
                          end in
              if is_empty next then Some (do_instances response)
              else (do_instances response ++.) <$>
                     wire_walk dh request page_size now s fuel next
          end
      end
  end.

(** The query of the first page; the ones of the later pages differ in the token. *)
Lemma discover_query_token request n t q :
  discover_instances_query (with_request_token request n "") = Ok q →
  dq_sort_by q ≠ Some WeightedRandom →
  discover_instances_query (with_request_token request n t)
  = Ok (with_page_token q (normalize_page_token (token_of t))).
Proof.
  unfold discover_instances_query. simpl.
  destruct (validate_identity_field "namespace" _); [|done]. simpl.
  destruct (validate_identity_field "environment" _); [|done]. simpl.
  destruct (validate_identity_field "service_name" _); [|done]. simpl.
  destruct (validate_optional_short_text_field _ _); [|done]. simpl.
  destruct (validate_label_filters _); [|done]. simpl.
  rewrite andb_false_r. intros [= <-] Hs. simpl in Hs. by rewrite (bool_decide_false _ Hs).
Qed.

Lemma next_token_identity `{HashOrder} dh q now s r t :
  (∀ k i, instances s !! k = Some i → identity (si_instance_id i)) →
  valid_discover_query q → default ByInstanceId (dq_sort_by q) ≠ WeightedRandom →
  MemoryRegistry.discover_instances dh q now s = Ok r → di_next_page_token r = Some t →
  identity t.
Proof.
  intros Hid Hv Hs Hd Ht. rewrite discover_instances_valid, finalize_discover_pages in Hd by done.
  destruct (paginate_sorted_keys _ _ _ _) as [page tok] eqn:Ep. injection Hd as <-. simpl in Ht.
  apply paginate_window in Ep as (Hpage & Htok & _). subst tok.
  destruct Htok as (init & x & Hx & ->).
  assert (x ∈ selected q (found q now s)) as Hin.
  { assert (x ∈ page) as Hp by (rewrite Hx; apply elem_of_app; right; left).
    rewrite Hpage in Hp. apply elem_of_take_N in Hp. by eapply subseteq_drop. }
  apply elem_of_selected in Hin as [Hf _]. apply elem_of_found in Hf as (_ & k & Hk). eauto.
Qed.

Lemma wire_walk_pages `{HashOrder} dh request n now s q fuel t :
  (∀ k i, instances s !! k = Some i → identity (si_instance_id i)) →
  discover_instances_query (with_request_token request n "") = Ok q →
  default ByInstanceId (dq_sort_by q) ≠ WeightedRandom → valid_discover_query q →
  wire_walk dh request n now s fuel t =
    fmap (M := list) service_instance_to_proto <$>
      walk_discover dh q now s fuel (normalize_page_token (token_of t)).
Proof.
  intros Hid Hq Hs Hv. revert t. induction fuel as [|fuel IH]; intros t; [done|].
  cbn [wire_walk walk_discover].
  rewrite (discover_query_token _ _ _ q) by (done || (intros E; by rewrite E in Hs)).
  destruct (MemoryRegistry.discover_instances _ _ _ _) as [r|e] eqn:Ed; [|done].
  simpl. destruct (di_next_page_token r) as [t'|] eqn:Et; simpl; [|done].
  pose proof (next_token_identity dh (with_page_token q (normalize_page_token (token_of t)))
    now s r t' Hid Hv Hs Ed Et) as Hi.
  assert (is_empty t' = false) as -> by (destruct Hi as [Hne _ _]; by destruct t').
  rewrite IH, token_over_wire by done.
  destruct (walk_discover dh q now s fuel (Some t')) as [l|]; [|done]. simpl. by rewrite fmap_app.
Qed.

(** The weighted random order over the wire: one response, which carries no token. *)
Lemma wire_walk_random `{HashOrder} dh request n now s q fuel :
  discover_instances_query (with_request_token request n "") = Ok q →
  default ByInstanceId (dq_sort_by q) = WeightedRandom → valid_discover_query q →
  wire_walk dh request n now s (S fuel) "" = Some (service_instance_to_proto <$>
    take_N (normalize_page_size (dq_page_size q))
      (weighted_shuffle_discover_instances dh (selected q (found q now s)))).
Proof.
  intros Hq Hs Hv. cbn [wire_walk]. rewrite Hq. by rewrite discover_random_page.
Qed.

(** C28: paging works over the wire, for every discovery request the decoder accepts and
    a store whose instance ids are identities, as those registered over the wire are.
    None of the requests of a client that sends its request again with the token of each
    response is refused, the walk ends, and what it received are the wire forms of live
    instances of the service that match the protocol, the health condition and the labels
    of the request, each once: by id, by weight or by priority all of them, in that order;
    in the weighted random order a single response, full or with all of them, and without
    a token. *)
Theorem wire_walk_exact `{HashOrder} dh request n now s q :
  store_wf s → (∀ k i, instances s !! k = Some i → identity (si_instance_id i)) →
  discover_instances_query (with_request_token request n "") = Ok q →
  ∃ l fuel, wire_walk dh request n now s fuel "" = Some (service_instance_to_proto <$> l)
    ∧ (fuel ≤ S (size (instances s)))%nat
    ∧ (default ByInstanceId (dq_sort_by q) = WeightedRandom → fuel = 1%nat)
    ∧ walked q now s l.
Proof.
  intros Hwf Hid Hq. pose proof (proj1 (discover_instances_query_Ok _ _ Hq)) as Hv.
  destruct (decide (default ByInstanceId (dq_sort_by q) = WeightedRandom)) as [Hs|Hs].
  - eexists _, 1%nat. split_and!; [by apply wire_walk_random|lia|done|by apply walked_random].
  - exists (selected q (found q now s)), (S (size (instances s))).
    split_and!; [|lia|done|by apply walked_selected].
    by rewrite (wire_walk_pages _ _ _ _ _ q), walk_discover_selected.
Qed.

Definition sample_request : DiscoverInstancesRequest :=
  {| dreq_namespace := "acme"; dreq_environment := "prod"; dreq_service_name := "drive";
     dreq_healthy_only := true; dreq_protocol := "grpc"; dreq_label_filters := [];
     dreq_sort_by := 1; dreq_page := None |}.

Lemma identity_dec s :
  negb (is_empty s) && (len s <=? 128) && all_bytes is_identity_char s = true → identity s.
Proof.
  rewrite !andb_true_iff, N.leb_le. intros [[Hne Hl] Hc]. split; [|done|done]. by intros ->.
Qed.

Lemma sample_ids k i : instances sample_store !! k = Some i → identity (si_instance_id i).
Proof.
  intros Hk. apply identity_dec. revert k i Hk. apply map_Forall_lookup.
  apply (bool_decide_eq_true_1 _). vm_compute. reflexivity.
Qed.

Definition sample_request_query : DiscoverInstancesQuery :=
  {| dq_namespace := "acme"; dq_environment := "prod"; dq_service_name := "drive";
     dq_healthy_only := true; dq_protocol := Some "grpc"; dq_label_filters := [];
     dq_sort_by := Some ByInstanceId; dq_page_size := 1; dq_page_token := None |}.

Lemma wire_walk_exact_witness :
  ∃ l fuel, @wire_walk canonical_order (λ _ _, 0) sample_request 1 6000 sample_store fuel ""
         = Some (service_instance_to_proto <$> l) ∧ walked sample_request_query 6000 sample_store l.
Proof.
  destruct (@wire_walk_exact canonical_order (λ _ _, 0) sample_request 1 6000 sample_store
    sample_request_query (proj1 sample_store_wf) sample_ids ltac:(vm_compute; reflexivity))
    as (l & fuel & H1 & _ & _ & H2). exists l, fuel. split; [exact H1|exact H2].
Defined.

(** ** Identifiers the store issues *)

Lemma pretty_char_identity d : is_identity_char (pretty_N_char d) = true.
Proof. unfold pretty_N_char. by repeat case_match. Qed.

Lemma pretty_go_identity k x s :
  x < 10 ^ k → all_bytes is_identity_char s = true →
  all_bytes is_identity_char (pretty_N_go x s) = true ∧ len (pretty_N_go x s) <= k + len s.
Proof.
  revert x s. induction k as [|k IH] using N.peano_ind; intros x s Hx Hs.
  { replace x with 0 by (simpl in Hx; lia). rewrite pretty_N_go_0. split; [done|lia]. }
  destruct (decide (0 < x)) as [Hpos|]; [|replace x with 0 by lia; rewrite pretty_N_go_0; split; [done|lia]].
  rewrite pretty_N_go_step by done.
  destruct (IH (x / 10) (String (pretty_N_char (x mod 10)) s)) as [H1 H2].
  - rewrite N.pow_succ_r' in Hx. by apply N.Div0.div_lt_upper_bound.
  - simpl. by rewrite pretty_char_identity.
  - split; [done|]. unfold len in *. simpl in H2. lia.
Qed.

Lemma show_N_identity n :
  n <= u64_max → all_bytes is_identity_char (show_N n) = true ∧ len (show_N n) <= 20.
Proof.
  intros Hn. unfold show_N, pretty, pretty_N. case_decide; [done|].
  apply (pretty_go_identity 20 n ""); [|done]. unfold u64_max in Hn. simpl. lia.
Qed.

Lemma len_app s t : len (s +:+ t) = len s + len t.
Proof.
  unfold len. rewrite <- Nat2N.inj_add. f_equal. induction s as [|a s IH]; simpl; [done|].
  by rewrite IH.
Qed.

Lemma id_of_identity prefix n :
  all_bytes is_identity_char prefix = true → len prefix <= 20 → n <= u64_max →
  identity (id_of prefix n).
Proof.
  intros Hp Hl Hn. destruct (show_N_identity n Hn) as [Hc Hk]. unfold id_of. split.
  - by destruct prefix.
  - rewrite !len_app. unfold len at 2. simpl. lia.
  - by rewrite !all_bytes_app, Hp, Hc.
Qed.

(** Every identifier the store hands out is accepted back over the wire: the
    lease of a stored instance in a renewal, a draft id in a publication, a release id
    in a rollback; whatever the state of the counters. *)
Theorem issued_ids_accepted s :
  store_wf s → next_sequence s <= u64_max →
  (∀ k i ttl now, instances s !! k = Some i → 0 < ttl →
     renew_lease_command {| rl_lease_id := si_lease_id i; rl_lease_ttl_seconds := ttl |} now
     = Ok {| lc_lease_id := si_lease_id i; lc_lease_ttl_seconds := ttl; lc_now_ms := now |})
  ∧ (∀ d x by_ now ic, drafts s !! d = Some x →
       publish_config_command (cd_draft_id x) by_ now ic
       = Ok {| pc_draft_id := d; pc_published_by := by_; pc_now_ms := now;
               pc_idempotency := Some ic |})
  ∧ (∀ r by_ now ic, r ∈ releases s →
       rollback_config_command (cr_release_id r) by_ now ic
       = Ok {| rb_source_release_id := cr_release_id r; rb_rolled_back_by := by_;
               rb_now_ms := now; rb_idempotency := Some ic |}).
Proof.
  intros [Hreg Hcfg _] Hmax.
  assert (∀ field id, identity id → validate_identity_field field id = Ok ()) as Hok
    by (intros; by apply validate_identity_field_Ok).
  split_and!.
  - intros k i ttl now Hk Httl. destruct (rw_lease _ _ _ _ Hreg _ _ Hk) as (n & Hn & ->).
    unfold renew_lease_command, ttl_required. simpl.
    rewrite Hok by (apply id_of_identity; [done|vm_compute; discriminate|lia]).
    destruct (N.eqb_spec ttl 0); [lia|done].
  - intros d x by_ now ic Hd. destruct (cw_draft _ _ _ _ _ Hcfg _ _ Hd) as (-> & n & Hn & ->).
    unfold publish_config_command.
    by rewrite Hok by (apply id_of_identity; [done|vm_compute; discriminate|lia]).
  - intros r by_ now ic Hr. destruct (cw_release_id _ _ _ _ _ Hcfg _ Hr) as (n & Hn & E).
    unfold rollback_config_command. rewrite E.
    by rewrite Hok by (apply id_of_identity; [done|vm_compute; discriminate|lia]).
Qed.

Lemma issued_ids_accepted_witness :
  ∃ r, renew_lease_command {| rl_lease_id := "lease-1"; rl_lease_ttl_seconds := 60 |} 2000 = Ok r.
Proof.
  eexists. refine (proj1 (issued_ids_accepted sample_store (proj1 sample_store_wf)
    ltac:(vm_compute; discriminate)) {| ik_namespace := "acme"; ik_environment := "prod";
      ik_service_name := "drive"; ik_instance_id := "drive-1" |}
    (registered_instance (sample_register "drive-1" 1000) "lease-1" 31000 1) 60 2000 _ _);
    vm_compute; reflexivity.
Defined.
