(* ===== verification/WatchStream.v ===== *)
(** * Watch streams (rpc: services.rs and watch.rs)

    A watch stream first replays the events past the revision the client asks for,
    then waits for live events, poll ticks and heartbeat ticks; a live event or a tick
    makes it ask the runtime for the events past its cursor.  The two streams of
    services.rs, for services and for configuration, have the same shape and differ in
    what they ask for, which events they pass on and what they answer.

    Each turn of the loop is given what the outside does during it: the answers of
    the runtime, the clock, and which sends reach the client.  Within a turn the
    runtime and the clock may answer differently for each event: their answers are
    indexed by the revision being answered, which never comes twice in a stream. *)
From S2P Require Import Prelude RustStr Collections Contract StorageContract RpcContext Proto.
From S2P Require Import Codec ControlPlane Resilience Actor.

(** ** Which events a stream passes on (watch.rs) *)

Definition event_matches_service_watch (event : DiscoveryEvent) (query : WatchEventsQuery)
    : bool :=
  matches_event query event
  && is_none_or (wq_service_name query) (λ service_name,
       bool_decide (de_service_name event = Some service_name))
  && match de_kind event with
     | InstanceRegistered | InstanceUpdated | InstanceStatusReported | InstanceRenewed
     | InstanceDeregistered => true
     | _ => false
     end.

Definition event_matches_config_watch (event : DiscoveryEvent) (query : WatchEventsQuery)
    : bool :=
  matches_event query event
  && match de_kind event with ConfigPublished | ConfigRolledBack => true | _ => false end.

(** ** Statuses *)

(** [tonic::Code], as far as the crate makes such statuses, and the names gRPC gives
    the codes. *)
Inductive Code : Type :=
| CodeInvalidArgument
| CodeNotFound
| CodeAlreadyExists
| CodePermissionDenied
| CodeUnauthenticated
| CodeResourceExhausted
| CodeFailedPrecondition
| CodeAborted
| CodeUnimplemented
| CodeUnavailable.

Definition code_name (c : Code) : string :=
  match c with
  | CodeInvalidArgument => "INVALID_ARGUMENT"
  | CodeNotFound => "NOT_FOUND"
  | CodeAlreadyExists => "ALREADY_EXISTS"
  | CodePermissionDenied => "PERMISSION_DENIED"
  | CodeUnauthenticated => "UNAUTHENTICATED"
  | CodeResourceExhausted => "RESOURCE_EXHAUSTED"
  | CodeFailedPrecondition => "FAILED_PRECONDITION"
  | CodeAborted => "ABORTED"
  | CodeUnimplemented => "UNIMPLEMENTED"
  | CodeUnavailable => "UNAVAILABLE"
  end.

(** A [tonic::Status]: code and message. *)
Record Status : Type := {
  st_code : Code;
  st_message : string;
}.

(** [map_discovery_error_to_rpc_status] without the correlation metadata: the status
    constructor of each arm. *)
Definition map_discovery_error_to_rpc_status (error : DiscoveryError) : Status :=
  let with_code c := {| st_code := c; st_message := sanitize_external_message error |} in
  match error with
  | Unauthenticated _ => with_code CodeUnauthenticated
  | InvalidConfig _ => with_code CodeFailedPrecondition
  | InvalidArgument _ => with_code CodeInvalidArgument
  | NotFound _ => with_code CodeNotFound
  | AlreadyPublished _ => with_code CodeAlreadyExists
  | PermissionDenied _ => with_code CodePermissionDenied
  | PolicyViolation _ => with_code CodePermissionDenied
  | Conflict _ => with_code CodeAborted
  | Unavailable _ => with_code CodeUnavailable
  | ResourceExhausted _ => with_code CodeResourceExhausted
  end.

(** The code the metrics name an error by ([grpc_status_code_for_discovery_error]) is the
    code of the status the client gets. *)
Lemma metric_code_is_status_code error :
  grpc_status_code_for_discovery_error error
  = code_name (st_code (map_discovery_error_to_rpc_status error)).
Proof. by destruct error. Qed.

(** ** Configuration of the watch services *)

Record DiscoveryWatchServiceConfig : Type := {
  wc_enabled : bool;
  wc_max_streams : N;
  wc_event_buffer_size : N;
  wc_heartbeat_interval_ms : N;
  wc_durable_poll_interval_ms : N;
  wc_durable_replay_batch_size : N;
}.

Definition default_watch_config : DiscoveryWatchServiceConfig :=
  {| wc_enabled := true; wc_max_streams := 10000; wc_event_buffer_size := 1024;
     wc_heartbeat_interval_ms := 15000; wc_durable_poll_interval_ms := 1000;
     wc_durable_replay_batch_size := 1000 |}.

(** ** What a stream sees of the outside *)

Record Runtime : Type := {
  rt_watch : WatchEventsQuery → DiscoveryResult (list DiscoveryEvent);
  rt_retrieve : N → RetrieveInstanceQuery → DiscoveryResult (option ServiceInstance);
  rt_now : N → N;
}.

Definition watch_query_after (query : WatchEventsQuery) (revision : N) : WatchEventsQuery :=
  {| wq_namespace := wq_namespace query; wq_environment := wq_environment query;
     wq_from_revision := revision; wq_service_name := wq_service_name query;
     wq_config_group := wq_config_group query;
     wq_config_application := wq_config_application query;
     wq_max_events := wq_max_events query |}.

Definition should_wake_persisted_poll (event : DiscoveryEvent) (query : WatchEventsQuery)
    (cursor_revision : N) : bool :=
  (cursor_revision <? de_revision event)
  && bool_decide (de_namespace event = wq_namespace query)
  && bool_decide (de_environment event = wq_environment query).

(** ** Responses *)

Section answers.
Context (request_id trace_id : string).

Definition service_watch_identity_tombstone (event : DiscoveryEvent) : PbServiceInstance :=
  {| pi_namespace := de_namespace event; pi_environment := de_environment event;
     pi_service_name := default "" (de_service_name event);
     pi_instance_id := de_resource_id event; pi_endpoint := ""; pi_protocol := "";
     pi_version := ""; pi_region := ""; pi_zone := ""; pi_weight := 0; pi_priority := 0;
     pi_status := INSTANCE_STATUS_NOT_SERVING; pi_metadata := ∅; pi_lease_id := "";
     pi_expires_at := None; pi_revision := de_revision event; pi_health_check := None |}.

Definition service_watch_instance (rt : Runtime) (event : DiscoveryEvent)
    : Result Status (option PbServiceInstance) :=
  match de_kind event with
  | InstanceDeregistered => Ok (Some (service_watch_identity_tombstone event))
  | _ =>
      match de_service_name event with
      | None => Err {| st_code := CodeFailedPrecondition;
                       st_message := "registry watch event is missing service_name" |}
      | Some service_name =>
          match rt_retrieve rt (de_revision event)
                               {| rq_namespace := de_namespace event;
                                  rq_environment := de_environment event;
                                  rq_service_name := service_name;
                                  rq_instance_id := de_resource_id event |} with
          | Err error => Err (map_discovery_error_to_rpc_status error)
          | Ok (Some instance) => Ok (Some (service_instance_to_proto instance))
          | Ok None => Ok (Some (service_watch_identity_tombstone event))
          end
      end
  end.

Definition service_watch_response (rt : Runtime) (event : DiscoveryEvent)
    : Result Status WatchServiceResponse :=
  instance ← service_watch_instance rt event;
  mret {| wso_event_type := watch_event_type event; wso_instance := instance;
          wso_metadata := Some (response_metadata (rt_now rt (de_revision event))
                                  (de_revision event)
                                  request_id trace_id) |}.

Definition service_watch_heartbeat (now revision : N) : WatchServiceResponse :=
  {| wso_event_type := WATCH_EVENT_TYPE_HEARTBEAT; wso_instance := None;
     wso_metadata := Some (response_metadata now revision request_id trace_id) |}.

Definition config_watch_response (now : N) (event : DiscoveryEvent) : WatchConfigResponse :=
  {| wco_event_type := watch_event_type event; wco_release_id := de_resource_id event;
     wco_group := default "" (de_config_group event);
     wco_key := default "" (de_config_key event);
     wco_metadata := Some (response_metadata now (de_revision event) request_id trace_id) |}.

Definition config_watch_heartbeat (now revision : N) : WatchConfigResponse :=
  {| wco_event_type := WATCH_EVENT_TYPE_HEARTBEAT; wco_release_id := ""; wco_group := "";
     wco_key := "";
     wco_metadata := Some (response_metadata now revision request_id trace_id) |}.
End answers.

(** ** The stream task *)

(** What differs between the two streams. *)
Record Surface (R : Type) : Type := {
  sf_matches : DiscoveryEvent → WatchEventsQuery → bool;
  sf_response : Runtime → DiscoveryEvent → Result Status R;
  sf_heartbeat : N → N → R;
}.
Arguments sf_matches {R} _.
Arguments sf_response {R} _.
Arguments sf_heartbeat {R} _.

Definition service_surface (request_id trace_id : string) : Surface WatchServiceResponse :=
  {| sf_matches := event_matches_service_watch;
     sf_response := service_watch_response request_id trace_id;
     sf_heartbeat := service_watch_heartbeat request_id trace_id |}.

Definition config_surface (request_id trace_id : string) : Surface WatchConfigResponse :=
  {| sf_matches := event_matches_config_watch;
     sf_response rt event := Ok (config_watch_response request_id trace_id (rt_now rt (de_revision event))
                               event);
     sf_heartbeat := config_watch_heartbeat request_id trace_id |}.

(** The local variables of a task, what it has sent, and its contribution to the
    gauge of active streams. *)
Record Stream (R : Type) : Type := {
  ws_cursor_revision : N;
  ws_sent : list (Result Status R);
  ws_returned : bool;
  ws_active_streams : Z;
}.
Arguments ws_cursor_revision {R} _.
Arguments ws_sent {R} _.
Arguments ws_returned {R} _.
Arguments ws_active_streams {R} _.

Inductive WatchStreamSendOutcome : Type := Continue | StreamEnded | ClientDisconnected.

Section task.
Context {R : Type} (surface : Surface R) (query : WatchEventsQuery).
(** Whether the client still receives when the [n]-th item is sent. *)
Context (receives : nat → bool).

Definition set_cursor (c : N) (w : Stream R) : Stream R :=
  {| ws_cursor_revision := c; ws_sent := ws_sent w; ws_returned := ws_returned w;
     ws_active_streams := ws_active_streams w |}.
Definition push_sent (item : Result Status R) (w : Stream R) : Stream R :=
  {| ws_cursor_revision := ws_cursor_revision w; ws_sent := ws_sent w ++ [item];
     ws_returned := ws_returned w; ws_active_streams := ws_active_streams w |}.
Definition decrement_active_streams (w : Stream R) : Stream R :=
  {| ws_cursor_revision := ws_cursor_revision w; ws_sent := ws_sent w;
     ws_returned := ws_returned w; ws_active_streams := (ws_active_streams w - 1)%Z |}.
Definition set_returned (w : Stream R) : Stream R :=
  {| ws_cursor_revision := ws_cursor_revision w; ws_sent := ws_sent w;
     ws_returned := true; ws_active_streams := ws_active_streams w |}.

Definition send_watch_item (item : Result Status R) (w : Stream R)
    : Stream R * WatchStreamSendOutcome :=
  if receives (length (ws_sent w)) then
    (push_sent item w, if is_ok item then Continue else StreamEnded)
  else (w, ClientDisconnected).

Definition finish_watch_stream (r : Stream R * WatchStreamSendOutcome) : Stream R * bool :=
  let '(w, outcome) := r in
  match outcome with
  | Continue => (w, false)
  | StreamEnded | ClientDisconnected => (decrement_active_streams w, true)
  end.

(** The loop over events of the replay and of [drain_persisted_*_events]: whether
    the stream is over. *)
Fixpoint deliver (rt : Runtime) (events : list DiscoveryEvent) (w : Stream R)
    : Stream R * bool :=
  match events with
  | [] => (w, false)
  | event :: events =>
      if de_revision event <=? ws_cursor_revision w then deliver rt events w
      else
        let w := set_cursor (N.max (ws_cursor_revision w) (de_revision event)) w in
        if negb (sf_matches surface event query) then deliver rt events w
        else
          match finish_watch_stream (send_watch_item (sf_response surface rt event) w) with
          | (w, true) => (w, true)
          | (w, false) => deliver rt events w
          end
  end.

Definition drain_persisted_events (rt : Runtime) (w : Stream R) : Stream R * bool :=
  match rt_watch rt (watch_query_after query (ws_cursor_revision w)) with
  | Ok events => deliver rt events w
  | Err error =>
      finish_watch_stream (send_watch_item (Err (map_discovery_error_to_rpc_status error)) w)
  end.

(** What the [select!] of the task takes next. *)
Inductive StreamInput : Type :=
| InLive (event : option (DiscoveryResult DiscoveryEvent))
| InPollTick
| InHeartbeatTick.

(** [if finish_watch_stream(..) { return; }]. *)
Definition return_if (r : Stream R * bool) : Stream R :=
  let '(w, over) := r in if over then set_returned w else w.

(** [if drain_persisted_*_events(..) { decrement_active_streams(..); return; }]. *)
Definition drain_turn (rt : Runtime) (w : Stream R) : Stream R :=
  match drain_persisted_events rt w with
  | (w, true) => set_returned (decrement_active_streams w)
  | (w, false) => w
  end.

(** One turn of the loop; nothing happens after the task has returned. *)
Definition stream_turn (w : Stream R) (turn : StreamInput * Runtime) : Stream R :=
  let '(input, rt) := turn in
  if ws_returned w then w
  else
    match input with
    | InLive (Some (Ok event)) =>
        if should_wake_persisted_poll event query (ws_cursor_revision w)
        then drain_turn rt w else w
    | InLive (Some (Err error)) =>
        return_if (finish_watch_stream
          (send_watch_item (Err (map_discovery_error_to_rpc_status error)) w))
    | InLive None => set_returned (decrement_active_streams w)
    | InPollTick => drain_turn rt w
    | InHeartbeatTick =>
        return_if (finish_watch_stream
          (send_watch_item (Ok (sf_heartbeat surface (rt_now rt (ws_cursor_revision w))
                                   (ws_cursor_revision w))) w))
    end.

(** The task: [increment_active_streams], the replay of [events], the loop. *)
Definition spawn_stream (rt : Runtime) (events : list DiscoveryEvent) : Stream R :=
  return_if (deliver rt events
    {| ws_cursor_revision := wq_from_revision query; ws_sent := []; ws_returned := false;
       ws_active_streams := 1 |}).

Definition run_stream (rt : Runtime) (events : list DiscoveryEvent)
    (turns : list (StreamInput * Runtime)) : Stream R :=
  foldl stream_turn (spawn_stream rt events) turns.
End task.

(** ** Opening a stream

    The handlers [watch_config] and [watch_service], up to the point where the task
    is spawned: [clock] is the clock the token verifier
    reads, [generated] a fresh identifier, [permits] the free permits of the
    limiter, [rt] the runtime that answers the replay. *)
Definition service_watch_query (config : DiscoveryWatchServiceConfig)
    (request : WatchServiceRequest) : WatchEventsQuery :=
  {| wq_namespace := wsr_namespace request; wq_environment := wsr_environment request;
     wq_from_revision := wsr_from_revision request;
     wq_service_name := Some (wsr_service_name request); wq_config_group := None;
     wq_config_application := None;
     wq_max_events := wc_durable_replay_batch_size config |}.

Definition config_watch_query (config : DiscoveryWatchServiceConfig)
    (request : WatchConfigRequest) : WatchEventsQuery :=
  {| wq_namespace := wcr_namespace request; wq_environment := wcr_environment request;
     wq_from_revision := wcr_from_revision request;
     wq_service_name := Some (wcr_service_name request);
     wq_config_group := Some (wcr_group request);
     wq_config_application := Some (wcr_application request);
     wq_max_events := wc_durable_replay_batch_size config |}.

Section handlers.
Context `{RpcExternals} (clock : option N) (config : DiscoveryWatchServiceConfig).
Context (policy : RpcContextPolicy) (generated : string) (permits : N) (rt : CallerContext → Runtime).

Definition to_status {A} (r : DiscoveryResult A) : Result Status A :=
  match r with Ok a => Ok a | Err e => Err (map_discovery_error_to_rpc_status e) end.

Definition acquire_stream_permit : Result Status () :=
  if permits =? 0
  then Err {| st_code := CodeResourceExhausted; st_message := "watch stream limit exceeded" |}
  else Ok ().

(** What a spawned task starts from. *)
Record StreamStart : Type := {
  ss_caller : CallerContext;
  ss_query : WatchEventsQuery;
  ss_events : list DiscoveryEvent;
  ss_request_id : string;
  ss_trace_id : string;
}.

Definition watch_service (metadata : gmap string string) (request : WatchServiceRequest)
    : Result Status StreamStart :=
  request_id ← to_status (request_id_from_metadata generated metadata);
  trace_id ← to_status (trace_id_from_metadata metadata);
  if negb (wc_enabled config) then
    Err {| st_code := CodeUnimplemented; st_message := "discovery watch service is disabled" |}
  else
    caller ← to_status (registry_reader_from_metadata clock metadata policy);
    to_status (validate_identity_field "namespace" (wsr_namespace request));;
    to_status (validate_identity_field "environment" (wsr_environment request));;
    to_status (validate_identity_field "service_name" (wsr_service_name request));;
    acquire_stream_permit;;
    let query := service_watch_query config request in
    events ← to_status (rt_watch (rt caller) query);
    mret {| ss_caller := caller; ss_query := query; ss_events := events;
            ss_request_id := request_id; ss_trace_id := trace_id |}.

Definition watch_config (metadata : gmap string string) (request : WatchConfigRequest)
    : Result Status StreamStart :=
  request_id ← to_status (request_id_from_metadata generated metadata);
  trace_id ← to_status (trace_id_from_metadata metadata);
  if negb (wc_enabled config) then
    Err {| st_code := CodeUnimplemented; st_message := "discovery config watch is disabled" |}
  else
    caller ← to_status (config_reader_from_metadata clock metadata policy);
    to_status (validate_identity_field "namespace" (wcr_namespace request));;
    to_status (validate_identity_field "environment" (wcr_environment request));;
    to_status (validate_identity_field "application" (wcr_application request));;
    to_status (validate_identity_field "service_name" (wcr_service_name request));;
    to_status (validate_identity_field "group" (wcr_group request));;
    acquire_stream_permit;;
    let query := config_watch_query config request in
    events ← to_status (rt_watch (rt caller) query);
    mret {| ss_caller := caller; ss_query := query; ss_events := events;
            ss_request_id := request_id; ss_trace_id := trace_id |}.
End handlers.
