(* ===== verification/WatchStreamTheorems.v ===== *)
(** * Theorems about watch streams

    Streams pass on, in order and once each, the events a watcher asked for; the gauge
    of active streams; which configuration releases reach a configuration watch. *)
From S2P Require Import Prelude RustStr Collections Contract StorageContract MemoryStore.
From S2P Require Import MemoryRegistry RegistryTheorems MemoryConfig ConfigTheorems.
From S2P Require Import MemoryWatch WatchTheorems RpcContext Proto Codec ControlPlane.
From S2P Require Import Resilience Actor WatchStream.

(** ** What the two surfaces have in common *)

Class WatchSurface {R : Type} (surface : Surface R) : Type := {
  is_heartbeat : R → bool;
  heartbeat_is : ∀ now revision, is_heartbeat (sf_heartbeat surface now revision) = true;
  response_is_not : ∀ rt e r, sf_response surface rt e = Ok r → is_heartbeat r = false;
  matches_asked : ∀ e q, sf_matches surface e q = true → matches_event q e = true;
}.

Lemma event_type_not_heartbeat e : watch_event_type e ≠ WATCH_EVENT_TYPE_HEARTBEAT.
Proof. unfold watch_event_type. destruct (de_kind e); discriminate. Qed.

#[export] Program Instance service_watch_surface request_id trace_id :
    WatchSurface (service_surface request_id trace_id) := {|
  is_heartbeat r := bool_decide (wso_event_type r = WATCH_EVENT_TYPE_HEARTBEAT) |}.
Next Obligation. done. Qed.
Next Obligation.
  intros request_id trace_id rt e r Hr. simpl in Hr. unfold service_watch_response in Hr.
  apply result_bind_Ok in Hr as (i & _ & [= <-]). apply bool_decide_false.
  apply event_type_not_heartbeat.
Qed.
Next Obligation.
  intros ?? e q. simpl. unfold event_matches_service_watch. by intros [[? _]%andb_true_iff _]%andb_true_iff.
Qed.

#[export] Program Instance config_watch_surface request_id trace_id :
    WatchSurface (config_surface request_id trace_id) := {|
  is_heartbeat r := bool_decide (wco_event_type r = WATCH_EVENT_TYPE_HEARTBEAT) |}.
Next Obligation. done. Qed.
Next Obligation.
  intros request_id trace_id rt e r [= <-]. apply bool_decide_false.
  apply event_type_not_heartbeat.
Qed.
Next Obligation. intros ?? e q. simpl. by intros [? _]%andb_true_iff. Qed.

(** ** Delivery *)

Lemma with_cursor_same q : with_cursor q (wq_from_revision q) = q.
Proof. by destruct q. Qed.

(** An event that [log] no longer holds although it holds later ones: it was collected. *)
Definition collected (log : list DiscoveryEvent) (e : DiscoveryEvent) : Prop :=
  (e ∉ log) ∧ ∃ e', e' ∈ log ∧ de_revision e < de_revision e'.

(** An answer from [log] to a watcher that has seen the revisions up to [c]: events of the
    log in the order of their revisions, of which none that the watcher asks for is left
    out before the last.  It may stop anywhere. *)
Record from_log (q : WatchEventsQuery) (log : list DiscoveryEvent) (c : N)
    (batch : list DiscoveryEvent) : Prop := {
  fl_log : ∀ e, e ∈ batch → e ∈ log;
  fl_sorted : StronglySorted (λ a b, de_revision a <= de_revision b) batch;
  fl_closed : ∀ e e', e' ∈ batch → e ∈ log → matches_event (with_cursor q c) e = true →
    de_revision e < de_revision e' → e ∈ batch;
}.

(** The in-memory store answers from its log. *)
Lemma watch_from_log q c s batch :
  StronglySorted (λ a b, de_revision a < de_revision b) (events s) →
  watch_events (with_cursor q c) s = Ok batch → from_log q (events s) c batch.
Proof.
  intros Hs Hw. unfold watch_events in Hw. apply result_bind_Ok in Hw as (_ & _ & [= <-]).
  set (l := retain (matches_event (with_cursor q c)) (events s)).
  assert (StronglySorted (λ a b, de_revision a < de_revision b) l) as Hl
    by (by apply StronglySorted_filter).
  assert (take_N (wq_max_events (with_cursor q c)) l `prefix_of` l) as [rest Hrest]
    by apply take_N_prefix.
  split.
  - intros e He%elem_of_take_N. by apply elem_of_retain in He as [_ ?].
  - rewrite Hrest in Hl. apply StronglySorted_app_1_l in Hl.
    eapply StronglySorted_weaken; [|exact Hl]. intros x y; simpl; lia.
  - intros e e' He' He Hm Hlt. assert (e ∈ l) as Hin by (by apply elem_of_retain).
    rewrite Hrest in Hin, Hl. apply elem_of_app in Hin as [?|Hin]; [done|].
    pose proof (StronglySorted_app_1_elem_of _ _ _ _ _ Hl He' Hin). simpl in *. lia.
Qed.

Section delivery.
Context {R : Type} (surface : Surface R) `{!WatchSurface surface}.
Context (q : WatchEventsQuery) (receives : nat → bool) (final : MemoryDiscoveryStore).
Context (Hwf : store_wf final).
(** The runtimes the stream has asked, and the events it may have missed. *)
Context (known : Runtime → Prop) (missed : DiscoveryEvent → Prop).

(** The responses that are about events. *)
Definition about_event (item : Result Status R) : option R :=
  match item with
  | Ok r => if is_heartbeat r then None else Some r
  | Err _ => None
  end.
Definition deliveries (w : Stream R) : list R := omap about_event (ws_sent w).

(** [r] is the answer of the stream about [e]. *)
Definition answers (e : DiscoveryEvent) (r : R) : Prop :=
  ∃ rt, known rt ∧ sf_response surface rt e = Ok r.

(** The events the watcher asked for, of a whole history. *)
Definition asked : list DiscoveryEvent := retain (λ e, sf_matches surface e q) (events final).

Lemma elem_of_asked e : e ∈ asked ↔ sf_matches surface e q = true ∧ e ∈ events final.
Proof. unfold asked. by rewrite elem_of_retain. Qed.

(** The stream has passed on the events of [l], in order and once each, all of them asked
    for; while it goes on, it has passed on what was asked for up to its cursor, apart
    from what it missed. *)
Record conveyed (w : Stream R) (l : list DiscoveryEvent) : Prop := {
  cv_answers : Forall2 answers l (deliveries w);
  cv_asked : ∀ e, e ∈ l → e ∈ asked;
  cv_sorted : StronglySorted (λ a b, de_revision a < de_revision b) l;
}.
Definition passed_on (w : Stream R) : Prop :=
  ∃ l, conveyed w l
    ∧ ∀ e e', e ∈ asked → e' ∈ l → de_revision e < de_revision e' → e ∈ l ∨ missed e.
Definition on_course (w : Stream R) : Prop :=
  ∃ l, conveyed w l ∧ (∀ e, e ∈ l → de_revision e <= ws_cursor_revision w)
    ∧ ∀ e, e ∈ asked → de_revision e <= ws_cursor_revision w → e ∈ l ∨ missed e.

Lemma on_course_passed w : on_course w → passed_on w.
Proof.
  intros (l & Hl & Hc & Hall). exists l. split; [done|]. intros e e' He He' Hlt. apply Hall; [done|].
  specialize (Hc e' He'). lia.
Qed.

Lemma conveyed_same w w' l : deliveries w' = deliveries w → conveyed w l → conveyed w' l.
Proof. intros E []. split; [by rewrite E|done..]. Qed.

Lemma history_unique e1 e2 :
  e1 ∈ events final → e2 ∈ events final → de_revision e1 = de_revision e2 → e1 = e2.
Proof.
  intros H1 H2 E. pose proof (ew_sorted _ _ (wf_events _ Hwf)) as Hs. revert H1 H2.
  induction Hs as [|e l _ IH Hl]; [by intros ?%not_elem_of_nil|].
  rewrite Forall_forall in Hl.
  intros [->|H1]%elem_of_cons [->|H2]%elem_of_cons; [done| | |by apply IH].
  - specialize (Hl _ H2). lia.
  - specialize (Hl _ H1). lia.
Qed.

(** *** Sending *)

Lemma deliveries_push item w :
  deliveries (push_sent item w) = deliveries w ++ omap about_event [item].
Proof. unfold deliveries. simpl. by rewrite omap_app. Qed.

Abbreviation send item w := (finish_watch_stream (send_watch_item receives item w)).

(** Sending an error or a heartbeat does not count as passing an event on. *)
Lemma send_other item w w' over :
  about_event item = None → send item w = (w', over) →
  deliveries w' = deliveries w ∧ ws_cursor_revision w' = ws_cursor_revision w.
Proof.
  intros Hi Hs. unfold send_watch_item in Hs.
  assert (deliveries (push_sent item w) = deliveries w) as Hd
    by (rewrite deliveries_push; simpl; rewrite Hi; apply app_nil_r).
  destruct (receives _); [destruct (is_ok item)|]; simpl in Hs; injection Hs as <- _; split;
    done || exact Hd.
Qed.

Lemma on_course_same w w' :
  deliveries w' = deliveries w → ws_cursor_revision w' = ws_cursor_revision w →
  on_course w → on_course w'.
Proof.
  intros Hd Hc (l & Hl & H1 & H2). exists l. rewrite Hc. split; [|done].
  by eapply conveyed_same.
Qed.

(** Sending the answer about the next event. *)
Lemma send_answer rt e l w :
  known rt → conveyed w l → e ∈ asked → (∀ x, x ∈ l → de_revision x < de_revision e) →
  match send (sf_response surface rt e) w with
  | (w', true) => deliveries w' = deliveries w
  | (w', false) => conveyed w' (l ++ [e]) ∧ ws_cursor_revision w' = ws_cursor_revision w
  end.
Proof.
  intros Hk [Hl Hin Hs] He Hlt. unfold send_watch_item.
  destruct (receives _); [|done].
  destruct (sf_response surface rt e) as [r|err] eqn:Er; simpl.
  - split; [|done]. split.
    + rewrite deliveries_push. simpl. rewrite (response_is_not _ _ _ Er).
      apply Forall2_app; [done|]. constructor; [by exists rt|constructor].
    + intros x [?| ->%list_elem_of_singleton]%elem_of_app; auto.
    + apply StronglySorted_snoc; [done|]. by apply Forall_forall.
  - unfold deliveries. simpl. rewrite omap_app. simpl. apply app_nil_r.
Qed.

(** Between the cursor and the next event of an answer nothing asked for is left out. *)
Lemma next_of_answer log c done_ e rest cursor x :
  from_log q log c (done_ ++ e :: rest) → (∀ e, e ∈ log → e ∈ events final) →
  (∀ e, e ∈ asked → collected log e → missed e) →
  c <= cursor → (∀ e, e ∈ done_ → de_revision e <= cursor) →
  x ∈ asked → cursor < de_revision x → de_revision x <= de_revision e → x = e ∨ missed x.
Proof.
  intros Hfl Hlog Hmiss Hc Hdone Hx Hgt Hle. pose proof Hx as [Hm Hxf]%elem_of_asked.
  assert (e ∈ log) as Hel by (apply (fl_log _ _ _ _ Hfl), elem_of_app; right; left).
  destruct (N.eq_dec (de_revision x) (de_revision e)) as [E|Hne];
    [left; apply history_unique; auto|right].
  destruct (decide (x ∈ log)) as [Hxl|Hxl].
  2:{ apply Hmiss; [done|]. split; [done|]. exists e. split; [done|lia]. }
  exfalso. assert (x ∈ done_ ++ e :: rest) as [Hxd|[->|Hxr]%elem_of_cons]%elem_of_app.
  - apply (fl_closed _ _ _ _ Hfl x e); [apply elem_of_app; right; left|done| |lia].
    apply matches_asked in Hm. rewrite <- (with_cursor_same q), matches_event_cursor in Hm.
    rewrite matches_event_cursor. apply andb_true_iff in Hm as [_ ->].
    rewrite andb_true_r. apply N.ltb_lt. lia.
  - specialize (Hdone x Hxd). lia.
  - done.
  - replace (done_ ++ e :: rest) with ((done_ ++ [e]) ++ rest) in Hfl
      by (by rewrite <- app_assoc).
    pose proof (StronglySorted_app_1_elem_of _ _ _ e x (fl_sorted _ _ _ _ Hfl)
      ltac:(apply elem_of_app; right; left) Hxr). simpl in *. lia.
Qed.

(** The cursor moves to the next event, which is passed on if it was asked for. *)
Lemma move_on w w' l l' e :
  conveyed w l → (∀ x, x ∈ asked → de_revision x <= ws_cursor_revision w → x ∈ l ∨ missed x) →
  (∀ x, x ∈ asked → ws_cursor_revision w < de_revision x → de_revision x <= de_revision e →
     x = e ∨ missed x) →
  conveyed w' l' → ws_cursor_revision w' = de_revision e →
  (∀ x, x ∈ l' → de_revision x <= de_revision e) → (∀ x, x ∈ l → x ∈ l') →
  (e ∈ asked → e ∈ l') → on_course w'.
Proof.
  intros Hl Hall Hnext Hl' Hc Hle Hsub He. exists l'. rewrite Hc. split_and!; [done|done|].
  intros x Hx Hxe. destruct (N.le_gt_cases (de_revision x) (ws_cursor_revision w)) as [Hw|Hw].
  - destruct (Hall x Hx Hw); auto.
  - destruct (Hnext x Hx Hw Hxe) as [->|?]; auto.
Qed.

(** The loop over an answer, after its first part has been dealt with. *)
Lemma deliver_from rt log c done_ rest w :
  known rt → from_log q log c (done_ ++ rest) → (∀ e, e ∈ log → e ∈ events final) →
  (∀ e, e ∈ asked → collected log e → missed e) →
  c <= ws_cursor_revision w → (∀ e, e ∈ done_ → de_revision e <= ws_cursor_revision w) →
  on_course w →
  match deliver surface q receives rt rest w with
  | (w', true) => passed_on w'
  | (w', false) => on_course w' ∧ ∀ e, e ∈ done_ ++ rest → de_revision e <= ws_cursor_revision w'
  end.
Proof.
  intros Hk Hfl Hlog Hmiss. revert done_ Hfl w.
  induction rest as [|e rest IH]; intros done_ Hfl w Hc Hdone Hw; simpl.
  { by rewrite app_nil_r. }
  pose proof (λ x, next_of_answer log c done_ e rest (ws_cursor_revision w) x Hfl Hlog Hmiss Hc Hdone)
    as Hnext.
  replace (done_ ++ e :: rest) with ((done_ ++ [e]) ++ rest) in Hfl |- *
    by (by rewrite <- app_assoc).
  destruct (N.leb_spec (de_revision e) (ws_cursor_revision w)) as [Hle|Hgt].
  { apply IH; [done..| |done]. intros x [?| ->%list_elem_of_singleton]%elem_of_app; auto. }
  rewrite N.max_r by lia. set (w1 := set_cursor (de_revision e) w).
  destruct Hw as (l & Hl & Hlc & Hall).
  assert (∀ w2, on_course w2 → ws_cursor_revision w2 = de_revision e →
    match deliver surface q receives rt rest w2 with
    | (w', true) => passed_on w'
    | (w', false) => on_course w'
        ∧ ∀ x, x ∈ (done_ ++ [e]) ++ rest → de_revision x <= ws_cursor_revision w'
    end) as Hgo.
  { intros w2 Hw2 Hc2. apply IH; rewrite ?Hc2; [done|lia| |done].
    intros x [Hx%Hdone| ->%list_elem_of_singleton]%elem_of_app; lia. }
  assert (∀ x, x ∈ l → de_revision x < de_revision e) as Hlt
    by (intros x Hx; specialize (Hlc x Hx); lia).
  assert (conveyed w1 l) as Hl1 by (by eapply (conveyed_same w)).
  destruct (sf_matches surface e q) eqn:Em; simpl.
  - assert (e ∈ asked) as Hea.
    { apply elem_of_asked. split; [done|]. apply Hlog, (fl_log _ _ _ _ Hfl).
      apply elem_of_app. left. apply elem_of_app. right. left. }
    pose proof (send_answer rt e l w1 Hk Hl1 Hea Hlt) as Hs.
    destruct (finish_watch_stream _) as [w2 []].
    + exists l. split; [by eapply (conveyed_same w1)|]. intros x x' Hx Hx' Hxx.
      apply Hall; [done|]. specialize (Hlc x' Hx'). lia.
    + destruct Hs as [Hl2 Hc2]. apply Hgo; [|done].
      apply (move_on w w2 l (l ++ [e]) e); try done.
      * intros x [Hx%Hlt| ->%list_elem_of_singleton]%elem_of_app; lia.
      * intros x Hx. apply elem_of_app. by left.
      * intros _. apply elem_of_app. right. left.
  - apply Hgo; [|done]. apply (move_on w w1 l l e); try done; [intros x Hx%Hlt; lia|].
    intros [? _]%elem_of_asked. congruence.
Qed.

Lemma deliver_on_course rt log batch w :
  known rt → from_log q log (ws_cursor_revision w) batch →
  (∀ e, e ∈ log → e ∈ events final) → (∀ e, e ∈ asked → collected log e → missed e) →
  on_course w →
  match deliver surface q receives rt batch w with
  | (w', true) => passed_on w'
  | (w', false) => on_course w'
      ∧ ∀ e, e ∈ batch → de_revision e <= ws_cursor_revision w'
  end.
Proof.
  intros Hk Hfl Hlog Hmiss Hw.
  pose proof (deliver_from rt log _ [] batch w Hk Hfl Hlog Hmiss (N.le_refl _)
    ltac:(intros e He; by apply not_elem_of_nil in He) Hw) as Hd.
  by destruct (deliver _ _ _ _ batch w) as [w' []].
Qed.

(** *** Turns *)

(** A runtime that refuses, or answers from [log], a part of the history. *)
Definition log_answers (rt : Runtime) (log : list DiscoveryEvent) : Prop :=
  (∀ e, e ∈ log → e ∈ events final)
  ∧ ∀ c, match rt_watch rt (watch_query_after q c) with
         | Ok batch => from_log q log c batch
         | Err _ => True
         end.

Definition good_stream (w : Stream R) : Prop :=
  if ws_returned w then passed_on w else on_course w.

Lemma passed_on_same w w' : deliveries w' = deliveries w → passed_on w → passed_on w'.
Proof. intros E (l & Hl & H). exists l. split; [by eapply conveyed_same|done]. Qed.

Lemma on_course_good w : on_course w → good_stream w.
Proof. intros Hw. unfold good_stream. destruct (ws_returned w); [by apply on_course_passed|done]. Qed.

(** Sending something that is not about an event. *)
Lemma return_if_good item w :
  about_event item = None → on_course w → good_stream (return_if (send item w)).
Proof.
  intros Hi Hw. destruct (send item w) as [w' over] eqn:Hs.
  destruct (send_other item w w' over Hi Hs) as [Hd Hc].
  pose proof (on_course_same w w' Hd Hc Hw) as Hw'.
  destruct over; [|by apply on_course_good]. unfold good_stream. simpl.
  by apply (passed_on_same w'), on_course_passed.
Qed.

Lemma drain_turn_good rt log w :
  known rt → log_answers rt log → (∀ e, e ∈ asked → collected log e → missed e) →
  on_course w → good_stream (drain_turn surface q receives rt w).
Proof.
  intros Hk [Hlog Hrt] Hmiss Hw. unfold drain_turn, drain_persisted_events.
  specialize (Hrt (ws_cursor_revision w)).
  destruct (rt_watch rt _) as [batch|err].
  - pose proof (deliver_on_course rt log batch w Hk Hrt Hlog Hmiss Hw) as Hd.
    destruct (deliver _ _ _ rt batch w) as [w' []].
    + unfold good_stream. simpl. by apply (passed_on_same w').
    + apply on_course_good, Hd.
  - destruct (send (Err _) w) as [w' over] eqn:Hs.
    destruct (send_other (Err _) w w' over eq_refl Hs) as [Hd Hc].
    pose proof (on_course_same w w' Hd Hc Hw) as Hw'.
    destruct over; [|by apply on_course_good]. unfold good_stream. simpl.
    by apply (passed_on_same w'), on_course_passed.
Qed.

Lemma stream_turn_good w turn log :
  known turn.2 → log_answers turn.2 log → (∀ e, e ∈ asked → collected log e → missed e) →
  good_stream w → good_stream (stream_turn surface q receives w turn).
Proof.
  destruct turn as [input rt]. intros Hk Hrt Hmiss Hw. unfold stream_turn.
  destruct (ws_returned w) eqn:Er; [done|]. assert (on_course w) as Hon.
  { unfold good_stream in Hw. by rewrite Er in Hw. }
  destruct input as [[[event|error]|]| |].
  - destruct (should_wake_persisted_poll _ _ _); [by eapply drain_turn_good|done].
  - by apply return_if_good.
  - unfold good_stream. simpl. eapply passed_on_same; [|by apply on_course_passed]. done.
  - by eapply drain_turn_good.
  - apply return_if_good; [|done]. simpl. by rewrite heartbeat_is.
Qed.

Definition start : Stream R :=
  {| ws_cursor_revision := wq_from_revision q; ws_sent := []; ws_returned := false;
     ws_active_streams := 1 |}.

Lemma start_on_course : on_course start.
Proof.
  exists []. split_and!.
  - split; [constructor| |constructor]. by intros e ?%not_elem_of_nil.
  - by intros e ?%not_elem_of_nil.
  - intros e [Hm _]%elem_of_asked Hle. apply matches_asked in Hm.
    rewrite <- (with_cursor_same q), matches_event_cursor in Hm.
    apply andb_true_iff in Hm as [Hm%N.ltb_lt _]. simpl in *. lia.
Qed.

Lemma run_stream_good rt log batch turns logs :
  known rt → (∀ e, e ∈ log → e ∈ events final) → from_log q log (wq_from_revision q) batch →
  (∀ e, e ∈ asked → collected log e → missed e) →
  Forall2 (λ turn log, known turn.2 ∧ log_answers turn.2 log
    ∧ ∀ e, e ∈ asked → collected log e → missed e) turns logs →
  good_stream (run_stream surface q receives rt batch turns).
Proof.
  intros Hk Hlog Hb Hmiss Hturns. unfold run_stream.
  assert (good_stream (spawn_stream surface q receives rt batch)) as Hw.
  { unfold spawn_stream. fold start.
    pose proof (deliver_on_course rt log batch start Hk Hb Hlog Hmiss start_on_course) as Hd.
    destruct (deliver _ _ _ rt batch start) as [w' []]; [|apply on_course_good, Hd].
    unfold good_stream. simpl. by apply (passed_on_same w'). }
  revert Hw. generalize (spawn_stream surface q receives rt batch).
  induction Hturns as [|turn log' turns logs (Hk1 & Ha1 & Hm1) _ IH]; intros w Hw; [done|]. simpl.
  apply IH. by eapply stream_turn_good.
Qed.

(** *** Catching up *)

(** A runtime that answers every question, from the whole log. *)
Definition serves (rt : Runtime) : Prop :=
  (∀ query, rt_watch rt query = watch_events query final) ∧
  (∀ e, sf_matches surface e q = true → is_ok (sf_response surface rt e) = true).

Lemma deliver_serving rt batch w :
  (∀ n, receives n = true) → serves rt →
  ∃ w', deliver surface q receives rt batch w = (w', false) ∧ ws_returned w' = ws_returned w.
Proof.
  intros Hr [_ Hrt]. revert w. induction batch as [|e batch IH]; intros w; [by exists w|].
  simpl. destruct (_ <=? _); [apply IH|].
  destruct (sf_matches surface e q) eqn:Em; simpl; [|apply (IH (set_cursor _ w))].
  unfold send_watch_item. rewrite Hr, (Hrt e Em). simpl.
  apply (IH (push_sent _ (set_cursor _ w))).
Qed.

Lemma poll_turn_serving rt w :
  valid_watch_query q → (∀ n, receives n = true) → known rt → serves rt → on_course w →
  ws_returned w = false →
  let w' := stream_turn surface q receives w (InPollTick, rt) in
  on_course w' ∧ ws_returned w' = false
  ∧ ∀ e, e ∈ take_N (wq_max_events q) (pending q (ws_cursor_revision w) final) →
      de_revision e <= ws_cursor_revision w'.
Proof.
  intros Hq Hr Hk Hrt Hw Hret. simpl. rewrite Hret. unfold drain_turn, drain_persisted_events.
  rewrite (proj1 Hrt). change (watch_query_after q) with (with_cursor q).
  pose proof (watch_events_valid q (ws_cursor_revision w) final Hq) as Hv.
  pose proof (watch_from_log _ _ _ _ (ew_sorted _ _ (wf_events _ Hwf)) Hv) as Hfl.
  rewrite Hv. fold (pending q (ws_cursor_revision w) final) in *. set (batch := take_N _ _) in *.
  destruct (deliver_serving rt batch w Hr Hrt) as (w' & Hd & Hret').
  pose proof (deliver_on_course rt (events final) batch w Hk Hfl) as Hon. rewrite Hd in *.
  destruct Hon as [Hw' Hc]; [done| |done|]; [|by rewrite Hret'].
  intros e [_ He]%elem_of_asked [Hno _]. done.
Qed.

(** What is still to come gets shorter with each poll. *)
Lemma poll_shrinks c c' :
  valid_watch_query q →
  (∀ e, e ∈ take_N (wq_max_events q) (pending q c final) → de_revision e <= c') → c <= c' →
  (length (pending q c' final) <= length (pending q c final) - 1)%nat.
Proof.
  intros Hq Hb Hcc. assert (pending q c' final
    = retain (λ e, c' <? de_revision e) (pending q c final)) as ->.
  { unfold pending. rewrite retain_retain. apply retain_ext. intros e _.
    rewrite !matches_event_cursor.
    destruct (N.ltb_spec c' (de_revision e)), (N.ltb_spec c (de_revision e)); try lia;
      by rewrite ?andb_false_r, ?andb_true_r. }
  destruct (pending q c final) as [|e l]; [done|]. rewrite retain_cons.
  assert (de_revision e <= c') as Hle.
  { apply Hb. simpl. destruct (N.eqb_spec (wq_max_events q) 0) as [E|];
      [by destruct (valid_query_max q Hq)|left]. }
  destruct (N.ltb_spec c' (de_revision e)); [lia|].
  pose proof (sublist_length _ _ (retain_sublist (λ e, c' <? de_revision e) l)). simpl. lia.
Qed.

Lemma cursor_grows rt w :
  ws_cursor_revision w <= ws_cursor_revision (stream_turn surface q receives w (InPollTick, rt)).
Proof.
  assert (∀ item (w : Stream R), ws_cursor_revision (send item w).1 = ws_cursor_revision w) as Hsend.
  { intros item w0. unfold send_watch_item. destruct (receives _); [by destruct (is_ok item)|done]. }
  assert (∀ batch (w : Stream R), ws_cursor_revision w
            <= ws_cursor_revision (deliver surface q receives rt batch w).1) as Hdel.
  { induction batch as [|e batch IH]; intros w0; [done|]. simpl. destruct (_ <=? _); [apply IH|].
    destruct (sf_matches surface e q); simpl.
    - pose proof (Hsend (sf_response surface rt e)
        (set_cursor (N.max (ws_cursor_revision w0) (de_revision e)) w0)) as Hs.
      destruct (finish_watch_stream _) as [w2 []]; simpl in *; [lia|]. specialize (IH w2). lia.
    - specialize (IH (set_cursor (N.max (ws_cursor_revision w0) (de_revision e)) w0)). simpl in IH. lia. }
  simpl. destruct (ws_returned w); [done|]. unfold drain_turn, drain_persisted_events.
  destruct (rt_watch rt _) as [batch|err].
  - specialize (Hdel batch w). by destruct (deliver _ _ _ _ batch w) as [w' []].
  - pose proof (Hsend (Err (map_discovery_error_to_rpc_status err)) w) as Hs.
    destruct (send (Err _) w) as [w' []]; simpl in *; lia.
Qed.

Lemma polls_catch_up rt n w :
  valid_watch_query q → (∀ n, receives n = true) → known rt → serves rt → on_course w →
  ws_returned w = false → (length (pending q (ws_cursor_revision w) final) <= n)%nat →
  let w' := foldl (stream_turn surface q receives) w (replicate n (InPollTick, rt)) in
  on_course w' ∧ ws_returned w' = false ∧ pending q (ws_cursor_revision w') final = [].
Proof.
  intros Hq Hr Hk Hrt. revert w. induction n as [|n IH]; intros w Hw Hret Hn.
  { simpl. split_and!; [done..|]. destruct (pending _ _ _); [done|simpl in Hn; lia]. }
  destruct (poll_turn_serving rt w Hq Hr Hk Hrt Hw Hret) as (Hw' & Hret' & Hb).
  simpl. apply IH; [done..|].
  pose proof (poll_shrinks _ _ Hq Hb (cursor_grows rt w)). simpl in *. lia.
Qed.

(** With nothing pending, what was asked for has been passed on or was missed. *)
Lemma all_conveyed w :
  on_course w → pending q (ws_cursor_revision w) final = [] →
  ∃ l, conveyed w l ∧ ∀ e, e ∈ asked → e ∈ l ∨ missed e.
Proof.
  intros (l & Hl & _ & Hall) Hp. exists l. split; [done|]. intros e He. apply Hall; [done|].
  destruct (N.le_gt_cases (de_revision e) (ws_cursor_revision w)); [done|].
  apply elem_of_asked in He as [Hm He]. apply matches_asked in Hm. exfalso.
  assert (e ∈ pending q (ws_cursor_revision w) final) as Hin; [|rewrite Hp in Hin; by apply not_elem_of_nil in Hin].
  apply elem_of_retain. split; [|done]. rewrite <- (with_cursor_same q), matches_event_cursor in Hm.
  rewrite matches_event_cursor. apply andb_true_iff in Hm as [_ ->]. rewrite andb_true_r.
  by apply N.ltb_lt.
Qed.
End delivery.

(** C26: what a watch stream sends, whatever it goes through (live events, poll ticks,
    heartbeats, refusals, a client that goes away).  Let the runtime answer, at each turn,
    with an error or from a log that holds some events of the history: with events of the
    log in the order of their revisions, stopping anywhere, but leaving out none before
    the last that the watcher asks for; that allows a log that grows, one from which
    events are collected, and answers shorter than asked for.  Then the answers the stream
    has sent about events are, in order and once each, about events the watcher asked
    for, and it has passed over one only if it was collected: a log it was answered from
    no longer held it and held a later one.  While the stream is not over, as many poll
    ticks as there are events in the history, served by a runtime that holds all of it
    and answers with full batches as the in-memory store does, make it pass on all that
    were asked for, apart from those passed over. *)
Theorem stream_delivers {R} (surface : Surface R) `{!WatchSurface surface} q receives final rt
    log batch turns logs :
  store_wf final →
  (∀ e, e ∈ log → e ∈ events final) → from_log q log (wq_from_revision q) batch →
  Forall2 (λ turn log, log_answers q final turn.2 log) turns logs →
  let asked := retain (λ e, sf_matches surface e q) (events final) in
  let missed e := ∃ l, l ∈ log :: logs ∧ collected l e in
  let w := run_stream surface q receives rt batch turns in
  (∃ l, conveyed surface q final (λ r, r ∈ rt :: turns.*2) w l
     ∧ ∀ e e', e ∈ asked → e' ∈ l → de_revision e < de_revision e' → e ∈ l ∨ missed e) ∧
  (valid_watch_query q → ws_returned w = false → (∀ n, receives n = true) →
   ∀ rt', serves surface q final rt' →
   let w := run_stream surface q receives rt batch
              (turns ++ replicate (length (events final)) (InPollTick, rt')) in
   ws_returned w = false
   ∧ ∃ l, conveyed surface q final (λ r, r ∈ rt' :: rt :: turns.*2) w l
       ∧ ∀ e, e ∈ asked → e ∈ l ∨ missed e).
Proof.
  intros Hwf Hlog Hb Ht asked missed w.
  assert (∀ known : Runtime → Prop, (∀ r, r ∈ rt :: turns.*2 → known r) →
    good_stream surface q final known missed w) as Hgood.
  { intros known Hknown. eapply (run_stream_good surface q receives final Hwf known missed rt log);
      [apply Hknown; left|done|done| |].
    - intros e _ He. exists log. split; [left|done].
    - apply Forall2_same_length_lookup_2; [by eapply Forall2_length|].
      intros n turn l Hn Hl. split_and!.
      + apply Hknown. right. apply list_elem_of_fmap. exists turn. split; [done|].
        by eapply list_elem_of_lookup_2.
      + by eapply Forall2_lookup_lr in Ht.
      + intros e _ He. exists l. split; [|done]. right. by eapply list_elem_of_lookup_2. }
  split.
  - specialize (Hgood (λ r, r ∈ rt :: turns.*2) (λ r Hr, Hr)). unfold good_stream in Hgood.
    destruct (ws_returned w); [done|by apply on_course_passed].
  - intros Hq Hret Hr rt' Hrt'.
    specialize (Hgood (λ r, r ∈ rt' :: rt :: turns.*2) (λ r Hr, list_elem_of_further _ _ _ Hr)).
    unfold good_stream in Hgood. rewrite Hret in Hgood.
    unfold w, run_stream in *. rewrite foldl_app.
    destruct (polls_catch_up surface q receives final Hwf (λ r, r ∈ rt' :: rt :: turns.*2) missed
                rt' (length (events final)) _ Hq Hr (list_elem_of_here _ _) Hrt' Hgood Hret)
      as (Hon & Hret' & Hnone).
    { apply sublist_length, retain_sublist. }
    split; [exact Hret'|]. by apply all_conveyed.
Qed.

(** A runtime over a store, in which every instance has gone. *)
Definition sample_runtime (s : MemoryDiscoveryStore) : Runtime :=
  {| rt_watch query := watch_events query s; rt_retrieve _ _ := Ok None; rt_now _ := 0 |}.

(** A store that holds part of the history answers from its log, whatever was collected. *)
Lemma sample_runtime_answers q s final :
  StronglySorted (λ a b, de_revision a < de_revision b) (events s) →
  (∀ e, e ∈ events s → e ∈ events final) →
  log_answers q final (sample_runtime s) (events s).
Proof.
  intros Hs Hin. split; [done|]. intros c. simpl. change (watch_query_after q) with (with_cursor q).
  destruct (watch_events (with_cursor q c) s) as [batch|e] eqn:E; [|done].
  by apply watch_from_log.
Qed.

Lemma sample_runtime_serves q s name :
  wq_service_name q = Some name →
  serves (service_surface "req" "trace") q s (sample_runtime s).
Proof.
  intros Hname. split; [done|]. intros e He. simpl in *. unfold event_matches_service_watch in He.
  rewrite Hname in He. apply andb_true_iff in He as [[_ He]%andb_true_iff _]. simpl in He.
  apply bool_decide_eq_true in He. unfold service_watch_response, service_watch_instance.
  rewrite He. by destruct (de_kind e).
Qed.

Definition first_store : MemoryDiscoveryStore :=
  (MemoryRegistry.register_instance (sample_register "drive-1" 1000) new_store).1.

(** The two events have happened and the first has been collected. *)
Definition trimmed_store : MemoryDiscoveryStore := (MemoryWatch.gc_watch_events 1 10 sample_store).1.

Lemma first_events e : e ∈ events first_store → e ∈ events sample_store.
Proof.
  assert (events first_store `prefix_of` events sample_store) as [k ->]
    by (vm_compute; by eexists [_]).
  intros He. apply elem_of_app. by left.
Qed.

Lemma trimmed_events e : e ∈ events trimmed_store → e ∈ events sample_store.
Proof.
  assert (events trimmed_store `suffix_of` events sample_store) as [k ->]
    by (vm_compute; by eexists [_]).
  intros He. apply elem_of_app. by right.
Qed.

Lemma stream_delivers_witness :
  let surface := service_surface "req" "trace" in
  let turns := [(InHeartbeatTick, sample_runtime first_store);
                (InPollTick, sample_runtime trimmed_store)] in
  let w := run_stream surface sample_watch_query (λ _, true) (sample_runtime first_store)
             (events first_store)
             (turns ++ replicate (length (events sample_store))
                         (InPollTick, sample_runtime sample_store)) in
  ws_returned w = false
  ∧ ∃ l, conveyed surface sample_watch_query sample_store
           (λ r, r ∈ sample_runtime sample_store :: sample_runtime first_store :: turns.*2) w l
      ∧ ∀ e, e ∈ retain (λ e, sf_matches surface e sample_watch_query) (events sample_store) →
          e ∈ l ∨ ∃ l, l ∈ [events first_store; events first_store; events trimmed_store]
                       ∧ collected l e.
Proof.
  intros surface turns w.
  refine (proj2 (stream_delivers surface sample_watch_query (λ _, true) sample_store
    (sample_runtime first_store) (events first_store) (events first_store) turns
    [events first_store; events trimmed_store] (proj1 sample_store_wf) first_events _ _)
    eq_refl _ (λ _, eq_refl) (sample_runtime sample_store)
    (sample_runtime_serves sample_watch_query sample_store "drive" eq_refl)).
  - apply (watch_from_log sample_watch_query 0 first_store); [|vm_compute; reflexivity].
    vm_compute. repeat constructor.
  - constructor; [|constructor; [|constructor]]; apply sample_runtime_answers.
    + vm_compute. repeat constructor.
    + exact first_events.
    + vm_compute. repeat constructor.
    + exact trimmed_events.
  - vm_compute. reflexivity.
Defined.

(** ** The gauge of active streams *)

(** The turn makes the stream ask for the events past its cursor. *)
Definition drains (q : WatchEventsQuery) {R} (w : Stream R) (input : StreamInput) : bool :=
  match input with
  | InLive (Some (Ok event)) => should_wake_persisted_poll event q (ws_cursor_revision w)
  | InPollTick => true
  | _ => false
  end.

Section gauge.
Context {R : Type} (surface : Surface R) (q : WatchEventsQuery) (receives : nat → bool).

Lemma finish_gauge item (w : Stream R) :
  let '(w', over) := finish_watch_stream (send_watch_item receives item w) in
  ws_returned w' = ws_returned w
  ∧ ws_active_streams w' = (ws_active_streams w - (if over then 1 else 0))%Z.
Proof.
  unfold send_watch_item. destruct (receives _); [|done].
  destruct (is_ok item); simpl; [|done]. split; [done|lia].
Qed.

Lemma deliver_gauge rt batch (w : Stream R) :
  let '(w', over) := deliver surface q receives rt batch w in
  ws_returned w' = ws_returned w
  ∧ ws_active_streams w' = (ws_active_streams w - (if over then 1 else 0))%Z.
Proof.
  revert w. induction batch as [|e batch IH]; intros w; simpl; [split; [done|lia]|].
  destruct (_ <=? _); [apply IH|].
  destruct (sf_matches surface e q); [|apply (IH (set_cursor _ w))]. simpl.
  pose proof (finish_gauge (sf_response surface rt e)
                (set_cursor (N.max (ws_cursor_revision w) (de_revision e)) w)) as Hg.
  destruct (finish_watch_stream _) as [w' []]; [exact Hg|].
  destruct Hg as [Hg1 Hg2]. simpl in Hg1, Hg2. specialize (IH w').
  destruct (deliver _ _ _ _ batch w') as [w'' over]. rewrite <- Hg1.
  replace (ws_active_streams w) with (ws_active_streams w') by lia. exact IH.
Qed.

Lemma drain_gauge rt (w : Stream R) :
  let '(w', over) := drain_persisted_events surface q receives rt w in
  ws_returned w' = ws_returned w
  ∧ ws_active_streams w' = (ws_active_streams w - (if over then 1 else 0))%Z.
Proof.
  unfold drain_persisted_events.
  destruct (rt_watch rt _); [apply deliver_gauge|apply finish_gauge].
Qed.
End gauge.

(** Until the stream is over its share is one. *)
Definition counted {R} (w : Stream R) : Prop :=
  ws_returned w = false → ws_active_streams w = 1%Z.

Lemma stream_turn_gauge {R} (surface : Surface R) q receives w turn :
  counted w → ws_returned w = false →
  let w' := stream_turn surface q receives w turn in
  counted w' ∧
  (ws_returned w' = true → ws_active_streams w' = if drains q w turn.1 then (-1)%Z else 0%Z).
Proof.
  intros Hw Hret. specialize (Hw Hret). destruct turn as [input rt]. cbn [fst]. unfold stream_turn.
  rewrite Hret. unfold counted.
  pose proof (drain_gauge surface q receives rt w) as Hdrain.
  assert (∀ item, let w' := return_if (finish_watch_stream (send_watch_item receives item w)) in
    (ws_returned w' = false → ws_active_streams w' = 1%Z)
    ∧ (ws_returned w' = true → ws_active_streams w' = 0%Z)) as Hsend.
  { intros item. pose proof (finish_gauge receives item w) as Hg. simpl.
    destruct (finish_watch_stream _) as [w' []]; destruct Hg as [Hg1 Hg2]; simpl in *;
      rewrite ?Hg1, ?Hret; split; intros; done || lia. }
  assert (let w' := drain_turn surface q receives rt w in
    (ws_returned w' = false → ws_active_streams w' = 1%Z)
    ∧ (ws_returned w' = true → ws_active_streams w' = (-1)%Z)) as Hdt.
  { simpl. unfold drain_turn. destruct (drain_persisted_events _ _ _ _ _) as [w' []];
      destruct Hdrain as [Hg1 Hg2]; simpl in *; rewrite ?Hg1, ?Hret; split; intros; done || lia. }
  destruct input as [[[event|error]|]| |]; cbn [drains]; try exact Hdt || apply Hsend.
  - destruct (should_wake_persisted_poll _ _ _); [exact Hdt|]. rewrite Hret. done.
  - simpl. split; intros; done || lia.
Qed.

Lemma run_stream_counted {R} (surface : Surface R) q receives rt batch turns :
  counted (run_stream surface q receives rt batch turns).
Proof.
  unfold run_stream. assert (counted (spawn_stream surface q receives rt batch)) as Hw.
  { unfold spawn_stream, counted. set (w0 := Build_Stream _ _ _ _ _).
    pose proof (deliver_gauge surface q receives rt batch w0) as Hg.
    destruct (deliver _ _ _ _ _ _) as [w' []]; destruct Hg as [Hg1 Hg2]; simpl in *;
      intros; done || lia. }
  revert Hw. generalize (spawn_stream surface q receives rt batch).
  induction turns as [|turn turns IH]; intros w Hw; [done|]. simpl. apply IH.
  destruct (ws_returned w) eqn:Hret; [|by apply stream_turn_gauge].
  unfold stream_turn. destruct turn. by rewrite Hret.
Qed.

(** A stream counts as one active stream from its start until it is over; when it
    ends in any other way its share of the gauge is back to zero, but when a replay of
    persisted events ends it, the gauge is decremented twice and its share is -1. *)
Theorem stream_gauge {R} (surface : Surface R) q receives rt batch turns turn :
  let w := run_stream surface q receives rt batch turns in
  let w' := run_stream surface q receives rt batch (turns ++ [turn]) in
  (ws_returned w = false → ws_active_streams w = 1%Z) ∧
  (ws_returned w = false → ws_returned w' = true →
   ws_active_streams w' = if drains q w turn.1 then (-1)%Z else 0%Z) ∧
  (ws_returned w = true → w' = w).
Proof.
  intros w w'. pose proof (run_stream_counted surface q receives rt batch turns) as Hc.
  fold w in Hc. assert (w' = stream_turn surface q receives w turn) as Hw'
    by (unfold w', w, run_stream; by rewrite foldl_app).
  rewrite Hw'. split; [exact Hc|]. split.
  - intros Hret. by apply stream_turn_gauge.
  - intros Hret. unfold stream_turn. destruct turn. by rewrite Hret.
Qed.

(** ** Which releases reach a configuration watch *)

(** The effective configuration the client of a watch sees. *)
Definition watched_config (request : WatchConfigRequest) : RetrieveEffectiveConfigQuery :=
  {| ecq_namespace := wcr_namespace request; ecq_environment := wcr_environment request;
     ecq_application := wcr_application request; ecq_service_name := wcr_service_name request;
     ecq_group := wcr_group request |}.

Lemma bool_decide_Some (a b : string) : bool_decide (Some a = Some b) = bool_decide (a = b).
Proof. repeat case_bool_decide; congruence. Qed.

Lemma release_event_matches config request kind r :
  (kind = ConfigPublished ∨ kind = ConfigRolledBack) →
  event_matches_config_watch (release_event kind (cr_revision r) r)
    (config_watch_query config request) =
  (wcr_from_revision request <? cr_revision r) && effective_filter (watched_config request) r
  && negb (bool_decide (cr_scope r = ScopeNamespace)).
Proof.
  intros Hk. unfold event_matches_config_watch, matches_event, effective_filter. simpl.
  assert (match kind with ConfigPublished | ConfigRolledBack => true | _ => false end = true)
    as -> by (by destruct Hk as [-> | ->]).
  rewrite andb_true_r.
  rewrite (bool_decide_Some (cr_group r)).
  generalize (bool_decide (cr_namespace r = wcr_namespace request)),
    (bool_decide (cr_environment r = wcr_environment request)),
    (bool_decide (cr_group r = wcr_group request)),
    (wcr_from_revision request <? cr_revision r).
  intros b1 b2 b3 b4.
  destruct (cr_scope r) as [|a|a sn]; simpl.
  - by rewrite !andb_false_r.
  - rewrite bool_decide_Some.
    generalize (bool_decide (a = wcr_application request)). intros b5.
    by destruct b1, b2, b3, b4, b5.
  - rewrite bool_decide_Some.
    generalize (bool_decide (a = wcr_application request)),
      (bool_decide (sn = wcr_service_name request)). intros b5 b6.
    by destruct b1, b2, b3, b4, b5, b6.
Qed.

Lemma events_commit c kind ds r s :
  events (release_commit c kind ds r s)
  = events s ++ [release_event kind (cr_revision r) r].
Proof. by destruct c. Qed.

(** The event of a publication reaches a configuration watch exactly when the
    release is past the watch's revision, is one the watched effective configuration
    takes values from, and is not of namespace scope: releases of namespace scope
    change the effective configuration of every application without an event to their
    watches. *)
Theorem config_watch_coverage config request command s s' r :
  MemoryConfig.publish_config command s = (s', Ok r) →
  replay_config_release (pc_idempotency command) s = Ok None →
  ∃ e, events s' = events s ++ [e] ∧ de_resource_id e = cr_release_id r
    ∧ event_matches_config_watch e (config_watch_query config request) =
      (wcr_from_revision request <? cr_revision r)
      && effective_filter (watched_config request) r
      && negb (bool_decide (cr_scope r = ScopeNamespace)).
Proof.
  intros Hp Hr. destruct (publish_config_fresh _ _ _ _ Hp Hr) as (d & _ & _ & Er & ->).
  exists (release_event ConfigPublished (cr_revision r) r).
  rewrite events_commit. split_and!; [done|by rewrite Er|]. apply release_event_matches. by left.
Qed.

Definition sample_watch_request : WatchConfigRequest :=
  {| wcr_namespace := "acme"; wcr_environment := "prod"; wcr_application := "shop";
     wcr_service_name := "drive"; wcr_group := "app"; wcr_from_revision := 0 |}.

Lemma config_watch_coverage_witness :
  ∃ e, events (MemoryConfig.publish_config (sample_publish "draft-2" 2000) sample_config_store).1
       = events sample_config_store ++ [e]
    ∧ event_matches_config_watch e (config_watch_query default_watch_config sample_watch_request)
      = false.
Proof.
  destruct (config_watch_coverage default_watch_config sample_watch_request
    (sample_publish "draft-2" 2000) sample_config_store
    (MemoryConfig.publish_config (sample_publish "draft-2" 2000) sample_config_store).1
    sample_release eq_refl eq_refl) as (e & H1 & _ & H2).
  exists e. split; [exact H1|]. rewrite H2. vm_compute. reflexivity.
Defined.
