(* ===== verification/RpcContextTheorems.v ===== *)
(** * Theorems about callers of the RPC surface *)
From S2P Require Import Prelude RustStr Collections Contract RpcContext.
From Stdlib Require Import Ascii String.

#[local] Open Scope list_scope.

(** ** Splitting *)

Lemma split_fields c s h t :
  split c s = h :: t →
  contains_char c h = false ∧ match t with
                              | [] => s = h
                              | _ => ∃ s', s = h +:+ String c s' ∧ split c s' = t
                              end.
Proof.
  revert h t. induction s as [|x s IH]; simpl; intros h t E.
  { injection E as <- <-. done. }
  case_bool_decide as Hx.
  - injection E as <- <-. split; [done|]. destruct (split_cons c s) as (h' & t' & Es).
    rewrite Es. exists s. subst x. done.
  - destruct (split c s) as [|h' t'] eqn:Es; [destruct (split_cons c s) as (? & ? & ?); congruence|].
    injection E as <- <-. destruct (IH h' t' eq_refl) as [Hh Ht]. split.
    + simpl. rewrite bool_decide_false by done. done.
    + destruct t'; [by subst|]. destruct Ht as (s' & -> & Hs'). exists s'. done.
Qed.

Lemma negb_is_empty s : is_empty s = false ↔ s ≠ "".
Proof. by destruct s. Qed.

(** The text of a token with the given parts. *)
Definition token_text (h c s : string) : string :=
  TOKEN_PREFIX +:+ String "." (h +:+ String "." (c +:+ String "." s)).

(** Exactly the texts of four dot-separated fields, the first one the token
    prefix and the others not empty, parse as a token, and the parts are the
    fields; so the signed input determines the header and the claims. *)
Theorem token_parse_exact token p :
  parse token = Ok p ↔
  ∃ h c s, token = token_text h c s
    ∧ h ≠ "" ∧ c ≠ "" ∧ s ≠ ""
    ∧ contains_char "." h = false ∧ contains_char "." c = false ∧ contains_char "." s = false
    ∧ p = {| pt_header := h; pt_claims := c; pt_signature := s;
             pt_signing_input := h +:+ "." +:+ c |}.
Proof.
  unfold parse, token_text. split.
  - destruct (split "." token) as [|p0 [|p1 [|p2 [|p3 [|]]]]] eqn:E; try done.
    case_bool_decide as H0; [|done]. simpl.
    destruct (is_empty p1) eqn:E1; [done|]. destruct (is_empty p2) eqn:E2; [done|].
    destruct (is_empty p3) eqn:E3; [done|]. simpl. intros [= <-].
    apply split_fields in E as (_ & t1 & -> & E). apply split_fields in E as (C1 & t2 & -> & E).
    apply split_fields in E as (C2 & t3 & -> & E). apply split_fields in E as (C3 & ->).
    exists p1, p2, p3. rewrite <- H0.
    split_and!; [done|by apply negb_is_empty..|done|done|done|done].
  - intros (h & c & s & -> & Hh & Hc & Hs & Ch & Cc & Cs & ->).
    rewrite split_app_sep by done. rewrite split_app_sep by done. rewrite split_app_sep by done.
    rewrite (split_no_sep "." s) by done. rewrite bool_decide_true by done. simpl.
    apply negb_is_empty in Hh, Hc, Hs. by rewrite Hh, Hc, Hs.
Qed.

(** ** Permissions *)

Lemma add_registry_permissions_Ok error values c c' :
  add_registry_permissions error values c = Ok c' →
  subject_id c' = subject_id c ∧ tenant_id c' = tenant_id c
  ∧ organization_id c' = organization_id c ∧ config_permissions c' = config_permissions c
  ∧ ∀ p, p ∈ registry_permissions c' ↔
         p ∈ registry_permissions c
         ∨ ∃ v, v ∈ values ∧ registry_permission_of error v = Ok p.
Proof.
  revert c. induction values as [|v values IH]; intros c; simpl.
  { intros [= <-]. split_and!; [done..|]. intros p. split; [by left|].
    intros [?|(v & Hv & _)]; [done|by apply elem_of_nil in Hv]. }
  rewrite result_bind_Ok. intros (p & Hp & Hc'). destruct (IH _ Hc') as (H1 & H2 & H3 & H4 & H5).
  assert (subject_id (with_registry_permission c p) = subject_id c
    ∧ tenant_id (with_registry_permission c p) = tenant_id c
    ∧ organization_id (with_registry_permission c p) = organization_id c
    ∧ config_permissions (with_registry_permission c p) = config_permissions c
    ∧ ∀ q, q ∈ registry_permissions (with_registry_permission c p) ↔
           q ∈ registry_permissions c ∨ q = p) as (G1 & G2 & G3 & G4 & G5).
  { unfold with_registry_permission. case_bool_decide; simpl; split_and!; try done; set_solver. }
  split_and!; [congruence..|]. intros q. rewrite H5, G5. split.
  - intros [[?| ->]|(w & ? & ?)]; [by left|right; exists v; set_solver|right; exists w; set_solver].
  - intros [?|(w & [->|Hw]%elem_of_cons & Hq)]; [auto| |right; eauto].
    left. right. rewrite Hp in Hq. by injection Hq.
Qed.

Lemma add_config_permissions_Ok error values c c' :
  add_config_permissions error values c = Ok c' →
  subject_id c' = subject_id c ∧ tenant_id c' = tenant_id c
  ∧ organization_id c' = organization_id c ∧ registry_permissions c' = registry_permissions c
  ∧ ∀ p, p ∈ config_permissions c' ↔
         p ∈ config_permissions c
         ∨ ∃ v, v ∈ values ∧ config_permission_of error v = Ok p.
Proof.
  revert c. induction values as [|v values IH]; intros c; simpl.
  { intros [= <-]. split_and!; [done..|]. intros p. split; [by left|].
    intros [?|(v & Hv & _)]; [done|by apply elem_of_nil in Hv]. }
  rewrite result_bind_Ok. intros (p & Hp & Hc'). destruct (IH _ Hc') as (H1 & H2 & H3 & H4 & H5).
  assert (subject_id (with_config_permission c p) = subject_id c
    ∧ tenant_id (with_config_permission c p) = tenant_id c
    ∧ organization_id (with_config_permission c p) = organization_id c
    ∧ registry_permissions (with_config_permission c p) = registry_permissions c
    ∧ ∀ q, q ∈ config_permissions (with_config_permission c p) ↔
           q ∈ config_permissions c ∨ q = p) as (G1 & G2 & G3 & G4 & G5).
  { unfold with_config_permission. case_bool_decide; simpl; split_and!; try done; set_solver. }
  split_and!; [congruence..|]. intros q. rewrite H5, G5. split.
  - intros [[?| ->]|(w & ? & ?)]; [by left|right; exists v; set_solver|right; exists w; set_solver].
  - intros [?|(w & [->|Hw]%elem_of_cons & Hq)]; [auto| |right; eauto].
    left. right. rewrite Hp in Hq. by injection Hq.
Qed.

(** A permission of a caller is one its token or its metadata names. *)
Definition names_registry (values : list string) (p : RegistryPermission) : Prop :=
  ∃ v, v ∈ values ∧ registry_permission_of Unauthenticated v = Ok p.
Definition names_config (values : list string) (p : ConfigPermission) : Prop :=
  ∃ v, v ∈ values ∧ config_permission_of Unauthenticated v = Ok p.

Lemma registry_permission_of_error e1 e2 v p :
  registry_permission_of e1 v = Ok p → registry_permission_of e2 v = Ok p.
Proof. unfold registry_permission_of. by repeat case_bool_decide. Qed.

Lemma config_permission_of_error e1 e2 v p :
  config_permission_of e1 v = Ok p → config_permission_of e2 v = Ok p.
Proof. unfold config_permission_of. by repeat case_bool_decide. Qed.

Lemma caller_from_claims_Ok claims caller t :
  caller_from_claims claims = Ok caller → tc_tenant_id claims = Some t → is_blank t = false →
  subject_id caller = trim (tc_subject_id claims) ∧ tenant_id caller = Some t
  ∧ (∀ p, p ∈ registry_permissions caller ↔ names_registry (tc_registry_permissions claims) p)
  ∧ (∀ p, p ∈ config_permissions caller ↔ names_config (tc_config_permissions claims) p).
Proof.
  unfold caller_from_claims. intros Hc Ht Hb. rewrite Ht in Hc. cbn [add_tenant] in Hc.
  unfold with_tenant_id in Hc. rewrite Hb in Hc. cbn [negb] in Hc.
  apply result_bind_Ok in Hc as (c1 & H1 & H2).
  apply add_registry_permissions_Ok in H1 as (S1 & T1 & _ & C1 & P1).
  apply add_config_permissions_Ok in H2 as (S2 & T2 & _ & R2 & P2).
  match type of S1 with _ = subject_id ?c => set (c0 := c) in * end.
  assert (subject_id c0 = trim (tc_subject_id claims) ∧ tenant_id c0 = Some t
    ∧ registry_permissions c0 = [] ∧ config_permissions c0 = []) as (G1 & G2 & G3 & G4).
  { unfold c0. destruct (tc_organization_id claims) as [o|]; [|done].
    cbn [add_organization]. unfold with_organization_id. by destruct (is_blank o). }
  split_and!; [congruence|congruence| |].
  - intros p. rewrite R2, P1, G3. split.
    + intros [Hp|(v & Hv & Hp)]; [by apply elem_of_nil in Hp|].
      exists v. split; [done|by eapply registry_permission_of_error].
    + intros (v & Hv & Hp). right. exists v. split; [done|by eapply registry_permission_of_error].
  - intros p. rewrite P2, C1, G4. split.
    + intros [Hp|(v & Hv & Hp)]; [by apply elem_of_nil in Hp|].
      exists v. split; [done|by eapply config_permission_of_error].
    + intros (v & Hv & Hp). right. exists v. split; [done|by eapply config_permission_of_error].
Qed.

Section verification.
Context `{RpcExternals} (clock : option N).

(** What the claims of an accepted token say. *)
Record claims_accepted (v : ServiceTokenVerifier) (claims : ServiceTokenClaims)
    (access_token : string) (now : N) : Prop := {
  ca_clock : clock = Some now;
  ca_issuer : tc_issuer claims = vc_issuer v;
  ca_audience : tc_audience claims = vc_audience v;
  ca_subject : is_blank (tc_subject_id claims) = false;
  ca_tenant : ∃ t, tc_tenant_id claims = Some t ∧ is_blank t = false;
  ca_unexpired : now mod u64_modulus < tc_exp_ms claims;
  ca_ordered : tc_iat_ms claims < tc_exp_ms claims;
  ca_ttl : tc_exp_ms claims - tc_iat_ms claims <= max_token_ttl_seconds v * 1000;
  ca_bound : tc_access_token_sha256 claims = sha256_hash (trim access_token);
}.

Lemma validate_claims_Ok v claims access_token u :
  validate_claims clock v claims access_token = Ok u →
  ∃ now, claims_accepted v claims access_token now.
Proof.
  unfold validate_claims, current_time_millis. intros E.
  case_bool_decide as Hi; [|done]. case_bool_decide as Ha; [|done]. simpl in E.
  destruct (is_blank (tc_subject_id claims)) eqn:Hs; [done|].
  destruct (is_empty _) eqn:Ht in E; [done|]. destruct clock as [now|] eqn:Ec; [|done].
  simpl in E. destruct (N.leb_spec (tc_exp_ms claims) (now mod u64_modulus)); [done|].
  destruct (N.leb_spec (tc_exp_ms claims) (tc_iat_ms claims)); [done|].
  apply result_bind_Ok in E as (max & Hm%ok_or_Ok%checked_mul_Some & E).
  destruct Hm as [-> _].
  destruct (N.ltb_spec (max_token_ttl_seconds v * 1000)
              (tc_exp_ms claims - tc_iat_ms claims)); [done|].
  case_bool_decide as Hb; [|done]. exists now. split; try done.
  destruct (tc_tenant_id claims) as [t|]; [|done]. exists t. done.
Qed.

(** C32: a service token is accepted only if its header and claims are signed
    with the configured secret of at least 32 bytes, its algorithm and type are
    the supported ones, issuer and audience are the configured ones, it has not
    expired, its lifetime is within the configured maximum, and it is bound to
    the access token; the caller it yields always carries the tenant of the
    claims, the trimmed subject, and exactly the permissions the claims name. *)
Theorem verified_token_sound v service_token access_token caller :
  verify clock v service_token access_token = Ok caller →
  32 <= len (hmac_secret v) ∧
  ∃ token signature header claims now,
    parse service_token = Ok token
    ∧ base64url_decode (pt_signature token) = Some signature
    ∧ verify_hmac_sha256_base64url (pt_signing_input token) (hmac_secret v) signature = true
    ∧ base64url_decode (pt_header token) ≫= header_from_slice = Some header
    ∧ base64url_decode (pt_claims token) ≫= claims_from_slice = Some claims
    ∧ th_alg header = TOKEN_ALGORITHM ∧ th_typ header = TOKEN_HEADER_TYPE
    ∧ claims_accepted v claims access_token now
    ∧ subject_id caller = trim (tc_subject_id claims)
    ∧ is_Some (tenant_id caller) ∧ tenant_id caller = tc_tenant_id claims
    ∧ (∀ p, p ∈ registry_permissions caller ↔
            names_registry (tc_registry_permissions claims) p)
    ∧ (∀ p, p ∈ config_permissions caller ↔ names_config (tc_config_permissions claims) p).
Proof.
  unfold verify. intros E. apply result_bind_Ok in E as ([] & Hcfg & E).
  apply result_bind_Ok in E as (token & Hp & E). apply result_bind_Ok in E as ([] & Hsig & E).
  apply result_bind_Ok in E as (header & Hh & E). apply result_bind_Ok in E as (claims & Hc & E).
  apply result_bind_Ok in E as ([] & Hvh & E). apply result_bind_Ok in E as ([] & Hvc & E).
  split.
  { unfold validate_config, MIN_HMAC_SECRET_BYTES in Hcfg.
    destruct (N.ltb_spec (len (hmac_secret v)) 32); [done|lia]. }
  apply result_bind_Ok in Hsig as (signature & Hs%ok_or_Ok & Hsig).
  destruct (verify_hmac_sha256_base64url _ _ _) eqn:Hv in Hsig; [|done].
  apply result_bind_Ok in Hh as (hb & Hhb%ok_or_Ok & Hh%ok_or_Ok).
  apply result_bind_Ok in Hc as (cb & Hcb%ok_or_Ok & Hc%ok_or_Ok).
  unfold validate_header in Hvh. case_bool_decide as Ha; [|done].
  simpl in Hvh. case_bool_decide as Ht; [|done].
  apply validate_claims_Ok in Hvc as [now Hok]. destruct (ca_tenant _ _ _ _ Hok) as (t & Et & Hb).
  destruct (caller_from_claims_Ok _ _ _ E Et Hb) as (H1 & H2 & H3 & H4).
  exists token, signature, header, claims, now. rewrite Hhb, Hcb.
  split_and!; [done|done|done|done|done|done|done|done|done|rewrite H2; eauto|congruence|done|done].
Qed.

(** The variant for retryable commands asks for the idempotency fields as well. *)
Lemma required_idempotency_iff metadata policy caller :
  caller_from_metadata_with_required_idempotency clock metadata policy = Ok caller ↔
  caller_from_metadata clock metadata policy = Ok caller
  ∧ validate_required_idempotency_metadata metadata = Ok ().
Proof.
  unfold caller_from_metadata, caller_from_metadata_with_required_idempotency.
  destruct (validate_required_idempotency_metadata metadata) as [[]|e] eqn:Ei.
  - destruct (_ && _); [destruct (bool_decide _); simpl; tauto|].
    destruct (authenticated_metadata metadata); simpl; tauto.
  - split; [|intros [_ [=]]]. destruct (_ && _); [by destruct (bool_decide _)|].
    by destruct (authenticated_metadata metadata).
Qed.

(** Where an accepted caller comes from. *)
Lemma accepted_caller metadata policy caller :
  caller_from_metadata clock metadata policy = Ok caller →
  match service_token_verifier policy with
  | Some v => has_unsigned_context_metadata metadata = false
      ∧ ∃ am, authenticated_metadata metadata = Ok am
              ∧ verify clock v (am_bearer_token am) (am_access_token am) = Ok caller
  | None => allow_unsigned_local_context policy = true
      ∧ caller_from_validated_metadata metadata = Ok caller
  end.
Proof.
  unfold caller_from_metadata.
  destruct (service_token_verifier policy) as [v|] eqn:Ev; simpl.
  + destruct (allow_unsigned_local_context policy) eqn:Eu; simpl.
    * destruct (has_unsigned_context_metadata metadata) eqn:Eh; [done|].
      intros (am & Ham & E)%result_bind_Ok. unfold caller_from_authenticated_metadata in E.
      rewrite Ev, Eh in E. eauto.
    * intros (am & Ham & E)%result_bind_Ok. unfold caller_from_authenticated_metadata in E.
      rewrite Ev in E. destruct (has_unsigned_context_metadata metadata); [done|]. eauto.
  + destruct (allow_unsigned_local_context policy) eqn:Eu; simpl.
    * destruct (has_unsigned_context_metadata metadata) eqn:Eh; [done|].
      intros (am & Ham & E)%result_bind_Ok. unfold caller_from_authenticated_metadata in E.
      rewrite Ev, Eu in E. apply result_bind_Ok in E as (_ & _ & E). done.
    * intros (am & Ham & E)%result_bind_Ok. unfold caller_from_authenticated_metadata in E.
      rewrite Ev, Eu in E. done.
Qed.

(** C33: a caller context never comes from unsigned metadata when a token
    verifier is configured: it is the result of verifying the request's own
    bearer token against its access token, and such a request carries no
    unsigned identity; without a verifier, unsigned metadata is used only where
    the policy allows it.  The variant for retryable commands accepts exactly
    the same callers and moreover requires both idempotency fields. *)
Theorem caller_is_authenticated metadata policy caller :
  (caller_from_metadata clock metadata policy = Ok caller →
     match service_token_verifier policy with
     | Some v => has_unsigned_context_metadata metadata = false
         ∧ ∃ am, authenticated_metadata metadata = Ok am
                 ∧ verify clock v (am_bearer_token am) (am_access_token am) = Ok caller
     | None => allow_unsigned_local_context policy = true
         ∧ caller_from_validated_metadata metadata = Ok caller
     end) ∧
  (caller_from_metadata_with_required_idempotency clock metadata policy = Ok caller ↔
     caller_from_metadata clock metadata policy = Ok caller
     ∧ validate_required_idempotency_metadata metadata = Ok ()).
Proof. split; [apply accepted_caller|apply required_idempotency_iff]. Qed.

(** A trace id taken from a request is 32 lower-case hexadecimal digits. *)
Theorem trace_id_shape metadata t :
  trace_id_from_metadata metadata = Ok t →
  t = "" ∨ len t = 32 ∧ all_bytes is_ascii_hexdigit t = true ∧ to_ascii_lowercase t = t.
Proof.
  unfold trace_id_from_metadata. intros (tp & _ & E)%result_bind_Ok. injection E as <-.
  unfold parse_trace_id_from_traceparent. destruct (is_empty _); [by left|].
  destruct (split "-" _) as [|ver [|id rest]]; [by left|by left|].
  destruct (N.eqb_spec (len id) 32) as [El|]; [|by left].
  destruct (all_bytes is_ascii_hexdigit id) eqn:Eh; [|by left]. right. simpl.
  split_and!.
  - unfold len in *. by rewrite to_ascii_lowercase_length.
  - clear El. induction id as [|a id IH]; [done|]. simpl in *.
    apply andb_true_iff in Eh as [Ha Hid]. rewrite IH by done. rewrite andb_true_r.
    revert Ha. clear. destruct a as [[] [] [] [] [] [] [] []]; vm_compute; done.
  - clear. induction id as [|a id IH]; [done|]. simpl. rewrite IH. f_equal.
    clear. by destruct a as [[] [] [] [] [] [] [] []].
Qed.
End verification.

(** ** A concrete verifier *)

Definition sample_claims : ServiceTokenClaims :=
  {| tc_issuer := "sdkwork"; tc_audience := "discovery"; tc_subject_id := " ops ";
     tc_tenant_id := Some "acme"; tc_organization_id := None; tc_iat_ms := 1000;
     tc_exp_ms := 61000; tc_access_token_sha256 := "#at";
     tc_registry_permissions := ["read"; "write"]; tc_config_permissions := ["publish"] |}.

(** Decoding is the identity, and a signature is the length of what it signs. *)
#[export] Instance sample_externals : RpcExternals := {|
  base64url_decode s := Some s;
  verify_hmac_sha256_base64url input secret signature :=
    bool_decide (signature = "sig" +:+ show_N (len input));
  sha256_hash s := "#" +:+ s;
  header_from_slice _ := Some {| th_alg := TOKEN_ALGORITHM; th_typ := TOKEN_HEADER_TYPE |};
  claims_from_slice _ := Some sample_claims;
  value_to_str s := Some s;
|}.

Definition sample_verifier : ServiceTokenVerifier :=
  {| hmac_secret := "0123456789abcdef0123456789abcdef"; vc_issuer := "sdkwork";
     vc_audience := "discovery"; max_token_ttl_seconds := 60 |}.

Definition sample_caller : CallerContext :=
  {| subject_id := "ops"; tenant_id := Some "acme"; organization_id := None;
     registry_permissions := [RegistryRead; RegistryWrite];
     config_permissions := [ConfigPublish] |}.

Lemma verified_token_sound_witness :
  verify (Some 5000) sample_verifier (token_text "h" "c" "sig3") "at" = Ok sample_caller
  ∧ is_Some (tenant_id sample_caller).
Proof.
  assert (verify (Some 5000) sample_verifier (token_text "h" "c" "sig3") "at" = Ok sample_caller)
    as Hv by (vm_compute; reflexivity).
  split; [exact Hv|].
  destruct (verified_token_sound (Some 5000) sample_verifier (token_text "h" "c" "sig3") "at"
              sample_caller Hv) as (_ & ? & ? & ? & ? & ? & _ & _ & _ & _ & _ & _ & _ & _ & _ & Ht & _).
  exact Ht.
Defined.

(** A token is also accepted before the time it says it was issued, so that more
    than the maximum lifetime can lie between acceptance and expiry. *)
Lemma token_accepted_before_issue :
  verify (Some 0) sample_verifier (token_text "h" "c" "sig3") "at" = Ok sample_caller
  ∧ max_token_ttl_seconds sample_verifier * 1000 < tc_exp_ms sample_claims - 0.
Proof. split; vm_compute; reflexivity. Qed.

Definition sample_metadata : gmap string string :=
  {[ "traceparent" := "00-4BF92f3577b34da6a3ce929d0e0e4736-00f067aa0ba902b7-01" ]}.

Lemma trace_id_shape_witness :
  len "4bf92f3577b34da6a3ce929d0e0e4736" = 32.
Proof.
  destruct (@trace_id_shape sample_externals sample_metadata
    "4bf92f3577b34da6a3ce929d0e0e4736" ltac:(vm_compute; reflexivity)) as [H|(H & _)];
    [discriminate H|exact H].
Defined.
