(* ===== verification/Services.v ===== *)
(** * The gRPC services (rpc: services.rs and the handle of actor.rs)

    A handler reads the request and trace identifiers and the caller from the
    metadata, decodes the request, sends one command to the runtime and encodes the
    answer; an error of any of these steps is the status of the call.  Logging and
    metrics leave no trace in the model. *)
From S2P Require Import Prelude RustStr Collections Contract StorageContract RpcContext Proto.
From S2P Require Import Codec ControlPlane Resilience Actor WatchStream.

(** What a call reads of its surroundings: a fresh identifier, the clock of the token
    verifier, [now_millis] as the decoder, the call and the answer read it, and the
    readings of the runtime. *)
Record CallEnv : Type := {
  ce_generated : string;
  ce_clock : option N;
  ce_decode_ms : N;
  ce_call_ms : N;
  ce_answer_ms : N;
  ce_at : Instants;
}.

(** Answers of which only the metadata is left. *)
Record DeregisterInstanceResponse : Type := { deo_metadata : option ResponseMetadata }.
Record ReportInstanceStatusResponse : Type := { rso_metadata : option ResponseMetadata }.

Section services.
Context {S : Type} `{RegistryStore S, ConfigStore S, WatchEventStore S, ConfigParsers}.
Context `{HashOrder, RpcExternals}.
Context (debug_str : string → string).

(** ** The handle of the runtime *)

Section handle.
Context (now : Instants).

(** [send] followed by [receive]: [of_reply] is the response channel of the command. *)
Definition receive {A} (reply : option (DiscoveryResult A)) : DiscoveryResult A :=
  match reply with
  | Some r => r
  | None => Err (InvalidConfig "discovery rpc runtime response was dropped")
  end.

Definition request {A} (command : RuntimeCommand)
    (of_reply : RuntimeReply → option (DiscoveryResult A)) : Op (Actor S) A := λ a,
  let '(a', reply) := dispatch_command debug_str now command a in
  (a', receive (of_reply reply)).

Definition runtime_register_instance caller command : Op (Actor S) RegisterInstanceResult :=
  request (RegisterInstance caller command)
    (λ r, match r with ReplyRegister r => Some r | _ => None end).

Definition runtime_batch_register_instances caller commands
    : Op (Actor S) BatchRegisterResult :=
  request (BatchRegisterInstances caller commands)
    (λ r, match r with ReplyBatch r => Some r | _ => None end).

Definition runtime_renew_lease caller command : Op (Actor S) RenewLeaseResult :=
  request (RenewLease caller command)
    (λ r, match r with ReplyRenew r => Some r | _ => None end).

Definition runtime_deregister_instance caller namespace environment service_name instance_id
    now_ms : Op (Actor S) DeregisterInstanceResult :=
  request (DeregisterInstance caller namespace environment service_name instance_id now_ms)
    (λ r, match r with ReplyDeregister r => Some r | _ => None end).

Definition runtime_expire_instances now_ms max_instances
    : Op (Actor S) (list DeregisterInstanceResult) :=
  request (ExpireInstances now_ms max_instances)
    (λ r, match r with ReplyExpire r => Some r | _ => None end).

Definition runtime_report_instance_status caller command
    : Op (Actor S) ReportInstanceStatusResult :=
  request (ReportInstanceStatus caller command)
    (λ r, match r with ReplyStatus r => Some r | _ => None end).

Definition runtime_discover_instances caller query now_ms
    : Op (Actor S) DiscoverInstancesResult :=
  request (DiscoverInstances caller query now_ms)
    (λ r, match r with ReplyDiscover r => Some r | _ => None end).

Definition runtime_retrieve_instance caller query now_ms
    : Op (Actor S) (option ServiceInstance) :=
  request (RetrieveInstance caller query now_ms)
    (λ r, match r with ReplyRetrieve r => Some r | _ => None end).

Definition runtime_list_services caller query now_ms : Op (Actor S) ListServicesResult :=
  request (ListServices caller query now_ms)
    (λ r, match r with ReplyServices r => Some r | _ => None end).

Definition runtime_create_config_draft caller command : Op (Actor S) ConfigDraft :=
  request (CreateConfigDraft caller command)
    (λ r, match r with ReplyDraft r => Some r | _ => None end).

Definition runtime_publish_config caller command : Op (Actor S) ConfigRelease :=
  request (PublishConfig caller command)
    (λ r, match r with ReplyRelease r => Some r | _ => None end).

Definition runtime_rollback_config caller command : Op (Actor S) ConfigRelease :=
  request (RollbackConfig caller command)
    (λ r, match r with ReplyRelease r => Some r | _ => None end).

Definition runtime_retrieve_effective_config caller query : Op (Actor S) EffectiveConfig :=
  request (RetrieveEffectiveConfig caller query)
    (λ r, match r with ReplyConfig r => Some r | _ => None end).

Definition runtime_watch_registry_events caller query : Op (Actor S) (list DiscoveryEvent) :=
  request (WatchRegistryEvents caller query)
    (λ r, match r with ReplyEvents r => Some r | _ => None end).

Definition runtime_watch_config_events caller query : Op (Actor S) (list DiscoveryEvent) :=
  request (WatchConfigEvents caller query)
    (λ r, match r with ReplyEvents r => Some r | _ => None end).
End handle.

(** ** The handlers

    [map_discovery_error_to_rpc_status] turns the error of a handler into its status:
    see [answer] below. *)
Section handlers.
Context (env : CallEnv) (policy : RpcContextPolicy) (metadata : gmap string string).

(** The identifiers, in the order they are read. *)
Definition correlation : DiscoveryResult (string * string) :=
  request_id ← request_id_from_metadata (ce_generated env) metadata;
  trace_id ← trace_id_from_metadata metadata;
  mret (request_id, trace_id).

Definition rpc_register_instance (request : RegisterInstanceRequest)
    : Op (Actor S) RegisterInstanceResponse :=
  ids ← lift correlation;
  caller ← lift (caller_from_metadata (ce_clock env) metadata policy);
  command ← lift (register_instance_command request (ce_decode_ms env));
  result ← runtime_register_instance (ce_at env) caller command;
  mret (register_instance_response (ce_answer_ms env) ids.1 ids.2 result).

Definition rpc_batch_register_instances (requests : list RegisterInstanceRequest)
    : Op (Actor S) BatchRegisterInstancesResponse :=
  ids ← lift correlation;
  caller ← lift (caller_from_metadata (ce_clock env) metadata policy);
  commands ← lift (batch_register_instances_commands requests (ce_decode_ms env));
  result ← runtime_batch_register_instances (ce_at env) caller commands;
  mret (batch_register_instances_response (ce_answer_ms env) ids.1 ids.2 result).

Definition rpc_renew_lease (request : RenewLeaseRequest) : Op (Actor S) RenewLeaseResponse :=
  ids ← lift correlation;
  caller ← lift (caller_from_metadata (ce_clock env) metadata policy);
  command ← lift (renew_lease_command request (ce_decode_ms env));
  result ← runtime_renew_lease (ce_at env) caller command;
  mret (renew_lease_response (ce_answer_ms env) ids.1 ids.2 result).

Definition rpc_deregister_instance (request : InstanceRequest)
    : Op (Actor S) DeregisterInstanceResponse :=
  ids ← lift correlation;
  caller ← lift (caller_from_metadata (ce_clock env) metadata policy);
  request ← lift (deregister_instance_request request);
  result ← runtime_deregister_instance (ce_at env) caller (ir_namespace request)
             (ir_environment request) (ir_service_name request) (ir_instance_id request)
             (ce_call_ms env);
  mret {| deo_metadata := Some (response_metadata (ce_answer_ms env) (dr_revision result)
                                  ids.1 ids.2) |}.

Definition rpc_report_instance_status (request : ReportInstanceStatusRequest)
    : Op (Actor S) ReportInstanceStatusResponse :=
  ids ← lift correlation;
  caller ← lift (caller_from_metadata (ce_clock env) metadata policy);
  command ← lift (report_status_command request (ce_decode_ms env));
  result ← runtime_report_instance_status (ce_at env) caller command;
  mret {| rso_metadata := report_status_response (ce_answer_ms env) ids.1 ids.2 result |}.

Definition rpc_retrieve_instance (request : InstanceRequest)
    : Op (Actor S) RetrieveInstanceResponse :=
  ids ← lift correlation;
  caller ← lift (registry_reader_from_metadata (ce_clock env) metadata policy);
  query ← lift (retrieve_instance_query request);
  result ← runtime_retrieve_instance (ce_at env) caller query (ce_call_ms env);
  match result with
  | Some instance =>
      mret (retrieve_instance_response (ce_answer_ms env) ids.1 ids.2 instance)
  | None => fail (NotFound "service instance not found")
  end.

Definition rpc_discover_instances (request : DiscoverInstancesRequest)
    : Op (Actor S) DiscoverInstancesResponse :=
  ids ← lift correlation;
  caller ← lift (caller_from_metadata (ce_clock env) metadata policy);
  query ← lift (discover_instances_query request);
  result ← runtime_discover_instances (ce_at env) caller query (ce_call_ms env);
  mret (discover_instances_response (ce_answer_ms env) ids.1 ids.2 result).

Definition rpc_retrieve_effective_config (request : RetrieveEffectiveConfigRequest)
    : Op (Actor S) RetrieveEffectiveConfigResponse :=
  ids ← lift correlation;
  caller ← lift (caller_from_metadata (ce_clock env) metadata policy);
  query ← lift (retrieve_effective_config_query request);
  result ← runtime_retrieve_effective_config (ce_at env) caller query;
  mret (retrieve_effective_config_response (ce_answer_ms env) ids.1 ids.2 result).

Definition rpc_create_config_draft (request : CreateConfigDraftRequest)
    : Op (Actor S) CreateConfigDraftResponse :=
  ids ← lift correlation;
  idempotency ← lift (idempotency_from_metadata metadata "discovery.config.drafts.create");
  caller ← lift (caller_from_metadata_with_required_idempotency (ce_clock env) metadata policy);
  command ← lift (create_config_draft_command request (subject_id caller) idempotency);
  draft ← runtime_create_config_draft (ce_at env) caller command;
  mret (create_config_draft_response (ce_answer_ms env) ids.1 ids.2 (cd_draft_id draft)
          (cd_content_hash draft)).

Definition rpc_publish_config (draft_id : string) : Op (Actor S) PublishConfigResponse :=
  ids ← lift correlation;
  idempotency ← lift (idempotency_from_metadata metadata "discovery.config.releases.publish");
  caller ← lift (caller_from_metadata_with_required_idempotency (ce_clock env) metadata policy);
  command ← lift (publish_config_command draft_id (subject_id caller) (ce_decode_ms env)
                    idempotency);
  release ← runtime_publish_config (ce_at env) caller command;
  mret (publish_config_response (ce_answer_ms env) ids.1 ids.2 release).

Definition rpc_rollback_config (source_release_id : string)
    : Op (Actor S) RollbackConfigResponse :=
  ids ← lift correlation;
  idempotency ← lift (idempotency_from_metadata metadata "discovery.config.releases.rollback");
  caller ← lift (caller_from_metadata_with_required_idempotency (ce_clock env) metadata policy);
  command ← lift (rollback_config_command source_release_id (subject_id caller)
                    (ce_decode_ms env) idempotency);
  release ← runtime_rollback_config (ce_at env) caller command;
  mret (rollback_config_response (ce_answer_ms env) ids.1 ids.2 release).

Definition rpc_list_services (request : ListServicesRequest)
    : Op (Actor S) ListServicesResponse :=
  ids ← lift correlation;
  caller ← lift (caller_from_metadata (ce_clock env) metadata policy);
  query ← lift (list_services_query request);
  result ← runtime_list_services (ce_at env) caller query (ce_call_ms env);
  mret (list_services_response (ce_answer_ms env) ids.1 ids.2 result).

(** ** The unary surface as a whole *)

Inductive RpcRequest : Type :=
| ReqRegister (request : RegisterInstanceRequest)
| ReqBatchRegister (requests : list RegisterInstanceRequest)
| ReqRenew (request : RenewLeaseRequest)
| ReqDeregister (request : InstanceRequest)
| ReqStatus (request : ReportInstanceStatusRequest)
| ReqRetrieve (request : InstanceRequest)
| ReqDiscover (request : DiscoverInstancesRequest)
| ReqEffective (request : RetrieveEffectiveConfigRequest)
| ReqDraft (request : CreateConfigDraftRequest)
| ReqPublish (draft_id : string)
| ReqRollback (source_release_id : string)
| ReqServices (request : ListServicesRequest).

Inductive RpcResponse : Type :=
| ResRegister (r : RegisterInstanceResponse)
| ResBatchRegister (r : BatchRegisterInstancesResponse)
| ResRenew (r : RenewLeaseResponse)
| ResDeregister (r : DeregisterInstanceResponse)
| ResStatus (r : ReportInstanceStatusResponse)
| ResRetrieve (r : RetrieveInstanceResponse)
| ResDiscover (r : DiscoverInstancesResponse)
| ResEffective (r : RetrieveEffectiveConfigResponse)
| ResDraft (r : CreateConfigDraftResponse)
| ResPublish (r : PublishConfigResponse)
| ResRollback (r : RollbackConfigResponse)
| ResServices (r : ListServicesResponse).

(** The status or the answer of a handler. *)
Definition answer {A} (wrap : A → RpcResponse) (handler : Op (Actor S) A)
    : Eff Status (Actor S) RpcResponse := λ a,
  match handler a with
  | (a', Ok r) => (a', Ok (wrap r))
  | (a', Err e) => (a', Err (map_discovery_error_to_rpc_status e))
  end.

Definition serve (r : RpcRequest) : Eff Status (Actor S) RpcResponse :=
  match r with
  | ReqRegister request => answer ResRegister (rpc_register_instance request)
  | ReqBatchRegister requests => answer ResBatchRegister (rpc_batch_register_instances requests)
  | ReqRenew request => answer ResRenew (rpc_renew_lease request)
  | ReqDeregister request => answer ResDeregister (rpc_deregister_instance request)
  | ReqStatus request => answer ResStatus (rpc_report_instance_status request)
  | ReqRetrieve request => answer ResRetrieve (rpc_retrieve_instance request)
  | ReqDiscover request => answer ResDiscover (rpc_discover_instances request)
  | ReqEffective request => answer ResEffective (rpc_retrieve_effective_config request)
  | ReqDraft request => answer ResDraft (rpc_create_config_draft request)
  | ReqPublish draft_id => answer ResPublish (rpc_publish_config draft_id)
  | ReqRollback source_release_id => answer ResRollback (rpc_rollback_config source_release_id)
  | ReqServices request => answer ResServices (rpc_list_services request)
  end.
End handlers.
End services.
