(* ===== verification/ServicesTheorems.v ===== *)
(** * Theorems about the gRPC services

    Only authenticated and authorised calls have effects; what is registered over the
    wire is what is retrieved over the wire; retries of a draft. *)
From S2P Require Import Prelude RustStr Collections Contract StorageContract MemoryStore.
From S2P Require Import MemoryRegistry RegistryTheorems MemoryConfig ConfigTheorems.
From S2P Require Import MemoryWatch MemoryInstance RpcContext RpcContextTheorems Proto Codec.
From S2P Require Import CodecTheorems ControlPlane ControlPlaneTheorems Resilience Actor.
From S2P Require Import ActorTheorems WatchStream Services.

(** ** What a call needs *)

(** The permission a request needs. *)
Definition rpc_permitted (caller : CallerContext) (r : RpcRequest) : bool :=
  match r with
  | ReqRegister _ | ReqBatchRegister _ | ReqRenew _ | ReqDeregister _ | ReqStatus _ =>
      has_registry_permission caller RegistryWrite
  | ReqRetrieve _ | ReqDiscover _ | ReqServices _ => has_registry_permission caller RegistryRead
  | ReqEffective _ => has_config_permission caller ConfigRead
  | ReqDraft _ | ReqPublish _ => has_config_permission caller ConfigPublish
  | ReqRollback _ => has_config_permission caller ConfigRollback
  end.

(** The namespaces a request names. *)
Definition request_namespaces (r : RpcRequest) : list string :=
  match r with
  | ReqRegister request => [ri_namespace request]
  | ReqBatchRegister requests => ri_namespace <$> requests
  | ReqDeregister request | ReqRetrieve request => [ir_namespace request]
  | ReqStatus request => [rs_namespace request]
  | ReqDiscover request => [dreq_namespace request]
  | ReqEffective request => [ereq_namespace request]
  | ReqDraft request => [creq_namespace request]
  | ReqServices request => [lreq_namespace request]
  | ReqRenew _ | ReqPublish _ | ReqRollback _ => []
  end.

Definition rpc_authorized (caller : CallerContext) (r : RpcRequest) : Prop :=
  rpc_permitted caller r = true ∧ Forall (λ ns, in_tenant caller ns = true) (request_namespaces r).

(** ** Decoding keeps the namespace *)

Lemma register_command_namespace `{HashOrder} request now c :
  register_instance_command request now = Ok c → rc_namespace c = ri_namespace request.
Proof.
  unfold register_instance_command. intros Hc.
  repeat (apply result_bind_Ok in Hc as (? & _ & Hc)). by injection Hc as <-.
Qed.

Lemma batch_commands_namespaces `{HashOrder} requests now cs :
  batch_register_instances_commands requests now = Ok cs →
  rc_namespace <$> cs = ri_namespace <$> requests.
Proof.
  unfold batch_register_instances_commands. revert cs.
  induction requests as [|request requests IH]; intros cs Hc; [by injection Hc as <-|].
  simpl in Hc. apply result_bind_Ok in Hc as (c & H1 & Hc).
  apply result_bind_Ok in Hc as (cs' & H2 & [= <-]).
  rewrite !fmap_cons. by rewrite (register_command_namespace _ _ _ H1), (IH _ H2).
Qed.

(** ** Effects of a call *)

Section effects.
Context {S : Type} `{RegistryStore S, ConfigStore S, WatchEventStore S, ConfigParsers}.
Context `{HashOrder, RpcExternals} (debug_str : string → string).

(** The channel of a command carries its error. *)
Definition carries {A} (of_reply : RuntimeReply → option (DiscoveryResult A)) : Prop :=
  ∀ reply e, reply_error reply = Some e → ∃ e', receive (of_reply reply) = Err e'.

Lemma error_of_Err {A} (r : DiscoveryResult A) e : error_of r = Some e → ∃ e', r = Err e'.
Proof. destruct r; [done|eauto]. Qed.

Lemma request_refused {A} now command (of_reply : RuntimeReply → option (DiscoveryResult A))
    caller c (a : Actor S) :
  carries of_reply → control_of command = Some (caller, c) → unauthorized caller c →
  let '(a', r) := request debug_str now command of_reply a in
  untouched a a' ∧ ∃ e, r = Err e.
Proof.
  intros Hr Hc Hu. pose proof (command_refused debug_str now command caller c a Hc Hu) as Hd.
  unfold request. destruct (dispatch_command debug_str now command a) as [a' reply].
  destruct Hd as (Hun & e & He). split; [done|]. by eapply Hr.
Qed.

(** The outcome of a call: it was authorised, or it failed without an effect. *)
Definition harmless env policy metadata r (a a' : Actor S) {A} (res : Result Status A) : Prop :=
  (∃ caller, caller_from_metadata (ce_clock env) metadata policy = Ok caller
             ∧ rpc_authorized caller r)
  ∨ untouched a a' ∧ ∃ st, res = Err st.

Lemma harmless_early env policy metadata r (a : Actor S) {A} st :
  harmless env policy metadata r a a (@Err Status A st).
Proof. right. split; [done|by exists st]. Qed.

(** A call that reaches the runtime. *)
Lemma harmless_call env policy metadata r (a : Actor S) {A B} now command caller c of_reply
    (k : A → Op (Actor S) B) (wrap : B → RpcResponse) :
  caller_from_metadata (ce_clock env) metadata policy = Ok caller →
  control_of command = Some (caller, c) → carries of_reply →
  permitted caller c = rpc_permitted caller r → checked_namespaces c = request_namespaces r →
  let '(a', res) := answer wrap (request debug_str now command of_reply ≫= k) a in
  harmless env policy metadata r a a' res.
Proof.
  intros Hm Hc Hr Hp Hn. destruct (permitted caller c) eqn:Ep.
  - destruct (decide (Forall (λ ns, in_tenant caller ns = true) (checked_namespaces c)))
      as [Hall|Hall].
    + destruct (answer _ _ a). left. exists caller. unfold rpc_authorized. by rewrite <- Hp, <- Hn.
    + assert (unauthorized caller c) as Hu.
      { right. apply not_Forall_Exists in Hall; [|apply _].
        eapply Exists_impl; [exact Hall|]. simpl. intros ns Hns. by destruct (in_tenant caller ns). }
      pose proof (request_refused now command of_reply caller c a Hr Hc Hu) as Hd.
      unfold answer. rewrite eff_bind_run.
      destruct (request debug_str now command of_reply a) as [a' res]. destruct Hd as (Hun & e & ->).
      right. split; [done|by eexists].
  - assert (unauthorized caller c) as Hu by (by left).
    pose proof (request_refused now command of_reply caller c a Hr Hc Hu) as Hd.
    unfold answer. rewrite eff_bind_run.
    destruct (request debug_str now command of_reply a) as [a' res]. destruct Hd as (Hun & e & ->).
    right. split; [done|by eexists].
Qed.

Lemma answer_lift {A B} (r : DiscoveryResult A) (f : A → Op (Actor S) B)
    (wrap : B → RpcResponse) a :
  answer wrap (lift r ≫= f) a =
    match r with
    | Ok x => answer wrap (f x) a
    | Err e => (a, Err (map_discovery_error_to_rpc_status e))
    end.
Proof. unfold answer. rewrite lift_bind_run. by destruct r. Qed.

(** Walks a handler down to its call: an error on the way ends it. *)
Ltac walk_handler :=
  repeat (rewrite answer_lift;
          match goal with
          | |- context [match ?r with Ok _ => _ | Err _ => _ end] =>
              destruct r eqn:?; [|by apply harmless_early]
          end).

Lemma registry_reader_caller clock metadata policy caller :
  registry_reader_from_metadata clock metadata policy = Ok caller →
  caller_from_metadata clock metadata policy = Ok caller
  ∧ has_registry_permission caller RegistryRead = true.
Proof.
  unfold registry_reader_from_metadata. intros (c & Hc & E)%result_bind_Ok.
  destruct (has_registry_permission c RegistryRead) eqn:Ep; [|done]. by injection E as <-.
Qed.

(** The caller of the handler, however it was read. *)
Ltac solve_caller :=
  first [ eassumption
        | eapply proj1, registry_reader_caller; eassumption
        | eapply proj1, required_idempotency_iff; eassumption ].

Ltac solve_carries :=
  intros [] ?e; simpl; first [ apply error_of_Err | intros _; by eexists ].

(** Decoding copied the names of the request. *)
Ltac solve_names :=
  match goal with
  | |- [] = [] => reflexivity
  | |- _ <$> _ = _ => by eapply batch_commands_namespaces
  | H : _ = Ok ?x |- [_ ?x] = [_] =>
      unfold register_instance_command, deregister_instance_request, report_status_command,
        retrieve_instance_query, discover_instances_query, retrieve_effective_config_query,
        create_config_draft_command, list_services_query in H;
      repeat (apply result_bind_Ok in H as (? & _ & H)); by injection H as <-
  end.

(** C20: over any store, a call of the unary surface that has any effect on the store,
    publishes an event, announces a change, or is answered with anything but an error,
    was made by a caller the request metadata authenticates, who holds the permission
    of the call and whose tenant owns every namespace the request names. *)
Theorem rpc_effects_authorized env policy metadata r (a : Actor S) :
  let '(a', res) := serve debug_str env policy metadata r a in
  (∃ caller, caller_from_metadata (ce_clock env) metadata policy = Ok caller
             ∧ rpc_authorized caller r)
  ∨ untouched a a' ∧ ∃ st, res = Err st.
Proof.
  change (let '(a', res) := serve debug_str env policy metadata r a in
          harmless env policy metadata r a a' res).
  destruct r; simpl serve;
    unfold rpc_register_instance, rpc_batch_register_instances, rpc_renew_lease,
      rpc_deregister_instance, rpc_report_instance_status, rpc_retrieve_instance,
      rpc_discover_instances, rpc_retrieve_effective_config, rpc_create_config_draft,
      rpc_publish_config, rpc_rollback_config, rpc_list_services; walk_handler;
    (eapply harmless_call; [solve_caller|reflexivity|solve_carries|reflexivity|]);
    simpl; solve_names.
Qed.
End effects.

(** ** From registration to lookup over the wire *)

Section end_to_end.
Context (h : HashOrder) (dh : N → N → N) (sha : string → string) `{ConfigParsers, RpcExternals}.
Context (debug_str : string → string).

(** The services over the in-memory backend. *)
Definition serve_memory (env : CallEnv) (policy : RpcContextPolicy)
    (metadata : gmap string string) (r : RpcRequest)
    : Eff Status (Actor MemoryDiscoveryStore) RpcResponse :=
  @serve _ (@memory_registry_store h dh) (memory_config_store sha) (@memory_watch_store h) _ h _
    debug_str env policy metadata r.

Abbreviation the_store a := (store (ac_plane a)).

Lemma answer_Ok {A} (wrap : A → RpcResponse) (m : Op (Actor MemoryDiscoveryStore) A) a a' res :
  answer wrap m a = (a', Ok res) → ∃ r, m a = (a', Ok r) ∧ res = wrap r.
Proof. unfold answer. destruct (m a) as [a'' [r|e]]; intros [= <- <-]; eauto. Qed.

(** A registration answered with success went through to the store. *)
Lemma rpc_register_Ok env policy metadata request a a' res :
  serve_memory env policy metadata (ReqRegister request) a = (a', Ok res) →
  ∃ ids command r, correlation env metadata = Ok ids
    ∧ @register_instance_command h request (ce_decode_ms env) = Ok command
    ∧ MemoryRegistry.register_instance command (the_store a) = (the_store a', Ok r)
    ∧ res = ResRegister (register_instance_response (ce_answer_ms env) ids.1 ids.2 r).
Proof.
  unfold serve_memory. simpl. intros Hs%answer_Ok. destruct Hs as (resp & Hs & ->).
  unfold rpc_register_instance in Hs. rewrite !lift_bind_run in Hs.
  destruct (correlation env metadata) as [ids|]; [|done]. rewrite lift_bind_run in Hs.
  destruct (caller_from_metadata _ _ _) as [caller|]; [|done]. rewrite lift_bind_run in Hs.
  destruct (register_instance_command request _) as [command|]; [|done].
  rewrite eff_bind_run in Hs. unfold runtime_register_instance, Services.request in Hs.
  cbn [dispatch_command] in Hs.
  destruct (write_command _ _ _ _ a) as [a1 reply] eqn:Ew.
  destruct reply as [[r|e]| | | | | | | | | | | |]; try done. injection Hs as <- <-.
  apply write_command_Ok in Ew; [|by intros ?? [= ->]|].
  - exists ids, command, r. split_and!; [done..| |done]. by eapply cp_register_Ok.
  - intros [r'|e']; [|done]. apply tells_compose; [apply scoped_tells|apply emit_tells].
Qed.

(** A lookup by a reader of the tenant that the gate lets through. *)
Lemma rpc_retrieve_run env policy metadata request a ids caller query r :
  correlation env metadata = Ok ids →
  registry_reader_from_metadata (ce_clock env) metadata policy = Ok caller →
  retrieve_instance_query request = Ok query → in_tenant caller (rq_namespace query) = true →
  (gate_command (ce_at env) OpRead a).2 = Ok () →
  MemoryRegistry.retrieve_instance query (ce_call_ms env) (the_store a) = Ok r →
  (serve_memory env policy metadata (ReqRetrieve request) a).2 =
    match r with
    | Some i => Ok (ResRetrieve (retrieve_instance_response (ce_answer_ms env) ids.1 ids.2 i))
    | None => Err {| st_code := CodeNotFound; st_message := "service instance not found" |}
    end.
Proof.
  intros Hids Hcaller Hq Ht Hg Hr. unfold serve_memory. simpl. unfold rpc_retrieve_instance.
  rewrite answer_lift, Hids, answer_lift, Hcaller, answer_lift, Hq.
  destruct (registry_reader_caller _ _ _ _ Hcaller) as [_ Hp].
  unfold answer. rewrite eff_bind_run. unfold runtime_retrieve_instance, Services.request.
  cbn [dispatch_command].
  destruct (@read_command_admitted _ _ (ce_at env) ReplyRetrieve
    (@ControlPlane.retrieve_instance _ (@memory_registry_store h dh) caller query (ce_call_ms env))
    (resolve_retrieve_instance (at_cache (ce_at env)) (retrieve_instance_cache_key query))
    a (ac_plane a) r) as (a' & -> & _); [done| |by intros|].
  - unfold ControlPlane.retrieve_instance. rewrite !lift_bind_run.
    unfold require_registry_permission. rewrite Hp.
    rewrite ?lift_bind_run, (proj2 (tenant_access_Ok caller (rq_namespace query) ()) Ht).
    unfold from_store. simpl. by rewrite Hr.
  - simpl. by destruct r.
Qed.

(** The lookup of what a request registers, and what it should answer. *)
Definition lookup_of (request : RegisterInstanceRequest) : InstanceRequest :=
  {| ir_namespace := ri_namespace request; ir_environment := ri_environment request;
     ir_service_name := ri_service_name request; ir_instance_id := ri_instance_id request |}.

(** A health check as it is answered: what does not concern the kind of the probe is
    cleared, and of the expected status of an HTTP probe the low sixteen bits are left. *)
Definition echoed_probe (p : PbHealthCheckProbe) : PbHealthCheckProbe :=
  let http := bool_decide (pp_kind p = HEALTH_CHECK_PROBE_KIND_HTTP) in
  {| pp_kind := pp_kind p;
     pp_http_path := if http then pp_http_path p else "";
     pp_http_expected_status := if http then pp_http_expected_status p mod 65536 else 0;
     pp_grpc_service_name := if bool_decide (pp_kind p = HEALTH_CHECK_PROBE_KIND_GRPC)
                             then pp_grpc_service_name p else "" |}.

Definition echoed_check (c : PbHealthCheckConfig) : PbHealthCheckConfig :=
  {| ph_probe := echoed_probe <$> ph_probe c; ph_interval_ms := ph_interval_ms c;
     ph_timeout_ms := ph_timeout_ms c; ph_unhealthy_threshold := ph_unhealthy_threshold c;
     ph_healthy_threshold := ph_healthy_threshold c |}.

Lemma health_check_echo c hc :
  health_check_from_proto c = Ok hc → health_check_to_proto hc = echoed_check c.
Proof.
  unfold health_check_from_proto, health_check_to_proto, echoed_check, echoed_probe.
  destruct (ph_probe c) as [p|]; [|done]. intros (probe & Hp & [= <-])%result_bind_Ok. simpl.
  unfold health_check_probe_from_proto in Hp. destruct p as [kind path status name]. simpl in *.
  destruct (decide (kind = HEALTH_CHECK_PROBE_KIND_TCP)) as [->|H1].
  { by injection Hp as <-. }
  rewrite bool_decide_false in Hp by done.
  destruct (decide (kind = HEALTH_CHECK_PROBE_KIND_HTTP)) as [->|H2].
  { by injection Hp as <-. }
  rewrite bool_decide_false in Hp by done.
  destruct (decide (kind = HEALTH_CHECK_PROBE_KIND_GRPC)) as [->|H3].
  { by injection Hp as <-. }
  by rewrite bool_decide_false in Hp.
Qed.

Lemma optional_check_echo o hc :
  transpose health_check_from_proto o = Ok hc →
  health_check_to_proto <$> hc = echoed_check <$> o.
Proof.
  destruct o as [c|]; simpl; [|by intros [= <-]].
  intros (x & Hx & [= <-])%result_bind_Ok. simpl. by rewrite (health_check_echo c x Hx).
Qed.

Definition wire_instance (request : RegisterInstanceRequest) (lease_id : string)
    (expires_at_ms revision : N) : PbServiceInstance :=
  {| pi_namespace := ri_namespace request; pi_environment := ri_environment request;
     pi_service_name := ri_service_name request; pi_instance_id := ri_instance_id request;
     pi_endpoint := ri_endpoint request; pi_protocol := ri_protocol request;
     pi_version := ri_version request; pi_region := ri_region request;
     pi_zone := ri_zone request; pi_weight := ri_weight request;
     pi_priority := ri_priority request; pi_status := ri_status request;
     pi_metadata := ri_metadata request; pi_lease_id := lease_id;
     pi_expires_at := Some (timestamp_from_millis expires_at_ms); pi_revision := revision;
     pi_health_check := echoed_check <$> ri_health_check request |}.

Lemma status_echo value st :
  instance_status_from_proto value = Ok st → instance_status_to_proto st = value.
Proof.
  unfold instance_status_from_proto. repeat case_bool_decide; try done; by intros [= <-].
Qed.

(** A decoded registration looked up and encoded again. *)
Lemma register_command_echo request now command lease_id expires_at_ms revision :
  @register_instance_command h request now = Ok command →
  service_instance_to_proto (registered_instance command lease_id expires_at_ms revision)
  = wire_instance request lease_id expires_at_ms revision
  ∧ retrieve_instance_query (lookup_of request) = Ok (retrieve_of command).
Proof.
  unfold register_instance_command. intros Hc.
  apply result_bind_Ok in Hc as ([] & H1 & Hc). apply result_bind_Ok in Hc as ([] & H2 & Hc).
  apply result_bind_Ok in Hc as ([] & H3 & Hc). apply result_bind_Ok in Hc as ([] & H4 & Hc).
  do 7 (apply result_bind_Ok in Hc as ([] & _ & Hc)).
  apply result_bind_Ok in Hc as (st & Hst & Hc).
  apply result_bind_Ok in Hc as (hc & Hhc & [= <-]). split.
  - unfold service_instance_to_proto, wire_instance. simpl.
    by rewrite (status_echo _ _ Hst), (optional_check_echo _ _ Hhc).
  - unfold retrieve_instance_query, validate_instance_names. simpl.
    by rewrite H1, H2, H3, H4.
Qed.

(** C29: an instance registered over the wire is looked up over the wire as it was
    registered: a later lookup of its names by an authenticated reader of the tenant,
    which the gate admits, answers every field of the registration with the lease, the
    expiry and the revision that the registration answered, for as long as the lease runs,
    and NOT_FOUND afterwards.  Of a health check, the fields that its kind of probe does
    not use are cleared, and the expected status of an HTTP probe is cut to sixteen
    bits. *)
Theorem rpc_register_then_retrieve env policy metadata request a a1 resp
    env2 metadata2 reader ids2 :
  serve_memory env policy metadata (ReqRegister request) a = (a1, Ok resp) →
  correlation env2 metadata2 = Ok ids2 →
  registry_reader_from_metadata (ce_clock env2) metadata2 policy = Ok reader →
  in_tenant reader (ri_namespace request) = true →
  (gate_command (ce_at env2) OpRead a1).2 = Ok () →
  ∃ lease_id expires_at_ms revision ids,
    correlation env metadata = Ok ids
    ∧ resp = ResRegister {| ro_lease_id := lease_id;
                            ro_expires_at := Some (timestamp_from_millis expires_at_ms);
                            ro_metadata := Some (response_metadata (ce_answer_ms env) revision
                                                   ids.1 ids.2) |}
    ∧ (serve_memory env2 policy metadata2 (ReqRetrieve (lookup_of request)) a1).2 =
        if ce_call_ms env2 <? expires_at_ms
        then Ok (ResRetrieve
               {| to_instance := Some (wire_instance request lease_id expires_at_ms revision);
                  to_metadata := Some (response_metadata (ce_answer_ms env2) revision
                                         ids2.1 ids2.2) |})
        else Err {| st_code := CodeNotFound; st_message := "service instance not found" |}.
Proof.
  intros (ids & command & r & Hids1 & Hd & Hr & ->)%rpc_register_Ok Hids Hreader Ht Hg.
  destruct (register_command_echo _ _ _ (rr_lease_id r) (rr_expires_at_ms r) (rr_revision r) Hd)
    as [Hecho Hq].
  exists (rr_lease_id r), (rr_expires_at_ms r), (rr_revision r), ids.
  split; [done|]. split; [reflexivity|].
  pose proof (registered_retrieved _ _ _ _ (ce_call_ms env2) Hr) as Hret.
  assert (in_tenant reader (rq_namespace (retrieve_of command)) = true) as Ht'
    by (simpl; by rewrite (register_command_namespace _ _ _ Hd)).
  pose proof (rpc_retrieve_run env2 policy metadata2 (lookup_of request) a1 ids2 reader
    (retrieve_of command) _ Hids Hreader Hq Ht' Hg Hret) as ->.
  destruct (ce_call_ms env2 <? rr_expires_at_ms r); [|done].
  unfold retrieve_instance_response. by rewrite Hecho.
Qed.

(** *** Retrying a draft *)

(** A draft answered with success went through to the store. *)
Lemma rpc_draft_Ok env policy metadata request a a' res :
  serve_memory env policy metadata (ReqDraft request) a = (a', Ok res) →
  ∃ ids idempotency command draft,
    idempotency_from_metadata metadata "discovery.config.drafts.create" = Ok idempotency
    ∧ cc_idempotency command = Some idempotency
    ∧ MemoryConfig.create_config_draft sha command (the_store a) = (the_store a', Ok draft)
    ∧ res = ResDraft (create_config_draft_response (ce_answer_ms env) ids.1 ids.2
                        (cd_draft_id draft) (cd_content_hash draft)).
Proof.
  unfold serve_memory. simpl. intros (resp & Hs & ->)%answer_Ok.
  unfold rpc_create_config_draft in Hs. rewrite lift_bind_run in Hs.
  destruct (correlation env metadata) as [ids|]; [|done]. rewrite lift_bind_run in Hs.
  destruct (idempotency_from_metadata _ _) as [idem|]; [|done]. rewrite lift_bind_run in Hs.
  destruct (caller_from_metadata_with_required_idempotency _ _ _) as [caller|]; [|done].
  rewrite lift_bind_run in Hs.
  destruct (create_config_draft_command _ _ _) as [command|] eqn:Ec; [|done].
  rewrite eff_bind_run in Hs. unfold runtime_create_config_draft, Services.request in Hs.
  cbn [dispatch_command] in Hs. destruct (write_command _ _ _ _ a) as [a1 reply] eqn:Ew.
  destruct reply as [| | | | | | | | |[d|e]| | |]; try done. injection Hs as <- <-.
  apply write_command_Ok in Ew; [|by intros ?? [= ->]|done].
  exists ids, idem, command, d. split_and!; [done| | |done].
  - unfold create_config_draft_command in Ec.
    repeat (apply result_bind_Ok in Ec as (? & _ & Ec)). by injection Ec as <-.
  - revert Ew. unfold ControlPlane.create_config_draft. cp_checks. unfold on_store. simpl.
    destruct (MemoryConfig.create_config_draft sha command (the_store a)).
    intros [= Hp ->]. by rewrite <- Hp.
Qed.

(** A draft request repeated with the same idempotency key and request hash is
    answered with the draft of the first request, and changes nothing; the code asks
    neither that the second caller be the first nor that the requests be the same. *)
Theorem rpc_draft_retry env policy metadata request a a1 resp
    env2 metadata2 request2 caller2 ids2 command2 idempotency :
  serve_memory env policy metadata (ReqDraft request) a = (a1, Ok resp) →
  idempotency_from_metadata metadata "discovery.config.drafts.create" = Ok idempotency →
  idempotency_from_metadata metadata2 "discovery.config.drafts.create" = Ok idempotency →
  correlation env2 metadata2 = Ok ids2 →
  caller_from_metadata_with_required_idempotency (ce_clock env2) metadata2 policy = Ok caller2 →
  create_config_draft_command request2 (subject_id caller2) idempotency = Ok command2 →
  validate_config_draft_command command2 = Ok () →
  has_config_permission caller2 ConfigPublish = true →
  in_tenant caller2 (creq_namespace request2) = true →
  require_config_registry_enabled (config_policy (ac_plane a1)) = Ok () →
  validate_config_policy (config_policy (ac_plane a1)) (cc_format command2) (cc_value command2)
    = Ok () →
  (gate_command (ce_at env2) OpWrite a1).2 = Ok () →
  ∃ a2 draft_id content_hash metadata1,
    resp = ResDraft {| co_draft_id := draft_id; co_content_hash := content_hash;
                       co_metadata := metadata1 |}
    ∧ serve_memory env2 policy metadata2 (ReqDraft request2) a1
      = (a2, Ok (ResDraft (create_config_draft_response (ce_answer_ms env2) ids2.1 ids2.2
                             draft_id content_hash)))
    ∧ the_store a2 = the_store a1.
Proof.
  intros (ids & idem & command & d & Hi & Hci & Hd & ->)%rpc_draft_Ok Hi1 Hi2 Hids Hcaller Hc2
    Hv Hp Ht Hen Hpol Hg.
  rewrite Hi in Hi1. injection Hi1 as ->.
  assert (cc_idempotency command2 = Some idempotency ∧ cc_namespace command2 = creq_namespace request2)
    as [Hci2 Hns].
  { unfold create_config_draft_command in Hc2.
    repeat (apply result_bind_Ok in Hc2 as (? & _ & Hc2)). by injection Hc2 as <-. }
  pose proof (draft_leaves_record sha command idempotency _ _ d Hd Hci command2 Hci2) as Hreplay.
  assert (MemoryConfig.create_config_draft sha command2 (the_store a1) = (the_store a1, Ok d)) as Hre.
  { by rewrite create_config_draft_run, Hv, Hreplay. }
  destruct (@write_command_admitted _ _ (ce_at env2) ReplyDraft
    (@ControlPlane.create_config_draft _ (memory_config_store sha) _ caller2 command2)
    (λ _ a, a) a1 (set_store (the_store a1) (ac_plane a1)) d Hg) as (a2 & Hw & Hplane); [|done|].
  { unfold ControlPlane.create_config_draft. rewrite lift_bind_run.
    unfold require_config_permission. rewrite Hp, lift_bind_run, Hns.
    rewrite (proj2 (tenant_access_Ok caller2 (creq_namespace request2) ()) Ht).
    rewrite gets_bind_run, lift_bind_run, Hen, lift_bind_run, Hpol. unfold on_store. simpl.
    by rewrite Hre. }
  exists a2, (cd_draft_id d), (cd_content_hash d). eexists. split; [reflexivity|]. split.
  - unfold serve_memory. simpl. unfold rpc_create_config_draft.
    rewrite answer_lift, Hids, answer_lift, Hi2, answer_lift, Hcaller, answer_lift, Hc2.
    unfold answer. rewrite eff_bind_run. unfold runtime_create_config_draft, Services.request.
    cbn [dispatch_command]. by rewrite Hw.
  - by rewrite Hplane.
Qed.
End end_to_end.

(** ** Concrete calls *)

Definition sample_env (ms : N) : CallEnv :=
  {| ce_generated := "0190"; ce_clock := Some 5000; ce_decode_ms := ms; ce_call_ms := ms;
     ce_answer_ms := ms; ce_at := instant ms |}.

Definition signed_policy : RpcContextPolicy :=
  {| allow_unsigned_local_context := false; service_token_verifier := Some sample_verifier |}.

(** A request with a signed token. *)
Definition signed_metadata : gmap string string :=
  {[ "authorization" := "Bearer " +:+ token_text "h" "c" "sig3"; "access-token" := "at" ]}.

Definition sample_request : RegisterInstanceRequest :=
  {| ri_namespace := "acme"; ri_environment := "prod"; ri_service_name := "drive";
     ri_instance_id := "drive-3"; ri_endpoint := "10.0.0.3:50051"; ri_protocol := "grpc";
     ri_version := "0.1.0"; ri_region := "eu"; ri_zone := "eu-a"; ri_weight := 100;
     ri_priority := 0; ri_status := INSTANCE_STATUS_SERVING; ri_metadata := ∅;
     ri_lease_ttl_seconds := 30; ri_expected_revision := None; ri_persistent := false;
     ri_health_check := None |}.

Definition sample_serve : CallEnv → RpcContextPolicy → gmap string string → RpcRequest →
    Eff Status (Actor MemoryDiscoveryStore) RpcResponse :=
  serve_memory canonical_order (λ _ _, 0) sample_hash id.

Definition registered_actor : Actor MemoryDiscoveryStore :=
  (sample_serve (sample_env 7000) signed_policy signed_metadata (ReqRegister sample_request)
     (sample_actor sample_store)).1.

Definition sample_registration : RpcResponse :=
  ResRegister {| ro_lease_id := "lease-3"; ro_expires_at := Some (timestamp_from_millis 37000);
                 ro_metadata := Some (response_metadata 7000 3 "req_0190" "") |}.

Lemma sample_registered :
  sample_serve (sample_env 7000) signed_policy signed_metadata (ReqRegister sample_request)
    (sample_actor sample_store) = (registered_actor, Ok sample_registration).
Proof. vm_compute. reflexivity. Qed.

Lemma sample_reader :
  registry_reader_from_metadata (Some 5000) signed_metadata signed_policy = Ok sample_caller.
Proof. vm_compute. reflexivity. Qed.

Lemma sample_gate : (gate_command (instant 36999) OpRead registered_actor).2 = Ok ().
Proof. vm_compute. reflexivity. Qed.

Lemma rpc_register_then_retrieve_witness :
  ∃ lease_id expires_at_ms revision ids,
    correlation (sample_env 7000) signed_metadata = Ok ids
    ∧ sample_registration
      = ResRegister {| ro_lease_id := lease_id;
                       ro_expires_at := Some (timestamp_from_millis expires_at_ms);
                       ro_metadata := Some (response_metadata 7000 revision ids.1 ids.2) |}
    ∧ (sample_serve (sample_env 36999) signed_policy signed_metadata
         (ReqRetrieve (lookup_of sample_request)) registered_actor).2 =
        if 36999 <? expires_at_ms
        then Ok (ResRetrieve
               {| to_instance := Some (wire_instance sample_request lease_id expires_at_ms revision);
                  to_metadata := Some (response_metadata 36999 revision "req_0190" "") |})
        else Err {| st_code := CodeNotFound; st_message := "service instance not found" |}.
Proof.
  exact (rpc_register_then_retrieve canonical_order (λ _ _, 0) sample_hash id
    (sample_env 7000) signed_policy signed_metadata sample_request (sample_actor sample_store)
    registered_actor sample_registration (sample_env 36999) signed_metadata sample_caller
    ("req_0190", "") sample_registered eq_refl sample_reader eq_refl sample_gate).
Defined.

Definition unsigned_policy : RpcContextPolicy :=
  {| allow_unsigned_local_context := true; service_token_verifier := None |}.

(** A publisher of a tenant, with an idempotency key that does not name the tenant. *)
Definition publisher_metadata (subject tenant : string) : gmap string string :=
  {[ "x-sdkwork-subject-id" := subject; "x-sdkwork-tenant-id" := tenant;
     "x-sdkwork-config-permissions" := "publish"; "idempotency-key" := "deploy-1";
     "x-request-hash" := "h1" ]}.

Definition draft_request (namespace value : string) : CreateConfigDraftRequest :=
  {| creq_namespace := namespace; creq_environment := "prod"; creq_group := "app";
     creq_key := "mode"; creq_format := CONFIG_FORMAT_TEXT; creq_value := value;
     creq_scope_type := CONFIG_SCOPE_TYPE_NAMESPACE; creq_application := "";
     creq_service_name := "" |}.

Definition drafted_actor : Actor MemoryDiscoveryStore :=
  (sample_serve (sample_env 7000) unsigned_policy (publisher_metadata "alice" "acme")
     (ReqDraft (draft_request "acme" "safe")) (sample_actor sample_store)).1.

Definition sample_drafted : RpcResponse :=
  ResDraft {| co_draft_id := "draft-3"; co_content_hash := "sha256:safe";
              co_metadata := Some (response_metadata 7000 0 "req_0190" "") |}.

Definition bob : CallerContext :=
  {| subject_id := "bob"; tenant_id := Some "globex"; organization_id := None;
     registry_permissions := []; config_permissions := [ConfigPublish] |}.

Definition deploy_key : IdempotencyContext :=
  {| ic_operation_id := "discovery.config.drafts.create"; ic_key := "deploy-1";
     ic_request_hash := "h1" |}.

Definition bobs_draft : CreateConfigDraftCommand :=
  {| cc_namespace := "globex"; cc_environment := "prod"; cc_group := "app"; cc_key := "mode";
     cc_format := FormatText; cc_value := "fast"; cc_scope := ScopeNamespace;
     cc_created_by := "bob"; cc_idempotency := Some deploy_key |}.

Lemma sample_draft_served :
  sample_serve (sample_env 7000) unsigned_policy (publisher_metadata "alice" "acme")
    (ReqDraft (draft_request "acme" "safe")) (sample_actor sample_store)
  = (drafted_actor, Ok sample_drafted).
Proof. vm_compute. reflexivity. Qed.

Lemma drafted_gate : (gate_command (instant 8000) OpWrite drafted_actor).2 = Ok ().
Proof. vm_compute. reflexivity. Qed.

Lemma drafted_policy : config_policy (ac_plane drafted_actor) = sample_policy.
Proof. vm_compute. reflexivity. Qed.

(** The draft of one tenant is the answer to another tenant's request. *)
Lemma rpc_draft_retry_witness :
  ∃ a2 draft_id content_hash metadata1,
    sample_drafted = ResDraft {| co_draft_id := draft_id; co_content_hash := content_hash;
                                 co_metadata := metadata1 |}
    ∧ sample_serve (sample_env 8000) unsigned_policy (publisher_metadata "bob" "globex")
        (ReqDraft (draft_request "globex" "fast")) drafted_actor
      = (a2, Ok (ResDraft (create_config_draft_response 8000 "req_0190" "" draft_id content_hash)))
    ∧ store (ac_plane a2) = store (ac_plane drafted_actor).
Proof.
  refine (rpc_draft_retry canonical_order (λ _ _, 0) sample_hash id (sample_env 7000)
    unsigned_policy (publisher_metadata "alice" "acme") (draft_request "acme" "safe")
    (sample_actor sample_store) drafted_actor sample_drafted (sample_env 8000)
    (publisher_metadata "bob" "globex") (draft_request "globex" "fast") bob ("req_0190", "")
    bobs_draft deploy_key sample_draft_served _ _ _ _ _ eq_refl eq_refl eq_refl _ _ drafted_gate);
    try (vm_compute; reflexivity); rewrite drafted_policy; vm_compute; reflexivity.
Defined.
