(* ===== verification/HostConfig.v ===== *)
(** * Host configuration: the typed model (crates/sdkwork-discovery-config)

    The settings of a process (model.rs, and runtime_config.rs of the contract crate)
    and the checks that decide which settings a process may start with.  Fields keep
    the source's names behind a prefix per record. *)
From S2P Require Import Prelude RustStr Collections Contract.
From Stdlib Require Import Ascii.

(** ** Lifecycle enumerations (runtime_config.rs of the contract crate) *)

Inductive RuntimeEnvironment : Type := Development | Test | Staging | Production.
Inductive RuntimeDeploymentProfile : Type := Standalone | Cloud.
Inductive RuntimeDeploymentMode : Type := ModeServer | ModeContainer | ModeLocal | ModeTest.
Inductive RuntimeTarget : Type := TargetServer | TargetContainer | TargetTestRunner.

#[export] Instance RuntimeEnvironment_eq_dec : EqDecision RuntimeEnvironment.
Proof. solve_decision. Defined.
#[export] Instance RuntimeDeploymentMode_eq_dec : EqDecision RuntimeDeploymentMode.
Proof. solve_decision. Defined.
#[export] Instance RuntimeTarget_eq_dec : EqDecision RuntimeTarget.
Proof. solve_decision. Defined.

(** A [match] on string literals: the value of the first arm whose literal is met. *)
Fixpoint match_str {A} (value : string) (arms : list (string * A)) : option A :=
  match arms with
  | [] => None
  | (literal, a) :: arms' => if bool_decide (value = literal) then Some a else match_str value arms'
  end.

Definition environment_parse (value : string) : option RuntimeEnvironment :=
  match_str value [("development", Development); ("test", Test); ("staging", Staging);
                   ("production", Production)].

Definition from_profile (profile : string) : option RuntimeEnvironment :=
  match_str profile [("dev", Development); ("test", Test); ("staging", Staging);
                     ("prod", Production)].

Definition environment_as_str (e : RuntimeEnvironment) : string :=
  match e with
  | Development => "development" | Test => "test" | Staging => "staging"
  | Production => "production"
  end.

Definition profile_parse (value : string) : option RuntimeDeploymentProfile :=
  match_str value [("standalone", Standalone); ("self-hosted", Standalone);
                   ("cloud", Cloud); ("cloud-hosted", Cloud)].

Definition profile_as_str (p : RuntimeDeploymentProfile) : string :=
  match p with Standalone => "standalone" | Cloud => "cloud" end.

Definition mode_parse (value : string) : option RuntimeDeploymentMode :=
  match_str value [("server", ModeServer); ("container", ModeContainer); ("local", ModeLocal);
                   ("test", ModeTest)].

Definition target_parse (value : string) : option RuntimeTarget :=
  match_str value [("server", TargetServer); ("container", TargetContainer);
                   ("test-runner", TargetTestRunner)].

Definition target_as_str (t : RuntimeTarget) : string :=
  match t with
  | TargetServer => "server" | TargetContainer => "container"
  | TargetTestRunner => "test-runner"
  end.

(** ** Enumerations of model.rs *)

Inductive SecurityAuthMode : Type := ServiceToken.
Inductive StorageProvider : Type := Memory | Postgres | Sqlite | Redis | Etcd | Consul.
Inductive StorageRole : Type := RolePrimary | RoleCache | RoleWatch.
Inductive StorageCredentialSource : Type :=
| CredentialNone
| PasswordFile (path : string).

#[export] Instance StorageProvider_eq_dec : EqDecision StorageProvider.
Proof. solve_decision. Defined.
#[export] Instance StorageRole_eq_dec : EqDecision StorageRole.
Proof. solve_decision. Defined.

Definition auth_mode_parse (value : string) : option SecurityAuthMode :=
  match_str value [("service-token", ServiceToken)].

Definition auth_mode_as_str (m : SecurityAuthMode) : string :=
  match m with ServiceToken => "service-token" end.

Definition provider_parse (value : string) : option StorageProvider :=
  match_str value [("memory", Memory); ("postgres", Postgres); ("sqlite", Sqlite);
                   ("redis", Redis); ("etcd", Etcd); ("consul", Consul)].

Definition provider_as_str (p : StorageProvider) : string :=
  match p with
  | Memory => "memory" | Postgres => "postgres" | Sqlite => "sqlite" | Redis => "redis"
  | Etcd => "etcd" | Consul => "consul"
  end.

Definition role_parse (value : string) : option StorageRole :=
  match_str value [("primary", RolePrimary); ("cache", RoleCache); ("watch", RoleWatch)].

Definition is_primary_capable_for_provider (role : StorageRole) (provider : StorageProvider)
    : bool :=
  match provider with
  | Memory | Postgres | Sqlite => bool_decide (role = RolePrimary)
  | Redis | Etcd | Consul => true
  end.

(** ** Settings *)

Record RuntimeConfig : Type := {
  run_environment : RuntimeEnvironment;
  run_config_profile : option string;
  run_deployment_profile : RuntimeDeploymentProfile;
  run_deployment_mode : RuntimeDeploymentMode;
  run_runtime_target : RuntimeTarget;
}.

Record ServerConfig : Type := {
  srv_grpc_bind_host : string;
  srv_grpc_port : N;
  srv_admin_grpc_port : N;
  srv_enable_health : bool;
  srv_enable_reflection : bool;
  srv_default_deadline_ms : N;
}.

Record ServiceTokenConfig : Type := {
  stk_hmac_secret_file : option string;
  stk_issuer : string;
  stk_audience : string;
  stk_max_token_ttl_seconds : N;
}.

Record SecurityConfig : Type := {
  sec_auth_mode : SecurityAuthMode;
  sec_tls_enabled : bool;
  sec_mtls_enabled : bool;
  sec_allow_unsigned_local_context : bool;
  sec_service_token : ServiceTokenConfig;
  sec_server_tls_cert_file : option string;
  sec_server_tls_key_file : option string;
  sec_client_ca_cert_file : option string;
}.

Record StorageTransportConfig : Type := {
  tr_host : string;
  tr_port : N;
  tr_database : option string;
  tr_schema : option string;
  tr_username : option string;
  tr_credential_source : StorageCredentialSource;
  tr_tls_enabled : bool;
  tr_connect_timeout_ms : N;
  tr_max_connections : N;
}.

Record StorageFileConfig : Type := {
  fs_file : string;
  fs_max_connections : N;
}.

Record StorageConfig : Type := {
  sto_provider : StorageProvider;
  sto_registry_role : StorageRole;
  sto_config_role : StorageRole;
  sto_watch_role : StorageRole;
  sto_apply_initial_schema : bool;
  sto_postgres : option StorageTransportConfig;
  sto_sqlite : option StorageFileConfig;
  sto_redis : option StorageTransportConfig;
  sto_etcd : option StorageTransportConfig;
  sto_consul : option StorageTransportConfig;
}.

Record RegistryConfig : Type := {
  reg_default_lease_ttl_seconds : N;
  reg_min_lease_ttl_seconds : N;
  reg_max_lease_ttl_seconds : N;
  reg_expiry_scan_interval_ms : N;
  reg_expiry_scan_batch_size : N;
  reg_health_check_scan_interval_ms : N;
}.

Record ConfigRegistryConfig : Type := {
  crg_enabled : bool;
  crg_max_config_body_bytes : N;
  crg_require_publish_for_reads : bool;
  crg_allow_secret_values : bool;
  crg_allow_secret_refs : bool;
}.

Record WatchConfig : Type := {
  wch_enabled : bool;
  wch_max_streams : N;
  wch_event_buffer_size : N;
  wch_heartbeat_interval_ms : N;
  wch_durable_poll_interval_ms : N;
  wch_durable_replay_batch_size : N;
  wch_event_gc_interval_ms : N;
  wch_event_gc_retention_count : N;
  wch_event_gc_batch_size : N;
}.

Record ResilienceCircuitBreakerConfig : Type := {
  hcb_enabled : bool;
  hcb_failure_threshold : N;
  hcb_recovery_timeout_ms : N;
  hcb_half_open_max_requests : N;
}.

Record ResilienceRateLimitConfig : Type := {
  hrl_enabled : bool;
  hrl_requests_per_second : N;
  hrl_burst_capacity : N;
}.

Record ResilienceDegradationConfig : Type := {
  hdg_read_only_on_storage_failure : bool;
  hdg_stale_read_max_age_ms : N;
}.

Record ResilienceConfig : Type := {
  res_circuit_breaker : ResilienceCircuitBreakerConfig;
  res_rate_limit : ResilienceRateLimitConfig;
  res_degradation : ResilienceDegradationConfig;
}.

Record DiscoveryRuntimeConfig : Type := {
  cfg_runtime : RuntimeConfig;
  cfg_server : ServerConfig;
  cfg_security : SecurityConfig;
  cfg_storage : StorageConfig;
  cfg_registry : RegistryConfig;
  cfg_config_registry : ConfigRegistryConfig;
  cfg_watch : WatchConfig;
  cfg_resilience : ResilienceConfig;
}.

(** ** Defaults *)

Definition default_event_gc_interval_ms : N := 60000.
Definition default_event_gc_retention_count : N := 10000.
Definition default_event_gc_batch_size : N := 1000.

Definition default_host_circuit_breaker : ResilienceCircuitBreakerConfig :=
  {| hcb_enabled := false; hcb_failure_threshold := 5; hcb_recovery_timeout_ms := 30000;
     hcb_half_open_max_requests := 3 |}.
Definition default_host_rate_limit : ResilienceRateLimitConfig :=
  {| hrl_enabled := false; hrl_requests_per_second := 1000; hrl_burst_capacity := 1000 |}.
Definition default_host_degradation : ResilienceDegradationConfig :=
  {| hdg_read_only_on_storage_failure := false; hdg_stale_read_max_age_ms := 60000 |}.
Definition default_host_resilience : ResilienceConfig :=
  {| res_circuit_breaker := default_host_circuit_breaker;
     res_rate_limit := default_host_rate_limit;
     res_degradation := default_host_degradation |}.

(** ** Validation *)

(** [if refused { return Err(InvalidConfig(message)) }]. *)
Definition refuse (refused : bool) (message : string) : DiscoveryResult () :=
  if refused then Err (InvalidConfig message) else Ok ().

Definition is_loopback_bind_host (value : string) : bool :=
  bool_decide (trim value ∈ ["127.0.0.1"; "localhost"; "::1"; "[::1]"]).

Definition require_file_reference (label : string) (value : option string)
    : DiscoveryResult () :=
  refuse (bool_decide (value = None))
    (label +:+ " is required when TLS or mTLS is enabled").

Definition carriage_return : ascii := "013".
Definition line_feed : ascii := "010".

Definition validate_optional_file_reference (label : string) (value : option string)
    : DiscoveryResult () :=
  match value with
  | None => Ok ()
  | Some value =>
      refuse (is_blank value) (label +:+ " must not be empty");;
      refuse (contains value "-----BEGIN " || contains_char line_feed value
              || contains_char carriage_return value)
        (label +:+ " must be a file reference and must not contain inline PEM material")
  end.

Definition validate_file_storage (name : string) (config : option StorageFileConfig)
    : DiscoveryResult () :=
  config ← ok_or config
    (InvalidConfig ("storage provider " +:+ name +:+ " requires [storage." +:+ name +:+ "]"));
  refuse (is_blank (fs_file config))
    ("storage provider " +:+ name +:+ " file must not be empty");;
  refuse (fs_max_connections config =? 0)
    ("storage provider " +:+ name +:+ " max connections must be greater than zero").

Definition validate_transport (name : string) (transport : option StorageTransportConfig)
    (supports_schema : bool) : DiscoveryResult StorageTransportConfig :=
  transport ← ok_or transport
    (InvalidConfig ("storage provider " +:+ name +:+ " requires [storage." +:+ name +:+ "]"));
  refuse (is_blank (tr_host transport))
    ("storage provider " +:+ name +:+ " host must not be empty");;
  refuse (tr_port transport =? 0)
    ("storage provider " +:+ name +:+ " port must be greater than zero");;
  refuse (tr_connect_timeout_ms transport =? 0)
    ("storage provider " +:+ name +:+ " connect timeout must be greater than zero");;
  refuse (tr_max_connections transport =? 0)
    ("storage provider " +:+ name +:+ " max connections must be greater than zero");;
  match tr_schema transport with
  | Some schema =>
      refuse (negb supports_schema)
        ("storage provider " +:+ name
         +:+ " does not support schema; schema is postgres-only");;
      refuse (is_blank schema)
        ("storage provider " +:+ name +:+ " schema must not be empty")
  | None => Ok ()
  end;;
  match tr_credential_source transport with
  | PasswordFile path =>
      refuse (is_blank path)
        ("storage provider " +:+ name +:+ " password_file must not be empty");;
      Ok transport
  | CredentialNone => Ok transport
  end.

Definition is_run_id_byte (a : ascii) : bool :=
  let n := byte_at a in
  ((97 <=? n) && (n <=? 122)) || ((48 <=? n) && (n <=? 57)) || (n =? 95).

Definition is_workspace_test_database (value : string) : bool :=
  bool_decide (value = "sdkwork_ai_test")
  || match strip_prefix value "sdkwork_ai_test_" with
     | Some suffix => negb (is_empty suffix) && all_bytes is_run_id_byte suffix
     | None => false
     end.

Section validation.
(** The [{:?}] form of a string in error messages. *)
Context (debug_str : string → string).

Definition validate_workspace_postgres_identity (environment : RuntimeEnvironment)
    (postgres : StorageTransportConfig) : DiscoveryResult () :=
  database ← ok_or (tr_database postgres)
    (InvalidConfig "postgres storage requires SDKWork workspace database identity");
  schema ← ok_or (tr_schema postgres)
    (InvalidConfig "postgres storage requires a schema equal to the workspace database");
  username ← ok_or (tr_username postgres)
    (InvalidConfig "postgres storage requires SDKWork workspace username");
  let '(database_is_valid, expected_database, expected_username) :=
    match environment with
    | Development =>
        (bool_decide (database = "sdkwork_ai_dev"), "sdkwork_ai_dev", "sdkwork_ai_dev")
    | Test =>
        (is_workspace_test_database database,
         "sdkwork_ai_test or sdkwork_ai_test_<run_id>", "sdkwork_ai_test")
    | Staging =>
        (bool_decide (database = "sdkwork_ai_staging"), "sdkwork_ai_staging",
         "sdkwork_ai_staging")
    | Production =>
        (bool_decide (database = "sdkwork_ai_prod"), "sdkwork_ai_prod", "sdkwork_ai_prod")
    end in
  refuse (negb database_is_valid)
    ("postgres database " +:+ debug_str database
     +:+ " is not the canonical workspace identity for " +:+ environment_as_str environment
     +:+ "; expected " +:+ expected_database);;
  refuse (negb (bool_decide (schema = database)))
    ("postgres schema must equal workspace database " +:+ debug_str database +:+ ", got "
     +:+ debug_str schema);;
  refuse (negb (bool_decide (username = expected_username)))
    ("postgres username " +:+ debug_str username +:+ " is not canonical for "
     +:+ environment_as_str environment +:+ "; expected " +:+ expected_username).

Definition validate_storage (c : DiscoveryRuntimeConfig) : DiscoveryResult () :=
  match sto_provider (cfg_storage c) with
  | Memory => Ok ()
  | Postgres =>
      postgres ← validate_transport "postgres" (sto_postgres (cfg_storage c)) true;
      validate_workspace_postgres_identity (run_environment (cfg_runtime c)) postgres
  | Sqlite => validate_file_storage "sqlite" (sto_sqlite (cfg_storage c))
  | Redis => validate_transport "redis" (sto_redis (cfg_storage c)) false;; Ok ()
  | Etcd => validate_transport "etcd" (sto_etcd (cfg_storage c)) false;; Ok ()
  | Consul => validate_transport "consul" (sto_consul (cfg_storage c)) false;; Ok ()
  end.

Definition validate_storage_roles (c : DiscoveryRuntimeConfig) : DiscoveryResult () :=
  let provider := sto_provider (cfg_storage c) in
  refuse (negb (is_primary_capable_for_provider (sto_registry_role (cfg_storage c)) provider))
    ("storage provider " +:+ provider_as_str provider
     +:+ " requires registry_role = primary");;
  refuse (crg_enabled (cfg_config_registry c)
          && negb (is_primary_capable_for_provider (sto_config_role (cfg_storage c)) provider))
    ("enabled config registry with storage provider " +:+ provider_as_str provider
     +:+ " requires config_role = primary");;
  refuse (wch_enabled (cfg_watch c)
          && negb (is_primary_capable_for_provider (sto_watch_role (cfg_storage c)) provider))
    ("enabled watch with storage provider " +:+ provider_as_str provider
     +:+ " requires watch_role = primary").

Definition validate_resilience (c : DiscoveryRuntimeConfig) : DiscoveryResult () :=
  let breaker := res_circuit_breaker (cfg_resilience c) in
  let limit := res_rate_limit (cfg_resilience c) in
  let degradation := res_degradation (cfg_resilience c) in
  refuse (hcb_enabled breaker && (hcb_failure_threshold breaker =? 0))
    "resilience circuit breaker failure threshold must be greater than zero when enabled";;
  refuse (hcb_enabled breaker && (hcb_recovery_timeout_ms breaker =? 0))
    "resilience circuit breaker recovery timeout must be greater than zero when enabled";;
  refuse (hcb_enabled breaker && (hcb_half_open_max_requests breaker =? 0))
    "resilience circuit breaker half-open max requests must be greater than zero when enabled";;
  (if hrl_enabled limit then
     refuse (hrl_requests_per_second limit =? 0)
       "resilience rate limit requests per second must be greater than zero when enabled";;
     refuse (hrl_burst_capacity limit =? 0)
       "resilience rate limit burst capacity must be greater than zero when enabled"
   else Ok ());;
  refuse (hdg_read_only_on_storage_failure degradation
          && (hdg_stale_read_max_age_ms degradation =? 0))
    "resilience degradation stale read max age must be greater than zero when read-only degradation is enabled".

Definition validate_security (c : DiscoveryRuntimeConfig) : DiscoveryResult () :=
  let security := cfg_security c in
  let token := sec_service_token security in
  let tls_required := sec_tls_enabled security || sec_mtls_enabled security in
  validate_optional_file_reference "TLS server certificate file"
    (sec_server_tls_cert_file security);;
  validate_optional_file_reference "TLS server private key file"
    (sec_server_tls_key_file security);;
  validate_optional_file_reference "mTLS client CA certificate file"
    (sec_client_ca_cert_file security);;
  validate_optional_file_reference "service-token HMAC secret file"
    (stk_hmac_secret_file token);;
  refuse (is_blank (stk_issuer token)) "service-token issuer must not be empty";;
  refuse (is_blank (stk_audience token)) "service-token audience must not be empty";;
  refuse (stk_max_token_ttl_seconds token =? 0)
    "service-token max ttl must be greater than zero";;
  (if negb (sec_allow_unsigned_local_context security)
   then require_file_reference "service-token HMAC secret file" (stk_hmac_secret_file token)
   else Ok ());;
  (if tls_required then
     require_file_reference "TLS server certificate file" (sec_server_tls_cert_file security);;
     require_file_reference "TLS server private key file" (sec_server_tls_key_file security)
   else Ok ());;
  (if sec_mtls_enabled security
   then require_file_reference "mTLS client CA certificate file"
          (sec_client_ca_cert_file security)
   else Ok ()).

Definition validate_unsigned_local_context (c : DiscoveryRuntimeConfig) : DiscoveryResult () :=
  if negb (sec_allow_unsigned_local_context (cfg_security c)) then Ok ()
  else
    refuse (negb (bool_decide (run_environment (cfg_runtime c) ∈ [Development; Test])))
      "unsigned local context is allowed only for development or test runtimes";;
    refuse (bool_decide (run_deployment_mode (cfg_runtime c) = ModeContainer)
            || bool_decide (run_runtime_target (cfg_runtime c) = TargetContainer))
      "unsigned local context is not allowed for container runtimes";;
    refuse (negb (is_loopback_bind_host (srv_grpc_bind_host (cfg_server c))))
      "unsigned local context requires a loopback gRPC bind host".

(** The checks of [validate] on leases and watches. *)
Definition validate_registry (r : RegistryConfig) : DiscoveryResult () :=
  refuse ((reg_default_lease_ttl_seconds r <? reg_min_lease_ttl_seconds r)
          || (reg_max_lease_ttl_seconds r <? reg_default_lease_ttl_seconds r))
    "lease ttl bounds must satisfy min <= default <= max";;
  refuse (reg_expiry_scan_interval_ms r =? 0)
    "lease expiry scan interval must be greater than zero";;
  refuse (reg_expiry_scan_batch_size r =? 0)
    "lease expiry scan batch size must be greater than zero".

Definition validate_watch (w : WatchConfig) : DiscoveryResult () :=
  if wch_enabled w then
    refuse (wch_max_streams w =? 0) "watch max streams must be greater than zero";;
    refuse (wch_event_buffer_size w =? 0) "watch event buffer size must be greater than zero";;
    refuse (wch_heartbeat_interval_ms w =? 0)
      "watch heartbeat interval must be greater than zero";;
    refuse (wch_durable_poll_interval_ms w =? 0)
      "watch durable poll interval must be greater than zero";;
    refuse (wch_durable_replay_batch_size w =? 0)
      "watch durable replay batch size must be greater than zero"
  else Ok ().

(** The checks of [validate] that concern production only. *)
Definition validate_production (c : DiscoveryRuntimeConfig) : DiscoveryResult () :=
  let security := cfg_security c in
  refuse (sec_allow_unsigned_local_context security)
    "production security config must disable unsigned local context";;
  require_file_reference "service-token HMAC secret file"
    (stk_hmac_secret_file (sec_service_token security));;
  refuse (sto_apply_initial_schema (cfg_storage c))
    "production storage must not apply initial schema automatically";;
  refuse (crg_allow_secret_values (cfg_config_registry c))
    "production config registry must not allow literal secret values";;
  refuse (bool_decide (srv_grpc_bind_host (cfg_server c) = "127.0.0.1")
          || bool_decide (srv_grpc_bind_host (cfg_server c) = "localhost"))
    "production server config must not bind only to localhost";;
  refuse (negb (sec_tls_enabled security) && negb (sec_mtls_enabled security))
    "production server config must enable TLS or mTLS";;
  refuse (negb (sec_mtls_enabled security))
    "production security config must enable mTLS (client certificate verification)";;
  require_file_reference "mTLS client CA certificate file" (sec_client_ca_cert_file security);;
  refuse (negb (hrl_enabled (res_rate_limit (cfg_resilience c))))
    "production resilience.rate_limit must be enabled (OWASP API4:2023)";;
  refuse (negb (hcb_enabled (res_circuit_breaker (cfg_resilience c))))
    "production resilience.circuit_breaker must be enabled";;
  refuse (negb (hdg_read_only_on_storage_failure (res_degradation (cfg_resilience c))))
    "production resilience.degradation.read_only_on_storage_failure must be enabled";;
  refuse (srv_enable_reflection (cfg_server c))
    "production gRPC reflection must be disabled or access-controlled";;
  refuse (bool_decide (sto_provider (cfg_storage c) = Memory))
    "production storage provider must not be memory";;
  refuse (bool_decide (sto_provider (cfg_storage c) = Sqlite))
    "production storage provider must not be sqlite".

(** [DiscoveryRuntimeConfig::validate]. *)
Definition validate (c : DiscoveryRuntimeConfig) : DiscoveryResult () :=
  validate_registry (cfg_registry c);;
  validate_watch (cfg_watch c);;
  validate_security c;;
  validate_storage c;;
  validate_storage_roles c;;
  validate_resilience c;;
  (if bool_decide (run_environment (cfg_runtime c) = Production) then validate_production c
   else Ok ());;
  validate_unsigned_local_context c.

End validation.
