(* ===== verification/HostFields.v ===== *)
(** * Assignments to fields of the host settings

    [set_<record>_<field>] is the assignment of one field of a record of [HostConfig];
    [on_<section>] applies a function to one section of [DiscoveryRuntimeConfig]. *)
From S2P Require Import Prelude HostConfig.

Definition set_run_environment (v : RuntimeEnvironment) (c : RuntimeConfig) : RuntimeConfig :=
  {| run_environment := v; run_config_profile := run_config_profile c;
     run_deployment_profile := run_deployment_profile c;
     run_deployment_mode := run_deployment_mode c; run_runtime_target := run_runtime_target c |}.
Definition set_run_config_profile (v : option string) (c : RuntimeConfig) : RuntimeConfig :=
  {| run_environment := run_environment c; run_config_profile := v;
     run_deployment_profile := run_deployment_profile c;
     run_deployment_mode := run_deployment_mode c; run_runtime_target := run_runtime_target c |}.
Definition set_run_deployment_profile (v : RuntimeDeploymentProfile) (c : RuntimeConfig) : RuntimeConfig :=
  {| run_environment := run_environment c; run_config_profile := run_config_profile c;
     run_deployment_profile := v; run_deployment_mode := run_deployment_mode c;
     run_runtime_target := run_runtime_target c |}.
Definition set_run_runtime_target (v : RuntimeTarget) (c : RuntimeConfig) : RuntimeConfig :=
  {| run_environment := run_environment c; run_config_profile := run_config_profile c;
     run_deployment_profile := run_deployment_profile c;
     run_deployment_mode := run_deployment_mode c; run_runtime_target := v |}.
Definition set_srv_grpc_bind_host (v : string) (c : ServerConfig) : ServerConfig :=
  {| srv_grpc_bind_host := v; srv_grpc_port := srv_grpc_port c;
     srv_admin_grpc_port := srv_admin_grpc_port c; srv_enable_health := srv_enable_health c;
     srv_enable_reflection := srv_enable_reflection c;
     srv_default_deadline_ms := srv_default_deadline_ms c |}.
Definition set_srv_grpc_port (v : N) (c : ServerConfig) : ServerConfig :=
  {| srv_grpc_bind_host := srv_grpc_bind_host c; srv_grpc_port := v;
     srv_admin_grpc_port := srv_admin_grpc_port c; srv_enable_health := srv_enable_health c;
     srv_enable_reflection := srv_enable_reflection c;
     srv_default_deadline_ms := srv_default_deadline_ms c |}.
Definition set_srv_admin_grpc_port (v : N) (c : ServerConfig) : ServerConfig :=
  {| srv_grpc_bind_host := srv_grpc_bind_host c; srv_grpc_port := srv_grpc_port c;
     srv_admin_grpc_port := v; srv_enable_health := srv_enable_health c;
     srv_enable_reflection := srv_enable_reflection c;
     srv_default_deadline_ms := srv_default_deadline_ms c |}.
Definition set_srv_enable_health (v : bool) (c : ServerConfig) : ServerConfig :=
  {| srv_grpc_bind_host := srv_grpc_bind_host c; srv_grpc_port := srv_grpc_port c;
     srv_admin_grpc_port := srv_admin_grpc_port c; srv_enable_health := v;
     srv_enable_reflection := srv_enable_reflection c;
     srv_default_deadline_ms := srv_default_deadline_ms c |}.
Definition set_srv_enable_reflection (v : bool) (c : ServerConfig) : ServerConfig :=
  {| srv_grpc_bind_host := srv_grpc_bind_host c; srv_grpc_port := srv_grpc_port c;
     srv_admin_grpc_port := srv_admin_grpc_port c; srv_enable_health := srv_enable_health c;
     srv_enable_reflection := v; srv_default_deadline_ms := srv_default_deadline_ms c |}.
Definition set_srv_default_deadline_ms (v : N) (c : ServerConfig) : ServerConfig :=
  {| srv_grpc_bind_host := srv_grpc_bind_host c; srv_grpc_port := srv_grpc_port c;
     srv_admin_grpc_port := srv_admin_grpc_port c; srv_enable_health := srv_enable_health c;
     srv_enable_reflection := srv_enable_reflection c; srv_default_deadline_ms := v |}.
Definition set_stk_hmac_secret_file (v : option string) (c : ServiceTokenConfig) : ServiceTokenConfig :=
  {| stk_hmac_secret_file := v; stk_issuer := stk_issuer c; stk_audience := stk_audience c;
     stk_max_token_ttl_seconds := stk_max_token_ttl_seconds c |}.
Definition set_stk_issuer (v : string) (c : ServiceTokenConfig) : ServiceTokenConfig :=
  {| stk_hmac_secret_file := stk_hmac_secret_file c; stk_issuer := v;
     stk_audience := stk_audience c; stk_max_token_ttl_seconds := stk_max_token_ttl_seconds c |}.
Definition set_stk_audience (v : string) (c : ServiceTokenConfig) : ServiceTokenConfig :=
  {| stk_hmac_secret_file := stk_hmac_secret_file c; stk_issuer := stk_issuer c;
     stk_audience := v; stk_max_token_ttl_seconds := stk_max_token_ttl_seconds c |}.
Definition set_stk_max_token_ttl_seconds (v : N) (c : ServiceTokenConfig) : ServiceTokenConfig :=
  {| stk_hmac_secret_file := stk_hmac_secret_file c; stk_issuer := stk_issuer c;
     stk_audience := stk_audience c; stk_max_token_ttl_seconds := v |}.
Definition set_sec_auth_mode (v : SecurityAuthMode) (c : SecurityConfig) : SecurityConfig :=
  {| sec_auth_mode := v; sec_tls_enabled := sec_tls_enabled c;
     sec_mtls_enabled := sec_mtls_enabled c;
     sec_allow_unsigned_local_context := sec_allow_unsigned_local_context c;
     sec_service_token := sec_service_token c;
     sec_server_tls_cert_file := sec_server_tls_cert_file c;
     sec_server_tls_key_file := sec_server_tls_key_file c;
     sec_client_ca_cert_file := sec_client_ca_cert_file c |}.
Definition set_sec_tls_enabled (v : bool) (c : SecurityConfig) : SecurityConfig :=
  {| sec_auth_mode := sec_auth_mode c; sec_tls_enabled := v;
     sec_mtls_enabled := sec_mtls_enabled c;
     sec_allow_unsigned_local_context := sec_allow_unsigned_local_context c;
     sec_service_token := sec_service_token c;
     sec_server_tls_cert_file := sec_server_tls_cert_file c;
     sec_server_tls_key_file := sec_server_tls_key_file c;
     sec_client_ca_cert_file := sec_client_ca_cert_file c |}.
Definition set_sec_mtls_enabled (v : bool) (c : SecurityConfig) : SecurityConfig :=
  {| sec_auth_mode := sec_auth_mode c; sec_tls_enabled := sec_tls_enabled c;
     sec_mtls_enabled := v;
     sec_allow_unsigned_local_context := sec_allow_unsigned_local_context c;
     sec_service_token := sec_service_token c;
     sec_server_tls_cert_file := sec_server_tls_cert_file c;
     sec_server_tls_key_file := sec_server_tls_key_file c;
     sec_client_ca_cert_file := sec_client_ca_cert_file c |}.
Definition set_sec_allow_unsigned_local_context (v : bool) (c : SecurityConfig) : SecurityConfig :=
  {| sec_auth_mode := sec_auth_mode c; sec_tls_enabled := sec_tls_enabled c;
     sec_mtls_enabled := sec_mtls_enabled c; sec_allow_unsigned_local_context := v;
     sec_service_token := sec_service_token c;
     sec_server_tls_cert_file := sec_server_tls_cert_file c;
     sec_server_tls_key_file := sec_server_tls_key_file c;
     sec_client_ca_cert_file := sec_client_ca_cert_file c |}.
Definition set_sec_service_token (v : ServiceTokenConfig) (c : SecurityConfig) : SecurityConfig :=
  {| sec_auth_mode := sec_auth_mode c; sec_tls_enabled := sec_tls_enabled c;
     sec_mtls_enabled := sec_mtls_enabled c;
     sec_allow_unsigned_local_context := sec_allow_unsigned_local_context c;
     sec_service_token := v; sec_server_tls_cert_file := sec_server_tls_cert_file c;
     sec_server_tls_key_file := sec_server_tls_key_file c;
     sec_client_ca_cert_file := sec_client_ca_cert_file c |}.
Definition set_sec_server_tls_cert_file (v : option string) (c : SecurityConfig) : SecurityConfig :=
  {| sec_auth_mode := sec_auth_mode c; sec_tls_enabled := sec_tls_enabled c;
     sec_mtls_enabled := sec_mtls_enabled c;
     sec_allow_unsigned_local_context := sec_allow_unsigned_local_context c;
     sec_service_token := sec_service_token c; sec_server_tls_cert_file := v;
     sec_server_tls_key_file := sec_server_tls_key_file c;
     sec_client_ca_cert_file := sec_client_ca_cert_file c |}.
Definition set_sec_server_tls_key_file (v : option string) (c : SecurityConfig) : SecurityConfig :=
  {| sec_auth_mode := sec_auth_mode c; sec_tls_enabled := sec_tls_enabled c;
     sec_mtls_enabled := sec_mtls_enabled c;
     sec_allow_unsigned_local_context := sec_allow_unsigned_local_context c;
     sec_service_token := sec_service_token c;
     sec_server_tls_cert_file := sec_server_tls_cert_file c; sec_server_tls_key_file := v;
     sec_client_ca_cert_file := sec_client_ca_cert_file c |}.
Definition set_sec_client_ca_cert_file (v : option string) (c : SecurityConfig) : SecurityConfig :=
  {| sec_auth_mode := sec_auth_mode c; sec_tls_enabled := sec_tls_enabled c;
     sec_mtls_enabled := sec_mtls_enabled c;
     sec_allow_unsigned_local_context := sec_allow_unsigned_local_context c;
     sec_service_token := sec_service_token c;
     sec_server_tls_cert_file := sec_server_tls_cert_file c;
     sec_server_tls_key_file := sec_server_tls_key_file c; sec_client_ca_cert_file := v |}.
Definition set_tr_host (v : string) (c : StorageTransportConfig) : StorageTransportConfig :=
  {| tr_host := v; tr_port := tr_port c; tr_database := tr_database c;
     tr_schema := tr_schema c; tr_username := tr_username c;
     tr_credential_source := tr_credential_source c; tr_tls_enabled := tr_tls_enabled c;
     tr_connect_timeout_ms := tr_connect_timeout_ms c;
     tr_max_connections := tr_max_connections c |}.
Definition set_tr_port (v : N) (c : StorageTransportConfig) : StorageTransportConfig :=
  {| tr_host := tr_host c; tr_port := v; tr_database := tr_database c;
     tr_schema := tr_schema c; tr_username := tr_username c;
     tr_credential_source := tr_credential_source c; tr_tls_enabled := tr_tls_enabled c;
     tr_connect_timeout_ms := tr_connect_timeout_ms c;
     tr_max_connections := tr_max_connections c |}.
Definition set_tr_database (v : option string) (c : StorageTransportConfig) : StorageTransportConfig :=
  {| tr_host := tr_host c; tr_port := tr_port c; tr_database := v; tr_schema := tr_schema c;
     tr_username := tr_username c; tr_credential_source := tr_credential_source c;
     tr_tls_enabled := tr_tls_enabled c; tr_connect_timeout_ms := tr_connect_timeout_ms c;
     tr_max_connections := tr_max_connections c |}.
Definition set_tr_schema (v : option string) (c : StorageTransportConfig) : StorageTransportConfig :=
  {| tr_host := tr_host c; tr_port := tr_port c; tr_database := tr_database c; tr_schema := v;
     tr_username := tr_username c; tr_credential_source := tr_credential_source c;
     tr_tls_enabled := tr_tls_enabled c; tr_connect_timeout_ms := tr_connect_timeout_ms c;
     tr_max_connections := tr_max_connections c |}.
Definition set_tr_username (v : option string) (c : StorageTransportConfig) : StorageTransportConfig :=
  {| tr_host := tr_host c; tr_port := tr_port c; tr_database := tr_database c;
     tr_schema := tr_schema c; tr_username := v;
     tr_credential_source := tr_credential_source c; tr_tls_enabled := tr_tls_enabled c;
     tr_connect_timeout_ms := tr_connect_timeout_ms c;
     tr_max_connections := tr_max_connections c |}.
Definition set_tr_credential_source (v : StorageCredentialSource) (c : StorageTransportConfig) : StorageTransportConfig :=
  {| tr_host := tr_host c; tr_port := tr_port c; tr_database := tr_database c;
     tr_schema := tr_schema c; tr_username := tr_username c; tr_credential_source := v;
     tr_tls_enabled := tr_tls_enabled c; tr_connect_timeout_ms := tr_connect_timeout_ms c;
     tr_max_connections := tr_max_connections c |}.
Definition set_tr_tls_enabled (v : bool) (c : StorageTransportConfig) : StorageTransportConfig :=
  {| tr_host := tr_host c; tr_port := tr_port c; tr_database := tr_database c;
     tr_schema := tr_schema c; tr_username := tr_username c;
     tr_credential_source := tr_credential_source c; tr_tls_enabled := v;
     tr_connect_timeout_ms := tr_connect_timeout_ms c;
     tr_max_connections := tr_max_connections c |}.
Definition set_tr_connect_timeout_ms (v : N) (c : StorageTransportConfig) : StorageTransportConfig :=
  {| tr_host := tr_host c; tr_port := tr_port c; tr_database := tr_database c;
     tr_schema := tr_schema c; tr_username := tr_username c;
     tr_credential_source := tr_credential_source c; tr_tls_enabled := tr_tls_enabled c;
     tr_connect_timeout_ms := v; tr_max_connections := tr_max_connections c |}.
Definition set_tr_max_connections (v : N) (c : StorageTransportConfig) : StorageTransportConfig :=
  {| tr_host := tr_host c; tr_port := tr_port c; tr_database := tr_database c;
     tr_schema := tr_schema c; tr_username := tr_username c;
     tr_credential_source := tr_credential_source c; tr_tls_enabled := tr_tls_enabled c;
     tr_connect_timeout_ms := tr_connect_timeout_ms c; tr_max_connections := v |}.
Definition set_fs_file (v : string) (c : StorageFileConfig) : StorageFileConfig :=
  {| fs_file := v; fs_max_connections := fs_max_connections c |}.
Definition set_fs_max_connections (v : N) (c : StorageFileConfig) : StorageFileConfig :=
  {| fs_file := fs_file c; fs_max_connections := v |}.
Definition set_sto_provider (v : StorageProvider) (c : StorageConfig) : StorageConfig :=
  {| sto_provider := v; sto_registry_role := sto_registry_role c;
     sto_config_role := sto_config_role c; sto_watch_role := sto_watch_role c;
     sto_apply_initial_schema := sto_apply_initial_schema c; sto_postgres := sto_postgres c;
     sto_sqlite := sto_sqlite c; sto_redis := sto_redis c; sto_etcd := sto_etcd c;
     sto_consul := sto_consul c |}.
Definition set_sto_postgres (v : option StorageTransportConfig) (c : StorageConfig) : StorageConfig :=
  {| sto_provider := sto_provider c; sto_registry_role := sto_registry_role c;
     sto_config_role := sto_config_role c; sto_watch_role := sto_watch_role c;
     sto_apply_initial_schema := sto_apply_initial_schema c; sto_postgres := v;
     sto_sqlite := sto_sqlite c; sto_redis := sto_redis c; sto_etcd := sto_etcd c;
     sto_consul := sto_consul c |}.
Definition set_sto_sqlite (v : option StorageFileConfig) (c : StorageConfig) : StorageConfig :=
  {| sto_provider := sto_provider c; sto_registry_role := sto_registry_role c;
     sto_config_role := sto_config_role c; sto_watch_role := sto_watch_role c;
     sto_apply_initial_schema := sto_apply_initial_schema c; sto_postgres := sto_postgres c;
     sto_sqlite := v; sto_redis := sto_redis c; sto_etcd := sto_etcd c;
     sto_consul := sto_consul c |}.
Definition set_sto_redis (v : option StorageTransportConfig) (c : StorageConfig) : StorageConfig :=
  {| sto_provider := sto_provider c; sto_registry_role := sto_registry_role c;
     sto_config_role := sto_config_role c; sto_watch_role := sto_watch_role c;
     sto_apply_initial_schema := sto_apply_initial_schema c; sto_postgres := sto_postgres c;
     sto_sqlite := sto_sqlite c; sto_redis := v; sto_etcd := sto_etcd c;
     sto_consul := sto_consul c |}.
Definition set_sto_etcd (v : option StorageTransportConfig) (c : StorageConfig) : StorageConfig :=
  {| sto_provider := sto_provider c; sto_registry_role := sto_registry_role c;
     sto_config_role := sto_config_role c; sto_watch_role := sto_watch_role c;
     sto_apply_initial_schema := sto_apply_initial_schema c; sto_postgres := sto_postgres c;
     sto_sqlite := sto_sqlite c; sto_redis := sto_redis c; sto_etcd := v;
     sto_consul := sto_consul c |}.
Definition set_sto_consul (v : option StorageTransportConfig) (c : StorageConfig) : StorageConfig :=
  {| sto_provider := sto_provider c; sto_registry_role := sto_registry_role c;
     sto_config_role := sto_config_role c; sto_watch_role := sto_watch_role c;
     sto_apply_initial_schema := sto_apply_initial_schema c; sto_postgres := sto_postgres c;
     sto_sqlite := sto_sqlite c; sto_redis := sto_redis c; sto_etcd := sto_etcd c;
     sto_consul := v |}.
Definition set_reg_default_lease_ttl_seconds (v : N) (c : RegistryConfig) : RegistryConfig :=
  {| reg_default_lease_ttl_seconds := v;
     reg_min_lease_ttl_seconds := reg_min_lease_ttl_seconds c;
     reg_max_lease_ttl_seconds := reg_max_lease_ttl_seconds c;
     reg_expiry_scan_interval_ms := reg_expiry_scan_interval_ms c;
     reg_expiry_scan_batch_size := reg_expiry_scan_batch_size c;
     reg_health_check_scan_interval_ms := reg_health_check_scan_interval_ms c |}.
Definition set_reg_min_lease_ttl_seconds (v : N) (c : RegistryConfig) : RegistryConfig :=
  {| reg_default_lease_ttl_seconds := reg_default_lease_ttl_seconds c;
     reg_min_lease_ttl_seconds := v; reg_max_lease_ttl_seconds := reg_max_lease_ttl_seconds c;
     reg_expiry_scan_interval_ms := reg_expiry_scan_interval_ms c;
     reg_expiry_scan_batch_size := reg_expiry_scan_batch_size c;
     reg_health_check_scan_interval_ms := reg_health_check_scan_interval_ms c |}.
Definition set_reg_max_lease_ttl_seconds (v : N) (c : RegistryConfig) : RegistryConfig :=
  {| reg_default_lease_ttl_seconds := reg_default_lease_ttl_seconds c;
     reg_min_lease_ttl_seconds := reg_min_lease_ttl_seconds c; reg_max_lease_ttl_seconds := v;
     reg_expiry_scan_interval_ms := reg_expiry_scan_interval_ms c;
     reg_expiry_scan_batch_size := reg_expiry_scan_batch_size c;
     reg_health_check_scan_interval_ms := reg_health_check_scan_interval_ms c |}.
Definition set_reg_expiry_scan_interval_ms (v : N) (c : RegistryConfig) : RegistryConfig :=
  {| reg_default_lease_ttl_seconds := reg_default_lease_ttl_seconds c;
     reg_min_lease_ttl_seconds := reg_min_lease_ttl_seconds c;
     reg_max_lease_ttl_seconds := reg_max_lease_ttl_seconds c;
     reg_expiry_scan_interval_ms := v;
     reg_expiry_scan_batch_size := reg_expiry_scan_batch_size c;
     reg_health_check_scan_interval_ms := reg_health_check_scan_interval_ms c |}.
Definition set_reg_expiry_scan_batch_size (v : N) (c : RegistryConfig) : RegistryConfig :=
  {| reg_default_lease_ttl_seconds := reg_default_lease_ttl_seconds c;
     reg_min_lease_ttl_seconds := reg_min_lease_ttl_seconds c;
     reg_max_lease_ttl_seconds := reg_max_lease_ttl_seconds c;
     reg_expiry_scan_interval_ms := reg_expiry_scan_interval_ms c;
     reg_expiry_scan_batch_size := v;
     reg_health_check_scan_interval_ms := reg_health_check_scan_interval_ms c |}.
Definition set_reg_health_check_scan_interval_ms (v : N) (c : RegistryConfig) : RegistryConfig :=
  {| reg_default_lease_ttl_seconds := reg_default_lease_ttl_seconds c;
     reg_min_lease_ttl_seconds := reg_min_lease_ttl_seconds c;
     reg_max_lease_ttl_seconds := reg_max_lease_ttl_seconds c;
     reg_expiry_scan_interval_ms := reg_expiry_scan_interval_ms c;
     reg_expiry_scan_batch_size := reg_expiry_scan_batch_size c;
     reg_health_check_scan_interval_ms := v |}.
Definition set_crg_enabled (v : bool) (c : ConfigRegistryConfig) : ConfigRegistryConfig :=
  {| crg_enabled := v; crg_max_config_body_bytes := crg_max_config_body_bytes c;
     crg_require_publish_for_reads := crg_require_publish_for_reads c;
     crg_allow_secret_values := crg_allow_secret_values c;
     crg_allow_secret_refs := crg_allow_secret_refs c |}.
Definition set_crg_max_config_body_bytes (v : N) (c : ConfigRegistryConfig) : ConfigRegistryConfig :=
  {| crg_enabled := crg_enabled c; crg_max_config_body_bytes := v;
     crg_require_publish_for_reads := crg_require_publish_for_reads c;
     crg_allow_secret_values := crg_allow_secret_values c;
     crg_allow_secret_refs := crg_allow_secret_refs c |}.
Definition set_crg_require_publish_for_reads (v : bool) (c : ConfigRegistryConfig) : ConfigRegistryConfig :=
  {| crg_enabled := crg_enabled c; crg_max_config_body_bytes := crg_max_config_body_bytes c;
     crg_require_publish_for_reads := v; crg_allow_secret_values := crg_allow_secret_values c;
     crg_allow_secret_refs := crg_allow_secret_refs c |}.
Definition set_crg_allow_secret_values (v : bool) (c : ConfigRegistryConfig) : ConfigRegistryConfig :=
  {| crg_enabled := crg_enabled c; crg_max_config_body_bytes := crg_max_config_body_bytes c;
     crg_require_publish_for_reads := crg_require_publish_for_reads c;
     crg_allow_secret_values := v; crg_allow_secret_refs := crg_allow_secret_refs c |}.
Definition set_crg_allow_secret_refs (v : bool) (c : ConfigRegistryConfig) : ConfigRegistryConfig :=
  {| crg_enabled := crg_enabled c; crg_max_config_body_bytes := crg_max_config_body_bytes c;
     crg_require_publish_for_reads := crg_require_publish_for_reads c;
     crg_allow_secret_values := crg_allow_secret_values c; crg_allow_secret_refs := v |}.
Definition set_wch_enabled (v : bool) (c : WatchConfig) : WatchConfig :=
  {| wch_enabled := v; wch_max_streams := wch_max_streams c;
     wch_event_buffer_size := wch_event_buffer_size c;
     wch_heartbeat_interval_ms := wch_heartbeat_interval_ms c;
     wch_durable_poll_interval_ms := wch_durable_poll_interval_ms c;
     wch_durable_replay_batch_size := wch_durable_replay_batch_size c;
     wch_event_gc_interval_ms := wch_event_gc_interval_ms c;
     wch_event_gc_retention_count := wch_event_gc_retention_count c;
     wch_event_gc_batch_size := wch_event_gc_batch_size c |}.
Definition set_wch_max_streams (v : N) (c : WatchConfig) : WatchConfig :=
  {| wch_enabled := wch_enabled c; wch_max_streams := v;
     wch_event_buffer_size := wch_event_buffer_size c;
     wch_heartbeat_interval_ms := wch_heartbeat_interval_ms c;
     wch_durable_poll_interval_ms := wch_durable_poll_interval_ms c;
     wch_durable_replay_batch_size := wch_durable_replay_batch_size c;
     wch_event_gc_interval_ms := wch_event_gc_interval_ms c;
     wch_event_gc_retention_count := wch_event_gc_retention_count c;
     wch_event_gc_batch_size := wch_event_gc_batch_size c |}.
Definition set_wch_event_buffer_size (v : N) (c : WatchConfig) : WatchConfig :=
  {| wch_enabled := wch_enabled c; wch_max_streams := wch_max_streams c;
     wch_event_buffer_size := v; wch_heartbeat_interval_ms := wch_heartbeat_interval_ms c;
     wch_durable_poll_interval_ms := wch_durable_poll_interval_ms c;
     wch_durable_replay_batch_size := wch_durable_replay_batch_size c;
     wch_event_gc_interval_ms := wch_event_gc_interval_ms c;
     wch_event_gc_retention_count := wch_event_gc_retention_count c;
     wch_event_gc_batch_size := wch_event_gc_batch_size c |}.
Definition set_wch_heartbeat_interval_ms (v : N) (c : WatchConfig) : WatchConfig :=
  {| wch_enabled := wch_enabled c; wch_max_streams := wch_max_streams c;
     wch_event_buffer_size := wch_event_buffer_size c; wch_heartbeat_interval_ms := v;
     wch_durable_poll_interval_ms := wch_durable_poll_interval_ms c;
     wch_durable_replay_batch_size := wch_durable_replay_batch_size c;
     wch_event_gc_interval_ms := wch_event_gc_interval_ms c;
     wch_event_gc_retention_count := wch_event_gc_retention_count c;
     wch_event_gc_batch_size := wch_event_gc_batch_size c |}.
Definition set_wch_durable_poll_interval_ms (v : N) (c : WatchConfig) : WatchConfig :=
  {| wch_enabled := wch_enabled c; wch_max_streams := wch_max_streams c;
     wch_event_buffer_size := wch_event_buffer_size c;
     wch_heartbeat_interval_ms := wch_heartbeat_interval_ms c;
     wch_durable_poll_interval_ms := v;
     wch_durable_replay_batch_size := wch_durable_replay_batch_size c;
     wch_event_gc_interval_ms := wch_event_gc_interval_ms c;
     wch_event_gc_retention_count := wch_event_gc_retention_count c;
     wch_event_gc_batch_size := wch_event_gc_batch_size c |}.
Definition set_wch_durable_replay_batch_size (v : N) (c : WatchConfig) : WatchConfig :=
  {| wch_enabled := wch_enabled c; wch_max_streams := wch_max_streams c;
     wch_event_buffer_size := wch_event_buffer_size c;
     wch_heartbeat_interval_ms := wch_heartbeat_interval_ms c;
     wch_durable_poll_interval_ms := wch_durable_poll_interval_ms c;
     wch_durable_replay_batch_size := v;
     wch_event_gc_interval_ms := wch_event_gc_interval_ms c;
     wch_event_gc_retention_count := wch_event_gc_retention_count c;
     wch_event_gc_batch_size := wch_event_gc_batch_size c |}.
Definition set_wch_event_gc_interval_ms (v : N) (c : WatchConfig) : WatchConfig :=
  {| wch_enabled := wch_enabled c; wch_max_streams := wch_max_streams c;
     wch_event_buffer_size := wch_event_buffer_size c;
     wch_heartbeat_interval_ms := wch_heartbeat_interval_ms c;
     wch_durable_poll_interval_ms := wch_durable_poll_interval_ms c;
     wch_durable_replay_batch_size := wch_durable_replay_batch_size c;
     wch_event_gc_interval_ms := v;
     wch_event_gc_retention_count := wch_event_gc_retention_count c;
     wch_event_gc_batch_size := wch_event_gc_batch_size c |}.
Definition set_wch_event_gc_retention_count (v : N) (c : WatchConfig) : WatchConfig :=
  {| wch_enabled := wch_enabled c; wch_max_streams := wch_max_streams c;
     wch_event_buffer_size := wch_event_buffer_size c;
     wch_heartbeat_interval_ms := wch_heartbeat_interval_ms c;
     wch_durable_poll_interval_ms := wch_durable_poll_interval_ms c;
     wch_durable_replay_batch_size := wch_durable_replay_batch_size c;
     wch_event_gc_interval_ms := wch_event_gc_interval_ms c; wch_event_gc_retention_count := v;
     wch_event_gc_batch_size := wch_event_gc_batch_size c |}.
Definition set_wch_event_gc_batch_size (v : N) (c : WatchConfig) : WatchConfig :=
  {| wch_enabled := wch_enabled c; wch_max_streams := wch_max_streams c;
     wch_event_buffer_size := wch_event_buffer_size c;
     wch_heartbeat_interval_ms := wch_heartbeat_interval_ms c;
     wch_durable_poll_interval_ms := wch_durable_poll_interval_ms c;
     wch_durable_replay_batch_size := wch_durable_replay_batch_size c;
     wch_event_gc_interval_ms := wch_event_gc_interval_ms c;
     wch_event_gc_retention_count := wch_event_gc_retention_count c;
     wch_event_gc_batch_size := v |}.
Definition set_hcb_enabled (v : bool) (c : ResilienceCircuitBreakerConfig) : ResilienceCircuitBreakerConfig :=
  {| hcb_enabled := v; hcb_failure_threshold := hcb_failure_threshold c;
     hcb_recovery_timeout_ms := hcb_recovery_timeout_ms c;
     hcb_half_open_max_requests := hcb_half_open_max_requests c |}.
Definition set_hcb_failure_threshold (v : N) (c : ResilienceCircuitBreakerConfig) : ResilienceCircuitBreakerConfig :=
  {| hcb_enabled := hcb_enabled c; hcb_failure_threshold := v;
     hcb_recovery_timeout_ms := hcb_recovery_timeout_ms c;
     hcb_half_open_max_requests := hcb_half_open_max_requests c |}.
Definition set_hcb_recovery_timeout_ms (v : N) (c : ResilienceCircuitBreakerConfig) : ResilienceCircuitBreakerConfig :=
  {| hcb_enabled := hcb_enabled c; hcb_failure_threshold := hcb_failure_threshold c;
     hcb_recovery_timeout_ms := v; hcb_half_open_max_requests := hcb_half_open_max_requests c |}.
Definition set_hcb_half_open_max_requests (v : N) (c : ResilienceCircuitBreakerConfig) : ResilienceCircuitBreakerConfig :=
  {| hcb_enabled := hcb_enabled c; hcb_failure_threshold := hcb_failure_threshold c;
     hcb_recovery_timeout_ms := hcb_recovery_timeout_ms c; hcb_half_open_max_requests := v |}.
Definition set_hrl_enabled (v : bool) (c : ResilienceRateLimitConfig) : ResilienceRateLimitConfig :=
  {| hrl_enabled := v; hrl_requests_per_second := hrl_requests_per_second c;
     hrl_burst_capacity := hrl_burst_capacity c |}.
Definition set_hrl_requests_per_second (v : N) (c : ResilienceRateLimitConfig) : ResilienceRateLimitConfig :=
  {| hrl_enabled := hrl_enabled c; hrl_requests_per_second := v;
     hrl_burst_capacity := hrl_burst_capacity c |}.
Definition set_hrl_burst_capacity (v : N) (c : ResilienceRateLimitConfig) : ResilienceRateLimitConfig :=
  {| hrl_enabled := hrl_enabled c; hrl_requests_per_second := hrl_requests_per_second c;
     hrl_burst_capacity := v |}.
Definition set_hdg_read_only_on_storage_failure (v : bool) (c : ResilienceDegradationConfig) : ResilienceDegradationConfig :=
  {| hdg_read_only_on_storage_failure := v;
     hdg_stale_read_max_age_ms := hdg_stale_read_max_age_ms c |}.
Definition set_hdg_stale_read_max_age_ms (v : N) (c : ResilienceDegradationConfig) : ResilienceDegradationConfig :=
  {| hdg_read_only_on_storage_failure := hdg_read_only_on_storage_failure c;
     hdg_stale_read_max_age_ms := v |}.
Definition set_res_circuit_breaker (v : ResilienceCircuitBreakerConfig) (c : ResilienceConfig) : ResilienceConfig :=
  {| res_circuit_breaker := v; res_rate_limit := res_rate_limit c;
     res_degradation := res_degradation c |}.
Definition set_res_rate_limit (v : ResilienceRateLimitConfig) (c : ResilienceConfig) : ResilienceConfig :=
  {| res_circuit_breaker := res_circuit_breaker c; res_rate_limit := v;
     res_degradation := res_degradation c |}.
Definition set_res_degradation (v : ResilienceDegradationConfig) (c : ResilienceConfig) : ResilienceConfig :=
  {| res_circuit_breaker := res_circuit_breaker c; res_rate_limit := res_rate_limit c;
     res_degradation := v |}.
Definition set_cfg_runtime (v : RuntimeConfig) (c : DiscoveryRuntimeConfig) : DiscoveryRuntimeConfig :=
  {| cfg_runtime := v; cfg_server := cfg_server c; cfg_security := cfg_security c;
     cfg_storage := cfg_storage c; cfg_registry := cfg_registry c;
     cfg_config_registry := cfg_config_registry c; cfg_watch := cfg_watch c;
     cfg_resilience := cfg_resilience c |}.
Definition set_cfg_server (v : ServerConfig) (c : DiscoveryRuntimeConfig) : DiscoveryRuntimeConfig :=
  {| cfg_runtime := cfg_runtime c; cfg_server := v; cfg_security := cfg_security c;
     cfg_storage := cfg_storage c; cfg_registry := cfg_registry c;
     cfg_config_registry := cfg_config_registry c; cfg_watch := cfg_watch c;
     cfg_resilience := cfg_resilience c |}.
Definition set_cfg_security (v : SecurityConfig) (c : DiscoveryRuntimeConfig) : DiscoveryRuntimeConfig :=
  {| cfg_runtime := cfg_runtime c; cfg_server := cfg_server c; cfg_security := v;
     cfg_storage := cfg_storage c; cfg_registry := cfg_registry c;
     cfg_config_registry := cfg_config_registry c; cfg_watch := cfg_watch c;
     cfg_resilience := cfg_resilience c |}.
Definition set_cfg_storage (v : StorageConfig) (c : DiscoveryRuntimeConfig) : DiscoveryRuntimeConfig :=
  {| cfg_runtime := cfg_runtime c; cfg_server := cfg_server c; cfg_security := cfg_security c;
     cfg_storage := v; cfg_registry := cfg_registry c;
     cfg_config_registry := cfg_config_registry c; cfg_watch := cfg_watch c;
     cfg_resilience := cfg_resilience c |}.
Definition set_cfg_registry (v : RegistryConfig) (c : DiscoveryRuntimeConfig) : DiscoveryRuntimeConfig :=
  {| cfg_runtime := cfg_runtime c; cfg_server := cfg_server c; cfg_security := cfg_security c;
     cfg_storage := cfg_storage c; cfg_registry := v;
     cfg_config_registry := cfg_config_registry c; cfg_watch := cfg_watch c;
     cfg_resilience := cfg_resilience c |}.
Definition set_cfg_config_registry (v : ConfigRegistryConfig) (c : DiscoveryRuntimeConfig) : DiscoveryRuntimeConfig :=
  {| cfg_runtime := cfg_runtime c; cfg_server := cfg_server c; cfg_security := cfg_security c;
     cfg_storage := cfg_storage c; cfg_registry := cfg_registry c; cfg_config_registry := v;
     cfg_watch := cfg_watch c; cfg_resilience := cfg_resilience c |}.
Definition set_cfg_watch (v : WatchConfig) (c : DiscoveryRuntimeConfig) : DiscoveryRuntimeConfig :=
  {| cfg_runtime := cfg_runtime c; cfg_server := cfg_server c; cfg_security := cfg_security c;
     cfg_storage := cfg_storage c; cfg_registry := cfg_registry c;
     cfg_config_registry := cfg_config_registry c; cfg_watch := v;
     cfg_resilience := cfg_resilience c |}.
Definition set_cfg_resilience (v : ResilienceConfig) (c : DiscoveryRuntimeConfig) : DiscoveryRuntimeConfig :=
  {| cfg_runtime := cfg_runtime c; cfg_server := cfg_server c; cfg_security := cfg_security c;
     cfg_storage := cfg_storage c; cfg_registry := cfg_registry c;
     cfg_config_registry := cfg_config_registry c; cfg_watch := cfg_watch c;
     cfg_resilience := v |}.

Definition on_runtime (f : RuntimeConfig → RuntimeConfig) (c : DiscoveryRuntimeConfig)
    : DiscoveryRuntimeConfig := set_cfg_runtime (f (cfg_runtime c)) c.
Definition on_server (f : ServerConfig → ServerConfig) (c : DiscoveryRuntimeConfig)
    : DiscoveryRuntimeConfig := set_cfg_server (f (cfg_server c)) c.
Definition on_security (f : SecurityConfig → SecurityConfig) (c : DiscoveryRuntimeConfig)
    : DiscoveryRuntimeConfig := set_cfg_security (f (cfg_security c)) c.
Definition on_storage (f : StorageConfig → StorageConfig) (c : DiscoveryRuntimeConfig)
    : DiscoveryRuntimeConfig := set_cfg_storage (f (cfg_storage c)) c.
Definition on_registry (f : RegistryConfig → RegistryConfig) (c : DiscoveryRuntimeConfig)
    : DiscoveryRuntimeConfig := set_cfg_registry (f (cfg_registry c)) c.
Definition on_config_registry (f : ConfigRegistryConfig → ConfigRegistryConfig) (c : DiscoveryRuntimeConfig)
    : DiscoveryRuntimeConfig := set_cfg_config_registry (f (cfg_config_registry c)) c.
Definition on_watch (f : WatchConfig → WatchConfig) (c : DiscoveryRuntimeConfig)
    : DiscoveryRuntimeConfig := set_cfg_watch (f (cfg_watch c)) c.
Definition on_resilience (f : ResilienceConfig → ResilienceConfig) (c : DiscoveryRuntimeConfig)
    : DiscoveryRuntimeConfig := set_cfg_resilience (f (cfg_resilience c)) c.
Definition on_service_token (f : ServiceTokenConfig → ServiceTokenConfig)
    : DiscoveryRuntimeConfig → DiscoveryRuntimeConfig :=
  on_security (λ s, set_sec_service_token (f (sec_service_token s)) s).
Definition on_circuit_breaker (f : ResilienceCircuitBreakerConfig → ResilienceCircuitBreakerConfig)
    : DiscoveryRuntimeConfig → DiscoveryRuntimeConfig :=
  on_resilience (λ r, set_res_circuit_breaker (f (res_circuit_breaker r)) r).
Definition on_rate_limit (f : ResilienceRateLimitConfig → ResilienceRateLimitConfig)
    : DiscoveryRuntimeConfig → DiscoveryRuntimeConfig :=
  on_resilience (λ r, set_res_rate_limit (f (res_rate_limit r)) r).
Definition on_degradation (f : ResilienceDegradationConfig → ResilienceDegradationConfig)
    : DiscoveryRuntimeConfig → DiscoveryRuntimeConfig :=
  on_resilience (λ r, set_res_degradation (f (res_degradation r)) r).
