(* ===== verification/EnvOverlay.v ===== *)
(** * Environment overlay and loader (crates/sdkwork-discovery-config)

    A process reads a TOML file and lays [SDKWORK_*] variables over it
    (env_overlay.rs, loader.rs).  The TOML parser is a parameter: it yields the raw
    records or a message. *)
From S2P Require Import Prelude RustStr Collections Contract HostConfig HostFields.
From Stdlib Require Import Ascii.

(** ** Values *)

(** [str::parse] of an unsigned integer with the given maximum, with the [Display] of
    its error. *)
Definition digit_of (a : ascii) : option N :=
  let n := byte_at a in if (48 <=? n) && (n <=? 57) then Some (n - 48) else None.

Fixpoint parse_digits (max acc : N) (s : string) : Result string N :=
  match s with
  | "" => Ok acc
  | String a s' =>
      match digit_of a with
      | None => Err "invalid digit found in string"
      | Some d =>
          if max <? acc * 10 + d then Err "number too large to fit in target type"
          else parse_digits max (acc * 10 + d) s'
      end
  end.

Definition parse_unsigned (max : N) (s : string) : Result string N :=
  match s with
  | "" => Err "cannot parse integer from empty string"
  | String a rest =>
      if bool_decide (a = "+"%char)
      then if is_empty rest then Err "invalid digit found in string" else parse_digits max 0 rest
      else parse_digits max 0 s
  end.

Definition u16_max : N := 65535.

Definition parse_int_env (max : N) (key value : string) : DiscoveryResult N :=
  match parse_unsigned max value with
  | Ok n => Ok n
  | Err error => Err (InvalidConfig ("invalid integer for " +:+ key +:+ ": " +:+ error))
  end.

Definition parse_u16_env : string → string → DiscoveryResult N := parse_int_env u16_max.
Definition parse_u32_env : string → string → DiscoveryResult N := parse_int_env u32_max.
Definition parse_u64_env : string → string → DiscoveryResult N := parse_int_env u64_max.
(** [usize] has 64 bits on the supported targets. *)
Definition parse_usize_env : string → string → DiscoveryResult N := parse_int_env u64_max.

Definition parse_timeout_seconds_as_ms (key value : string) : DiscoveryResult N :=
  seconds ← parse_u64_env key value;
  ok_or (checked_mul seconds 1000)
    (InvalidConfig ("timeout for " +:+ key +:+ " is too large")).

Definition parse_bool_env (key value : string) : DiscoveryResult bool :=
  ok_or (match_str value [("true", true); ("1", true); ("false", false); ("0", false)])
    (InvalidConfig ("invalid boolean for " +:+ key +:+ ": " +:+ value)).

Definition parse_database_engine (key value : string) : DiscoveryResult StorageProvider :=
  ok_or (match_str value [("postgres", Postgres); ("postgresql", Postgres); ("sqlite", Sqlite)])
    (InvalidConfig ("invalid database engine for " +:+ key +:+ ": " +:+ value)).

Definition parse_database_ssl_mode (key value : string) : DiscoveryResult bool :=
  ok_or (match_str value [("disable", false); ("require", true); ("verify-ca", true);
                          ("verify-full", true)])
    (InvalidConfig ("invalid database ssl mode for " +:+ key +:+ ": " +:+ value)).

Definition parse_auth_mode_env (key value : string) : DiscoveryResult SecurityAuthMode :=
  ok_or (auth_mode_parse value)
    (InvalidConfig ("unsupported RPC auth mode for " +:+ key +:+ ": " +:+ value
                    +:+ "; expected service-token")).

Definition optional_string (value : string) : option string :=
  if is_blank value then None else Some value.

(** Values that are taken as they are. *)
Definition text_env (key value : string) : DiscoveryResult string := Ok value.
Definition some_env (key value : string) : DiscoveryResult (option string) := Ok (Some value).
Definition optional_env (key value : string) : DiscoveryResult (option string) :=
  Ok (optional_string value).
Definition password_file_env (key value : string) : DiscoveryResult StorageCredentialSource :=
  Ok (PasswordFile value).

Definition provider_env (key value : string) : DiscoveryResult StorageProvider :=
  ok_or (provider_parse value) (InvalidConfig ("unknown storage provider: " +:+ value)).
Definition deployment_profile_env (key value : string)
    : DiscoveryResult RuntimeDeploymentProfile :=
  ok_or (profile_parse value) (InvalidConfig ("unknown deployment profile: " +:+ value)).
Definition runtime_target_env (key value : string) : DiscoveryResult RuntimeTarget :=
  ok_or (target_parse value) (InvalidConfig ("unknown runtime target: " +:+ value)).

(** ** Bind addresses *)

(** [str::rfind]: position of the last occurrence. *)
Fixpoint rfind (c : ascii) (s : string) : option nat :=
  match s with
  | "" => None
  | String a s' =>
      match rfind c s' with
      | Some i => Some (S i)
      | None => if bool_decide (a = c) then Some 0%nat else None
      end
  end.

(** [&s[..n]] and [&s[n..]]. *)
Fixpoint str_take (n : nat) (s : string) : string :=
  match n, s with
  | S n', String a s' => String a (str_take n' s')
  | _, _ => ""
  end.
Fixpoint str_drop (n : nat) (s : string) : string :=
  match n, s with
  | S n', String _ s' => str_drop n' s'
  | _, _ => s
  end.

Definition parse_host_port_bind (key bind : string) : DiscoveryResult (string * N) :=
  let normalized := trim bind in
  refuse (is_empty normalized) ("invalid bind address for " +:+ key +:+ ": empty value");;
  separator ← ok_or (rfind ":" normalized)
    (InvalidConfig ("invalid bind address for " +:+ key +:+ ": expected host:port"));
  refuse (bool_decide (separator = 0%nat))
    ("invalid bind address for " +:+ key +:+ ": expected host:port");;
  let host := str_take separator normalized in
  port ← parse_u16_env key (str_drop (S separator) normalized);
  mret (host, port).

Definition apply_public_ingress_bind (config : DiscoveryRuntimeConfig) (bind : string)
    : DiscoveryResult DiscoveryRuntimeConfig :=
  '(host, port) ← parse_host_port_bind "SDKWORK_DISCOVERY_APPLICATION_PUBLIC_INGRESS_BIND" bind;
  mret (on_server (λ s, set_srv_grpc_port port (set_srv_grpc_bind_host host s)) config).

Definition apply_operations_control_bind (config : DiscoveryRuntimeConfig) (bind : string)
    : DiscoveryResult DiscoveryRuntimeConfig :=
  '(host, port) ← parse_host_port_bind "SDKWORK_DISCOVERY_OPERATIONS_CONTROL_INGRESS_BIND" bind;
  let config :=
    if is_empty (srv_grpc_bind_host (cfg_server config))
    then on_server (set_srv_grpc_bind_host host) config else config in
  mret (on_server (set_srv_admin_grpc_port port) config).

(** ** Storage settings *)

Definition default_storage_transport_config : StorageTransportConfig :=
  {| tr_host := ""; tr_port := 0; tr_database := None; tr_schema := None; tr_username := None;
     tr_credential_source := CredentialNone; tr_tls_enabled := false;
     tr_connect_timeout_ms := 0; tr_max_connections := 0 |}.

Definition default_storage_file_config : StorageFileConfig :=
  {| fs_file := ""; fs_max_connections := 0 |}.

(** [value = parse(key, text)?] followed by an assignment of [value]. *)
Definition assign {T R} (parse : string → string → DiscoveryResult T) (set : T → R → R)
    (key value : string) (r : R) : DiscoveryResult R :=
  v ← parse key value; mret (set v r).

Definition apply_transport_storage_overlay (transport : StorageTransportConfig)
    (provider : string) (supports_schema : bool) (key value prefix : string)
    : DiscoveryResult StorageTransportConfig :=
  let unsupported := InvalidConfig ("unsupported discovery env key: " +:+ key) in
  field ← ok_or (strip_prefix key prefix) unsupported;
  arm ← ok_or (match_str field
    [("HOST", assign text_env set_tr_host);
     ("PORT", assign parse_u16_env set_tr_port);
     ("DATABASE", assign optional_env set_tr_database);
     ("SCHEMA", λ key value transport,
        refuse (negb supports_schema)
          ("storage provider " +:+ provider
           +:+ " does not support schema; schema is postgres-only");;
        mret (set_tr_schema (optional_string value) transport));
     ("USERNAME", assign optional_env set_tr_username);
     ("PASSWORD_FILE", assign password_file_env set_tr_credential_source);
     ("PASSWORD", λ key value transport,
        Err (InvalidConfig ("storage provider " +:+ provider
          +:+ " must use password_file instead of direct password values")));
     ("TLS_ENABLED", assign parse_bool_env set_tr_tls_enabled);
     ("CONNECT_TIMEOUT_MS", assign parse_u64_env set_tr_connect_timeout_ms);
     ("MAX_CONNECTIONS", assign parse_u32_env set_tr_max_connections)]) unsupported;
  arm key value transport.

Definition validate_database_field_for_provider (provider : StorageProvider)
    (field key : string) : DiscoveryResult () :=
  match provider with
  | Postgres =>
      if bool_decide (field ∈ ["ENGINE"; "HOST"; "PORT"; "NAME"; "SCHEMA"; "USERNAME";
           "PASSWORD_FILE"; "PASSWORD"; "SSL_MODE"; "MAX_CONNECTIONS"; "ACQUIRE_TIMEOUT"])
      then Ok ()
      else if bool_decide (field = "FILE")
      then Err (InvalidConfig ("database env key " +:+ key
        +:+ " is a sqlite field but the effective database provider is postgres"))
      else Err (InvalidConfig ("unsupported discovery env key: " +:+ key))
  | Sqlite =>
      if bool_decide (field ∈ ["ENGINE"; "FILE"; "MAX_CONNECTIONS"]) then Ok ()
      else if bool_decide (field ∈ ["HOST"; "PORT"; "NAME"; "SCHEMA"; "USERNAME";
           "PASSWORD_FILE"; "PASSWORD"; "SSL_MODE"; "ACQUIRE_TIMEOUT"])
      then Err (InvalidConfig ("database env key " +:+ key
        +:+ " is a postgres field but the effective database provider is sqlite"))
      else Err (InvalidConfig ("unsupported discovery env key: " +:+ key))
  | _ => Err (InvalidConfig ("database env key " +:+ key
           +:+ " requires postgres or sqlite storage"))
  end.

(** [storage.<section>.get_or_insert_with(default)] followed by an assignment. *)
Definition in_postgres {T} (set : T → StorageTransportConfig → StorageTransportConfig) (v : T)
    : DiscoveryRuntimeConfig → DiscoveryRuntimeConfig :=
  on_storage (λ s, set_sto_postgres
    (Some (set v (default default_storage_transport_config (sto_postgres s)))) s).

Definition in_sqlite {T} (set : T → StorageFileConfig → StorageFileConfig) (v : T)
    : DiscoveryRuntimeConfig → DiscoveryRuntimeConfig :=
  on_storage (λ s, set_sto_sqlite
    (Some (set v (default default_storage_file_config (sto_sqlite s)))) s).

Definition apply_database_overlay (config : DiscoveryRuntimeConfig)
    (effective_provider : StorageProvider) (key value : string)
    : DiscoveryResult DiscoveryRuntimeConfig :=
  field ← ok_or (strip_prefix key "SDKWORK_DATABASE_")
    (InvalidConfig ("unsupported database env key: " +:+ key));
  validate_database_field_for_provider effective_provider field key;;
  arm ← ok_or (match_str field
    [("ENGINE", assign parse_database_engine (λ v, on_storage (set_sto_provider v)));
     ("HOST", assign text_env (in_postgres set_tr_host));
     ("PORT", assign parse_u16_env (in_postgres set_tr_port));
     ("NAME", assign optional_env (in_postgres set_tr_database));
     ("SCHEMA", assign optional_env (in_postgres set_tr_schema));
     ("USERNAME", assign optional_env (in_postgres set_tr_username));
     ("PASSWORD_FILE", assign password_file_env (in_postgres set_tr_credential_source));
     ("PASSWORD", λ key value config,
        Err (InvalidConfig
          "database storage must use password_file instead of direct password values"));
     ("SSL_MODE", assign parse_database_ssl_mode (in_postgres set_tr_tls_enabled));
     ("MAX_CONNECTIONS", assign parse_u32_env
        (if bool_decide (effective_provider = Sqlite)
         then in_sqlite set_fs_max_connections else in_postgres set_tr_max_connections));
     ("ACQUIRE_TIMEOUT",
        assign parse_timeout_seconds_as_ms (in_postgres set_tr_connect_timeout_ms));
     ("FILE", assign text_env (in_sqlite set_fs_file))])
    (InvalidConfig ("unsupported discovery env key: " +:+ key));
  arm key value config.

(** ** Names of variables *)

Definition is_forbidden_credential_env_key (key : string) : bool :=
  if bool_decide (key ∈ ["SDKWORK_DISCOVERY_RPC_SERVICE_TOKEN_HMAC_SECRET_FILE";
       "SDKWORK_DISCOVERY_RPC_SERVICE_TOKEN_ISSUER";
       "SDKWORK_DISCOVERY_RPC_SERVICE_TOKEN_AUDIENCE";
       "SDKWORK_DISCOVERY_RPC_SERVICE_TOKEN_MAX_TTL_SECONDS"]) then false
  else if ends_with key "_PASSWORD_FILE" then false
  else if bool_decide (key ∈ ["SDKWORK_DISCOVERY_CONFIG_REGISTRY_ALLOW_SECRET_VALUES";
       "SDKWORK_DISCOVERY_CONFIG_REGISTRY_ALLOW_SECRET_REFS"]) then false
  else contains key "TOKEN" || contains key "SECRET" || contains key "API_KEY"
       || contains key "PASSWORD".

Definition is_retired_database_env_key (key : string) : bool :=
  starts_with key "SDKWORK_DISCOVERY_STORAGE_POSTGRES_"
  || starts_with key "SDKWORK_DISCOVERY_STORAGE_SQLITE_"
  || (starts_with key "SDKWORK_" && negb (starts_with key "SDKWORK_DATABASE_")
      && contains key "_DATABASE_").

Definition is_supported_database_env_key (key : string) : bool :=
  bool_decide (key ∈ ["SDKWORK_DATABASE_ENGINE"; "SDKWORK_DATABASE_HOST";
    "SDKWORK_DATABASE_PORT"; "SDKWORK_DATABASE_NAME"; "SDKWORK_DATABASE_SCHEMA";
    "SDKWORK_DATABASE_USERNAME"; "SDKWORK_DATABASE_PASSWORD_FILE";
    "SDKWORK_DATABASE_PASSWORD"; "SDKWORK_DATABASE_SSL_MODE";
    "SDKWORK_DATABASE_MAX_CONNECTIONS"; "SDKWORK_DATABASE_ACQUIRE_TIMEOUT";
    "SDKWORK_DATABASE_FILE"]).

(** [BTreeMap<String, String>]. *)
Abbreviation EnvMap := (gmap string string).

(** A [for] loop that stops at the first error. *)
Fixpoint for_each {A R} (body : A → R → DiscoveryResult R) (l : list A) (r : R)
    : DiscoveryResult R :=
  match l with
  | [] => Ok r
  | x :: l' => r' ← body x r; for_each body l' r'
  end.

Definition validate_env_key (key : string) : DiscoveryResult () :=
  refuse (is_retired_database_env_key key)
    ("retired database env key " +:+ key
     +:+ "; use SDKWORK_DATABASE_* as the only database authority");;
  refuse (is_forbidden_credential_env_key key)
    ("runtime credential env key is forbidden: " +:+ key);;
  if starts_with key "SDKWORK_DATABASE_" then
    refuse (negb (is_supported_database_env_key key))
      ("unsupported database env key: " +:+ key)
  else
    refuse (negb (starts_with key "SDKWORK_DISCOVERY_"))
      ("unknown discovery env key: " +:+ key).

Definition validate_env_keys (env : EnvMap) : DiscoveryResult () :=
  for_each (λ entry _, validate_env_key entry.1) (btree_iter env) ().

Definition validate_storage_provider_database_engine (env : EnvMap) : DiscoveryResult () :=
  let has_database_overlay :=
    existsb is_supported_database_env_key (btree_iter env).*1 in
  refuse (has_database_overlay
          && bool_decide (env !! "SDKWORK_DATABASE_ENGINE" = None)
          && negb (bool_decide (env !! "SDKWORK_DISCOVERY_STORAGE_PROVIDER"
                                ∈ [Some "postgres"; Some "sqlite"])))
    "database env overlay requires SDKWORK_DATABASE_ENGINE or a matching storage provider";;
  match env !! "SDKWORK_DISCOVERY_STORAGE_PROVIDER", env !! "SDKWORK_DATABASE_ENGINE" with
  | Some storage_provider, Some database_engine =>
      storage_provider ← provider_env "SDKWORK_DISCOVERY_STORAGE_PROVIDER" storage_provider;
      database_provider ← parse_database_engine "SDKWORK_DATABASE_ENGINE" database_engine;
      refuse (negb (bool_decide (storage_provider = database_provider)))
        ("storage provider and database engine conflict: storage="
         +:+ provider_as_str storage_provider +:+ " database="
         +:+ provider_as_str database_provider)
  | _, _ => Ok ()
  end.

Definition effective_storage_provider (current : StorageProvider) (env : EnvMap)
    : DiscoveryResult StorageProvider :=
  match env !! "SDKWORK_DATABASE_ENGINE", env !! "SDKWORK_DISCOVERY_STORAGE_PROVIDER" with
  | Some database_engine, _ => parse_database_engine "SDKWORK_DATABASE_ENGINE" database_engine
  | None, Some storage_provider =>
      provider_env "SDKWORK_DISCOVERY_STORAGE_PROVIDER" storage_provider
  | None, None => Ok current
  end.

Definition different_stages : DiscoveryError :=
  InvalidConfig "environment and config profile describe different lifecycle stages".

Definition environment_of (value : string) : DiscoveryResult RuntimeEnvironment :=
  ok_or (environment_parse value) (InvalidConfig ("unknown environment: " +:+ value)).
Definition profile_environment_of (value : string) : DiscoveryResult RuntimeEnvironment :=
  ok_or (from_profile value) (InvalidConfig ("unknown config profile: " +:+ value)).

(** [match value { Some(value) => Some(f(value)?), None => None }]. *)
Definition traverse {A B} (f : A → DiscoveryResult B) (o : option A)
    : DiscoveryResult (option B) :=
  match o with None => Ok None | Some a => b ← f a; Ok (Some b) end.

Definition apply_runtime_identity_overlay (config : DiscoveryRuntimeConfig) (env : EnvMap)
    : DiscoveryResult DiscoveryRuntimeConfig :=
  explicit_environment ← traverse environment_of (env !! "SDKWORK_DISCOVERY_ENVIRONMENT");
  let profile :=
    match env !! "SDKWORK_DISCOVERY_CONFIG_PROFILE" with
    | Some profile => Some profile
    | None => run_config_profile (cfg_runtime config)
    end in
  profile_environment ← traverse profile_environment_of profile;
  let effective_environment :=
    default (run_environment (cfg_runtime config)) explicit_environment in
  (match profile_environment with
   | Some profile_environment =>
       if bool_decide (effective_environment = profile_environment) then Ok ()
       else Err different_stages
   | None => Ok ()
   end);;
  let config := on_runtime (set_run_environment effective_environment) config in
  let config :=
    match env !! "SDKWORK_DISCOVERY_CONFIG_PROFILE" with
    | Some profile => on_runtime (set_run_config_profile (Some profile)) config
    | None => config
    end in
  match env !! "SDKWORK_DISCOVERY_DEPLOYMENT_PROFILE" with
  | Some profile =>
      assign deployment_profile_env (λ v, on_runtime (set_run_deployment_profile v))
        "SDKWORK_DISCOVERY_DEPLOYMENT_PROFILE" profile config
  | None => Ok config
  end.

(** ** The overlay *)

(** An arm of the [match] on the name of a variable. *)
Abbreviation Arm :=
  (string → string → DiscoveryRuntimeConfig → DiscoveryResult DiscoveryRuntimeConfig).

Definition no_change : Arm := λ key value config, Ok config.

(** The arms in front of the prefix guards. *)
Definition leading_arms : list (string * Arm) :=
  [("SDKWORK_DISCOVERY_ENVIRONMENT", no_change);
   ("SDKWORK_DISCOVERY_CONFIG_PROFILE", no_change);
   ("SDKWORK_DISCOVERY_SERVICE_LAYOUT", no_change);
   ("SDKWORK_DISCOVERY_PROFILE_ID", no_change);
   ("SDKWORK_DISCOVERY_APPLICATION_PUBLIC_GRPC_URL", no_change);
   ("SDKWORK_DISCOVERY_OPERATIONS_CONTROL_GRPC_URL", no_change);
   ("SDKWORK_DISCOVERY_APPLICATION_PUBLIC_INGRESS_BIND",
      λ key value config, apply_public_ingress_bind config value);
   ("SDKWORK_DISCOVERY_OPERATIONS_CONTROL_INGRESS_BIND",
      λ key value config, apply_operations_control_bind config value);
   ("SDKWORK_DISCOVERY_DEPLOYMENT_PROFILE",
      assign deployment_profile_env (λ v, on_runtime (set_run_deployment_profile v)));
   ("SDKWORK_DISCOVERY_RUNTIME_TARGET",
      assign runtime_target_env (λ v, on_runtime (set_run_runtime_target v)));
   ("SDKWORK_DISCOVERY_STORAGE_PROVIDER",
      assign provider_env (λ v, on_storage (set_sto_provider v)))].

(** The arms behind the prefix guards. *)
Definition setting_arms : list (string * Arm) :=
  [("SDKWORK_DISCOVERY_RPC_DEFAULT_DEADLINE_MS",
      assign parse_u64_env (λ v, on_server (set_srv_default_deadline_ms v)));
   ("SDKWORK_DISCOVERY_CONFIG_REGISTRY_ENABLED",
      assign parse_bool_env (λ v, on_config_registry (set_crg_enabled v)));
   ("SDKWORK_DISCOVERY_CONFIG_REGISTRY_MAX_CONFIG_BODY_BYTES",
      assign parse_usize_env (λ v, on_config_registry (set_crg_max_config_body_bytes v)));
   ("SDKWORK_DISCOVERY_CONFIG_REGISTRY_REQUIRE_PUBLISH_FOR_READS",
      assign parse_bool_env (λ v, on_config_registry (set_crg_require_publish_for_reads v)));
   ("SDKWORK_DISCOVERY_CONFIG_REGISTRY_ALLOW_SECRET_VALUES",
      assign parse_bool_env (λ v, on_config_registry (set_crg_allow_secret_values v)));
   ("SDKWORK_DISCOVERY_CONFIG_REGISTRY_ALLOW_SECRET_REFS",
      assign parse_bool_env (λ v, on_config_registry (set_crg_allow_secret_refs v)));
   ("SDKWORK_DISCOVERY_REGISTRY_DEFAULT_LEASE_TTL_SECONDS",
      assign parse_u64_env (λ v, on_registry (set_reg_default_lease_ttl_seconds v)));
   ("SDKWORK_DISCOVERY_REGISTRY_MIN_LEASE_TTL_SECONDS",
      assign parse_u64_env (λ v, on_registry (set_reg_min_lease_ttl_seconds v)));
   ("SDKWORK_DISCOVERY_REGISTRY_MAX_LEASE_TTL_SECONDS",
      assign parse_u64_env (λ v, on_registry (set_reg_max_lease_ttl_seconds v)));
   ("SDKWORK_DISCOVERY_REGISTRY_EXPIRY_SCAN_INTERVAL_MS",
      assign parse_u64_env (λ v, on_registry (set_reg_expiry_scan_interval_ms v)));
   ("SDKWORK_DISCOVERY_REGISTRY_EXPIRY_SCAN_BATCH_SIZE",
      assign parse_usize_env (λ v, on_registry (set_reg_expiry_scan_batch_size v)));
   ("SDKWORK_DISCOVERY_REGISTRY_HEALTH_CHECK_SCAN_INTERVAL_MS",
      assign parse_u64_env (λ v, on_registry (set_reg_health_check_scan_interval_ms v)));
   ("SDKWORK_DISCOVERY_WATCH_ENABLED",
      assign parse_bool_env (λ v, on_watch (set_wch_enabled v)));
   ("SDKWORK_DISCOVERY_WATCH_MAX_STREAMS",
      assign parse_u32_env (λ v, on_watch (set_wch_max_streams v)));
   ("SDKWORK_DISCOVERY_WATCH_EVENT_BUFFER_SIZE",
      assign parse_usize_env (λ v, on_watch (set_wch_event_buffer_size v)));
   ("SDKWORK_DISCOVERY_WATCH_HEARTBEAT_INTERVAL_MS",
      assign parse_u64_env (λ v, on_watch (set_wch_heartbeat_interval_ms v)));
   ("SDKWORK_DISCOVERY_WATCH_DURABLE_POLL_INTERVAL_MS",
      assign parse_u64_env (λ v, on_watch (set_wch_durable_poll_interval_ms v)));
   ("SDKWORK_DISCOVERY_WATCH_DURABLE_REPLAY_BATCH_SIZE",
      assign parse_usize_env (λ v, on_watch (set_wch_durable_replay_batch_size v)));
   ("SDKWORK_DISCOVERY_WATCH_EVENT_GC_INTERVAL_MS",
      assign parse_u64_env (λ v, on_watch (set_wch_event_gc_interval_ms v)));
   ("SDKWORK_DISCOVERY_WATCH_EVENT_GC_RETENTION_COUNT",
      assign parse_u64_env (λ v, on_watch (set_wch_event_gc_retention_count v)));
   ("SDKWORK_DISCOVERY_WATCH_EVENT_GC_BATCH_SIZE",
      assign parse_usize_env (λ v, on_watch (set_wch_event_gc_batch_size v)));
   ("SDKWORK_DISCOVERY_RESILIENCE_CIRCUIT_BREAKER_ENABLED",
      assign parse_bool_env (λ v, on_circuit_breaker (set_hcb_enabled v)));
   ("SDKWORK_DISCOVERY_RESILIENCE_CIRCUIT_BREAKER_FAILURE_THRESHOLD",
      assign parse_u32_env (λ v, on_circuit_breaker (set_hcb_failure_threshold v)));
   ("SDKWORK_DISCOVERY_RESILIENCE_CIRCUIT_BREAKER_RECOVERY_TIMEOUT_MS",
      assign parse_u64_env (λ v, on_circuit_breaker (set_hcb_recovery_timeout_ms v)));
   ("SDKWORK_DISCOVERY_RESILIENCE_CIRCUIT_BREAKER_HALF_OPEN_MAX_REQUESTS",
      assign parse_u32_env (λ v, on_circuit_breaker (set_hcb_half_open_max_requests v)));
   ("SDKWORK_DISCOVERY_RESILIENCE_RATE_LIMIT_ENABLED",
      assign parse_bool_env (λ v, on_rate_limit (set_hrl_enabled v)));
   ("SDKWORK_DISCOVERY_RESILIENCE_RATE_LIMIT_REQUESTS_PER_SECOND",
      assign parse_u64_env (λ v, on_rate_limit (set_hrl_requests_per_second v)));
   ("SDKWORK_DISCOVERY_RESILIENCE_RATE_LIMIT_BURST_CAPACITY",
      assign parse_u64_env (λ v, on_rate_limit (set_hrl_burst_capacity v)));
   ("SDKWORK_DISCOVERY_RESILIENCE_DEGRADATION_READ_ONLY_ON_STORAGE_FAILURE",
      assign parse_bool_env (λ v, on_degradation (set_hdg_read_only_on_storage_failure v)));
   ("SDKWORK_DISCOVERY_RESILIENCE_DEGRADATION_STALE_READ_MAX_AGE_MS",
      assign parse_u64_env (λ v, on_degradation (set_hdg_stale_read_max_age_ms v)));
   ("SDKWORK_DISCOVERY_RPC_AUTH_MODE",
      assign parse_auth_mode_env (λ v, on_security (set_sec_auth_mode v)));
   ("SDKWORK_DISCOVERY_RPC_ALLOW_UNSIGNED_LOCAL_CONTEXT",
      assign parse_bool_env (λ v, on_security (set_sec_allow_unsigned_local_context v)));
   ("SDKWORK_DISCOVERY_RPC_SERVICE_TOKEN_HMAC_SECRET_FILE",
      assign some_env (λ v, on_service_token (set_stk_hmac_secret_file v)));
   ("SDKWORK_DISCOVERY_RPC_SERVICE_TOKEN_ISSUER",
      assign text_env (λ v, on_service_token (set_stk_issuer v)));
   ("SDKWORK_DISCOVERY_RPC_SERVICE_TOKEN_AUDIENCE",
      assign text_env (λ v, on_service_token (set_stk_audience v)));
   ("SDKWORK_DISCOVERY_RPC_SERVICE_TOKEN_MAX_TTL_SECONDS",
      assign parse_u64_env (λ v, on_service_token (set_stk_max_token_ttl_seconds v)));
   ("SDKWORK_DISCOVERY_RPC_TLS_ENABLED",
      assign parse_bool_env (λ v, on_security (set_sec_tls_enabled v)));
   ("SDKWORK_DISCOVERY_RPC_MTLS_ENABLED",
      assign parse_bool_env (λ v, on_security (set_sec_mtls_enabled v)));
   ("SDKWORK_DISCOVERY_RPC_SERVER_TLS_CERT_FILE",
      assign some_env (λ v, on_security (set_sec_server_tls_cert_file v)));
   ("SDKWORK_DISCOVERY_RPC_SERVER_TLS_KEY_FILE",
      assign some_env (λ v, on_security (set_sec_server_tls_key_file v)));
   ("SDKWORK_DISCOVERY_RPC_CLIENT_CA_CERT_FILE",
      assign some_env (λ v, on_security (set_sec_client_ca_cert_file v)));
   ("SDKWORK_DISCOVERY_RPC_REFLECTION_ENABLED",
      assign parse_bool_env (λ v, on_server (set_srv_enable_reflection v)));
   ("SDKWORK_DISCOVERY_RPC_HEALTH_ENABLED",
      assign parse_bool_env (λ v, on_server (set_srv_enable_health v)))].

Definition apply_env_entry (effective_provider : StorageProvider) (key value : string)
    (config : DiscoveryRuntimeConfig) : DiscoveryResult DiscoveryRuntimeConfig :=
  let storage := cfg_storage config in
  match match_str key leading_arms with
  | Some arm => arm key value config
  | None =>
  if starts_with key "SDKWORK_DATABASE_"
  then apply_database_overlay config effective_provider key value
  else if starts_with key "SDKWORK_DISCOVERY_STORAGE_REDIS_" then
    transport ← apply_transport_storage_overlay
      (default default_storage_transport_config (sto_redis storage)) "redis" false key value
      "SDKWORK_DISCOVERY_STORAGE_REDIS_";
    mret (on_storage (set_sto_redis (Some transport)) config)
  else if starts_with key "SDKWORK_DISCOVERY_STORAGE_ETCD_" then
    transport ← apply_transport_storage_overlay
      (default default_storage_transport_config (sto_etcd storage)) "etcd" false key value
      "SDKWORK_DISCOVERY_STORAGE_ETCD_";
    mret (on_storage (set_sto_etcd (Some transport)) config)
  else if starts_with key "SDKWORK_DISCOVERY_STORAGE_CONSUL_" then
    transport ← apply_transport_storage_overlay
      (default default_storage_transport_config (sto_consul storage)) "consul" false key value
      "SDKWORK_DISCOVERY_STORAGE_CONSUL_";
    mret (on_storage (set_sto_consul (Some transport)) config)
  else
    match match_str key setting_arms with
    | Some arm => arm key value config
    | None => Err (InvalidConfig ("unsupported discovery env key: " +:+ key))
    end
  end.

Definition apply_env_overlay (config : DiscoveryRuntimeConfig) (env : EnvMap)
    : DiscoveryResult DiscoveryRuntimeConfig :=
  config ← apply_runtime_identity_overlay config env;
  validate_storage_provider_database_engine env;;
  effective_provider ← effective_storage_provider (sto_provider (cfg_storage config)) env;
  for_each (λ entry, apply_env_entry effective_provider entry.1 entry.2) (btree_iter env) config.

(** ** The loader (loader.rs) *)

Record RawRuntimeConfig : Type := {
  rwr_environment : option string;
  rwr_config_profile : option string;
  rwr_deployment_profile : option string;
  rwr_deployment_mode : string;
  rwr_runtime_target : string;
}.

Record RawServiceTokenConfig : Type := {
  rk_hmac_secret_file : option string;
  rk_issuer : option string;
  rk_audience : option string;
  rk_max_token_ttl_seconds : option N;
}.

Record RawSecurityConfig : Type := {
  rs_auth_mode : string;
  rs_tls_enabled : bool;
  rs_mtls_enabled : bool;
  rs_allow_unsigned_local_context : bool;
  rs_service_token : option RawServiceTokenConfig;
  rs_server_tls_cert_file : option string;
  rs_server_tls_key_file : option string;
  rs_client_ca_cert_file : option string;
}.

Record RawStorageTransportConfig : Type := {
  rt_host : string;
  rt_port : N;
  rt_database : option string;
  rt_schema : option string;
  rt_username : option string;
  rt_password_file : option string;
  rt_password : option string;
  rt_tls_enabled : bool;
  rt_connect_timeout_ms : N;
  rt_max_connections : N;
}.

Record RawStorageFileConfig : Type := {
  rf_file : string;
  rf_max_connections : N;
}.

Record RawStorageConfig : Type := {
  ro_provider : string;
  ro_registry_role : option string;
  ro_config_role : option string;
  ro_watch_role : option string;
  ro_apply_initial_schema : option bool;
  ro_postgres : option RawStorageTransportConfig;
  ro_sqlite : option RawStorageFileConfig;
  ro_redis : option RawStorageTransportConfig;
  ro_etcd : option RawStorageTransportConfig;
  ro_consul : option RawStorageTransportConfig;
}.

Record RawDiscoveryRuntimeConfig : Type := {
  rd_runtime : RawRuntimeConfig;
  rd_server : ServerConfig;
  rd_security : RawSecurityConfig;
  rd_storage : RawStorageConfig;
  rd_registry : RegistryConfig;
  rd_config_registry : ConfigRegistryConfig;
  rd_watch : WatchConfig;
  rd_resilience : ResilienceConfig;
}.

Definition normalize_service_token (raw : option RawServiceTokenConfig) : ServiceTokenConfig :=
  let raw := default {| rk_hmac_secret_file := None; rk_issuer := None; rk_audience := None;
                        rk_max_token_ttl_seconds := None |} raw in
  {| stk_hmac_secret_file := rk_hmac_secret_file raw;
     stk_issuer := default "sdkwork-discovery" (rk_issuer raw);
     stk_audience := default "sdkwork-discovery-rpc" (rk_audience raw);
     stk_max_token_ttl_seconds := default 3600 (rk_max_token_ttl_seconds raw) |}.

Definition normalize_security (raw : RawSecurityConfig) : DiscoveryResult SecurityConfig :=
  auth_mode ← ok_or (auth_mode_parse (rs_auth_mode raw))
    (InvalidConfig ("unsupported RPC auth_mode " +:+ rs_auth_mode raw
                    +:+ "; expected service-token"));
  mret {| sec_auth_mode := auth_mode; sec_tls_enabled := rs_tls_enabled raw;
          sec_mtls_enabled := rs_mtls_enabled raw;
          sec_allow_unsigned_local_context := rs_allow_unsigned_local_context raw;
          sec_service_token := normalize_service_token (rs_service_token raw);
          sec_server_tls_cert_file := rs_server_tls_cert_file raw;
          sec_server_tls_key_file := rs_server_tls_key_file raw;
          sec_client_ca_cert_file := rs_client_ca_cert_file raw |}.

Definition parse_storage_provider (value : string) : DiscoveryResult StorageProvider :=
  ok_or (provider_parse value) (InvalidConfig ("unknown storage provider: " +:+ value)).

Definition parse_storage_role (value : option string) (field : string)
    : DiscoveryResult StorageRole :=
  let value := default "primary" value in
  ok_or (role_parse value)
    (InvalidConfig ("unknown storage " +:+ field +:+ ": " +:+ value)).

Definition normalize_file_storage (raw : RawStorageFileConfig) : StorageFileConfig :=
  {| fs_file := rf_file raw; fs_max_connections := rf_max_connections raw |}.

Definition normalize_transport (name : string) (raw : option RawStorageTransportConfig)
    : DiscoveryResult (option StorageTransportConfig) :=
  match raw with
  | None => Ok None
  | Some raw =>
      refuse (negb (bool_decide (rt_password raw = None)))
        ("storage provider " +:+ name
         +:+ " must use password_file instead of direct password values");;
      mret (Some {| tr_host := rt_host raw; tr_port := rt_port raw;
                    tr_database := rt_database raw; tr_schema := rt_schema raw;
                    tr_username := rt_username raw;
                    tr_credential_source :=
                      match rt_password_file raw with
                      | Some path => PasswordFile path
                      | None => CredentialNone
                      end;
                    tr_tls_enabled := rt_tls_enabled raw;
                    tr_connect_timeout_ms := rt_connect_timeout_ms raw;
                    tr_max_connections := rt_max_connections raw |})
  end.

Definition normalize_storage (raw : RawStorageConfig) : DiscoveryResult StorageConfig :=
  provider ← parse_storage_provider (ro_provider raw);
  registry_role ← parse_storage_role (ro_registry_role raw) "registry_role";
  config_role ← parse_storage_role (ro_config_role raw) "config_role";
  watch_role ← parse_storage_role (ro_watch_role raw) "watch_role";
  postgres ← normalize_transport "postgres" (ro_postgres raw);
  redis ← normalize_transport "redis" (ro_redis raw);
  etcd ← normalize_transport "etcd" (ro_etcd raw);
  consul ← normalize_transport "consul" (ro_consul raw);
  mret {| sto_provider := provider; sto_registry_role := registry_role;
          sto_config_role := config_role; sto_watch_role := watch_role;
          sto_apply_initial_schema := default false (ro_apply_initial_schema raw);
          sto_postgres := postgres; sto_sqlite := normalize_file_storage <$> ro_sqlite raw;
          sto_redis := redis; sto_etcd := etcd; sto_consul := consul |}.

Definition normalize (raw : RawDiscoveryRuntimeConfig)
    : DiscoveryResult DiscoveryRuntimeConfig :=
  let runtime := rd_runtime raw in
  profile_environment ← traverse profile_environment_of (rwr_config_profile runtime);
  explicit_environment ← traverse environment_of (rwr_environment runtime);
  environment ←
    match explicit_environment, profile_environment with
    | Some explicit, Some from_profile =>
        if bool_decide (explicit = from_profile) then Ok explicit else Err different_stages
    | Some explicit, None => Ok explicit
    | None, Some from_profile => Ok from_profile
    | None, None => Err (InvalidConfig "runtime environment or config profile is required")
    end;
  deployment_mode ← ok_or (mode_parse (rwr_deployment_mode runtime))
    (InvalidConfig ("unknown deployment mode: " +:+ rwr_deployment_mode runtime));
  runtime_target ← ok_or (target_parse (rwr_runtime_target runtime))
    (InvalidConfig ("unknown runtime target: " +:+ rwr_runtime_target runtime));
  deployment_profile ←
    match rwr_deployment_profile runtime with
    | Some value =>
        ok_or (profile_parse value) (InvalidConfig ("unknown deployment profile: " +:+ value))
    | None => Ok Standalone
    end;
  security ← normalize_security (rd_security raw);
  storage ← normalize_storage (rd_storage raw);
  mret {| cfg_runtime :=
            {| run_environment := environment; run_config_profile := rwr_config_profile runtime;
               run_deployment_profile := deployment_profile;
               run_deployment_mode := deployment_mode;
               run_runtime_target := runtime_target |};
          cfg_server := rd_server raw; cfg_security := security; cfg_storage := storage;
          cfg_registry := rd_registry raw; cfg_config_registry := rd_config_registry raw;
          cfg_watch := rd_watch raw; cfg_resilience := rd_resilience raw |}.

Section loader.
(** [toml::from_str] into the raw records, or the message of its error. *)
Context (toml_from_str : string → Result string RawDiscoveryRuntimeConfig).
Context (debug_str : string → string).

Definition from_toml_str_unvalidated (input : string)
    : DiscoveryResult DiscoveryRuntimeConfig :=
  match toml_from_str input with
  | Ok raw => normalize raw
  | Err error => Err (InvalidConfig error)
  end.

Definition from_toml_str (input : string) : DiscoveryResult DiscoveryRuntimeConfig :=
  config ← from_toml_str_unvalidated input;
  validate debug_str config;;
  mret config.

Definition from_toml_str_with_env (input : string) (env : EnvMap)
    : DiscoveryResult DiscoveryRuntimeConfig :=
  validate_env_keys env;;
  config ← from_toml_str_unvalidated input;
  config ← apply_env_overlay config env;
  validate debug_str config;;
  mret config.

End loader.
