(* ===== verification/OverlayTheorems.v ===== *)
(** * Theorems about the environment overlay

    Each variable decides exactly one setting, whatever the others are.  [settings] is
    the catalogue of the variables with the value each of them takes and the setting it
    decides. *)
From S2P Require Import Prelude RustStr Collections Contract HostConfig HostFields EnvOverlay.

(** ** The catalogue *)

Record Setting : Type := {
  se_key : string;
  se_type : Type;
  se_parse : string → DiscoveryResult se_type;
  se_get : DiscoveryRuntimeConfig → se_type;
}.

Definition setting {A} (key : string) (parse : string → string → DiscoveryResult A)
    (get : DiscoveryRuntimeConfig → A) : Setting :=
  {| se_key := key; se_type := A; se_parse := parse key; se_get := get |}.

Definition transport_of : option StorageTransportConfig → StorageTransportConfig :=
  default default_storage_transport_config.
Definition file_of : option StorageFileConfig → StorageFileConfig :=
  default default_storage_file_config.

Definition bind_port_env (key value : string) : DiscoveryResult N :=
  bind ← parse_host_port_bind key value; Ok bind.2.

Definition settings (provider : StorageProvider) : list Setting :=
  [setting "SDKWORK_DISCOVERY_RPC_DEFAULT_DEADLINE_MS" parse_u64_env
     (λ c, srv_default_deadline_ms (cfg_server c));
   setting "SDKWORK_DISCOVERY_CONFIG_REGISTRY_ENABLED" parse_bool_env
     (λ c, crg_enabled (cfg_config_registry c));
   setting "SDKWORK_DISCOVERY_CONFIG_REGISTRY_MAX_CONFIG_BODY_BYTES" parse_usize_env
     (λ c, crg_max_config_body_bytes (cfg_config_registry c));
   setting "SDKWORK_DISCOVERY_CONFIG_REGISTRY_REQUIRE_PUBLISH_FOR_READS" parse_bool_env
     (λ c, crg_require_publish_for_reads (cfg_config_registry c));
   setting "SDKWORK_DISCOVERY_CONFIG_REGISTRY_ALLOW_SECRET_VALUES" parse_bool_env
     (λ c, crg_allow_secret_values (cfg_config_registry c));
   setting "SDKWORK_DISCOVERY_CONFIG_REGISTRY_ALLOW_SECRET_REFS" parse_bool_env
     (λ c, crg_allow_secret_refs (cfg_config_registry c));
   setting "SDKWORK_DISCOVERY_REGISTRY_DEFAULT_LEASE_TTL_SECONDS" parse_u64_env
     (λ c, reg_default_lease_ttl_seconds (cfg_registry c));
   setting "SDKWORK_DISCOVERY_REGISTRY_MIN_LEASE_TTL_SECONDS" parse_u64_env
     (λ c, reg_min_lease_ttl_seconds (cfg_registry c));
   setting "SDKWORK_DISCOVERY_REGISTRY_MAX_LEASE_TTL_SECONDS" parse_u64_env
     (λ c, reg_max_lease_ttl_seconds (cfg_registry c));
   setting "SDKWORK_DISCOVERY_REGISTRY_EXPIRY_SCAN_INTERVAL_MS" parse_u64_env
     (λ c, reg_expiry_scan_interval_ms (cfg_registry c));
   setting "SDKWORK_DISCOVERY_REGISTRY_EXPIRY_SCAN_BATCH_SIZE" parse_usize_env
     (λ c, reg_expiry_scan_batch_size (cfg_registry c));
   setting "SDKWORK_DISCOVERY_REGISTRY_HEALTH_CHECK_SCAN_INTERVAL_MS" parse_u64_env
     (λ c, reg_health_check_scan_interval_ms (cfg_registry c));
   setting "SDKWORK_DISCOVERY_WATCH_ENABLED" parse_bool_env
     (λ c, wch_enabled (cfg_watch c));
   setting "SDKWORK_DISCOVERY_WATCH_MAX_STREAMS" parse_u32_env
     (λ c, wch_max_streams (cfg_watch c));
   setting "SDKWORK_DISCOVERY_WATCH_EVENT_BUFFER_SIZE" parse_usize_env
     (λ c, wch_event_buffer_size (cfg_watch c));
   setting "SDKWORK_DISCOVERY_WATCH_HEARTBEAT_INTERVAL_MS" parse_u64_env
     (λ c, wch_heartbeat_interval_ms (cfg_watch c));
   setting "SDKWORK_DISCOVERY_WATCH_DURABLE_POLL_INTERVAL_MS" parse_u64_env
     (λ c, wch_durable_poll_interval_ms (cfg_watch c));
   setting "SDKWORK_DISCOVERY_WATCH_DURABLE_REPLAY_BATCH_SIZE" parse_usize_env
     (λ c, wch_durable_replay_batch_size (cfg_watch c));
   setting "SDKWORK_DISCOVERY_WATCH_EVENT_GC_INTERVAL_MS" parse_u64_env
     (λ c, wch_event_gc_interval_ms (cfg_watch c));
   setting "SDKWORK_DISCOVERY_WATCH_EVENT_GC_RETENTION_COUNT" parse_u64_env
     (λ c, wch_event_gc_retention_count (cfg_watch c));
   setting "SDKWORK_DISCOVERY_WATCH_EVENT_GC_BATCH_SIZE" parse_usize_env
     (λ c, wch_event_gc_batch_size (cfg_watch c));
   setting "SDKWORK_DISCOVERY_RESILIENCE_CIRCUIT_BREAKER_ENABLED" parse_bool_env
     (λ c, hcb_enabled (res_circuit_breaker (cfg_resilience c)));
   setting "SDKWORK_DISCOVERY_RESILIENCE_CIRCUIT_BREAKER_FAILURE_THRESHOLD" parse_u32_env
     (λ c, hcb_failure_threshold (res_circuit_breaker (cfg_resilience c)));
   setting "SDKWORK_DISCOVERY_RESILIENCE_CIRCUIT_BREAKER_RECOVERY_TIMEOUT_MS" parse_u64_env
     (λ c, hcb_recovery_timeout_ms (res_circuit_breaker (cfg_resilience c)));
   setting "SDKWORK_DISCOVERY_RESILIENCE_CIRCUIT_BREAKER_HALF_OPEN_MAX_REQUESTS" parse_u32_env
     (λ c, hcb_half_open_max_requests (res_circuit_breaker (cfg_resilience c)));
   setting "SDKWORK_DISCOVERY_RESILIENCE_RATE_LIMIT_ENABLED" parse_bool_env
     (λ c, hrl_enabled (res_rate_limit (cfg_resilience c)));
   setting "SDKWORK_DISCOVERY_RESILIENCE_RATE_LIMIT_REQUESTS_PER_SECOND" parse_u64_env
     (λ c, hrl_requests_per_second (res_rate_limit (cfg_resilience c)));
   setting "SDKWORK_DISCOVERY_RESILIENCE_RATE_LIMIT_BURST_CAPACITY" parse_u64_env
     (λ c, hrl_burst_capacity (res_rate_limit (cfg_resilience c)));
   setting "SDKWORK_DISCOVERY_RESILIENCE_DEGRADATION_READ_ONLY_ON_STORAGE_FAILURE" parse_bool_env
     (λ c, hdg_read_only_on_storage_failure (res_degradation (cfg_resilience c)));
   setting "SDKWORK_DISCOVERY_RESILIENCE_DEGRADATION_STALE_READ_MAX_AGE_MS" parse_u64_env
     (λ c, hdg_stale_read_max_age_ms (res_degradation (cfg_resilience c)));
   setting "SDKWORK_DISCOVERY_RPC_AUTH_MODE" parse_auth_mode_env
     (λ c, sec_auth_mode (cfg_security c));
   setting "SDKWORK_DISCOVERY_RPC_ALLOW_UNSIGNED_LOCAL_CONTEXT" parse_bool_env
     (λ c, sec_allow_unsigned_local_context (cfg_security c));
   setting "SDKWORK_DISCOVERY_RPC_SERVICE_TOKEN_HMAC_SECRET_FILE" some_env
     (λ c, stk_hmac_secret_file (sec_service_token (cfg_security c)));
   setting "SDKWORK_DISCOVERY_RPC_SERVICE_TOKEN_ISSUER" text_env
     (λ c, stk_issuer (sec_service_token (cfg_security c)));
   setting "SDKWORK_DISCOVERY_RPC_SERVICE_TOKEN_AUDIENCE" text_env
     (λ c, stk_audience (sec_service_token (cfg_security c)));
   setting "SDKWORK_DISCOVERY_RPC_SERVICE_TOKEN_MAX_TTL_SECONDS" parse_u64_env
     (λ c, stk_max_token_ttl_seconds (sec_service_token (cfg_security c)));
   setting "SDKWORK_DISCOVERY_RPC_TLS_ENABLED" parse_bool_env
     (λ c, sec_tls_enabled (cfg_security c));
   setting "SDKWORK_DISCOVERY_RPC_MTLS_ENABLED" parse_bool_env
     (λ c, sec_mtls_enabled (cfg_security c));
   setting "SDKWORK_DISCOVERY_RPC_SERVER_TLS_CERT_FILE" some_env
     (λ c, sec_server_tls_cert_file (cfg_security c));
   setting "SDKWORK_DISCOVERY_RPC_SERVER_TLS_KEY_FILE" some_env
     (λ c, sec_server_tls_key_file (cfg_security c));
   setting "SDKWORK_DISCOVERY_RPC_CLIENT_CA_CERT_FILE" some_env
     (λ c, sec_client_ca_cert_file (cfg_security c));
   setting "SDKWORK_DISCOVERY_RPC_REFLECTION_ENABLED" parse_bool_env
     (λ c, srv_enable_reflection (cfg_server c));
   setting "SDKWORK_DISCOVERY_RPC_HEALTH_ENABLED" parse_bool_env
     (λ c, srv_enable_health (cfg_server c));
   setting "SDKWORK_DISCOVERY_DEPLOYMENT_PROFILE" deployment_profile_env
     (λ c, run_deployment_profile (cfg_runtime c));
   setting "SDKWORK_DISCOVERY_RUNTIME_TARGET" runtime_target_env
     (λ c, run_runtime_target (cfg_runtime c));
   setting "SDKWORK_DISCOVERY_STORAGE_REDIS_HOST" text_env
     (λ c, tr_host (transport_of (sto_redis (cfg_storage c))));
   setting "SDKWORK_DISCOVERY_STORAGE_REDIS_PORT" parse_u16_env
     (λ c, tr_port (transport_of (sto_redis (cfg_storage c))));
   setting "SDKWORK_DISCOVERY_STORAGE_REDIS_DATABASE" optional_env
     (λ c, tr_database (transport_of (sto_redis (cfg_storage c))));
   setting "SDKWORK_DISCOVERY_STORAGE_REDIS_USERNAME" optional_env
     (λ c, tr_username (transport_of (sto_redis (cfg_storage c))));
   setting "SDKWORK_DISCOVERY_STORAGE_REDIS_PASSWORD_FILE" password_file_env
     (λ c, tr_credential_source (transport_of (sto_redis (cfg_storage c))));
   setting "SDKWORK_DISCOVERY_STORAGE_REDIS_TLS_ENABLED" parse_bool_env
     (λ c, tr_tls_enabled (transport_of (sto_redis (cfg_storage c))));
   setting "SDKWORK_DISCOVERY_STORAGE_REDIS_CONNECT_TIMEOUT_MS" parse_u64_env
     (λ c, tr_connect_timeout_ms (transport_of (sto_redis (cfg_storage c))));
   setting "SDKWORK_DISCOVERY_STORAGE_REDIS_MAX_CONNECTIONS" parse_u32_env
     (λ c, tr_max_connections (transport_of (sto_redis (cfg_storage c))));
   setting "SDKWORK_DISCOVERY_STORAGE_ETCD_HOST" text_env
     (λ c, tr_host (transport_of (sto_etcd (cfg_storage c))));
   setting "SDKWORK_DISCOVERY_STORAGE_ETCD_PORT" parse_u16_env
     (λ c, tr_port (transport_of (sto_etcd (cfg_storage c))));
   setting "SDKWORK_DISCOVERY_STORAGE_ETCD_DATABASE" optional_env
     (λ c, tr_database (transport_of (sto_etcd (cfg_storage c))));
   setting "SDKWORK_DISCOVERY_STORAGE_ETCD_USERNAME" optional_env
     (λ c, tr_username (transport_of (sto_etcd (cfg_storage c))));
   setting "SDKWORK_DISCOVERY_STORAGE_ETCD_PASSWORD_FILE" password_file_env
     (λ c, tr_credential_source (transport_of (sto_etcd (cfg_storage c))));
   setting "SDKWORK_DISCOVERY_STORAGE_ETCD_TLS_ENABLED" parse_bool_env
     (λ c, tr_tls_enabled (transport_of (sto_etcd (cfg_storage c))));
   setting "SDKWORK_DISCOVERY_STORAGE_ETCD_CONNECT_TIMEOUT_MS" parse_u64_env
     (λ c, tr_connect_timeout_ms (transport_of (sto_etcd (cfg_storage c))));
   setting "SDKWORK_DISCOVERY_STORAGE_ETCD_MAX_CONNECTIONS" parse_u32_env
     (λ c, tr_max_connections (transport_of (sto_etcd (cfg_storage c))));
   setting "SDKWORK_DISCOVERY_STORAGE_CONSUL_HOST" text_env
     (λ c, tr_host (transport_of (sto_consul (cfg_storage c))));
   setting "SDKWORK_DISCOVERY_STORAGE_CONSUL_PORT" parse_u16_env
     (λ c, tr_port (transport_of (sto_consul (cfg_storage c))));
   setting "SDKWORK_DISCOVERY_STORAGE_CONSUL_DATABASE" optional_env
     (λ c, tr_database (transport_of (sto_consul (cfg_storage c))));
   setting "SDKWORK_DISCOVERY_STORAGE_CONSUL_USERNAME" optional_env
     (λ c, tr_username (transport_of (sto_consul (cfg_storage c))));
   setting "SDKWORK_DISCOVERY_STORAGE_CONSUL_PASSWORD_FILE" password_file_env
     (λ c, tr_credential_source (transport_of (sto_consul (cfg_storage c))));
   setting "SDKWORK_DISCOVERY_STORAGE_CONSUL_TLS_ENABLED" parse_bool_env
     (λ c, tr_tls_enabled (transport_of (sto_consul (cfg_storage c))));
   setting "SDKWORK_DISCOVERY_STORAGE_CONSUL_CONNECT_TIMEOUT_MS" parse_u64_env
     (λ c, tr_connect_timeout_ms (transport_of (sto_consul (cfg_storage c))));
   setting "SDKWORK_DISCOVERY_STORAGE_CONSUL_MAX_CONNECTIONS" parse_u32_env
     (λ c, tr_max_connections (transport_of (sto_consul (cfg_storage c))));
   setting "SDKWORK_DATABASE_HOST" text_env
     (λ c, tr_host (transport_of (sto_postgres (cfg_storage c))));
   setting "SDKWORK_DATABASE_PORT" parse_u16_env
     (λ c, tr_port (transport_of (sto_postgres (cfg_storage c))));
   setting "SDKWORK_DATABASE_NAME" optional_env
     (λ c, tr_database (transport_of (sto_postgres (cfg_storage c))));
   setting "SDKWORK_DATABASE_SCHEMA" optional_env
     (λ c, tr_schema (transport_of (sto_postgres (cfg_storage c))));
   setting "SDKWORK_DATABASE_USERNAME" optional_env
     (λ c, tr_username (transport_of (sto_postgres (cfg_storage c))));
   setting "SDKWORK_DATABASE_PASSWORD_FILE" password_file_env
     (λ c, tr_credential_source (transport_of (sto_postgres (cfg_storage c))));
   setting "SDKWORK_DATABASE_SSL_MODE" parse_database_ssl_mode
     (λ c, tr_tls_enabled (transport_of (sto_postgres (cfg_storage c))));
   setting "SDKWORK_DATABASE_ACQUIRE_TIMEOUT" parse_timeout_seconds_as_ms
     (λ c, tr_connect_timeout_ms (transport_of (sto_postgres (cfg_storage c))));
   setting "SDKWORK_DATABASE_FILE" text_env
     (λ c, fs_file (file_of (sto_sqlite (cfg_storage c))));
   setting "SDKWORK_DATABASE_MAX_CONNECTIONS" parse_u32_env
     (λ c,
      if bool_decide (provider = Sqlite)
      then fs_max_connections (file_of (sto_sqlite (cfg_storage c)))
      else tr_max_connections (transport_of (sto_postgres (cfg_storage c))));
   setting "SDKWORK_DISCOVERY_APPLICATION_PUBLIC_INGRESS_BIND" bind_port_env
     (λ c, srv_grpc_port (cfg_server c));
   setting "SDKWORK_DISCOVERY_OPERATIONS_CONTROL_INGRESS_BIND" bind_port_env
     (λ c, srv_admin_grpc_port (cfg_server c))].

(** ** Loops over the variables *)

Lemma btree_iter_NoDup {V} (m : gmap string V) : NoDup (btree_iter m).*1.
Proof. unfold btree_iter. rewrite sort_by_perm. apply NoDup_fst_map_to_list. Qed.

(** In a loop over distinct keys that keeps an invariant, a value that only one key
    decides is the one that key gives it, or the one it had. *)
Lemma for_each_decides {R X} (I : R → Prop) (key : string) (parse : string → X → Prop)
    (get : R → X) (body : string * string → R → DiscoveryResult R) l r r' :
  NoDup l.*1 → I r →
  (∀ e r1 r2, e ∈ l → I r1 → body e r1 = Ok r2 →
     I r2 ∧ if String.eqb (e.1) key then parse e.2 (get r2) else get r2 = get r1) →
  for_each body l r = Ok r' →
  I r' ∧ (∀ v, (key, v) ∈ l → parse v (get r')) ∧ (key ∉ l.*1 → get r' = get r).
Proof.
  revert r. induction l as [|[k w] l IH]; intros r Hnd HI Hbody Hrun; simpl in *.
  { injection Hrun as ->. split_and!; [done| |done]. by intros v Hv%not_elem_of_nil. }
  apply NoDup_cons in Hnd as [Hk Hnd]. apply result_bind_Ok in Hrun as (r1 & H1 & Hrun).
  destruct (Hbody (k, w) r r1 (list_elem_of_here _ _) HI H1) as [HI1 Hstep]. simpl in Hstep.
  destruct (IH r1 Hnd HI1) as (HI' & Hin & Hout); [|done|].
  { intros e r2 r3 He. apply Hbody. by right. }
  split; [done|]. destruct (String.eqb_spec k key) as [->|Hne].
  - split; [|by intros []%not_elem_of_cons]. intros v [[= ->]|Hv]%elem_of_cons.
    + by rewrite (Hout Hk).
    + destruct Hk. apply list_elem_of_fmap. by exists (key, v).
  - split.
    + intros v [[= <- _]|Hv]%elem_of_cons; [done|]. by apply Hin.
    + intros [_ Hkl]%not_elem_of_cons. rewrite (Hout Hkl). exact Hstep.
Qed.

(** A fact that every step keeps and that holds at first or that some step brings about. *)
Lemma for_each_reaches {A R} (P : R → Prop) (body : A → R → DiscoveryResult R) l r r' :
  (∀ e r1 r2, e ∈ l → body e r1 = Ok r2 → P r1 → P r2) →
  P r ∨ (∃ e, e ∈ l ∧ ∀ r1 r2, body e r1 = Ok r2 → P r2) →
  for_each body l r = Ok r' → P r'.
Proof.
  revert r. induction l as [|x l IH]; intros r Hkeep Hreach Hrun; simpl in *.
  { injection Hrun as <-. destruct Hreach as [|(e & He & _)]; [done|].
    by apply not_elem_of_nil in He. }
  apply result_bind_Ok in Hrun as (r1 & H1 & Hrun). eapply IH; [|clear IH|exact Hrun].
  - intros e r2 r3 He. apply Hkeep. by right.
  - destruct Hreach as [Hp|(e & [->|He]%elem_of_cons & Hset)]; [|by left; eapply Hset|by eauto].
    left. eapply Hkeep; [apply list_elem_of_here|done|done].
Qed.

Lemma match_str_Some {A} value (arms : list (string * A)) a :
  match_str value arms = Some a → (value, a) ∈ arms.
Proof.
  induction arms as [|[literal b] arms IH]; simpl; [done|]. case_bool_decide; [|by right; auto].
  intros [= ->]. subst. left.
Qed.

(** The values of a list of settings, one after the other. *)
Fixpoint values_type (l : list Setting) : Type :=
  match l with [] => unit | s :: l' => prod (se_type s) (values_type l') end.
Fixpoint values (l : list Setting) (c : DiscoveryRuntimeConfig) : values_type l :=
  match l with [] => tt | s :: l' => (se_get s c, values l' c) end.

(** What no variable of the loop touches: environment, profile, deployment mode. *)
Definition identity_of (c : DiscoveryRuntimeConfig) :=
  (run_environment (cfg_runtime c), run_config_profile (cfg_runtime c),
   run_deployment_mode (cfg_runtime c)).

(** The place of a variable in the catalogue. *)
Fixpoint index_of (key : string) (l : list string) : option nat :=
  match l with
  | [] => None
  | k :: l' => if String.eqb k key then Some 0%nat else S <$> index_of key l'
  end.

(** What one variable does: it decides the setting at its place in the catalogue, if it
    has one, and leaves everything else as it is. *)
Definition decides_at (index : option nat) (l : list Setting) (value : string)
    (c c' : DiscoveryRuntimeConfig) : Prop :=
  match index with
  | Some n =>
      match l !! n with Some s => se_parse s value = Ok (se_get s c') | None => False end
      ∧ values (take n l) c' = values (take n l) c
      ∧ values (drop (S n) l) c' = values (drop (S n) l) c
  | None => values l c' = values l c
  end.

Abbreviation PUBLIC_BIND := "SDKWORK_DISCOVERY_APPLICATION_PUBLIC_INGRESS_BIND".
Abbreviation OPERATIONS_BIND := "SDKWORK_DISCOVERY_OPERATIONS_CONTROL_INGRESS_BIND".
Abbreviation ENGINE := "SDKWORK_DATABASE_ENGINE".
Abbreviation PROVIDER := "SDKWORK_DISCOVERY_STORAGE_PROVIDER".

Definition provider_of (c : DiscoveryRuntimeConfig) : StorageProvider :=
  sto_provider (cfg_storage c).
Definition host_of (c : DiscoveryRuntimeConfig) : string := srv_grpc_bind_host (cfg_server c).

(** What it does to the provider, which two variables name, and to the host, which the
    bind address of the second surface only fills in. *)
Definition rest_decided (key value : string) (c c' : DiscoveryRuntimeConfig) : Prop :=
  identity_of c' = identity_of c
  ∧ (if String.eqb key ENGINE then parse_database_engine ENGINE value = Ok (provider_of c')
     else if String.eqb key PROVIDER then provider_env PROVIDER value = Ok (provider_of c')
     else provider_of c' = provider_of c)
  ∧ (if String.eqb key PUBLIC_BIND
     then ∃ port, parse_host_port_bind PUBLIC_BIND value = Ok (host_of c', port)
     else if String.eqb key OPERATIONS_BIND
     then (host_of c ≠ "" → host_of c' = host_of c)
          ∧ (host_of c = "" →
             ∃ port, parse_host_port_bind OPERATIONS_BIND value = Ok (host_of c', port))
     else host_of c' = host_of c).

Definition step_decides (provider : StorageProvider) (key value : string)
    (c c' : DiscoveryRuntimeConfig) : Prop :=
  decides_at (index_of key (se_key <$> settings provider)) (settings provider) value c c'
  ∧ rest_decided key value c c'.

Lemma values_eq l c c' s : values l c' = values l c → s ∈ l → se_get s c' = se_get s c.
Proof.
  induction l as [|x l IH]; intros E Hs; [by apply not_elem_of_nil in Hs|].
  injection E as E1 E2. apply elem_of_cons in Hs as [->|Hs]; auto.
Qed.

Lemma index_of_Some key l n :
  NoDup l → index_of key l = Some n → l !! n = Some key ∧ (key ∉ take n l) ∧ (key ∉ drop (S n) l).
Proof.
  revert n. induction l as [|k l IH]; intros n Hnd; [done|]. cbn [index_of].
  apply NoDup_cons in Hnd as [Hk Hnd]. destruct (String.eqb_spec k key) as [->|Hne].
  - intros [= <-]. simpl. rewrite drop_0. split_and!; [done|apply not_elem_of_nil|done].
  - intros H. destruct (index_of key l) as [m|] eqn:E; [|done]. injection H as <-.
    destruct (IH m Hnd eq_refl) as (H1 & H2 & H3). simpl. split_and!; [done| |done].
    apply not_elem_of_cons. auto.
Qed.

Lemma index_of_None key l : index_of key l = None → key ∉ l.
Proof.
  induction l as [|k l IH]; cbn [index_of]; [intros _; apply not_elem_of_nil|].
  destruct (String.eqb_spec k key); [done|]. destruct (index_of key l); [done|].
  intros _. apply not_elem_of_cons. auto.
Qed.

Lemma settings_NoDup provider : NoDup (se_key <$> settings provider).
Proof. apply (bool_decide_unpack _). by vm_compute. Qed.

Lemma step_decides_setting provider key value c c' s :
  step_decides provider key value c c' → s ∈ settings provider →
  if String.eqb key (se_key s) then se_parse s value = Ok (se_get s c')
  else se_get s c' = se_get s c.
Proof.
  intros [Hd _] Hs. pose proof (settings_NoDup provider) as Hnd.
  unfold decides_at in Hd. destruct (index_of _ _) as [n|] eqn:E.
  - apply index_of_Some in E as (Hn & Htake & Hdrop); [|done]. destruct Hd as (Hhit & Ht & Hr).
    rewrite list_lookup_fmap in Hn. destruct (settings provider !! n) as [x|] eqn:Ex; [|done].
    injection Hn as <-. rewrite <- (take_drop_middle _ _ _ Ex) in Hs.
    apply elem_of_app in Hs as [Hs|[->|Hs]%elem_of_cons].
    + destruct (String.eqb_spec (se_key x) (se_key s)) as [Ek|]; [|exact (values_eq _ _ _ _ Ht Hs)].
      destruct Htake. rewrite Ek, <- fmap_take. apply list_elem_of_fmap. eauto.
    + by rewrite String.eqb_refl.
    + destruct (String.eqb_spec (se_key x) (se_key s)) as [Ek|]; [|exact (values_eq _ _ _ _ Hr Hs)].
      destruct Hdrop. rewrite Ek, <- fmap_drop. apply list_elem_of_fmap. eauto.
  - apply index_of_None in E. destruct (String.eqb_spec key (se_key s)) as [->|];
      [|exact (values_eq _ _ _ _ Hd Hs)]. destruct E. apply list_elem_of_fmap. eauto.
Qed.

(** ** The arms *)

Lemma assign_Ok {T R} (parse : string → string → DiscoveryResult T) (set : T → R → R) key value
    r r' :
  assign parse set key value r = Ok r' → ∃ v, parse key value = Ok v ∧ r' = set v r.
Proof. unfold assign. intros (v & Hv & [= <-])%result_bind_Ok. eauto. Qed.

(** Opens a configuration down to its fields. *)
Ltac open_config c :=
  destruct c as [[] [] [? ? ? ? [] ? ? ?] [] [] [] [] [[] [] []]].

(** Closes [step_decides] for a literal key, the new configuration written out and the
    value of the variable known by the hypothesis [Hv]. *)
Ltac decide_step Hv :=
  match goal with
  | |- step_decides ?provider ?key ?value ?c ?c' =>
      let i := eval vm_compute in (index_of key (se_key <$> settings provider)) in
      cut (decides_at i (settings provider) value c c' ∧ rest_decided key value c c');
        [intros H; unfold step_decides;
         replace (index_of key (se_key <$> settings provider)) with i by (vm_compute; reflexivity);
         exact H|]
  end;
  split;
  [first [split; [exact Hv|split; vm_compute; reflexivity] | vm_compute; reflexivity]
  |split; [vm_compute; reflexivity
          |split; first [reflexivity | intros _; reflexivity | exact Hv | idtac]]].

(** Splits membership in a table of arms into its rows. *)
Ltac each_arm H :=
  repeat (apply elem_of_cons in H as [H|H]; [injection H as -> ->|]);
  [..|by apply not_elem_of_nil in H].

Lemma setting_arm_decides provider key arm value c c' :
  (key, arm) ∈ setting_arms → arm key value c = Ok c' → step_decides provider key value c c'.
Proof.
  intros Hin. open_config c. unfold setting_arms in Hin.
  each_arm Hin; intros (v & Hv & ->)%assign_Ok; decide_step Hv.
Qed.

Lemma public_bind_Ok c bind c' :
  apply_public_ingress_bind c bind = Ok c' →
  ∃ host port, parse_host_port_bind "SDKWORK_DISCOVERY_APPLICATION_PUBLIC_INGRESS_BIND" bind
               = Ok (host, port)
    ∧ c' = on_server (λ s, set_srv_grpc_port port (set_srv_grpc_bind_host host s)) c.
Proof.
  unfold apply_public_ingress_bind. intros ([host port] & Hb & [= <-])%result_bind_Ok. eauto.
Qed.

Lemma operations_bind_Ok c bind c' :
  apply_operations_control_bind c bind = Ok c' →
  ∃ host port, parse_host_port_bind "SDKWORK_DISCOVERY_OPERATIONS_CONTROL_INGRESS_BIND" bind
               = Ok (host, port)
    ∧ c' = on_server (set_srv_admin_grpc_port port)
             (if is_empty (srv_grpc_bind_host (cfg_server c))
              then on_server (set_srv_grpc_bind_host host) c else c).
Proof.
  unfold apply_operations_control_bind. intros ([host port] & Hb & [= <-])%result_bind_Ok. eauto.
Qed.

Lemma bind_port_Ok key value host port :
  parse_host_port_bind key value = Ok (host, port) → bind_port_env key value = Ok port.
Proof. unfold bind_port_env. by intros ->. Qed.

Lemma leading_arm_decides provider key arm value c c' :
  (key, arm) ∈ leading_arms → arm key value c = Ok c' → step_decides provider key value c c'.
Proof.
  intros Hin. unfold leading_arms in Hin. each_arm Hin; intros E.
  1-6: injection E as <-; decide_step I.
  - apply public_bind_Ok in E as (host & port & Hb & ->).
    pose proof (bind_port_Ok _ _ _ _ Hb) as Hv. open_config c. decide_step Hv. by exists port.
  - apply operations_bind_Ok in E as (host & port & Hb & ->).
    pose proof (bind_port_Ok _ _ _ _ Hb) as Hv.
    destruct (is_empty (srv_grpc_bind_host (cfg_server c))) eqn:Eh; open_config c;
      decide_step Hv.
    + split; intros Hh; [by apply is_empty_true in Eh|by exists port].
    + split; intros Hh; [done|]. cbn in Eh, Hh. by rewrite Hh in Eh.
  - apply assign_Ok in E as (v & Hv & ->). open_config c. decide_step Hv.
  - apply assign_Ok in E as (v & Hv & ->). open_config c. decide_step Hv.
  - apply assign_Ok in E as (v & Hv & ->). open_config c. decide_step Hv.
Qed.

(** A field of a transport section that a variable sets. *)
Lemma transport_overlay_Ok t name key value prefix t' :
  apply_transport_storage_overlay t name false key value prefix = Ok t' →
  ∃ field, key = prefix +:+ field
    ∧ ((field = "HOST" ∧ assign text_env set_tr_host key value t = Ok t')
       ∨ (field = "PORT" ∧ assign parse_u16_env set_tr_port key value t = Ok t')
       ∨ (field = "DATABASE" ∧ assign optional_env set_tr_database key value t = Ok t')
       ∨ (field = "USERNAME" ∧ assign optional_env set_tr_username key value t = Ok t')
       ∨ (field = "PASSWORD_FILE"
          ∧ assign password_file_env set_tr_credential_source key value t = Ok t')
       ∨ (field = "TLS_ENABLED" ∧ assign parse_bool_env set_tr_tls_enabled key value t = Ok t')
       ∨ (field = "CONNECT_TIMEOUT_MS"
          ∧ assign parse_u64_env set_tr_connect_timeout_ms key value t = Ok t')
       ∨ (field = "MAX_CONNECTIONS"
          ∧ assign parse_u32_env set_tr_max_connections key value t = Ok t')).
Proof.
  unfold apply_transport_storage_overlay.
  intros (field & Hf & H)%result_bind_Ok. apply ok_or_Ok, strip_prefix_spec in Hf.
  exists field. split; [done|]. apply result_bind_Ok in H as (arm & Ha & H).
  apply ok_or_Ok, match_str_Some in Ha. each_arm Ha; tauto || (by simpl in H).
Qed.

Ltac transport_step :=
  intros (t' & (field & -> & H)%transport_overlay_Ok & [= <-])%result_bind_Ok;
  repeat destruct H as [H|H]; destruct H as [-> (v & Hv & ->)%assign_Ok];
  decide_step Hv.

Lemma redis_entry_decides provider key value c c' :
  (transport ← apply_transport_storage_overlay
      (default default_storage_transport_config (sto_redis (cfg_storage c))) "redis" false
      key value "SDKWORK_DISCOVERY_STORAGE_REDIS_";
   mret (on_storage (set_sto_redis (Some transport)) c)) = Ok c' →
  step_decides provider key value c c'.
Proof.
  open_config c.
  transport_step.
Qed.

Lemma etcd_entry_decides provider key value c c' :
  (transport ← apply_transport_storage_overlay
      (default default_storage_transport_config (sto_etcd (cfg_storage c))) "etcd" false
      key value "SDKWORK_DISCOVERY_STORAGE_ETCD_";
   mret (on_storage (set_sto_etcd (Some transport)) c)) = Ok c' →
  step_decides provider key value c c'.
Proof.
  open_config c.
  transport_step.
Qed.

Lemma consul_entry_decides provider key value c c' :
  (transport ← apply_transport_storage_overlay
      (default default_storage_transport_config (sto_consul (cfg_storage c))) "consul" false
      key value "SDKWORK_DISCOVERY_STORAGE_CONSUL_";
   mret (on_storage (set_sto_consul (Some transport)) c)) = Ok c' →
  step_decides provider key value c c'.
Proof.
  open_config c.
  transport_step.
Qed.

Lemma database_entry_decides provider key value c c' :
  apply_database_overlay c provider key value = Ok c' → step_decides provider key value c c'.
Proof.
  unfold apply_database_overlay. intros (field & Hf & H)%result_bind_Ok.
  apply ok_or_Ok, strip_prefix_spec in Hf. subst key.
  apply result_bind_Ok in H as (_ & _ & H). apply result_bind_Ok in H as (arm & Ha & H).
  apply ok_or_Ok, match_str_Some in Ha.
  open_config c.
  each_arm Ha; first [discriminate H | apply assign_Ok in H as (v & Hv & ->)];
    first [decide_step Hv | destruct provider; decide_step Hv].
Qed.

Lemma env_entry_decides provider key value c c' :
  apply_env_entry provider key value c = Ok c' → step_decides provider key value c c'.
Proof.
  unfold apply_env_entry. destruct (match_str key leading_arms) as [arm|] eqn:El.
  { by apply leading_arm_decides, match_str_Some. }
  destruct (starts_with key "SDKWORK_DATABASE_"); [apply database_entry_decides|].
  destruct (starts_with key "SDKWORK_DISCOVERY_STORAGE_REDIS_"); [apply redis_entry_decides|].
  destruct (starts_with key "SDKWORK_DISCOVERY_STORAGE_ETCD_"); [apply etcd_entry_decides|].
  destruct (starts_with key "SDKWORK_DISCOVERY_STORAGE_CONSUL_"); [apply consul_entry_decides|].
  destruct (match_str key setting_arms) as [arm|] eqn:Es; [|done].
  by apply setting_arm_decides, match_str_Some.
Qed.

(** ** The identity of the process *)

Lemma environment_values provider e c :
  values (settings provider) (on_runtime (set_run_environment e) c)
  = values (settings provider) c.
Proof. open_config c. vm_compute. reflexivity. Qed.

Lemma config_profile_values provider p c :
  values (settings provider) (on_runtime (set_run_config_profile p) c)
  = values (settings provider) c.
Proof. open_config c. vm_compute. reflexivity. Qed.

(** The configuration after the environment and the profile are laid over it. *)
Definition with_identity (c : DiscoveryRuntimeConfig) (e : RuntimeEnvironment)
    (profile : option string) : DiscoveryRuntimeConfig :=
  let c := on_runtime (set_run_environment e) c in
  match profile with
  | Some profile => on_runtime (set_run_config_profile (Some profile)) c
  | None => c
  end.

Lemma with_identity_values provider c e profile :
  values (settings provider) (with_identity c e profile) = values (settings provider) c.
Proof.
  unfold with_identity. destruct profile; rewrite ?config_profile_values;
    apply environment_values.
Qed.

Lemma deployment_profile_decides provider value c c' :
  assign deployment_profile_env (λ v, on_runtime (set_run_deployment_profile v))
    "SDKWORK_DISCOVERY_DEPLOYMENT_PROFILE" value c = Ok c' →
  step_decides provider "SDKWORK_DISCOVERY_DEPLOYMENT_PROFILE" value c c'.
Proof.
  apply leading_arm_decides. unfold leading_arms. do 8 right. left.
Qed.

Definition effective_profile (c : DiscoveryRuntimeConfig) (env : EnvMap) : option string :=
  match env !! "SDKWORK_DISCOVERY_CONFIG_PROFILE" with
  | Some profile => Some profile
  | None => run_config_profile (cfg_runtime c)
  end.

Lemma identity_overlay_Ok c env c' :
  apply_runtime_identity_overlay c env = Ok c' →
  ∃ e, (match env !! "SDKWORK_DISCOVERY_ENVIRONMENT" with
        | Some v => environment_of v = Ok e
        | None => e = run_environment (cfg_runtime c)
        end)
    ∧ (∀ profile, effective_profile c env = Some profile → from_profile profile = Some e)
    ∧ let c1 := with_identity c e (env !! "SDKWORK_DISCOVERY_CONFIG_PROFILE") in
      match env !! "SDKWORK_DISCOVERY_DEPLOYMENT_PROFILE" with
      | Some v => assign deployment_profile_env (λ v, on_runtime (set_run_deployment_profile v))
                    "SDKWORK_DISCOVERY_DEPLOYMENT_PROFILE" v c1 = Ok c'
      | None => c' = c1
      end.
Proof.
  unfold apply_runtime_identity_overlay. fold (effective_profile c env).
  intros (explicit & He & H)%result_bind_Ok. apply result_bind_Ok in H as (pe & Hp & H).
  apply result_bind_Ok in H as (u & Hs & H).
  exists (default (run_environment (cfg_runtime c)) explicit). split_and!.
  - destruct (env !! "SDKWORK_DISCOVERY_ENVIRONMENT"); simpl in He.
    + by apply result_bind_Ok in He as (e & -> & [= <-]).
    + by injection He as <-.
  - intros profile Hsome. rewrite Hsome in Hp. apply result_bind_Ok in Hp as (e & Hp & [= <-]).
    case_bool_decide as Hsame; [|done]. rewrite Hsame. by apply ok_or_Ok in Hp.
  - unfold with_identity. destruct (env !! "SDKWORK_DISCOVERY_DEPLOYMENT_PROFILE"); [exact H|].
    by injection H as <-.
Qed.

(** What the first part of the overlay leaves for the loop. *)
Lemma identity_overlay_frame provider c env c' :
  apply_runtime_identity_overlay c env = Ok c' →
  (∀ s, s ∈ settings provider → env !! se_key s = None → se_get s c' = se_get s c)
  ∧ (match env !! "SDKWORK_DISCOVERY_ENVIRONMENT" with
     | Some v => environment_of v = Ok (run_environment (cfg_runtime c'))
     | None => run_environment (cfg_runtime c') = run_environment (cfg_runtime c)
     end)
  ∧ (∀ profile, run_config_profile (cfg_runtime c') = Some profile →
       from_profile profile = Some (run_environment (cfg_runtime c')))
  ∧ run_deployment_mode (cfg_runtime c') = run_deployment_mode (cfg_runtime c)
  ∧ provider_of c' = provider_of c ∧ host_of c' = host_of c.
Proof.
  intros (e & He & Hprof & H)%identity_overlay_Ok. cbv zeta in H.
  set (c1 := with_identity _ _ _) in H.
  assert (identity_of c1 = (e, effective_profile c env, run_deployment_mode (cfg_runtime c))
          ∧ provider_of c1 = provider_of c ∧ host_of c1 = host_of c) as (Hid & Hprov & Hhost).
  { subst c1. unfold with_identity, effective_profile.
    by destruct (env !! "SDKWORK_DISCOVERY_CONFIG_PROFILE"). }
  assert (∀ s, s ∈ settings provider → se_get s c1 = se_get s c) as Hval
    by (intros s; apply values_eq, with_identity_values).
  assert ((∀ s, s ∈ settings provider → env !! se_key s = None → se_get s c' = se_get s c1)
          ∧ identity_of c' = identity_of c1 ∧ provider_of c' = provider_of c1
          ∧ host_of c' = host_of c1) as (Hs & Hid' & Hp' & Hh').
  { destruct (env !! "SDKWORK_DISCOVERY_DEPLOYMENT_PROFILE") as [v|] eqn:Ed; [|by subst c'].
    pose proof (deployment_profile_decides provider v c1 c' H) as Hd. split.
    - intros s Hin Hnone. pose proof (step_decides_setting _ _ _ _ _ s Hd Hin) as Hstep.
      destruct (String.eqb_spec "SDKWORK_DISCOVERY_DEPLOYMENT_PROFILE" (se_key s)) as [E|];
        [|done]. rewrite <- E in Hnone. congruence.
    - exact (proj2 Hd). }
  rewrite Hid in Hid'. injection Hid' as -> Hcp ->. split_and!.
  - intros s Hin Hnone. by rewrite Hs, Hval.
  - by destruct (env !! "SDKWORK_DISCOVERY_ENVIRONMENT").
  - intros profile Hsome. apply Hprof. congruence.
  - done.
  - congruence.
  - congruence.
Qed.

(** ** The loop *)

Lemma env_iter_lookup (env : EnvMap) key v : (key, v) ∈ btree_iter env ↔ env !! key = Some v.
Proof. apply elem_of_btree_iter. Qed.

Lemma env_iter_None (env : EnvMap) key : env !! key = None → key ∉ (btree_iter env).*1.
Proof.
  intros Hn ([k v] & -> & Hin)%list_elem_of_fmap. apply elem_of_btree_iter in Hin.
  simpl in Hn. congruence.
Qed.

(** A value that one variable of the environment decides. *)
Lemma overlay_loop_decides {X} (I : DiscoveryRuntimeConfig → Prop) key
    (parse : string → X → Prop) (get : DiscoveryRuntimeConfig → X) provider env c c' :
  I c →
  (∀ k v c1 c2, env !! k = Some v → I c1 → step_decides provider k v c1 c2 →
     I c2 ∧ if String.eqb k key then parse v (get c2) else get c2 = get c1) →
  for_each (λ entry, apply_env_entry provider entry.1 entry.2) (btree_iter env) c = Ok c' →
  match env !! key with Some v => parse v (get c') | None => get c' = get c end.
Proof.
  intros HI Hbody Hrun.
  destruct (for_each_decides I key parse get
              (λ entry, apply_env_entry provider entry.1 entry.2) _ c c' (btree_iter_NoDup env) HI)
    as (_ & Hin & Hout); [|exact Hrun|].
  - intros [k v] c1 c2 Hkv%env_iter_lookup HI1 Hstep%env_entry_decides. by eapply Hbody.
  - destruct (env !! key) as [v|] eqn:E; [by apply Hin, env_iter_lookup|].
    by apply Hout, env_iter_None.
Qed.

Lemma overlay_provider c env c' p :
  validate_storage_provider_database_engine env = Ok () →
  effective_storage_provider (provider_of c) env = Ok p →
  for_each (λ entry, apply_env_entry p entry.1 entry.2) (btree_iter env) c = Ok c' →
  provider_of c' = p.
Proof.
  intros Hval Heff.
  assert (∀ k v c1 c2, env !! k = Some v → step_decides p k v c1 c2 →
            if String.eqb k ENGINE || String.eqb k PROVIDER then provider_of c2 = p
            else provider_of c2 = provider_of c1) as Hstep.
  { intros k v c1 c2 Hk (_ & _ & Hp & _). unfold effective_storage_provider in Heff.
    destruct (String.eqb_spec k ENGINE) as [->|]; [rewrite Hk in Heff; simpl; congruence|].
    destruct (String.eqb_spec k PROVIDER) as [->|]; [|done]. simpl.
    destruct (env !! ENGINE) as [engine|] eqn:Ee; [|rewrite Hk in Heff; congruence].
    unfold validate_storage_provider_database_engine in Hval.
    apply result_bind_Ok in Hval as (_ & _ & Hval). rewrite Hk, Ee, Hp, Heff in Hval.
    cbn in Hval. unfold refuse in Hval. by case_bool_decide. }
  apply (for_each_reaches (λ c, provider_of c = p)).
  - intros [k v] c1 c2 Hk%env_iter_lookup Hrun%env_entry_decides Hp.
    pose proof (Hstep _ _ _ _ Hk Hrun) as H. destruct (_ || _); congruence.
  - unfold effective_storage_provider in Heff.
    destruct (env !! ENGINE) as [engine|] eqn:Ee; [|destruct (env !! PROVIDER) as [w|] eqn:Ew].
    + right. exists (ENGINE, engine). split; [by apply env_iter_lookup|].
      intros c1 c2 Hrun%env_entry_decides. exact (Hstep _ _ _ _ Ee Hrun).
    + right. exists (PROVIDER, w). split; [by apply env_iter_lookup|].
      intros c1 c2 Hrun%env_entry_decides. exact (Hstep _ _ _ _ Ew Hrun).
    + left. congruence.
Qed.

Lemma str_take_length n s :
  String.length (str_take n s) = Nat.min n (String.length s).
Proof. revert s. induction n as [|n IH]; intros [|a s]; simpl; [done..|]. by rewrite IH. Qed.

Lemma bind_host_not_empty key value host port :
  parse_host_port_bind key value = Ok (host, port) → host ≠ "".
Proof.
  unfold parse_host_port_bind. intros (u & Hne & H)%result_bind_Ok.
  apply result_bind_Ok in H as (sep & _ & H). apply result_bind_Ok in H as (u' & Hsep & H).
  apply result_bind_Ok in H as (q & _ & [= <- _]).
  intros E%(f_equal String.length). rewrite str_take_length in E.
  unfold refuse in *. case_bool_decide; [done|].
  destruct (trim value); [done|]. simpl in E. destruct sep; [done|]. simpl in E. lia.
Qed.

(** What a variable does to a host that is not empty. *)
Lemma step_host p k v c c' :
  step_decides p k v c c' → host_of c ≠ "" → k ≠ PUBLIC_BIND → host_of c' = host_of c.
Proof.
  intros (_ & _ & _ & Hh) Hne Hk. destruct (String.eqb_spec k PUBLIC_BIND); [done|].
  destruct (String.eqb_spec k OPERATIONS_BIND); [|done]. by apply Hh.
Qed.

(** The host the overlay yields. *)
Definition host_decided (env : EnvMap) (host host' : string) : Prop :=
  match env !! PUBLIC_BIND, env !! OPERATIONS_BIND with
  | Some v, _ => ∃ port, parse_host_port_bind PUBLIC_BIND v = Ok (host', port)
  | None, Some v =>
      if is_empty host then ∃ port, parse_host_port_bind OPERATIONS_BIND v = Ok (host', port)
      else host' = host
  | None, None => host' = host
  end.

Lemma overlay_public_host c env c' p v :
  env !! PUBLIC_BIND = Some v →
  for_each (λ entry, apply_env_entry p entry.1 entry.2) (btree_iter env) c = Ok c' →
  ∃ port, parse_host_port_bind PUBLIC_BIND v = Ok (host_of c', port).
Proof.
  intros Hv.
  apply (for_each_reaches (λ c, ∃ port, parse_host_port_bind PUBLIC_BIND v = Ok (host_of c, port))).
  - intros [k v'] c1 c2 Hk%env_iter_lookup Hrun%env_entry_decides [port Hp].
    destruct (decide (k = PUBLIC_BIND)) as [->|Hne].
    + destruct Hrun as (_ & _ & _ & Hh). rewrite Hv in Hk. injection Hk as <-. exact Hh.
    + rewrite (step_host p k v' c1 c2 Hrun); [by exists port| |done].
      by eapply bind_host_not_empty.
  - right. exists (PUBLIC_BIND, v). split; [by apply env_iter_lookup|].
    intros c1 c2 (_ & _ & _ & Hh)%env_entry_decides. exact Hh.
Qed.

Lemma overlay_host c env c' p :
  for_each (λ entry, apply_env_entry p entry.1 entry.2) (btree_iter env) c = Ok c' →
  host_decided env (host_of c) (host_of c').
Proof.
  intros Hrun. unfold host_decided. destruct (env !! PUBLIC_BIND) as [v|] eqn:Hp.
  { by eapply overlay_public_host. }
  destruct (is_empty (host_of c)) eqn:He.
  - apply (overlay_loop_decides
      (λ c, host_of c = "" ∨ ∃ v port, env !! OPERATIONS_BIND = Some v
              ∧ parse_host_port_bind OPERATIONS_BIND v = Ok (host_of c, port)) OPERATIONS_BIND
      (λ v h, ∃ port, parse_host_port_bind OPERATIONS_BIND v = Ok (h, port)) host_of p env c c');
      [left; by apply is_empty_true|..|exact Hrun].
    intros k v c1 c2 Hk HI (_ & _ & _ & Hh).
    destruct (String.eqb_spec k PUBLIC_BIND); [congruence|].
    destruct (String.eqb_spec k OPERATIONS_BIND) as [->|]; [|by rewrite Hh].
    assert (∃ port, parse_host_port_bind OPERATIONS_BIND v = Ok (host_of c2, port)) as [port Ho].
    { destruct HI as [HI|(v' & port & Hv' & HI)]; [by apply Hh|].
      rewrite Hk in Hv'. injection Hv' as <-. exists port. rewrite (proj1 Hh); [done|].
      by eapply bind_host_not_empty. }
    split; [right; eauto|eauto].
  - assert (host_of c' = host_of c) as ->; [|by destruct (env !! OPERATIONS_BIND)].
    revert Hrun. apply (for_each_reaches (λ c1, host_of c1 = host_of c)); [|by left].
    intros [k v] c1 c2 Hk%env_iter_lookup Hstep%env_entry_decides Hh. rewrite <- Hh.
    apply (step_host p k v); [done| |intros ->; congruence].
    rewrite Hh. intros E. by rewrite E in He.
Qed.

(** C25: the overlay is exact.  Whatever variables are set and whatever the file says, in
    the configuration it yields each of the eighty-one settings of the catalogue is the
    value its own variable parses to, if that variable is set, and otherwise the file's:
    no variable reaches a setting that is not its own.  The storage provider is the
    database engine named by the environment, or else the provider it names, or else the
    file's; the environment is the one the variable or the file names and agrees with
    every configuration profile.  The host both surfaces bind is the one of the public
    bind address, if that is set; otherwise the file's; only where the file's is empty is
    it the one of the second surface's address, of which otherwise only the port counts. *)
Theorem overlay_exact c env c' :
  apply_env_overlay c env = Ok c' →
  ∃ provider,
    effective_storage_provider (provider_of c) env = Ok provider
    ∧ provider_of c' = provider
    ∧ (∀ s, s ∈ settings provider →
         match env !! se_key s with
         | Some v => se_parse s v = Ok (se_get s c')
         | None => se_get s c' = se_get s c
         end)
    ∧ (match env !! "SDKWORK_DISCOVERY_ENVIRONMENT" with
       | Some v => environment_of v = Ok (run_environment (cfg_runtime c'))
       | None => run_environment (cfg_runtime c') = run_environment (cfg_runtime c)
       end)
    ∧ (∀ profile, run_config_profile (cfg_runtime c') = Some profile →
         from_profile profile = Some (run_environment (cfg_runtime c')))
    ∧ host_decided env (host_of c) (host_of c').
Proof.
  unfold apply_env_overlay. intros (c1 & Hid & H)%result_bind_Ok.
  apply result_bind_Ok in H as ([] & Hval & H). apply result_bind_Ok in H as (p & Heff & H).
  destruct (identity_overlay_frame p c env c1 Hid) as (Hs & He & Hp & _ & Hprov & Hh).
  assert (identity_of c' = identity_of c1) as [= Hk1 Hk2 Hk3].
  { revert H. apply (for_each_reaches (λ c, identity_of c = identity_of c1)); [|by left].
    intros [k v] c2 c3 _ (_ & -> & _)%env_entry_decides. done. }
  fold (provider_of c1) in Heff. exists p. rewrite <- Hprov, Hk1, Hk2. split_and!; [done|..].
  - by eapply overlay_provider.
  - intros s Hin. pose proof (overlay_loop_decides (λ _, True) (se_key s)
      (λ v x, se_parse s v = Ok x) (se_get s) p env c1 c' I) as Hset.
    specialize (Hset ltac:(intros k v c2 c3 _ _ Hd; split; [done|];
      by apply (step_decides_setting p)) H).
    destruct (env !! se_key s) eqn:E; [done|]. by rewrite Hset, Hs.
  - done.
  - done.
  - rewrite <- Hh. by eapply overlay_host.
Qed.

(** ** The production template (etc/discovery.production.example.toml) *)

Definition production_template : RawDiscoveryRuntimeConfig :=
  {| rd_runtime :=
       {| rwr_environment := Some "production"; rwr_config_profile := Some "prod";
          rwr_deployment_profile := Some "cloud"; rwr_deployment_mode := "server";
          rwr_runtime_target := "server" |};
     rd_server :=
       {| srv_grpc_bind_host := "0.0.0.0"; srv_grpc_port := 19090; srv_admin_grpc_port := 19091;
          srv_enable_health := true; srv_enable_reflection := false;
          srv_default_deadline_ms := 30000 |};
     rd_security :=
       {| rs_auth_mode := "service-token"; rs_tls_enabled := true; rs_mtls_enabled := true;
          rs_allow_unsigned_local_context := false;
          rs_service_token := Some
            {| rk_hmac_secret_file :=
                 Some "/run/secrets/sdkwork/discovery/service-token-hmac.secret";
               rk_issuer := Some "sdkwork-discovery";
               rk_audience := Some "sdkwork-discovery-rpc";
               rk_max_token_ttl_seconds := Some 3600 |};
          rs_server_tls_cert_file := Some "/run/secrets/sdkwork/discovery/server.crt";
          rs_server_tls_key_file := Some "/run/secrets/sdkwork/discovery/server.key";
          rs_client_ca_cert_file := Some "/run/secrets/sdkwork/discovery/client-ca.crt" |};
     rd_storage :=
       {| ro_provider := "postgres"; ro_registry_role := Some "primary";
          ro_config_role := Some "primary"; ro_watch_role := Some "primary";
          ro_apply_initial_schema := Some false;
          ro_postgres := Some
            {| rt_host := "postgres.internal"; rt_port := 5432;
               rt_database := Some "sdkwork_ai_prod"; rt_schema := Some "sdkwork_ai_prod";
               rt_username := Some "sdkwork_ai_prod";
               rt_password_file := Some "/run/secrets/sdkwork/discovery/postgres-password";
               rt_password := None; rt_tls_enabled := true; rt_connect_timeout_ms := 3000;
               rt_max_connections := 32 |};
          ro_sqlite := None; ro_redis := None; ro_etcd := None; ro_consul := None |};
     rd_registry :=
       {| reg_default_lease_ttl_seconds := 30; reg_min_lease_ttl_seconds := 5;
          reg_max_lease_ttl_seconds := 300; reg_expiry_scan_interval_ms := 1000;
          reg_expiry_scan_batch_size := 1000; reg_health_check_scan_interval_ms := 0 |};
     rd_config_registry :=
       {| crg_enabled := true; crg_max_config_body_bytes := 262144;
          crg_require_publish_for_reads := true; crg_allow_secret_values := false;
          crg_allow_secret_refs := true |};
     rd_watch :=
       {| wch_enabled := true; wch_max_streams := 10000; wch_event_buffer_size := 1024;
          wch_heartbeat_interval_ms := 15000; wch_durable_poll_interval_ms := 1000;
          wch_durable_replay_batch_size := 1000;
          wch_event_gc_interval_ms := default_event_gc_interval_ms;
          wch_event_gc_retention_count := default_event_gc_retention_count;
          wch_event_gc_batch_size := default_event_gc_batch_size |};
     rd_resilience :=
       {| res_circuit_breaker :=
            {| hcb_enabled := true; hcb_failure_threshold := 5; hcb_recovery_timeout_ms := 5000;
               hcb_half_open_max_requests := 3 |};
          res_rate_limit :=
            {| hrl_enabled := true; hrl_requests_per_second := 1000;
               hrl_burst_capacity := 2000 |};
          res_degradation :=
            {| hdg_read_only_on_storage_failure := true;
               hdg_stale_read_max_age_ms := 60000 |} |} |}.

(** Both surfaces rebound, the pool resized, Redis prepared, reads of drafts allowed. *)
Definition sample_env : EnvMap :=
  {[ "SDKWORK_DISCOVERY_APPLICATION_PUBLIC_INGRESS_BIND" := "10.0.0.7:20000";
     "SDKWORK_DISCOVERY_OPERATIONS_CONTROL_INGRESS_BIND" := "127.0.0.1:20001";
     "SDKWORK_DATABASE_ENGINE" := "postgresql";
     "SDKWORK_DATABASE_MAX_CONNECTIONS" := "+64";
     "SDKWORK_DISCOVERY_STORAGE_REDIS_HOST" := "cache";
     "SDKWORK_DISCOVERY_CONFIG_REGISTRY_REQUIRE_PUBLISH_FOR_READS" := "0" ]}.

(** The settings of the template, and with the variables laid over them. *)
Definition template_config : DiscoveryRuntimeConfig.
Proof.
  let r := eval vm_compute in (normalize production_template) in
  match r with Ok ?c => exact c end.
Defined.

Definition overlaid_config : DiscoveryRuntimeConfig.
Proof.
  let r := eval vm_compute in (apply_env_overlay template_config sample_env) in
  match r with Ok ?c => exact c end.
Defined.

Lemma template_normalized : normalize production_template = Ok template_config.
Proof. vm_compute. reflexivity. Qed.

Lemma sample_overlay : apply_env_overlay template_config sample_env = Ok overlaid_config.
Proof. vm_compute. reflexivity. Qed.

Lemma overlay_exact_witness :
  parse_u32_env "SDKWORK_DATABASE_MAX_CONNECTIONS" "+64"
  = Ok (tr_max_connections (transport_of (sto_postgres (cfg_storage overlaid_config))))
  ∧ host_of overlaid_config = "10.0.0.7" ∧ srv_admin_grpc_port (cfg_server overlaid_config) = 20001.
Proof.
  destruct (overlay_exact template_config sample_env overlaid_config sample_overlay)
    as (p & Hp & _ & Hs & _).
  vm_compute in Hp. injection Hp as <-. split; [|split; reflexivity].
  exact (Hs _ (list_elem_of_lookup_2 (settings Postgres) 78 _ eq_refl)).
Defined.
