(* ===== verification/Redis.v ===== *)
(** * Redis backend (crates/sdkwork-discovery-storage-redis)

    The backend keeps an in-memory store, loads it from one Redis value before the
    first call and writes the whole of it back after each change.  The Redis server is
    the map of its string values; each call is given what the network does to it.  The
    snapshot codec ([serde_json]), the file system and [redis::Client::open] are
    parameters. *)
From S2P Require Import Prelude RustStr Collections Contract Discover MemoryStore MemoryRegistry.
From S2P Require Import MemoryConfig MemoryWatch StorageContract MemoryInstance HostConfig.
From S2P Require Import HostFields EnvOverlay.

(** ** Connection options (connection.rs) *)

Definition DISCOVERY_REDIS_KEY_PREFIX : string := "sdkwork:discovery:v1".

Record RedisConnectionOptions : Type := {
  rco_host : string;
  rco_port : N;
  rco_database : N;
  rco_username : option string;
  rco_credential_source : StorageCredentialSource;
  rco_tls_enabled : bool;
  rco_connect_timeout_ms : N;
  rco_max_connections : N;
}.

Definition u8_max : N := 255.

Definition from_transport (transport : StorageTransportConfig)
    : DiscoveryResult RedisConnectionOptions :=
  database ←
    match parse_unsigned u8_max (trim (default "0" (tr_database transport))) with
    | Ok n => Ok n
    | Err _ => Err (InvalidConfig
        "redis storage database index must be a number between 0 and 255")
    end;
  mret {| rco_host := tr_host transport; rco_port := tr_port transport;
          rco_database := database; rco_username := tr_username transport;
          rco_credential_source := tr_credential_source transport;
          rco_tls_enabled := tr_tls_enabled transport;
          rco_connect_timeout_ms := tr_connect_timeout_ms transport;
          rco_max_connections := N.max (tr_max_connections transport) 1 |}.

Definition show_bool (b : bool) : string := if b then "true" else "false".

Definition safe_summary (o : RedisConnectionOptions) : string :=
  "redis host=" +:+ rco_host o +:+ " port=" +:+ show_N (rco_port o)
  +:+ " database=" +:+ show_N (rco_database o)
  +:+ " username=" +:+ default "<none>" (rco_username o)
  +:+ " tls=" +:+ show_bool (rco_tls_enabled o)
  +:+ " connect_timeout_ms=" +:+ show_N (rco_connect_timeout_ms o)
  +:+ " max_connections=" +:+ show_N (rco_max_connections o).

Definition state_key (o : RedisConnectionOptions) : string :=
  DISCOVERY_REDIS_KEY_PREFIX +:+ ":durable-state".

Section connection.
(** [fs::read] and the error of [String::from_utf8], if it has one. *)
Context (read_file : string → Result string string) (utf8_error : string → option string).

Definition resolve_password (o : RedisConnectionOptions) : DiscoveryResult (option string) :=
  match rco_credential_source o with
  | CredentialNone => Ok None
  | PasswordFile path =>
      let path := trim path in
      refuse (is_empty path) "storage password_file path must not be empty";;
      password ←
        match read_file path with
        | Ok bytes => Ok bytes
        | Err error => Err (InvalidConfig
            ("storage password_file could not be read: " +:+ error))
        end;
      let password := pop_ascii_whitespace password in
      refuse (is_empty password) "storage password_file must not be empty";;
      match utf8_error password with
      | Some error => Err (InvalidConfig
          ("storage password_file must be valid UTF-8: " +:+ error))
      | None => Ok (Some password)
      end
  end.

Definition redis_url (o : RedisConnectionOptions) : DiscoveryResult string :=
  password ← resolve_password o;
  let address := rco_host o +:+ ":" +:+ show_N (rco_port o) in
  let password := default "" password in
  let username := default "" (rco_username o) in
  let authority :=
    if negb (is_empty username) then
      username +:+ (if is_empty password then "" else ":" +:+ password) +:+ "@" +:+ address
    else if negb (is_empty password) then ":" +:+ password +:+ "@" +:+ address
    else address in
  let scheme := if rco_tls_enabled o then "rediss" else "redis" in
  mret (scheme +:+ "://" +:+ authority +:+ "/" +:+ show_N (rco_database o)).

End connection.

(** ** The store (store.rs) *)

Definition map_redis_error (error : string) : DiscoveryError :=
  Unavailable ("redis error: " +:+ error).

Record RedisDiscoveryStore : Type := {
  rds_client : option string;
  rds_state_key : string;
  rds_safe_summary : string;
  rds_memory : MemoryDiscoveryStore;
  rds_hydrated : bool;
  rds_persist_enabled : bool;
}.

Definition set_memory (m : MemoryDiscoveryStore) (r : RedisDiscoveryStore)
    : RedisDiscoveryStore :=
  {| rds_client := rds_client r; rds_state_key := rds_state_key r;
     rds_safe_summary := rds_safe_summary r; rds_memory := m;
     rds_hydrated := rds_hydrated r; rds_persist_enabled := rds_persist_enabled r |}.

Definition set_hydrated (r : RedisDiscoveryStore) : RedisDiscoveryStore :=
  {| rds_client := rds_client r; rds_state_key := rds_state_key r;
     rds_safe_summary := rds_safe_summary r; rds_memory := rds_memory r;
     rds_hydrated := true; rds_persist_enabled := rds_persist_enabled r |}.

(** [new_lazy]; [client_open] is [redis::Client::open]. *)
Definition new_lazy (read_file : string → Result string string)
    (utf8_error : string → option string) (client_open : string → Result string string)
    (transport : StorageTransportConfig) : DiscoveryResult RedisDiscoveryStore :=
  options ← from_transport transport;
  url ← redis_url read_file utf8_error options;
  client ← match client_open url with
           | Ok client => Ok client
           | Err error => Err (map_redis_error error)
           end;
  mret {| rds_client := Some client; rds_state_key := state_key options;
          rds_safe_summary := safe_summary options; rds_memory := new_store;
          rds_hydrated := false; rds_persist_enabled := true |}.

Definition new_in_memory_delegate : RedisDiscoveryStore :=
  {| rds_client := None;
     rds_state_key := DISCOVERY_REDIS_KEY_PREFIX +:+ ":test-delegate";
     rds_safe_summary := "redis delegate=memory (no persistence)";
     rds_memory := new_store; rds_hydrated := true; rds_persist_enabled := false |}.

(** What the network does during a call: the error of connecting and of the command,
    for the [GET] and for the [SET]; a [SET] whose reply is lost may have been
    applied. *)
Record Network : Type := {
  nw_get_connect : option string;
  nw_get : option string;
  nw_set_connect : option string;
  nw_set : option (string * bool);
}.

Definition reliable : Network :=
  {| nw_get_connect := None; nw_get := None; nw_set_connect := None; nw_set := None |}.

(** A process and the Redis server it talks to. *)
Record World : Type := {
  w_store : RedisDiscoveryStore;
  w_redis : gmap string string;
}.

Definition on_process (f : RedisDiscoveryStore → RedisDiscoveryStore) (w : World) : World :=
  {| w_store := f (w_store w); w_redis := w_redis w |}.

Definition write_value (key bytes : string) (w : World) : World :=
  {| w_store := w_store w; w_redis := <[key := bytes]> (w_redis w) |}.

Definition link_error (o : option string) : DiscoveryResult () :=
  match o with Some error => Err (map_redis_error error) | None => Ok () end.

(** [connection()]. *)
Definition connection (r : RedisDiscoveryStore) (connect : option string)
    : DiscoveryResult () :=
  match rds_client r with
  | None => Err (InvalidConfig "redis connection is disabled for in-memory delegate")
  | Some _ => link_error connect
  end.

Section store.
Context (to_vec : MemoryDiscoverySnapshot → Result string string)
        (from_slice : string → Result string MemoryDiscoverySnapshot).

Definition hydrate_once (net : Network) : Op World () :=
  w ← gets id;
  if rds_hydrated (w_store w) then mret ()
  else
    lift (connection (w_store w) (nw_get_connect net));;
    lift (link_error (nw_get net));;
    (match w_redis w !! rds_state_key (w_store w) with
     | Some bytes =>
         restored ← lift (from_snapshot_bytes from_slice bytes);
         modify (on_process (set_memory restored))
     | None => mret ()
     end);;
    modify (on_process set_hydrated).

Definition persist_state (net : Network) : Op World () :=
  w ← gets id;
  if negb (rds_persist_enabled (w_store w)) then mret ()
  else
    bytes ← lift (to_snapshot_bytes to_vec (rds_memory (w_store w)));
    lift (connection (w_store w) (nw_set_connect net));;
    match nw_set net with
    | None => modify (write_value (rds_state_key (w_store w)) bytes)
    | Some (error, applied) =>
        (if applied : bool then modify (write_value (rds_state_key (w_store w)) bytes)
         else mret ());;
        fail (map_redis_error error)
    end.

(** A call of the memory store behind the lock. *)
Definition in_memory {A} (op : Op MemoryDiscoveryStore A) : Op World A := λ w,
  let '(m, r) := op (rds_memory (w_store w)) in (on_process (set_memory m) w, r).

(** The two shapes of the trait methods: read, or change and write back. *)
Definition reading {A} (net : Network) (f : MemoryDiscoveryStore → DiscoveryResult A)
    : Op World A :=
  hydrate_once net;;
  in_memory (λ m, (m, f m)).

Definition writing {A} (net : Network) (op : Op MemoryDiscoveryStore A) : Op World A :=
  hydrate_once net;;
  result ← in_memory op;
  persist_state net;;
  mret result.

(** ** The trait methods (registry.rs, config.rs, watch.rs) *)

Section methods.
Context `{HashOrder} (default_hash : N → N → N) (sha256_hash : string → string).
Context (net : Network).

Definition redis_current_revision : Op World N := reading net (λ m, Ok (current_revision m)).

Definition redis_register_instance (command : RegisterInstanceCommand)
    : Op World RegisterInstanceResult := writing net (register_instance command).

Definition redis_batch_register_instances (commands : list RegisterInstanceCommand)
    : Op World BatchRegisterResult := writing net (batch_register_instances commands).

Definition redis_renew_lease (command : RenewLeaseCommand) : Op World RenewLeaseResult :=
  writing net (renew_lease command).

Definition redis_report_instance_status (command : ReportInstanceStatusCommand)
    : Op World ReportInstanceStatusResult := writing net (report_instance_status command).

Definition redis_deregister_instance
    (namespace environment service_name instance_id : string) (now_ms : N)
    : Op World DeregisterInstanceResult :=
  writing net (deregister_instance namespace environment service_name instance_id now_ms).

Definition redis_batch_deregister_instances (namespace environment service_name : string)
    (instance_ids : list string) (now_ms : N) : Op World (list DeregisterInstanceResult) :=
  writing net
    (batch_deregister_instances namespace environment service_name instance_ids now_ms).

Definition redis_expire_instances (now_ms max_instances : N)
    : Op World (list DeregisterInstanceResult) :=
  writing net (expire_instances now_ms max_instances).

Definition redis_discover_instances (query : DiscoverInstancesQuery) (now_ms : N)
    : Op World DiscoverInstancesResult :=
  reading net (discover_instances default_hash query now_ms).

Definition redis_retrieve_instance (query : RetrieveInstanceQuery) (now_ms : N)
    : Op World (option ServiceInstance) := reading net (retrieve_instance query now_ms).

Definition redis_list_services (query : ListServicesQuery) (now_ms : N)
    : Op World ListServicesResult := reading net (list_services query now_ms).

Definition redis_list_active_instances_with_health_check (now_ms : N)
    : Op World (list ServiceInstance) :=
  reading net (list_active_instances_with_health_check now_ms).

Definition redis_update_health_check_state
    (namespace environment service_name instance_id : string)
    (state : HealthCheckRuntimeState) : Op World () :=
  writing net
    (update_health_check_state namespace environment service_name instance_id state).

Definition redis_create_config_draft (command : CreateConfigDraftCommand)
    : Op World ConfigDraft := writing net (create_config_draft sha256_hash command).

Definition redis_publish_config (command : PublishConfigCommand) : Op World ConfigRelease :=
  writing net (publish_config command).

Definition redis_rollback_config (command : RollbackConfigCommand)
    : Op World ConfigRelease := writing net (rollback_config command).

Definition redis_retrieve_effective_config (query : RetrieveEffectiveConfigQuery)
    : Op World EffectiveConfig := reading net (retrieve_effective_config query).

Definition redis_watch_events (query : WatchEventsQuery)
    : Op World (list DiscoveryEvent) := reading net (watch_events query).

Definition redis_gc_watch_events (before_revision max_deletes : N) : Op World N :=
  writing net (gc_watch_events before_revision max_deletes).

Definition redis_compact_watch_events (namespace environment : string)
    (max_events_per_resource : N) : Op World N :=
  writing net (compact_watch_events namespace environment max_events_per_resource).

End methods.
End store.
