(* ===== verification/RpcServer.v ===== *)
(** * The gRPC server (rpc: server.rs, health.rs)

    What a server checks before it starts, which services it mounts, the names it
    reports health for, and the task that keeps the reports in step with the runtime.
    The parser of socket addresses, the listener, the TLS stack and the reflection
    builder are parameters that may refuse. *)
From S2P Require Import Prelude RustStr Collections Contract RpcContext Resilience ControlPlane.
From S2P Require Import Actor WatchStream HostConfig.

(** ** Configuration *)

Record DiscoveryRpcTlsIdentity : Type := {
  ti_certificate_pem : string;
  ti_private_key_pem : string;
}.

Record DiscoveryRpcServerConfig : Type := {
  dsc_bind_addr : string;
  dsc_enable_health : bool;
  dsc_enable_reflection : bool;
  dsc_default_deadline_ms : N;
  dsc_watch_enabled : bool;
  dsc_watch_max_streams : N;
  dsc_watch_event_buffer_size : N;
  dsc_watch_heartbeat_interval_ms : N;
  dsc_watch_durable_poll_interval_ms : N;
  dsc_watch_durable_replay_batch_size : N;
  dsc_require_tls : bool;
  dsc_tls_identity : option DiscoveryRpcTlsIdentity;
  dsc_client_ca_certificate_pem : option string;
}.

Definition local_development (bind_addr : string) : DiscoveryRpcServerConfig :=
  {| dsc_bind_addr := bind_addr; dsc_enable_health := true; dsc_enable_reflection := true;
     dsc_default_deadline_ms := 5000; dsc_watch_enabled := true;
     dsc_watch_max_streams := 10000; dsc_watch_event_buffer_size := 1024;
     dsc_watch_heartbeat_interval_ms := 15000; dsc_watch_durable_poll_interval_ms := 1000;
     dsc_watch_durable_replay_batch_size := 1000; dsc_require_tls := false;
     dsc_tls_identity := None; dsc_client_ca_certificate_pem := None |}.

Definition no_identity : DiscoveryError :=
  InvalidConfig "TLS is required but server identity certificate and key are not configured".

Definition validate_server_config (config : DiscoveryRpcServerConfig) : DiscoveryResult () :=
  refuse (dsc_default_deadline_ms config =? 0)
    "gRPC default deadline must be greater than zero";;
  (if dsc_watch_enabled config then
     refuse (dsc_watch_max_streams config =? 0) "watch max streams must be greater than zero";;
     refuse (dsc_watch_event_buffer_size config =? 0)
       "watch event buffer size must be greater than zero";;
     refuse (dsc_watch_heartbeat_interval_ms config =? 0)
       "watch heartbeat interval must be greater than zero";;
     refuse (dsc_watch_durable_poll_interval_ms config =? 0)
       "watch durable poll interval must be greater than zero";;
     refuse (dsc_watch_durable_replay_batch_size config =? 0)
       "watch durable replay batch size must be greater than zero"
   else Ok ());;
  (if dsc_require_tls config then
     identity ← ok_or (dsc_tls_identity config) no_identity;
     refuse (is_empty (ti_certificate_pem identity) || is_empty (ti_private_key_pem identity))
       "TLS server identity certificate and key must not be empty"
   else Ok ()).

Definition watch_service_config (config : DiscoveryRpcServerConfig)
    : DiscoveryWatchServiceConfig :=
  {| wc_enabled := dsc_watch_enabled config; wc_max_streams := dsc_watch_max_streams config;
     wc_event_buffer_size := dsc_watch_event_buffer_size config;
     wc_heartbeat_interval_ms := dsc_watch_heartbeat_interval_ms config;
     wc_durable_poll_interval_ms := dsc_watch_durable_poll_interval_ms config;
     wc_durable_replay_batch_size := dsc_watch_durable_replay_batch_size config |}.

(** ** Names *)

Definition OVERALL_HEALTH_SERVICE : string := "".
Definition REGISTRY_SERVICE_NAME : string := "sdkwork.discovery.internal.v1.RegistryService".
Definition DISCOVERY_CONFIG_SERVICE_NAME : string :=
  "sdkwork.discovery.internal.v1.DiscoveryConfigService".
Definition DISCOVERY_WATCH_SERVICE_NAME : string :=
  "sdkwork.discovery.internal.v1.DiscoveryWatchService".
Definition DISCOVERY_ADMIN_SERVICE_NAME : string :=
  "sdkwork.discovery.backend.v3.DiscoveryAdminService".

Definition full_rpc_health_service_names (watch_enabled : bool) : list string :=
  if watch_enabled
  then [OVERALL_HEALTH_SERVICE; REGISTRY_SERVICE_NAME; DISCOVERY_CONFIG_SERVICE_NAME;
        DISCOVERY_WATCH_SERVICE_NAME; DISCOVERY_ADMIN_SERVICE_NAME]
  else [OVERALL_HEALTH_SERVICE; REGISTRY_SERVICE_NAME; DISCOVERY_CONFIG_SERVICE_NAME;
        DISCOVERY_ADMIN_SERVICE_NAME].

Definition internal_rpc_health_service_names (watch_enabled : bool) : list string :=
  if watch_enabled
  then [OVERALL_HEALTH_SERVICE; REGISTRY_SERVICE_NAME; DISCOVERY_CONFIG_SERVICE_NAME;
        DISCOVERY_WATCH_SERVICE_NAME]
  else [OVERALL_HEALTH_SERVICE; REGISTRY_SERVICE_NAME; DISCOVERY_CONFIG_SERVICE_NAME].

Definition BACKEND_RPC_HEALTH_SERVICES : list string :=
  [OVERALL_HEALTH_SERVICE; DISCOVERY_ADMIN_SERVICE_NAME].

(** ** Services of a server *)

Inductive MountedService : Type :=
| ReflectionService | HealthService | RegistryService | ConfigService | WatchService
| AdminService.

#[export] Instance MountedService_eq_dec : EqDecision MountedService.
Proof. solve_decision. Defined.

(** [grpc.health.v1]: the serving status reported for each name. *)
Abbreviation HealthReporter := (gmap string bool).

Definition set_health_services (serving : bool) (names : list string) (r : HealthReporter)
    : HealthReporter :=
  foldl (λ r name, <[name := serving]> r) r names.

Definition set_health_services_serving : list string → HealthReporter → HealthReporter :=
  set_health_services true.
Definition set_health_services_not_serving : list string → HealthReporter → HealthReporter :=
  set_health_services false.

Record DiscoveryRpcServerHandle : Type := {
  sh_bind_addr : string;
  sh_services : DiscoveryResult (list MountedService);
  sh_health_reporter : option HealthReporter;
  sh_health_service_names : list string;
  sh_health_sync : bool;
  sh_health_state : bool;
}.

(** A [tonic] server builder: its timeout and its TLS settings. *)
Record BaseServer : Type := {
  bs_timeout_ms : N;
  bs_tls : option (DiscoveryRpcTlsIdentity * option string);
}.

Section server.
(** The address parser (a canonical address or an error), and the errors of the
    listener, the TLS stack and the reflection builder; [None] is success. *)
Context (parse_addr : string → Result string string) (bind_error : string → option string).
Context (tls_error : DiscoveryRpcTlsIdentity → option string → option string).
Context (reflection_error : option string).

Definition parse_bind_addr (bind_addr : string) : DiscoveryResult string :=
  match parse_addr bind_addr with
  | Err error => Err (InvalidConfig
      ("invalid discovery gRPC bind address " +:+ bind_addr +:+ ": " +:+ error))
  | Ok addr => Ok addr
  end.

Definition base_server (config : DiscoveryRpcServerConfig) : DiscoveryResult BaseServer :=
  if negb (dsc_require_tls config)
  then Ok {| bs_timeout_ms := dsc_default_deadline_ms config; bs_tls := None |}
  else
    identity ← ok_or (dsc_tls_identity config) no_identity;
    refuse (bool_decide (dsc_client_ca_certificate_pem config = Some ""))
      "mTLS client CA certificate must not be empty";;
    match tls_error identity (dsc_client_ca_certificate_pem config) with
    | Some error => Err (InvalidConfig
        ("failed to build discovery gRPC TLS config: " +:+ error))
    | None => Ok {| bs_timeout_ms := dsc_default_deadline_ms config;
                    bs_tls := Some (identity, dsc_client_ca_certificate_pem config) |}
    end.

Definition validate_transport_config (config : DiscoveryRpcServerConfig)
    : DiscoveryResult () :=
  base_server config;; Ok ().

(** The part the three [serve_*_with_incoming] share: reflection and health come first,
    then the services of the surface. *)
Definition mount (surface : string) (config : DiscoveryRpcServerConfig) (has_health : bool)
    (services : list MountedService) : DiscoveryResult (list MountedService) :=
  (if dsc_enable_reflection config then
     match reflection_error with
     | Some error => Err (InvalidConfig ("failed to build discovery " +:+ surface
         +:+ "gRPC reflection service: " +:+ error))
     | None => Ok ()
     end
   else Ok ());;
  base_server config;;
  mret ((if dsc_enable_reflection config then [ReflectionService] else [])
        ++ (if has_health : bool then [HealthService] else []) ++ services).

Definition serve_with_incoming (config : DiscoveryRpcServerConfig) (has_health : bool)
    : DiscoveryResult (list MountedService) :=
  mount "" config has_health
    ([RegistryService; ConfigService]
     ++ (if dsc_watch_enabled config then [WatchService] else []) ++ [AdminService]).

Definition serve_internal_with_incoming (config : DiscoveryRpcServerConfig)
    (has_health : bool) : DiscoveryResult (list MountedService) :=
  mount "internal " config has_health
    ([RegistryService; ConfigService]
     ++ (if dsc_watch_enabled config then [WatchService] else [])).

Definition serve_backend_with_incoming (config : DiscoveryRpcServerConfig)
    (has_health : bool) : DiscoveryResult (list MountedService) :=
  mount "backend " config has_health [AdminService].

(** [start_rpc_server]; [sh_services] is what the spawned task comes to. *)
Definition start_rpc_server (config : DiscoveryRpcServerConfig) (health_names : list string)
    (serve : DiscoveryRpcServerConfig → bool → DiscoveryResult (list MountedService))
    : DiscoveryResult DiscoveryRpcServerHandle :=
  validate_server_config config;;
  validate_transport_config config;;
  let health := dsc_enable_health config in
  mret {| sh_bind_addr := dsc_bind_addr config; sh_services := serve config health;
          sh_health_reporter :=
            if health then Some (set_health_services_serving health_names ∅) else None;
          sh_health_service_names := if health then health_names else [];
          sh_health_sync := health; sh_health_state := health |}.

(** [serve], [serve_internal] and [serve_backend] with their [_with_listener] parts. *)
Definition listen (surface : string) (config : DiscoveryRpcServerConfig)
    (start : DiscoveryRpcServerConfig → DiscoveryResult DiscoveryRpcServerHandle)
    : DiscoveryResult DiscoveryRpcServerHandle :=
  bind_addr ← parse_bind_addr (dsc_bind_addr config);
  (match bind_error bind_addr with
   | Some error => Err (InvalidConfig ("failed to bind discovery " +:+ surface
       +:+ "gRPC listener " +:+ bind_addr +:+ ": " +:+ error))
   | None => Ok ()
   end);;
  validate_server_config config;;
  validate_transport_config config;;
  start config.

Definition serve (config : DiscoveryRpcServerConfig)
    : DiscoveryResult DiscoveryRpcServerHandle :=
  listen "" config (λ config,
    start_rpc_server config (full_rpc_health_service_names (dsc_watch_enabled config))
      serve_with_incoming).

Definition serve_internal (config : DiscoveryRpcServerConfig)
    : DiscoveryResult DiscoveryRpcServerHandle :=
  listen "internal " config (λ config,
    start_rpc_server config (internal_rpc_health_service_names (dsc_watch_enabled config))
      serve_internal_with_incoming).

Definition serve_backend (config : DiscoveryRpcServerConfig)
    : DiscoveryResult DiscoveryRpcServerHandle :=
  listen "backend " config (λ config,
    start_rpc_server config BACKEND_RPC_HEALTH_SERVICES serve_backend_with_incoming).

End server.

(** ** Health reports (health.rs: [spawn_health_sync]; server.rs: [shutdown]) *)

Record HealthSync : Type := {
  hy_last_reported : option DiscoveryHealthStatus;
  hy_reporter : HealthReporter;
  hy_gauge : option DiscoveryHealthStatus;
}.

(** One tick of the loop, which finds the runtime in [status]. *)
Definition health_sync_tick (service_names : list string) (status : DiscoveryHealthStatus)
    (y : HealthSync) : HealthSync :=
  if bool_decide (hy_last_reported y = Some status) then y
  else {| hy_last_reported := Some status;
          hy_reporter :=
            set_health_services (grpc_serving status) service_names (hy_reporter y);
          hy_gauge := Some status |}.

(** The task a handle with health reports starts. *)
Definition health_sync_start (h : DiscoveryRpcServerHandle) : HealthSync :=
  {| hy_last_reported := None; hy_reporter := default ∅ (sh_health_reporter h);
     hy_gauge := None |}.

(** [shutdown]: the task is aborted first, then the reports and the gauge are set. *)
Definition shutdown (service_names : list string) (y : HealthSync) : HealthSync :=
  {| hy_last_reported := hy_last_reported y;
     hy_reporter := set_health_services_not_serving service_names (hy_reporter y);
     hy_gauge := Some HealthNotServing |}.
