(* ===== verification/HostBootstrap.v ===== *)
(** * The service host (services/sdkwork-discovery-service-host)

    From the process environment and a configuration file to a running pair of
    servers (bootstrap.rs, runtime.rs): which variables are passed on, what the
    settings become in the runtime and in the servers, the storage, and the surfaces
    that are bound.  The file system and the PostgreSQL store are parameters. *)
From S2P Require Import Prelude RustStr Collections Contract RpcContext Resilience ControlPlane.
From S2P Require Import MemoryStore Actor HostConfig HostFields EnvOverlay Redis RpcServer.

(** ** Environment (runtime.rs) *)

Record DiscoveryRuntimeOptions : Type := {
  dro_config_file : option string;
  dro_env_overlay : EnvMap;
}.

(** The body of the loop of [options_from_env]. *)
Definition collect_env_entry (entry : string * string) (env_overlay : EnvMap)
    : DiscoveryResult EnvMap :=
  let '(key, value) := entry in
  if bool_decide (key = "SDKWORK_DISCOVERY_CONFIG_FILE") then Ok env_overlay
  else if is_retired_database_env_key key
  then Err (InvalidConfig ("retired database env key " +:+ key
              +:+ "; use SDKWORK_DATABASE_* as the only database authority"))
  else if starts_with key "SDKWORK_DATABASE_ADMIN_" then Ok env_overlay
  else if starts_with key "SDKWORK_DISCOVERY_" || starts_with key "SDKWORK_DATABASE_"
  then Ok (<[key := value]> env_overlay)
  else Ok env_overlay.

Definition options_from_env (env : EnvMap) : DiscoveryResult DiscoveryRuntimeOptions :=
  env_overlay ← for_each collect_env_entry (btree_iter env) ∅;
  mret {| dro_config_file := env !! "SDKWORK_DISCOVERY_CONFIG_FILE";
          dro_env_overlay := env_overlay |}.

(** ** Settings of the runtime and of the servers (bootstrap.rs) *)

Definition host_config_policy (config : DiscoveryRuntimeConfig) : ConfigPolicy :=
  {| cp_enabled := crg_enabled (cfg_config_registry config);
     cp_require_publish_for_reads := crg_require_publish_for_reads (cfg_config_registry config);
     cp_allow_secret_values := crg_allow_secret_values (cfg_config_registry config);
     cp_allow_secret_refs := crg_allow_secret_refs (cfg_config_registry config);
     cp_max_config_body_bytes := crg_max_config_body_bytes (cfg_config_registry config) |}.

Definition host_registry_policy (config : DiscoveryRuntimeConfig) : RegistryPolicy :=
  {| rp_default_lease_ttl_seconds := reg_default_lease_ttl_seconds (cfg_registry config);
     rp_min_lease_ttl_seconds := reg_min_lease_ttl_seconds (cfg_registry config);
     rp_max_lease_ttl_seconds := reg_max_lease_ttl_seconds (cfg_registry config) |}.

Definition rpc_resilience_config (config : DiscoveryRuntimeConfig) : RuntimeResilienceConfig :=
  let breaker := res_circuit_breaker (cfg_resilience config) in
  let limit := res_rate_limit (cfg_resilience config) in
  let degradation := res_degradation (cfg_resilience config) in
  {| rrc_circuit_breaker :=
       {| cb_enabled := hcb_enabled breaker; failure_threshold := hcb_failure_threshold breaker;
          recovery_timeout_ms := hcb_recovery_timeout_ms breaker;
          half_open_max_requests := hcb_half_open_max_requests breaker |};
     rrc_rate_limit :=
       {| rl_enabled := hrl_enabled limit; requests_per_second := hrl_requests_per_second limit;
          burst_capacity := hrl_burst_capacity limit |};
     rrc_degradation :=
       {| read_only_on_storage_failure := hdg_read_only_on_storage_failure degradation;
          stale_read_max_age_ms := hdg_stale_read_max_age_ms degradation |} |}.

Definition MIN_SERVICE_TOKEN_HMAC_SECRET_BYTES : N := 32.

Section host.
(** [fs::read]: the bytes of a file, or the text of the error. *)
Context (read_file : string → Result string string).

Definition read_pem_file (label path : string) : DiscoveryResult string :=
  match read_file path with
  | Ok bytes => Ok bytes
  | Err error => Err (InvalidConfig (label +:+ " file could not be read: " +:+ error))
  end.

Definition read_service_token_hmac_secret (path : string) : DiscoveryResult string :=
  secret ← read_pem_file "service-token HMAC secret" path;
  let secret := pop_ascii_whitespace secret in
  refuse (len secret <? MIN_SERVICE_TOKEN_HMAC_SECRET_BYTES)
    ("service-token HMAC secret file must contain at least "
     +:+ show_N MIN_SERVICE_TOKEN_HMAC_SECRET_BYTES +:+ " bytes");;
  mret secret.

Definition service_token_verifier_config (config : DiscoveryRuntimeConfig)
    : DiscoveryResult (option ServiceTokenVerifier) :=
  let token := sec_service_token (cfg_security config) in
  match stk_hmac_secret_file token with
  | None => Ok None
  | Some secret_file =>
      secret ← read_service_token_hmac_secret secret_file;
      mret (Some {| hmac_secret := secret; vc_issuer := stk_issuer token;
                    vc_audience := stk_audience token;
                    max_token_ttl_seconds := stk_max_token_ttl_seconds token |})
  end.

Definition rpc_runtime_config (config : DiscoveryRuntimeConfig)
    : DiscoveryResult DiscoveryRpcRuntimeConfig :=
  verifier ← service_token_verifier_config config;
  mret {| rtc_registry_expiry_scan_interval_ms :=
            reg_expiry_scan_interval_ms (cfg_registry config);
          rtc_registry_expiry_scan_batch_size :=
            reg_expiry_scan_batch_size (cfg_registry config);
          rtc_allow_unsigned_local_context :=
            sec_allow_unsigned_local_context (cfg_security config);
          rtc_service_token_verifier := verifier;
          rtc_event_gc_interval_ms := wch_event_gc_interval_ms (cfg_watch config);
          rtc_event_gc_retention_count := wch_event_gc_retention_count (cfg_watch config);
          rtc_event_gc_batch_size := wch_event_gc_batch_size (cfg_watch config);
          rtc_resilience := rpc_resilience_config config;
          rtc_health_check_scan_interval_ms :=
            reg_health_check_scan_interval_ms (cfg_registry config) |}.

Definition read_tls_identity (config : DiscoveryRuntimeConfig)
    : DiscoveryResult (option DiscoveryRpcTlsIdentity) :=
  match sec_server_tls_cert_file (cfg_security config),
        sec_server_tls_key_file (cfg_security config) with
  | Some certificate_file, Some private_key_file =>
      certificate ← read_pem_file "TLS server certificate" certificate_file;
      private_key ← read_pem_file "TLS server private key" private_key_file;
      mret (Some {| ti_certificate_pem := certificate; ti_private_key_pem := private_key |})
  | _, _ => Ok None
  end.

Definition read_client_ca_certificate (config : DiscoveryRuntimeConfig)
    : DiscoveryResult (option string) :=
  match sec_client_ca_cert_file (cfg_security config) with
  | None => Ok None
  | Some certificate_file =>
      certificate ← read_pem_file "mTLS client CA certificate" certificate_file;
      mret (Some certificate)
  end.

Definition rpc_server_config (config : DiscoveryRuntimeConfig) (port : N)
    (enable_reflection : bool) : DiscoveryResult DiscoveryRpcServerConfig :=
  tls_identity ← read_tls_identity config;
  client_ca ← read_client_ca_certificate config;
  mret {| dsc_bind_addr := srv_grpc_bind_host (cfg_server config) +:+ ":" +:+ show_N port;
          dsc_enable_health := srv_enable_health (cfg_server config);
          dsc_enable_reflection := enable_reflection;
          dsc_default_deadline_ms := srv_default_deadline_ms (cfg_server config);
          dsc_watch_enabled := wch_enabled (cfg_watch config);
          dsc_watch_max_streams := wch_max_streams (cfg_watch config);
          dsc_watch_event_buffer_size := wch_event_buffer_size (cfg_watch config);
          dsc_watch_heartbeat_interval_ms := wch_heartbeat_interval_ms (cfg_watch config);
          dsc_watch_durable_poll_interval_ms := wch_durable_poll_interval_ms (cfg_watch config);
          dsc_watch_durable_replay_batch_size :=
            wch_durable_replay_batch_size (cfg_watch config);
          dsc_require_tls := sec_tls_enabled (cfg_security config)
                             || sec_mtls_enabled (cfg_security config);
          dsc_tls_identity := tls_identity;
          dsc_client_ca_certificate_pem := client_ca |}.

Definition internal_rpc_server_config (config : DiscoveryRuntimeConfig)
    : DiscoveryResult DiscoveryRpcServerConfig :=
  rpc_server_config config (srv_grpc_port (cfg_server config))
    (srv_enable_reflection (cfg_server config)).

Definition backend_rpc_server_config (config : DiscoveryRuntimeConfig)
    : DiscoveryResult DiscoveryRpcServerConfig :=
  rpc_server_config config (srv_admin_grpc_port (cfg_server config))
    (srv_enable_reflection (cfg_server config)).

(** ** Storage *)

Context {PostgresStore : Type}.
Context (postgres_new_lazy : StorageTransportConfig → DiscoveryResult PostgresStore)
        (postgres_safe_summary : PostgresStore → string).
Context (utf8_error : string → option string) (client_open : string → Result string string).

Inductive DiscoveryRuntimeStorage : Type :=
| MemoryStorage (control_plane : option (DiscoveryControlPlane MemoryDiscoveryStore))
| PostgresStorage (control_plane : option (DiscoveryControlPlane PostgresStore))
    (safe_summary : string)
| RedisStorage (control_plane : option (DiscoveryControlPlane RedisDiscoveryStore))
    (safe_summary : string).

Definition host_control_plane {S} (store : S) (config : DiscoveryRuntimeConfig)
    : DiscoveryControlPlane S :=
  {| store := store; config_policy := host_config_policy config;
     registry_policy := host_registry_policy config |}.

Definition build_runtime_storage (config : DiscoveryRuntimeConfig)
    : DiscoveryResult DiscoveryRuntimeStorage :=
  match sto_provider (cfg_storage config) with
  | Memory => Ok (MemoryStorage (Some (host_control_plane new_store config)))
  | Postgres =>
      transport ← ok_or (sto_postgres (cfg_storage config))
        (InvalidConfig "storage provider postgres requires [storage.postgres]");
      store ← postgres_new_lazy transport;
      mret (PostgresStorage (Some (host_control_plane store config))
              (postgres_safe_summary store))
  | Redis =>
      transport ← ok_or (sto_redis (cfg_storage config))
        (InvalidConfig "storage provider redis requires [storage.redis]");
      store ← new_lazy read_file utf8_error client_open transport;
      mret (RedisStorage (Some (host_control_plane store config)) (rds_safe_summary store))
  | provider =>
      Err (InvalidConfig ("storage provider " +:+ provider_as_str provider
             +:+ " is configured but the adapter is not implemented"))
  end.

Record DiscoveryServiceHostBootstrap : Type := {
  hb_config : DiscoveryRuntimeConfig;
  hb_runtime_storage : DiscoveryRuntimeStorage;
}.

Context (toml_from_str : string → Result string RawDiscoveryRuntimeConfig).
Context (debug_str : string → string).

Definition bootstrap_from_toml_str_with_env (input : string) (env : EnvMap)
    : DiscoveryResult DiscoveryServiceHostBootstrap :=
  config ← from_toml_str_with_env toml_from_str debug_str input env;
  runtime_storage ← build_runtime_storage config;
  mret {| hb_config := config; hb_runtime_storage := runtime_storage |}.

(** [DiscoveryServiceHostRuntime::from_toml_str_with_env]. *)
Definition runtime_from_toml_str_with_env (input : string) (env : EnvMap)
    : DiscoveryResult DiscoveryServiceHostBootstrap :=
  options ← options_from_env env;
  bootstrap_from_toml_str_with_env input (dro_env_overlay options).

(** [from_process_env]; [read_to_string] is [fs::read_to_string]. *)
Definition from_process_env (read_to_string : string → Result string string) (env : EnvMap)
    : DiscoveryResult DiscoveryServiceHostBootstrap :=
  options ← options_from_env env;
  let config_file := default "etc/discovery.example.toml" (dro_config_file options) in
  config ←
    match read_to_string config_file with
    | Ok config => Ok config
    | Err error => Err (InvalidConfig ("failed to read discovery config file "
                          +:+ config_file +:+ ": " +:+ error))
    end;
  bootstrap_from_toml_str_with_env config (dro_env_overlay options).

(** ** Serving *)

(** [control_plane.take()]. *)
Definition take_control_plane (storage : DiscoveryRuntimeStorage)
    : DiscoveryRuntimeStorage * DiscoveryResult () :=
  let moved (name : string) := InvalidConfig
    (name +:+ " control plane has already been moved into the gRPC runtime") in
  match storage with
  | MemoryStorage cp => (MemoryStorage None, ok_or cp (moved "memory") ≫= λ _, Ok ())
  | PostgresStorage cp s =>
      (PostgresStorage None s, ok_or cp (moved "postgres") ≫= λ _, Ok ())
  | RedisStorage cp s => (RedisStorage None s, ok_or cp (moved "redis") ≫= λ _, Ok ())
  end.

Section serving.
Context (parse_addr : string → Result string string) (bind_error : string → option string).
Context (tls_error : DiscoveryRpcTlsIdentity → option string → option string).
Context (reflection_error : option string).

Definition serve_runtime (internal_config backend_config : DiscoveryRpcServerConfig)
    : DiscoveryResult (list DiscoveryRpcServerHandle) :=
  if bool_decide (dsc_bind_addr internal_config = dsc_bind_addr backend_config) then
    handle ← serve parse_addr bind_error tls_error reflection_error internal_config;
    mret [handle]
  else
    internal ← serve_internal parse_addr bind_error tls_error reflection_error internal_config;
    backend ← serve_backend parse_addr bind_error tls_error reflection_error backend_config;
    mret [internal; backend].

Definition serve_grpc : Op DiscoveryServiceHostBootstrap (list DiscoveryRpcServerHandle) :=
  host ← gets id;
  internal_config ← lift (internal_rpc_server_config (hb_config host));
  backend_config ← lift (backend_rpc_server_config (hb_config host));
  runtime_config ← lift (rpc_runtime_config (hb_config host));
  let '(storage, taken) := take_control_plane (hb_runtime_storage host) in
  modify (λ host, {| hb_config := hb_config host; hb_runtime_storage := storage |});;
  lift taken;;
  lift (serve_runtime internal_config backend_config).

End serving.
End host.
