(* ===== verification/HostTheorems.v ===== *)
(** * Theorems about the service host

    What the checks of the configuration buy at run time: how a production process is
    protected, where unsigned callers are possible at all, which variables a process
    can be started with, and what the servers expose and report. *)
From S2P Require Import Prelude RustStr Collections Contract RpcContext RpcContextTheorems.
From S2P Require Import Resilience ControlPlane MemoryStore Actor WatchStream HostConfig HostFields.
From S2P Require Import EnvOverlay Redis RpcServer HostBootstrap OverlayTheorems.

(** ** Reading the checks *)

Lemma refuse_Ok b m u : refuse b m = Ok u → b = false.
Proof. unfold refuse. by destruct b. Qed.

Lemma refuse_negb_Ok b m u : refuse (negb b) m = Ok u → b = true.
Proof. unfold refuse. by destruct b. Qed.

Lemma require_file_Ok label value u : require_file_reference label value = Ok u → is_Some value.
Proof.
  unfold require_file_reference. intros H%refuse_Ok. apply bool_decide_eq_false in H.
  by destruct value; eauto.
Qed.

(** Takes the results of a chain of checks apart. *)
Ltac checks H :=
  repeat match type of H with
    | (_ ≫= _) = Ok _ => let u := fresh "u" in let G := fresh "G" in
        apply result_bind_Ok in H as (u & G & H)
    end.

Section validated.
Context (debug_str : string → string).

Record validated (c : DiscoveryRuntimeConfig) : Prop := {
  va_security : validate_security c = Ok ();
  va_storage : validate_storage debug_str c = Ok ();
  va_resilience : validate_resilience c = Ok ();
  va_production : run_environment (cfg_runtime c) = Production → validate_production c = Ok ();
  va_unsigned : validate_unsigned_local_context c = Ok ();
}.

Lemma validate_Ok c u : validate debug_str c = Ok u → validated c.
Proof.
  unfold validate. intros H. apply result_bind_Ok in H as (? & _ & H).
  apply result_bind_Ok in H as (? & _ & H). apply result_bind_Ok in H as ([] & Hsec & H).
  apply result_bind_Ok in H as ([] & Hsto & H). apply result_bind_Ok in H as (? & _ & H).
  apply result_bind_Ok in H as ([] & Hres & H). apply result_bind_Ok in H as ([] & Hprod & H).
  destruct u. split; [done|done|done| |done].
  intros E. by rewrite bool_decide_true in Hprod.
Qed.

(** Without unsigned callers a secret is configured. *)
Lemma secret_configured c :
  validate_security c = Ok () → sec_allow_unsigned_local_context (cfg_security c) = false →
  is_Some (stk_hmac_secret_file (sec_service_token (cfg_security c))).
Proof.
  unfold validate_security. intros H Hu. cbv zeta in H. rewrite Hu in H. checks H.
  match goal with G : (if negb false then _ else _) = Ok _ |- _ => by apply require_file_Ok in G end.
Qed.

(** Where TLS is on, the certificate and the key are configured. *)
Lemma identity_configured c :
  validate_security c = Ok () →
  sec_tls_enabled (cfg_security c) || sec_mtls_enabled (cfg_security c) = true →
  is_Some (sec_server_tls_cert_file (cfg_security c))
  ∧ is_Some (sec_server_tls_key_file (cfg_security c)).
Proof.
  unfold validate_security. intros H Ht. cbv zeta in H. rewrite Ht in H. checks H.
  match goal with G : (require_file_reference _ _ ≫= _) = Ok _ |- _ => checks G end.
  split; by eapply require_file_Ok.
Qed.

Lemma unsigned_confined c :
  validate_unsigned_local_context c = Ok () →
  sec_allow_unsigned_local_context (cfg_security c) = true →
  run_environment (cfg_runtime c) ∈ [Development; Test]
  ∧ run_deployment_mode (cfg_runtime c) ≠ ModeContainer
  ∧ run_runtime_target (cfg_runtime c) ≠ TargetContainer
  ∧ is_loopback_bind_host (srv_grpc_bind_host (cfg_server c)) = true.
Proof.
  unfold validate_unsigned_local_context. intros H Hu. rewrite Hu in H. cbn [negb] in H.
  apply result_bind_Ok in H as (? & H1%refuse_negb_Ok & H).
  apply result_bind_Ok in H as (? & H2%refuse_Ok & H%refuse_negb_Ok).
  apply bool_decide_eq_true in H1. apply orb_false_iff in H2 as [H2 H3].
  apply bool_decide_eq_false in H2, H3. done.
Qed.

Lemma production_checked c :
  validate_production c = Ok () →
  sec_allow_unsigned_local_context (cfg_security c) = false
  ∧ sec_mtls_enabled (cfg_security c) = true
  ∧ is_Some (sec_client_ca_cert_file (cfg_security c))
  ∧ crg_allow_secret_values (cfg_config_registry c) = false
  ∧ srv_enable_reflection (cfg_server c) = false
  ∧ hrl_enabled (res_rate_limit (cfg_resilience c)) = true
  ∧ hcb_enabled (res_circuit_breaker (cfg_resilience c)) = true
  ∧ hdg_read_only_on_storage_failure (res_degradation (cfg_resilience c)) = true
  ∧ sto_provider (cfg_storage c) ≠ Memory ∧ sto_provider (cfg_storage c) ≠ Sqlite.
Proof.
  unfold validate_production. intros H. cbv zeta in H.
  apply result_bind_Ok in H as (? & H1%refuse_Ok & H). apply result_bind_Ok in H as (? & _ & H).
  apply result_bind_Ok in H as (? & _ & H). apply result_bind_Ok in H as (? & H2%refuse_Ok & H).
  apply result_bind_Ok in H as (? & _ & H). apply result_bind_Ok in H as (? & _ & H).
  apply result_bind_Ok in H as (? & H3%refuse_negb_Ok & H).
  apply result_bind_Ok in H as (? & H4%require_file_Ok & H).
  apply result_bind_Ok in H as (? & H5%refuse_negb_Ok & H).
  apply result_bind_Ok in H as (? & H6%refuse_negb_Ok & H).
  apply result_bind_Ok in H as (? & H7%refuse_negb_Ok & H).
  apply result_bind_Ok in H as (? & H8%refuse_Ok & H).
  apply result_bind_Ok in H as (? & H9%refuse_Ok & H%refuse_Ok).
  by apply bool_decide_eq_false in H9, H.
Qed.

Lemma resilience_checked c :
  validate_resilience c = Ok () →
  (hcb_enabled (res_circuit_breaker (cfg_resilience c)) = true →
     0 < hcb_failure_threshold (res_circuit_breaker (cfg_resilience c))
     ∧ 0 < hcb_half_open_max_requests (res_circuit_breaker (cfg_resilience c)))
  ∧ (hrl_enabled (res_rate_limit (cfg_resilience c)) = true →
     0 < hrl_requests_per_second (res_rate_limit (cfg_resilience c))
     ∧ 0 < hrl_burst_capacity (res_rate_limit (cfg_resilience c))).
Proof.
  unfold validate_resilience. intros H. cbv zeta in H.
  apply result_bind_Ok in H as (? & H1%refuse_Ok & H). apply result_bind_Ok in H as (? & _ & H).
  apply result_bind_Ok in H as (? & H2%refuse_Ok & H).
  apply result_bind_Ok in H as (? & H3 & _). split; intros Hen; rewrite Hen in *; simpl in *.
  - apply N.eqb_neq in H1, H2. lia.
  - apply result_bind_Ok in H3 as (? & H3%refuse_Ok & H4%refuse_Ok).
    apply N.eqb_neq in H3, H4. lia.
Qed.

Lemma production_database c :
  validate_storage debug_str c = Ok () → run_environment (cfg_runtime c) = Production →
  sto_provider (cfg_storage c) = Postgres →
  ∃ t, sto_postgres (cfg_storage c) = Some t ∧ tr_database t = Some "sdkwork_ai_prod"
       ∧ tr_schema t = Some "sdkwork_ai_prod" ∧ tr_username t = Some "sdkwork_ai_prod".
Proof.
  unfold validate_storage. intros H He Hp. rewrite Hp, He in H.
  apply result_bind_Ok in H as (t & Ht & H). exists t. split.
  - unfold validate_transport in Ht. apply result_bind_Ok in Ht as (t' & Ht'%ok_or_Ok & Ht).
    rewrite Ht'. f_equal. repeat (apply result_bind_Ok in Ht as (? & _ & Ht)).
    destruct (tr_credential_source t'); [by injection Ht|].
    apply result_bind_Ok in Ht as (? & _ & [= <-]). done.
  - unfold validate_workspace_postgres_identity in H.
    apply result_bind_Ok in H as (db & ->%ok_or_Ok & H).
    apply result_bind_Ok in H as (schema & ->%ok_or_Ok & H).
    apply result_bind_Ok in H as (user & ->%ok_or_Ok & H). cbv iota beta in H.
    apply result_bind_Ok in H as (? & H1%refuse_negb_Ok & H).
    apply result_bind_Ok in H as (? & H2%refuse_negb_Ok & H3%refuse_negb_Ok).
    apply bool_decide_eq_true in H1, H2, H3. by subst.
Qed.

End validated.

(** ** Secrets *)

Lemma hmac_secret_Ok read_file path secret :
  read_service_token_hmac_secret read_file path = Ok secret → 32 <= len secret.
Proof.
  unfold read_service_token_hmac_secret. intros (bytes & _ & H)%result_bind_Ok. cbv zeta in H.
  apply result_bind_Ok in H as (u & H%refuse_Ok & E). apply N.ltb_ge in H.
  by injection E as <-.
Qed.

Lemma verifier_Ok read_file c v :
  service_token_verifier_config read_file c = Ok v →
  is_Some (stk_hmac_secret_file (sec_service_token (cfg_security c))) →
  ∃ w, v = Some w ∧ 32 <= len (hmac_secret w).
Proof.
  unfold service_token_verifier_config. intros H [file E]. rewrite E in H.
  apply result_bind_Ok in H as (secret & Hs%hmac_secret_Ok & [= <-]). eauto.
Qed.

Lemma server_config_Ok read_file c port sc :
  rpc_server_config read_file c port (srv_enable_reflection (cfg_server c)) = Ok sc →
  dsc_enable_reflection sc = srv_enable_reflection (cfg_server c)
  ∧ dsc_require_tls sc = sec_tls_enabled (cfg_security c) || sec_mtls_enabled (cfg_security c)
  ∧ (is_Some (sec_server_tls_cert_file (cfg_security c)) →
     is_Some (sec_server_tls_key_file (cfg_security c)) → is_Some (dsc_tls_identity sc))
  ∧ (is_Some (sec_client_ca_cert_file (cfg_security c)) →
     is_Some (dsc_client_ca_certificate_pem sc)).
Proof.
  unfold rpc_server_config. intros (identity & Hi & H)%result_bind_Ok.
  apply result_bind_Ok in H as (ca & Hc & [= <-]). simpl. split_and!; [done|done|..].
  - intros [cert Ec] [key Ek]. unfold read_tls_identity in Hi. rewrite Ec, Ek in Hi.
    apply result_bind_Ok in Hi as (? & _ & Hi). apply result_bind_Ok in Hi as (? & _ & [= <-]).
    eauto.
  - intros [file Ef]. unfold read_client_ca_certificate in Hc. rewrite Ef in Hc.
    apply result_bind_Ok in Hc as (? & _ & [= <-]). eauto.
Qed.

Section host.
Context `{RpcExternals}.
Context (read_file read_to_string : string → Result string string).
Context {PostgresStore : Type}.
Context (postgres_new_lazy : StorageTransportConfig → DiscoveryResult PostgresStore)
        (postgres_safe_summary : PostgresStore → string).
Context (utf8_error : string → option string) (client_open : string → Result string string).
Context (toml_from_str : string → Result string RawDiscoveryRuntimeConfig).
Context (debug_str : string → string).

Abbreviation start := (from_process_env read_file postgres_new_lazy postgres_safe_summary
  utf8_error client_open toml_from_str debug_str read_to_string).

(** A process that starts has gone through the whole chain. *)
Lemma start_Ok env host :
  start env = Ok host →
  validated debug_str (hb_config host)
  ∧ build_runtime_storage read_file postgres_new_lazy postgres_safe_summary utf8_error
      client_open (hb_config host) = Ok (hb_runtime_storage host)
  ∧ ∃ options file, options_from_env env = Ok options
      ∧ validate_env_keys (dro_env_overlay options) = Ok ()
      ∧ apply_env_overlay file (dro_env_overlay options) = Ok (hb_config host).
Proof.
  unfold from_process_env. intros (options & Ho & Hs)%result_bind_Ok. cbv zeta in Hs.
  apply result_bind_Ok in Hs as (text & _ & Hs). unfold bootstrap_from_toml_str_with_env in Hs.
  apply result_bind_Ok in Hs as (config & Hc & Hs).
  apply result_bind_Ok in Hs as (storage & Hb & [= <-]). unfold from_toml_str_with_env in Hc.
  apply result_bind_Ok in Hc as ([] & Hk & Hc). apply result_bind_Ok in Hc as (file & _ & Hc).
  apply result_bind_Ok in Hc as (c & Ha & Hc). apply result_bind_Ok in Hc as (u & Hv & [= <-]).
  split_and!; [by eapply validate_Ok|done|]. by exists options, file.
Qed.

(** C23: a process that starts in the production environment is hardened.  Every caller
    its runtime accepts comes from verifying the bearer token of the request, with a
    secret of at least 32 bytes, and from a request without unsigned identity; its servers
    require TLS with an identity and a client CA and offer no reflection; rate limit,
    circuit breaker and read-only degradation are on, with limits above zero; literal
    secrets are refused; the store is the production PostgreSQL database or Redis. *)
Theorem production_is_hardened env host :
  start env = Ok host → run_environment (cfg_runtime (hb_config host)) = Production →
  (∀ rc, rpc_runtime_config read_file (hb_config host) = Ok rc →
     (∀ clock metadata caller,
        caller_from_metadata clock metadata (context_policy_of rc) = Ok caller →
        has_unsigned_context_metadata metadata = false
        ∧ ∃ v am, rtc_service_token_verifier rc = Some v ∧ 32 <= len (hmac_secret v)
          ∧ authenticated_metadata metadata = Ok am
          ∧ verify clock v (am_bearer_token am) (am_access_token am) = Ok caller)
     ∧ (let r := rtc_resilience rc in
        rl_enabled (rrc_rate_limit r) = true ∧ 0 < burst_capacity (rrc_rate_limit r)
        ∧ cb_enabled (rrc_circuit_breaker r) = true
        ∧ 0 < failure_threshold (rrc_circuit_breaker r)
        ∧ read_only_on_storage_failure (rrc_degradation r) = true))
  ∧ (∀ sc, internal_rpc_server_config read_file (hb_config host) = Ok sc
           ∨ backend_rpc_server_config read_file (hb_config host) = Ok sc →
     dsc_require_tls sc = true ∧ is_Some (dsc_tls_identity sc)
     ∧ is_Some (dsc_client_ca_certificate_pem sc) ∧ dsc_enable_reflection sc = false)
  ∧ cp_allow_secret_values (host_config_policy (hb_config host)) = false
  ∧ match hb_runtime_storage host with
    | MemoryStorage _ => False
    | PostgresStorage plane _ => is_Some plane
        ∧ ∃ t, sto_postgres (cfg_storage (hb_config host)) = Some t
               ∧ tr_database t = Some "sdkwork_ai_prod"
    | RedisStorage plane _ => is_Some plane
    end.
Proof.
  intros (Hva & Hst & _)%start_Ok Hprod. set (c := hb_config host) in *.
  destruct (production_checked c (va_production _ _ Hva Hprod))
    as (Hu & Hm & Hca & Hsec & Hrefl & Hrl & Hcb & Hdg & Hmem & Hsql).
  pose proof (secret_configured c (va_security _ _ Hva) Hu) as Hsecret.
  destruct (identity_configured c (va_security _ _ Hva)) as [Hcert Hkey];
    [by rewrite Hm, orb_true_r|].
  destruct (resilience_checked c (va_resilience _ _ Hva)) as [Hcb' Hrl'].
  split_and!; [| |exact Hsec|].
  - intros rc (v & Hv & [= <-])%result_bind_Ok. simpl.
    destruct (verifier_Ok _ _ _ Hv Hsecret) as (w & -> & Hw). split.
    + intros clock metadata caller (Hh & am & Ham & Hver)%accepted_caller. eauto 10.
    + destruct (Hcb' Hcb), (Hrl' Hrl). done.
  - intros sc [Hs|Hs]; apply server_config_Ok in Hs as (-> & -> & Hid & Hcl);
      rewrite Hm, orb_true_r; auto.
  - unfold build_runtime_storage in Hst. destruct (sto_provider (cfg_storage c)) eqn:Ep; try done.
    + destruct (production_database debug_str c (va_storage _ _ Hva) Hprod Ep)
        as (t & Et & Hd & _). apply result_bind_Ok in Hst as (t' & _ & Hst).
      apply result_bind_Ok in Hst as (store & _ & E). injection E as <-. eauto 10.
    + apply result_bind_Ok in Hst as (t' & _ & Hst).
      apply result_bind_Ok in Hst as (store & _ & E). injection E as <-. eauto.
Qed.

(** Unsigned callers are confined.  If the runtime of a process that starts accepts
    any caller without verifying a token, the process is a development or test one, not a
    container, and bound to a loopback host. *)
Theorem unsigned_callers_confined env host rc clock metadata caller :
  start env = Ok host → rpc_runtime_config read_file (hb_config host) = Ok rc →
  caller_from_metadata clock metadata (context_policy_of rc) = Ok caller →
  (∀ v am, rtc_service_token_verifier rc = Some v → authenticated_metadata metadata = Ok am →
     verify clock v (am_bearer_token am) (am_access_token am) ≠ Ok caller) →
  let c := hb_config host in
  run_environment (cfg_runtime c) ∈ [Development; Test]
  ∧ run_deployment_mode (cfg_runtime c) ≠ ModeContainer
  ∧ run_runtime_target (cfg_runtime c) ≠ TargetContainer
  ∧ is_loopback_bind_host (srv_grpc_bind_host (cfg_server c)) = true.
Proof.
  intros (Hva & _ & _)%start_Ok (v & Hv & [= <-])%result_bind_Ok Hc%accepted_caller Hno. simpl in *.
  apply unsigned_confined; [by eapply va_unsigned|].
  destruct v as [w|]; [|by destruct Hc]. destruct Hc as (_ & am & Ham & Hver).
  by destruct (Hno w am eq_refl Ham).
Qed.

(** ** Variables *)

Lemma options_keep env options key value :
  options_from_env env = Ok options → env !! key = Some value →
  key ≠ "SDKWORK_DISCOVERY_CONFIG_FILE" → starts_with key "SDKWORK_DATABASE_ADMIN_" = false →
  starts_with key "SDKWORK_DISCOVERY_" || starts_with key "SDKWORK_DATABASE_" = true →
  dro_env_overlay options !! key = Some value.
Proof.
  unfold options_from_env. intros (overlay & Hrun & [= <-])%result_bind_Ok Hk Hne Hadm Hpre.
  simpl. revert Hrun. apply (for_each_reaches (λ m, m !! key = Some value)).
  - intros [k v] m1 m2 Hin%env_iter_lookup Hstep Hm. unfold collect_env_entry in Hstep.
    cbv beta iota in Hstep.
    case_bool_decide; [by injection Hstep as <-|].
    destruct (is_retired_database_env_key k); [done|].
    destruct (starts_with k "SDKWORK_DATABASE_ADMIN_"); [by injection Hstep as <-|].
    destruct (starts_with k "SDKWORK_DISCOVERY_" || _); injection Hstep as <-; [|done].
    destruct (decide (k = key)) as [->|]; [|by rewrite lookup_insert_ne].
    rewrite lookup_insert_eq. congruence.
  - right. exists (key, value). split; [by apply env_iter_lookup|].
    intros m1 m2 Hstep. unfold collect_env_entry in Hstep. cbv beta iota in Hstep.
    rewrite bool_decide_false in Hstep by done.
    destruct (is_retired_database_env_key key); [done|]. rewrite Hadm, Hpre in Hstep.
    injection Hstep as <-. apply lookup_insert_eq.
Qed.

(** A variable that no arm of the overlay knows. *)
Definition unknown_variable (key : string) : bool :=
  bool_decide (match_str key leading_arms = None)
  && negb (starts_with key "SDKWORK_DATABASE_")
  && negb (starts_with key "SDKWORK_DISCOVERY_STORAGE_REDIS_")
  && negb (starts_with key "SDKWORK_DISCOVERY_STORAGE_ETCD_")
  && negb (starts_with key "SDKWORK_DISCOVERY_STORAGE_CONSUL_")
  && bool_decide (match_str key setting_arms = None).

Lemma unknown_entry_refused p key value c :
  unknown_variable key = true → apply_env_entry p key value c
  = Err (InvalidConfig ("unsupported discovery env key: " +:+ key)).
Proof.
  unfold unknown_variable, apply_env_entry. rewrite !andb_true_iff, !negb_true_iff.
  intros (((((Hl%bool_decide_eq_true & ->) & ->) & ->) & ->) & Hs%bool_decide_eq_true).
  by rewrite Hl, Hs.
Qed.

Lemma overlay_refuses_unknown c env key value :
  env !! key = Some value → unknown_variable key = true → ∃ e, apply_env_overlay c env = Err e.
Proof.
  intros Hk Hu. destruct (apply_env_overlay c env) as [c'|e] eqn:E; [exfalso|by eauto].
  unfold apply_env_overlay in E. apply result_bind_Ok in E as (c1 & _ & E).
  apply result_bind_Ok in E as (? & _ & E). apply result_bind_Ok in E as (p & _ & E).
  revert E. apply (for_each_reaches (λ _, False)); [done|]. right. exists (key, value).
  split; [by apply env_iter_lookup|]. intros c2 c3. simpl. by rewrite unknown_entry_refused.
Qed.

(** The variables that name the address of the HTTP probe and of the metrics endpoint
    cannot be set: the host passes every [SDKWORK_DISCOVERY_] variable on to the overlay,
    which refuses the names it does not know, so a process with either of them does not
    start, whatever the configuration file says. *)
Theorem probe_variables_refused env key :
  key ∈ ["SDKWORK_DISCOVERY_HTTP_PROBE_BIND"; "SDKWORK_DISCOVERY_METRICS_BIND"] →
  is_Some (env !! key) → ∃ e, start env = Err e.
Proof.
  intros Hkey [value Hk]. destruct (start env) as [host|e] eqn:E; [exfalso|by eauto].
  destruct (start_Ok _ _ E) as (_ & _ & options & file & Ho & _ & Ha).
  assert (unknown_variable key = true ∧ key ≠ "SDKWORK_DISCOVERY_CONFIG_FILE"
          ∧ starts_with key "SDKWORK_DATABASE_ADMIN_" = false
          ∧ starts_with key "SDKWORK_DISCOVERY_" || starts_with key "SDKWORK_DATABASE_" = true)
    as (Hu & Hne & Hadm & Hpre).
  { repeat (apply elem_of_cons in Hkey as [->|Hkey]); [by vm_compute..|].
    by apply not_elem_of_nil in Hkey. }
  destruct (overlay_refuses_unknown file (dro_env_overlay options) key value) as [e He];
    [by eapply options_keep|done|]. by rewrite He in Ha.
Qed.
End host.

(** ** Surfaces *)

Definition is_rpc (m : MountedService) : bool :=
  match m with ReflectionService | HealthService => false | _ => true end.

Definition rpc_services (ms : list MountedService) : list MountedService := retain is_rpc ms.

Definition service_name (m : MountedService) : string :=
  match m with
  | RegistryService => REGISTRY_SERVICE_NAME
  | ConfigService => DISCOVERY_CONFIG_SERVICE_NAME
  | WatchService => DISCOVERY_WATCH_SERVICE_NAME
  | AdminService => DISCOVERY_ADMIN_SERVICE_NAME
  | _ => ""
  end.

(** A server mounts its services and reports health for the whole and for each. *)
Definition exposes (health : bool) (services : list MountedService)
    (h : DiscoveryRpcServerHandle) : Prop :=
  (∃ ms, sh_services h = Ok ms ∧ rpc_services ms = services)
  ∧ sh_health_service_names h
    = if health then OVERALL_HEALTH_SERVICE :: (service_name <$> services) else [].

Section surfaces.
Context (read_file : string → Result string string).
Context (parse_addr : string → Result string string) (bind_error : string → option string).
Context (tls_error : DiscoveryRpcTlsIdentity → option string → option string).
Context (reflection_error : option string).

Lemma mount_rpc surface config health services ms :
  retain is_rpc services = services →
  mount tls_error reflection_error surface config health services = Ok ms →
  rpc_services ms = services.
Proof.
  intros Hr. unfold mount. intros (? & _ & H)%result_bind_Ok.
  apply result_bind_Ok in H as (? & _ & [= <-]). unfold rpc_services. rewrite !retain_app, Hr.
  by destruct (dsc_enable_reflection config), health.
Qed.

Lemma listen_Ok surface config start names serving services h :
  listen parse_addr bind_error tls_error surface config start = Ok h →
  start config = start_rpc_server tls_error config names serving →
  serving config (dsc_enable_health config)
  = mount tls_error reflection_error surface config (dsc_enable_health config) services →
  retain is_rpc services = services →
  names = OVERALL_HEALTH_SERVICE :: (service_name <$> services) →
  (dsc_enable_reflection config = true → reflection_error = None) →
  exposes (dsc_enable_health config) services h.
Proof.
  intros H Hstart Hserving Hr -> Hrefl. unfold listen in H. apply result_bind_Ok in H as (? & _ & H).
  apply result_bind_Ok in H as (? & _ & H). apply result_bind_Ok in H as (? & _ & H).
  apply result_bind_Ok in H as (? & Ht & H). rewrite Hstart in H. unfold start_rpc_server in H.
  apply result_bind_Ok in H as (? & _ & H). apply result_bind_Ok in H as (? & _ & [= <-]).
  split; [simpl|done]. rewrite Hserving.
  destruct (mount tls_error reflection_error surface config (dsc_enable_health config) services)
    as [ms|e] eqn:E; [exists ms; split; [done|by eapply mount_rpc]|exfalso].
  unfold mount in E. apply result_bind_Ok in Ht as (base & Hb & _). rewrite Hb in E.
  destruct (dsc_enable_reflection config); [rewrite Hrefl in E by done|]; discriminate E.
Qed.

Lemma bind_addr_inj c p1 p2 r1 r2 s1 s2 :
  rpc_server_config read_file c p1 r1 = Ok s1 → rpc_server_config read_file c p2 r2 = Ok s2 →
  dsc_bind_addr s1 = dsc_bind_addr s2 → p1 = p2.
Proof.
  unfold rpc_server_config. intros (? & _ & H1)%result_bind_Ok (? & _ & H2)%result_bind_Ok.
  apply result_bind_Ok in H1 as (? & _ & [= <-]). apply result_bind_Ok in H2 as (? & _ & [= <-]).
  simpl. intros E%string_app_inj_l. injection E as E. by apply show_N_inj.
Qed.

Lemma server_config_flags c port sc :
  rpc_server_config read_file c port (srv_enable_reflection (cfg_server c)) = Ok sc →
  dsc_enable_health sc = srv_enable_health (cfg_server c)
  ∧ dsc_watch_enabled sc = wch_enabled (cfg_watch c)
  ∧ dsc_enable_reflection sc = srv_enable_reflection (cfg_server c).
Proof.
  unfold rpc_server_config. intros (? & _ & H)%result_bind_Ok.
  by apply result_bind_Ok in H as (? & _ & [= <-]).
Qed.

(** The servers expose every service once.  With one address there is one server
    with the registry, configuration, watch (if it is enabled) and administration
    services; with two, the first has all but administration and the second has
    administration alone.  Each server reports health for the whole and for exactly the
    services it mounts, or for nothing when health is off. *)
Theorem surfaces_exact c ic bc handles :
  internal_rpc_server_config read_file c = Ok ic →
  backend_rpc_server_config read_file c = Ok bc →
  (srv_enable_reflection (cfg_server c) = true → reflection_error = None) →
  serve_runtime parse_addr bind_error tls_error reflection_error ic bc = Ok handles →
  let internal := [RegistryService; ConfigService]
                  ++ (if wch_enabled (cfg_watch c) then [WatchService] else []) in
  let health := srv_enable_health (cfg_server c) in
  if bool_decide (srv_grpc_port (cfg_server c) = srv_admin_grpc_port (cfg_server c))
  then ∃ h, handles = [h] ∧ exposes health (internal ++ [AdminService]) h
  else ∃ h1 h2, handles = [h1; h2] ∧ exposes health internal h1
                ∧ exposes health [AdminService] h2.
Proof.
  intros Hi Hb Hrefl Hs. destruct (server_config_flags _ _ _ Hi) as (Hh1 & Hw1 & Hr1).
  destruct (server_config_flags _ _ _ Hb) as (Hh2 & Hw2 & Hr2). cbv zeta.
  unfold serve_runtime in Hs. case_bool_decide as Haddr.
  - apply (bind_addr_inj _ _ _ _ _ _ _ Hi Hb) in Haddr. rewrite bool_decide_true by done.
    apply result_bind_Ok in Hs as (h & Hs & [= <-]). exists h. split; [done|].
    rewrite <- Hh1, <- Hw1. eapply listen_Ok; [exact Hs|reflexivity|..]; rewrite ?Hr1; try done.
    all: by destruct (dsc_watch_enabled ic).
  - rewrite bool_decide_false.
    2:{ intros E. apply Haddr. revert Hi Hb. unfold internal_rpc_server_config.
        unfold backend_rpc_server_config. rewrite E. congruence. }
    apply result_bind_Ok in Hs as (h1 & Hs1 & Hs). apply result_bind_Ok in Hs as (h2 & Hs2 & [= <-]).
    exists h1, h2. split; [done|]. split.
    + rewrite <- Hh1, <- Hw1. eapply listen_Ok; [exact Hs1|reflexivity|..]; rewrite ?Hr1; try done.
      all: by destruct (dsc_watch_enabled ic).
    + rewrite <- Hh2. eapply listen_Ok; [exact Hs2|reflexivity|..]; by rewrite ?Hr2.
Qed.
End surfaces.

(** ** Health reports *)

Lemma lookup_set_health serving names (r : HealthReporter) name :
  set_health_services serving names r !! name
  = if bool_decide (name ∈ names) then Some serving else r !! name.
Proof.
  unfold set_health_services. revert r.
  induction names as [|n names IH]; intros r; cbn [foldl].
  { rewrite bool_decide_false; [done|set_solver]. }
  rewrite IH. destruct (decide (name ∈ names)) as [Hin|Hin].
  - rewrite !bool_decide_true; [done|set_solver|done].
  - rewrite (bool_decide_false (name ∈ names)) by done. destruct (decide (name = n)) as [->|Hne].
    + rewrite lookup_insert_eq, bool_decide_true; [done|set_solver].
    + rewrite lookup_insert_ne, bool_decide_false; [done|set_solver|done].
Qed.

(** Every name carries the same report, and no other name has one. *)
Definition reports (names : list string) (serving : bool) (r : HealthReporter) : Prop :=
  ∀ name, r !! name = if bool_decide (name ∈ names) then Some serving else None.

Lemma set_health_reports serving before names r :
  reports names before r → reports names serving (set_health_services serving names r).
Proof.
  intros Hr name. rewrite lookup_set_health, Hr. by case_bool_decide.
Qed.

(** The task after a sequence of ticks, which find the runtime in these states. *)
Definition run_health_sync (names : list string) (ticks : list DiscoveryHealthStatus)
    (y : HealthSync) : HealthSync :=
  foldl (λ y status, health_sync_tick names status y) y ticks.

Lemma health_sync_reports names ticks y status :
  hy_last_reported y = Some status → hy_gauge y = Some status →
  reports names (grpc_serving status) (hy_reporter y) →
  let y' := run_health_sync names ticks y in
  let final := default status (last ticks) in
  hy_last_reported y' = Some final ∧ hy_gauge y' = Some final
  ∧ reports names (grpc_serving final) (hy_reporter y').
Proof.
  revert y status. induction ticks as [|t ticks IH]; intros y status Hl Hg Hr; [done|].
  cbv zeta in *. cbn [run_health_sync foldl].
  assert (default status (last (t :: ticks)) = default t (last ticks)) as ->.
  { rewrite last_cons. by destruct (last ticks). }
  apply IH; unfold health_sync_tick; case_bool_decide as E; cbn [hy_last_reported hy_gauge hy_reporter];
    try congruence.
  - rewrite Hl in E. by injection E as <-.
  - by eapply set_health_reports.
Qed.

(** Health reports follow the runtime.  When a server starts with health on, every
    one of its names is reported serving; after any number of ticks they all carry the
    serving state of the status the last tick found, and the gauge shows that status;
    after shutdown they are all not serving, and no other name is ever reported. *)
Theorem health_report_follows tls_error config names serve h ticks :
  start_rpc_server tls_error config names serve = Ok h → dsc_enable_health config = true →
  let y0 := health_sync_start h in
  let y := run_health_sync names ticks y0 in
  sh_health_service_names h = names
  ∧ reports names true (hy_reporter y0)
  ∧ (∀ status, last ticks = Some status →
       reports names (grpc_serving status) (hy_reporter y) ∧ hy_gauge y = Some status)
  ∧ reports names false (hy_reporter (shutdown names y))
  ∧ hy_gauge (shutdown names y) = Some HealthNotServing.
Proof.
  intros H Hh. unfold start_rpc_server in H. apply result_bind_Ok in H as (? & _ & H).
  apply result_bind_Ok in H as (? & _ & [= <-]). cbv zeta. unfold health_sync_start.
  rewrite Hh. cbn [sh_health_service_names sh_health_reporter default from_option id hy_reporter].
  set (y0 := {| hy_last_reported := None; hy_reporter := _; hy_gauge := None |}).
  assert (reports names true (hy_reporter y0)) as H0
    by (intros name; simpl; unfold set_health_services_serving; by rewrite lookup_set_health, lookup_empty).
  assert (ticks = [] ∨ ∃ status, last ticks = Some status
          ∧ reports names (grpc_serving status) (hy_reporter (run_health_sync names ticks y0))
          ∧ hy_gauge (run_health_sync names ticks y0) = Some status) as Hrun.
  { destruct ticks as [|t ticks]; [by left|right]. cbn [run_health_sync foldl].
    destruct (health_sync_reports names ticks (health_sync_tick names t y0) t) as (_ & Hg & Hr);
      [done|done|by eapply set_health_reports|].
    exists (default t (last ticks)). rewrite last_cons. by destruct (last ticks). }
  split_and!; [done|exact H0| | |done].
  - intros status Hl. destruct Hrun as [->|(s & Hs & Hr & Hg)]; [done|].
    rewrite Hs in Hl. by injection Hl as <-.
  - destruct Hrun as [->|(s & _ & Hr & _)]; simpl; by eapply set_health_reports.
Qed.

(** ** A production process *)

Definition sample_read_file (path : string) : Result string string :=
  Ok "0123456789abcdef0123456789abcdef
".

Definition or_empty (r : Result string string) : string :=
  match r with Ok s => s | Err _ => "" end.

(** The development template (etc/discovery.example.toml). *)
Definition development_template : RawDiscoveryRuntimeConfig :=
  {| rd_runtime :=
       {| rwr_environment := Some "development"; rwr_config_profile := Some "dev";
          rwr_deployment_profile := Some "standalone"; rwr_deployment_mode := "server";
          rwr_runtime_target := "server" |};
     rd_server :=
       {| srv_grpc_bind_host := "127.0.0.1"; srv_grpc_port := 19090;
          srv_admin_grpc_port := 19091; srv_enable_health := true;
          srv_enable_reflection := true; srv_default_deadline_ms := 5000 |};
     rd_security :=
       {| rs_auth_mode := "service-token"; rs_tls_enabled := false; rs_mtls_enabled := false;
          rs_allow_unsigned_local_context := true; rs_service_token := None;
          rs_server_tls_cert_file := None; rs_server_tls_key_file := None;
          rs_client_ca_cert_file := None |};
     rd_storage :=
       {| ro_provider := "memory"; ro_registry_role := Some "primary";
          ro_config_role := Some "primary"; ro_watch_role := Some "primary";
          ro_apply_initial_schema := None; ro_postgres := None; ro_sqlite := None;
          ro_redis := None; ro_etcd := None; ro_consul := None |};
     rd_registry := rd_registry production_template;
     rd_config_registry := rd_config_registry production_template;
     rd_watch := rd_watch production_template;
     rd_resilience := default_host_resilience |}.

Definition sample_toml (input : string) : Result string RawDiscoveryRuntimeConfig :=
  if bool_decide (input = "production") then Ok production_template
  else if bool_decide (input = "development") then Ok development_template
  else Err "expected a template".

Definition sample_open (path : string) : Result string string :=
  if bool_decide (path = "etc/discovery.example.toml") then Ok "development" else Ok "production".

Definition production_env : EnvMap :=
  {[ "SDKWORK_DISCOVERY_CONFIG_FILE" := "/etc/sdkwork/discovery/production.toml" ]}.

(** Starting the templates, the PostgreSQL store reduced to its options. *)
Definition sample_start : EnvMap → DiscoveryResult DiscoveryServiceHostBootstrap :=
  from_process_env sample_read_file (PostgresStore := StorageTransportConfig) Ok tr_host
    (λ _, None) Ok sample_toml id sample_open.

Definition production_host : DiscoveryServiceHostBootstrap (PostgresStore := StorageTransportConfig).
Proof.
  let r := eval vm_compute in (sample_start production_env) in
  match r with Ok ?h => exact h end.
Defined.

Definition development_host : DiscoveryServiceHostBootstrap (PostgresStore := StorageTransportConfig).
Proof. let r := eval vm_compute in (sample_start ∅) in match r with Ok ?h => exact h end. Defined.

Lemma production_started : sample_start production_env = Ok production_host.
Proof. vm_compute. reflexivity. Qed.

Lemma development_started : sample_start ∅ = Ok development_host.
Proof. vm_compute. reflexivity. Qed.

Definition server_config_of (port : N) : DiscoveryRpcServerConfig :=
  {| dsc_bind_addr := "0.0.0.0:" +:+ show_N port; dsc_enable_health := true;
     dsc_enable_reflection := false; dsc_default_deadline_ms := 30000;
     dsc_watch_enabled := true; dsc_watch_max_streams := 10000;
     dsc_watch_event_buffer_size := 1024; dsc_watch_heartbeat_interval_ms := 15000;
     dsc_watch_durable_poll_interval_ms := 1000; dsc_watch_durable_replay_batch_size := 1000;
     dsc_require_tls := true;
     dsc_tls_identity := Some
       {| ti_certificate_pem := or_empty (sample_read_file "");
          ti_private_key_pem := or_empty (sample_read_file "") |};
     dsc_client_ca_certificate_pem := Some (or_empty (sample_read_file "")) |}.

Lemma sample_internal_config :
  internal_rpc_server_config sample_read_file (hb_config production_host)
  = Ok (server_config_of 19090).
Proof. vm_compute. reflexivity. Qed.

Lemma sample_backend_config :
  backend_rpc_server_config sample_read_file (hb_config production_host)
  = Ok (server_config_of 19091).
Proof. vm_compute. reflexivity. Qed.

Lemma production_is_hardened_witness :
  dsc_require_tls (server_config_of 19090) = true
  ∧ is_Some (dsc_client_ca_certificate_pem (server_config_of 19090)).
Proof.
  destruct (production_is_hardened sample_read_file sample_open Ok tr_host (λ _, None) Ok
              sample_toml id production_env production_host production_started eq_refl)
    as (_ & Hs & _).
  destruct (Hs (server_config_of 19090) (or_introl sample_internal_config)) as (H1 & _ & H3 & _).
  exact (conj H1 H3).
Defined.

(** A local call with plain identity metadata. *)
Definition local_metadata : gmap string string :=
  {[ "x-sdkwork-subject-id" := "smoke"; "authorization" := "Bearer local";
     "access-token" := "local"; "x-sdkwork-registry-permissions" := "read" ]}.

Definition development_runtime : DiscoveryRpcRuntimeConfig.
Proof.
  let r := eval vm_compute in (rpc_runtime_config sample_read_file (hb_config development_host)) in
  match r with Ok ?c => exact c end.
Defined.

Lemma development_runtime_Ok :
  rpc_runtime_config sample_read_file (hb_config development_host) = Ok development_runtime.
Proof. vm_compute. reflexivity. Qed.

Definition local_caller : CallerContext :=
  {| subject_id := "smoke"; tenant_id := None; organization_id := None;
     registry_permissions := [RegistryRead]; config_permissions := [] |}.

Lemma local_call_accepted :
  caller_from_metadata (Some 0) local_metadata (context_policy_of development_runtime)
  = Ok local_caller.
Proof. vm_compute. reflexivity. Qed.

Lemma unsigned_callers_confined_witness :
  is_loopback_bind_host (srv_grpc_bind_host (cfg_server (hb_config development_host))) = true.
Proof.
  refine (proj2 (proj2 (proj2 (unsigned_callers_confined sample_read_file sample_open Ok tr_host
    (λ _, None) Ok sample_toml id ∅ development_host development_runtime (Some 0) local_metadata
    local_caller development_started development_runtime_Ok local_call_accepted _)))).
  intros v am Hv. discriminate Hv.
Defined.

Definition probed_env : EnvMap :=
  {[ "SDKWORK_DISCOVERY_HTTP_PROBE_BIND" := "0.0.0.0:8080" ]}.

Lemma probe_variables_refused_witness : ∃ e, sample_start probed_env = Err e.
Proof.
  refine (probe_variables_refused sample_read_file sample_open Ok tr_host (λ _, None) Ok sample_toml
    id probed_env "SDKWORK_DISCOVERY_HTTP_PROBE_BIND" _ _).
  - left.
  - exists "0.0.0.0:8080". reflexivity.
Defined.

Definition sample_handles : list DiscoveryRpcServerHandle :=
  match serve_runtime Ok (λ _, None) (λ _ _, None) None (server_config_of 19090)
          (server_config_of 19091) with
  | Ok handles => handles
  | Err _ => []
  end.

Lemma sample_served :
  serve_runtime Ok (λ _, None) (λ _ _, None) None (server_config_of 19090)
    (server_config_of 19091) = Ok sample_handles.
Proof. vm_compute. reflexivity. Qed.

Lemma surfaces_exact_witness :
  ∃ h1 h2, sample_handles = [h1; h2]
    ∧ exposes true [RegistryService; ConfigService; WatchService] h1
    ∧ exposes true [AdminService] h2.
Proof.
  exact (surfaces_exact sample_read_file Ok (λ _, None) (λ _ _, None) None
    (hb_config production_host) (server_config_of 19090) (server_config_of 19091) sample_handles
    sample_internal_config sample_backend_config (λ _, eq_refl) sample_served).
Defined.

Definition sample_handle : DiscoveryRpcServerHandle :=
  {| sh_bind_addr := "0.0.0.0:19091"; sh_services := Ok [HealthService; AdminService];
     sh_health_reporter := Some (set_health_services_serving BACKEND_RPC_HEALTH_SERVICES ∅);
     sh_health_service_names := BACKEND_RPC_HEALTH_SERVICES; sh_health_sync := true;
     sh_health_state := true |}.

Lemma sample_handle_started :
  start_rpc_server (λ _ _, None) (server_config_of 19091) BACKEND_RPC_HEALTH_SERVICES
    (serve_backend_with_incoming (λ _ _, None) None) = Ok sample_handle.
Proof. vm_compute. reflexivity. Qed.

Lemma health_report_follows_witness :
  reports BACKEND_RPC_HEALTH_SERVICES false
    (hy_reporter (run_health_sync BACKEND_RPC_HEALTH_SERVICES [HealthDegraded; HealthNotServing]
                    (health_sync_start sample_handle))).
Proof.
  destruct (health_report_follows (λ _ _, None) (server_config_of 19091)
    BACKEND_RPC_HEALTH_SERVICES (serve_backend_with_incoming (λ _ _, None) None) sample_handle
    [HealthDegraded; HealthNotServing] sample_handle_started eq_refl) as (_ & _ & H & _).
  exact (proj1 (H HealthNotServing eq_refl)).
Defined.
