(* ===== verification/PgSchema.v ===== *)
(** * PostgreSQL schema (database/ddl/baseline/postgres/0001_discovery_baseline.sql)

    The six tables of the baseline, the values their columns accept and the
    constraints on them.  A table is a map from the columns of its natural unique
    constraint to the other columns: the constraint then holds by construction, and a
    statement that would break it finds the key taken.  Columns that no statement
    reads ([id], [uuid], [created_at], [updated_at], [version]) are left out, and
    [deleted_at] is the truth value of [deleted_at IS NOT NULL]. *)
From S2P Require Import Prelude RustStr Collections Contract MemoryStore Codec.
From Stdlib Require Import Ascii.

(** ** Errors of the server and of the driver *)

Inductive DbError : Type :=
| UniqueViolation (constraint : string)
| StringTooLong (limit : N)
| InvalidByteSequence
| BigintOutOfRange
| InvalidJsonText (detail : string)
| AmbiguousColumn (column : string)
| LinkFailure (detail : string).

Abbreviation DbResult := (Result DbError).

(** ** Column types *)

(** The number of characters of UTF-8 text: continuation bytes do not count. *)
Fixpoint char_count (s : string) : N :=
  match s with
  | EmptyString => 0
  | String a s =>
      (if (128 <=? byte_at a) && (byte_at a <? 192) then 0 else 1) + char_count s
  end.

(** A text without the spaces at its end. *)
Fixpoint without_blanks (s : string) : string :=
  match s with
  | EmptyString => EmptyString
  | String a s =>
      match without_blanks s with
      | EmptyString => if byte_at a =? 32 then EmptyString else String a EmptyString
      | s => String a s
      end
  end.

(** The values PostgreSQL documents to store cut to the limit: those whose characters
    beyond it are all spaces. *)
Definition blank_excess (limit : N) (s : string) : bool :=
  (limit <? char_count s) && (char_count (without_blanks s) <=? limit).

(** Whether a value goes into a [VARCHAR(limit)] column as it is.  The server refuses a
    longer value; one with [blank_excess] it would store cut, and there the model departs
    from it and refuses the value too.  No name that the codecs let through has spaces
    ([names_never_cut] in PgLimits), so this concerns the free texts of a command only:
    version, region, zone, protocol, the names of operators and idempotency keys, padded
    to more than the width of their columns. *)
Definition varchar (limit : N) (s : string) : DbResult () :=
  if limit <? char_count s then Err (StringTooLong limit) else Ok ().

Definition optional_varchar (limit : N) (s : option string) : DbResult () :=
  match s with Some s => varchar limit s | None => Ok () end.

(** Text cannot hold the byte zero, in a column or in a parameter. *)
Definition has_nul (s : string) : bool := contains_char "000"%char s.

Definition i64_max_Z : Z := Z.of_N i64_max.
Definition i32_max : N := 2147483647.

(** ** Tables *)

Abbreviation Scope := (string * string)%type.

(** discovery_service_instance, under [uk_discovery_service_instance_identity]. *)
Record InstanceRow : Type := {
  ir_endpoint : string;
  ir_protocol : string;
  ir_service_version : string;
  ir_region : string;
  ir_zone : string;
  ir_weight : Z;
  ir_priority : Z;
  ir_status : string;
  ir_metadata_json : string;
  ir_lease_id : string;
  ir_expires_at_ms : Z;
  ir_revision : Z;
  ir_health_check_json : option string;
  ir_health_check_state_json : string;
  ir_deleted : bool;
}.

(** discovery_config_draft, under [uk_discovery_config_draft_id]. *)
Record DraftRow : Type := {
  dw_namespace : string;
  dw_environment : string;
  dw_config_group : string;
  dw_config_key : string;
  dw_config_format : string;
  dw_config_value : string;
  dw_scope_kind : string;
  dw_scope_application : option string;
  dw_scope_service_name : option string;
  dw_created_by : string;
  dw_content_hash : string;
  dw_published : bool;
  dw_deleted : bool;
}.

(** discovery_config_release, under [uk_discovery_config_release_id]. *)
Record ReleaseRow : Type := {
  lw_draft_id : string;
  lw_namespace : string;
  lw_environment : string;
  lw_config_group : string;
  lw_config_key : string;
  lw_config_format : string;
  lw_config_value : string;
  lw_scope_kind : string;
  lw_scope_application : option string;
  lw_scope_service_name : option string;
  lw_content_hash : string;
  lw_published_by : string;
  lw_published_at_ms : Z;
  lw_revision : Z;
  lw_deleted : bool;
}.

(** discovery_idempotency_record, under [uk_discovery_idempotency_record_identity]. *)
Record IdempotencyRow : Type := {
  iw_request_hash : string;
  iw_resource_kind : string;
  iw_resource_id : string;
  iw_deleted : bool;
}.

(** discovery_watch_event, under [uk_discovery_watch_event_scope_revision]. *)
Record EventRow : Type := {
  ew_event_kind : string;
  ew_resource_id : string;
  ew_config_application : option string;
  ew_deleted : bool;
}.

(** All tables; discovery_revision_counter is under
    [uk_discovery_revision_counter_scope]. *)
Record Database : Type := {
  db_counters : gmap Scope Z;
  db_instances : gmap InstanceKey InstanceRow;
  db_drafts : gmap string DraftRow;
  db_releases : gmap string ReleaseRow;
  db_idempotency : gmap IdempotencyKey IdempotencyRow;
  db_events : gmap (Scope * Z) EventRow;
}.

(** The schema just applied. *)
Definition empty_database : Database :=
  {| db_counters := ∅; db_instances := ∅; db_drafts := ∅; db_releases := ∅;
     db_idempotency := ∅; db_events := ∅ |}.

Definition set_db_counters (m : gmap Scope Z) (d : Database) : Database :=
  {| db_counters := m; db_instances := db_instances d; db_drafts := db_drafts d;
     db_releases := db_releases d; db_idempotency := db_idempotency d;
     db_events := db_events d |}.
Definition set_db_instances (m : gmap InstanceKey InstanceRow) (d : Database) : Database :=
  {| db_counters := db_counters d; db_instances := m; db_drafts := db_drafts d;
     db_releases := db_releases d; db_idempotency := db_idempotency d;
     db_events := db_events d |}.
Definition set_db_drafts (m : gmap string DraftRow) (d : Database) : Database :=
  {| db_counters := db_counters d; db_instances := db_instances d; db_drafts := m;
     db_releases := db_releases d; db_idempotency := db_idempotency d;
     db_events := db_events d |}.
Definition set_db_releases (m : gmap string ReleaseRow) (d : Database) : Database :=
  {| db_counters := db_counters d; db_instances := db_instances d; db_drafts := db_drafts d;
     db_releases := m; db_idempotency := db_idempotency d; db_events := db_events d |}.
Definition set_db_idempotency (m : gmap IdempotencyKey IdempotencyRow) (d : Database)
    : Database :=
  {| db_counters := db_counters d; db_instances := db_instances d; db_drafts := db_drafts d;
     db_releases := db_releases d; db_idempotency := m; db_events := db_events d |}.
Definition set_db_events (m : gmap (Scope * Z) EventRow) (d : Database) : Database :=
  {| db_counters := db_counters d; db_instances := db_instances d; db_drafts := db_drafts d;
     db_releases := db_releases d; db_idempotency := db_idempotency d; db_events := m |}.

Definition scope_of_key (k : InstanceKey) : Scope := (ik_namespace k, ik_environment k).

(** The [VARCHAR] limits of an instance row. *)
Definition instance_fits (k : InstanceKey) (r : InstanceRow) : DbResult () :=
  varchar 128 (ik_namespace k);;
  varchar 64 (ik_environment k);;
  varchar 256 (ik_service_name k);;
  varchar 256 (ik_instance_id k);;
  varchar 32 (ir_protocol r);;
  varchar 128 (ir_service_version r);;
  varchar 128 (ir_region r);;
  varchar 128 (ir_zone r);;
  varchar 32 (ir_status r);;
  varchar 128 (ir_lease_id r).

Definition draft_fits (draft_id : string) (r : DraftRow) : DbResult () :=
  varchar 128 draft_id;;
  varchar 128 (dw_namespace r);;
  varchar 64 (dw_environment r);;
  varchar 256 (dw_config_group r);;
  varchar 256 (dw_config_key r);;
  varchar 32 (dw_config_format r);;
  varchar 32 (dw_scope_kind r);;
  optional_varchar 256 (dw_scope_application r);;
  optional_varchar 256 (dw_scope_service_name r);;
  varchar 256 (dw_created_by r);;
  varchar 128 (dw_content_hash r).

Definition release_fits (release_id : string) (r : ReleaseRow) : DbResult () :=
  varchar 128 release_id;;
  varchar 128 (lw_draft_id r);;
  varchar 128 (lw_namespace r);;
  varchar 64 (lw_environment r);;
  varchar 256 (lw_config_group r);;
  varchar 256 (lw_config_key r);;
  varchar 32 (lw_config_format r);;
  varchar 32 (lw_scope_kind r);;
  optional_varchar 256 (lw_scope_application r);;
  optional_varchar 256 (lw_scope_service_name r);;
  varchar 128 (lw_content_hash r);;
  varchar 256 (lw_published_by r).

Definition idempotency_fits (k : IdempotencyKey) (r : IdempotencyRow) : DbResult () :=
  varchar 256 (idk_operation_id k);;
  varchar 256 (idk_key k);;
  varchar 256 (iw_request_hash r);;
  varchar 64 (iw_resource_kind r);;
  varchar 256 (iw_resource_id r).

Definition event_fits (scope : Scope) (r : EventRow) : DbResult () :=
  varchar 128 scope.1;;
  varchar 64 scope.2;;
  varchar 64 (ew_event_kind r);;
  varchar 256 (ew_resource_id r);;
  optional_varchar 256 (ew_config_application r).
