(* ===== verification/PgSql.v ===== *)
(** * SQL statements (storage-postgres: sql.rs)

    Each constant of sql.rs as a function of its parameters on the database: the rows
    a query returns, or the database a statement leaves.  A query that gives no order
    returns its rows in an arbitrary one ([HashOrder]); [ORDER BY] on text uses the
    collation of the database. *)
From S2P Require Import Prelude RustStr Collections Contract MemoryStore Codec PgSchema.

(** What the model takes from the server, the driver and serde_json. *)
Class PgExternals : Type := {
  (** Input of [jsonb]: the text the server prints for the value, or its refusal. *)
  jsonb_in : string → Result string string;
  (** The collation [ORDER BY] compares text with. *)
  collate : string → string → comparison;
  (** Whether the server refuses, as PostgreSQL documents it, a column name in
      [DO UPDATE SET] that could be of the existing or of the proposed row; a server
      that does not takes the existing row. *)
  refuses_ambiguous_column : bool;
  (** The message of an error ([sqlx::Error] has a [Display]). *)
  db_error_text : DbError → string;
  (** The identifiers [Uuid::now_v7] yields one after the other. *)
  uuid_v7 : N → string;
  metadata_to_string : gmap string string → Result string string;
  metadata_from_str : string → Result string (gmap string string);
  check_to_string : HealthCheckConfig → Result string string;
  check_from_str : string → Result string HealthCheckConfig;
  check_state_to_string : HealthCheckRuntimeState → Result string string;
  check_state_from_str : string → Result string HealthCheckRuntimeState;
}.

Definition Statement (A : Type) : Type := Database → DbResult (Database * A).

(** A statement with these text parameters. *)
Definition with_text {A} (texts : list string) (f : Statement A) : Statement A := λ d,
  if existsb has_nul texts then Err InvalidByteSequence else f d.

Definition option_text (o : option string) : list string :=
  match o with Some s => [s] | None => [] end.

Definition key_text (k : InstanceKey) : list string :=
  [ik_namespace k; ik_environment k; ik_service_name k; ik_instance_id k].

Definition query {A} (texts : list string) (f : Database → A) : Statement A :=
  with_text texts (λ d, Ok (d, f d)).

Section statements.
Context `{PgExternals, HashOrder}.

(** ** Revisions *)

Definition NEXT_REVISION (namespace environment : string) : Statement Z :=
  if refuses_ambiguous_column then λ _, Err (AmbiguousColumn "current_revision")
  else with_text [namespace; environment] (λ d,
    varchar 128 namespace;;
    varchar 64 environment;;
    current_revision ←
      match db_counters d !! (namespace, environment) with
      | None => Ok 1%Z
      | Some current_revision =>
          if (i64_max_Z <=? current_revision)%Z then Err BigintOutOfRange
          else Ok (current_revision + 1)%Z
      end;
    Ok (set_db_counters (<[(namespace, environment) := current_revision]> (db_counters d)) d,
        current_revision)).

Definition SELECT_CURRENT_REVISION : Statement Z :=
  query [] (λ d, foldr Z.max 0%Z (hash_values (db_counters d))).

(** ** Instances *)

(** [deleted_at IS NULL AND expires_at_ms > $n]. *)
Definition row_active (now_ms : Z) (r : InstanceRow) : bool :=
  negb (ir_deleted r) && (now_ms <? ir_expires_at_ms r)%Z.

Definition row_expired (now_ms : Z) (r : InstanceRow) : bool :=
  negb (ir_deleted r) && (ir_expires_at_ms r <=? now_ms)%Z.

(** The row of an identity, if it satisfies the rest of the [WHERE] clause. *)
Definition row_where (k : InstanceKey) (f : InstanceRow → bool) (d : Database)
    : option InstanceRow :=
  r ← db_instances d !! k; if f r then Some r else None.

Definition SELECT_EXISTING_INSTANCE_LEASE (k : InstanceKey) (now_ms : Z)
    : Statement (option (string * Z)) :=
  query (key_text k) (λ d,
    r ← row_where k (row_active now_ms) d; Some (ir_lease_id r, ir_revision r)).

(** [$14::jsonb] and the like. *)
Definition to_jsonb (text : string) : DbResult string :=
  match jsonb_in text with Ok j => Ok j | Err detail => Err (InvalidJsonText detail) end.

(** Another row with this lease, deleted or not. *)
Definition lease_taken (k : InstanceKey) (lease_id : string) (d : Database) : bool :=
  existsb (λ '(k', r), negb (bool_decide (k' = k)) && bool_decide (ir_lease_id r = lease_id))
    (hash_iter (db_instances d)).

(** The row is the one proposed, with the JSON columns as bound. *)
Definition REGISTER_INSTANCE (k : InstanceKey) (r : InstanceRow)
    : Statement (InstanceKey * InstanceRow) :=
  with_text (key_text k ++ [ir_endpoint r; ir_protocol r; ir_service_version r; ir_region r;
                            ir_zone r; ir_status r; ir_metadata_json r; ir_lease_id r]
             ++ option_text (ir_health_check_json r) ++ [ir_health_check_state_json r]) (λ d,
    metadata_json ← to_jsonb (ir_metadata_json r);
    health_check_json ←
      match ir_health_check_json r with
      | Some text => j ← to_jsonb text; Ok (Some j)
      | None => Ok None
      end;
    health_check_state_json ← to_jsonb (ir_health_check_state_json r);
    let row :=
      {| ir_endpoint := ir_endpoint r; ir_protocol := ir_protocol r;
         ir_service_version := ir_service_version r; ir_region := ir_region r;
         ir_zone := ir_zone r; ir_weight := ir_weight r; ir_priority := ir_priority r;
         ir_status := ir_status r; ir_metadata_json := metadata_json;
         ir_lease_id := ir_lease_id r; ir_expires_at_ms := ir_expires_at_ms r;
         ir_revision := ir_revision r; ir_health_check_json := health_check_json;
         ir_health_check_state_json := health_check_state_json; ir_deleted := false |} in
    instance_fits k row;;
    if lease_taken k (ir_lease_id r) d
    then Err (UniqueViolation "uk_discovery_service_instance_lease")
    else Ok (set_db_instances (<[k := row]> (db_instances d)) d, (k, row))).

(** The rows an [UPDATE] changes, as they become. *)
Definition update_instances (f : InstanceKey → InstanceRow → bool)
    (g : InstanceRow → InstanceRow) (d : Database)
    : Database * list (InstanceKey * InstanceRow) :=
  (set_db_instances (map_imap (λ k r, Some (if f k r then g r else r)) (db_instances d)) d,
   (λ '(k, r), (k, g r)) <$> retain (λ '(k, r), f k r) (hash_iter (db_instances d))).

Definition set_row_lease (expires_at_ms revision : Z) (r : InstanceRow) : InstanceRow :=
  {| ir_endpoint := ir_endpoint r; ir_protocol := ir_protocol r;
     ir_service_version := ir_service_version r; ir_region := ir_region r;
     ir_zone := ir_zone r; ir_weight := ir_weight r; ir_priority := ir_priority r;
     ir_status := ir_status r; ir_metadata_json := ir_metadata_json r;
     ir_lease_id := ir_lease_id r; ir_expires_at_ms := expires_at_ms;
     ir_revision := revision; ir_health_check_json := ir_health_check_json r;
     ir_health_check_state_json := ir_health_check_state_json r;
     ir_deleted := ir_deleted r |}.

Definition set_row_status (status : string) (revision : Z) (r : InstanceRow) : InstanceRow :=
  {| ir_endpoint := ir_endpoint r; ir_protocol := ir_protocol r;
     ir_service_version := ir_service_version r; ir_region := ir_region r;
     ir_zone := ir_zone r; ir_weight := ir_weight r; ir_priority := ir_priority r;
     ir_status := status; ir_metadata_json := ir_metadata_json r;
     ir_lease_id := ir_lease_id r; ir_expires_at_ms := ir_expires_at_ms r;
     ir_revision := revision; ir_health_check_json := ir_health_check_json r;
     ir_health_check_state_json := ir_health_check_state_json r;
     ir_deleted := ir_deleted r |}.

Definition set_row_deleted (revision : Z) (r : InstanceRow) : InstanceRow :=
  {| ir_endpoint := ir_endpoint r; ir_protocol := ir_protocol r;
     ir_service_version := ir_service_version r; ir_region := ir_region r;
     ir_zone := ir_zone r; ir_weight := ir_weight r; ir_priority := ir_priority r;
     ir_status := ir_status r; ir_metadata_json := ir_metadata_json r;
     ir_lease_id := ir_lease_id r; ir_expires_at_ms := ir_expires_at_ms r;
     ir_revision := revision; ir_health_check_json := ir_health_check_json r;
     ir_health_check_state_json := ir_health_check_state_json r; ir_deleted := true |}.

Definition set_row_check_state (state_json : string) (r : InstanceRow) : InstanceRow :=
  {| ir_endpoint := ir_endpoint r; ir_protocol := ir_protocol r;
     ir_service_version := ir_service_version r; ir_region := ir_region r;
     ir_zone := ir_zone r; ir_weight := ir_weight r; ir_priority := ir_priority r;
     ir_status := ir_status r; ir_metadata_json := ir_metadata_json r;
     ir_lease_id := ir_lease_id r; ir_expires_at_ms := ir_expires_at_ms r;
     ir_revision := ir_revision r; ir_health_check_json := ir_health_check_json r;
     ir_health_check_state_json := state_json; ir_deleted := ir_deleted r |}.

(** The statement [renew_lease] (registry.rs) writes out. *)
Definition SELECT_LEASE_SCOPE (lease_id : string) (now_ms : Z)
    : Statement (list Scope) :=
  query [lease_id] (λ d,
    (λ '(k, _), scope_of_key k) <$>
      retain (λ '(_, r), bool_decide (ir_lease_id r = lease_id) && row_active now_ms r)
        (hash_iter (db_instances d))).

Definition RENEW_LEASE (lease_id : string) (expires_at_ms revision now_ms : Z)
    : Statement (list (InstanceKey * InstanceRow)) :=
  with_text [lease_id] (λ d,
    Ok (update_instances (λ _ r, bool_decide (ir_lease_id r = lease_id) && row_active now_ms r)
          (set_row_lease expires_at_ms revision) d)).

Definition REPORT_INSTANCE_STATUS (k : InstanceKey) (status : string) (revision now_ms : Z)
    : Statement (list (InstanceKey * InstanceRow)) :=
  with_text (key_text k ++ [status]) (λ d,
    varchar 32 status;;
    Ok (update_instances (λ k' r, bool_decide (k' = k) && row_active now_ms r)
          (set_row_status status revision) d)).

Definition SELECT_ACTIVE_INSTANCE_FOR_STATUS (k : InstanceKey) (now_ms : Z)
    : Statement (option Z) :=
  query (key_text k) (λ d, r ← row_where k (row_active now_ms) d; Some (ir_revision r)).

Definition DEREGISTER_INSTANCE (k : InstanceKey) (revision now_ms : Z)
    : Statement (list (InstanceKey * InstanceRow)) :=
  with_text (key_text k) (λ d,
    Ok (update_instances (λ k' r, bool_decide (k' = k) && row_active now_ms r)
          (set_row_deleted revision) d)).

Definition SELECT_ACTIVE_INSTANCE_FOR_DEREGISTER (k : InstanceKey) (now_ms : Z)
    : Statement (option ()) :=
  query (key_text k) (λ d, _ ← row_where k (row_active now_ms) d; Some ()).

(** [ORDER BY namespace, environment, service_name, instance_id]. *)
Definition collated_key : InstanceKey → InstanceKey → comparison :=
  then_with (cmp_on ik_namespace collate)
    (then_with (cmp_on ik_environment collate)
       (then_with (cmp_on ik_service_name collate) (cmp_on ik_instance_id collate))).

Definition SELECT_EXPIRED_INSTANCES (now_ms limit : Z) : Statement (list InstanceKey) :=
  query [] (λ d,
    take (Z.to_nat limit)
      (sort_by collated_key
         (retain (λ '(_, r), row_expired now_ms r) (hash_iter (db_instances d))).*1)).

Definition EXPIRE_INSTANCE (k : InstanceKey) (revision now_ms : Z)
    : Statement (list (InstanceKey * InstanceRow)) :=
  with_text (key_text k) (λ d,
    Ok (update_instances (λ k' r, bool_decide (k' = k) && row_expired now_ms r)
          (set_row_deleted revision) d)).

Definition DISCOVER_INSTANCES_PREFIX (namespace environment service_name : string)
    (now_ms : Z) (protocol : option string) (healthy_only : bool)
    : Statement (list (InstanceKey * InstanceRow)) :=
  query ([namespace; environment; service_name] ++ option_text protocol) (λ d,
    sort_by (cmp_on (ik_instance_id ∘ fst) collate)
      (retain (λ '(k, r),
         bool_decide (ik_namespace k = namespace) && bool_decide (ik_environment k = environment)
         && bool_decide (ik_service_name k = service_name) && row_active now_ms r
         && is_none_or protocol (λ p, bool_decide (ir_protocol r = p))
         && (negb healthy_only || bool_decide (ir_status r ∈ ["serving"; "degraded"])))
       (hash_iter (db_instances d)))).

Definition LIST_HEALTH_CHECK_INSTANCES (now_ms : Z)
    : Statement (list (InstanceKey * InstanceRow)) :=
  query [] (λ d,
    retain (λ '(_, r), row_active now_ms r && bool_decide (is_Some (ir_health_check_json r)))
      (hash_iter (db_instances d))).

(** The number of rows affected. *)
Definition UPDATE_HEALTH_CHECK_STATE (k : InstanceKey) (state_json : string) : Statement N :=
  with_text (key_text k ++ [state_json]) (λ d,
    j ← to_jsonb state_json;
    let '(d', rows) := update_instances (λ k' r, bool_decide (k' = k) && negb (ir_deleted r))
                         (set_row_check_state j) d in
    Ok (d', len_N rows)).

Definition RETRIEVE_INSTANCE (k : InstanceKey) (now_ms : Z)
    : Statement (option (InstanceKey * InstanceRow)) :=
  query (key_text k) (λ d, r ← row_where k (row_active now_ms) d; Some (k, r)).

(** One row of the grouped result: service name, count and greatest revision. *)
Definition LIST_SERVICES (namespace environment : string) (now_ms : Z)
    : Statement (list (string * Z * Z)) :=
  query [namespace; environment] (λ d,
    let rows := retain (λ '(k, r),
                  bool_decide (ik_namespace k = namespace)
                  && bool_decide (ik_environment k = environment) && row_active now_ms r)
                  (hash_iter (db_instances d)) in
    let names := sort_by collate (remove_dups ((λ '(k, _), ik_service_name k) <$> rows)) in
    (λ name,
       let group := retain (λ '(k, _), bool_decide (ik_service_name k = name)) rows in
       (name, Z.of_nat (length group),
        foldr Z.max 0%Z ((λ '(_, r), ir_revision r) <$> group))) <$> names).

(** ** Configuration *)

Definition INSERT_CONFIG_DRAFT (draft_id : string) (r : DraftRow) : Statement () :=
  with_text ([draft_id; dw_namespace r; dw_environment r; dw_config_group r; dw_config_key r;
              dw_config_format r; dw_config_value r; dw_scope_kind r]
             ++ option_text (dw_scope_application r) ++ option_text (dw_scope_service_name r)
             ++ [dw_created_by r; dw_content_hash r]) (λ d,
    draft_fits draft_id r;;
    match db_drafts d !! draft_id with
    | Some _ => Err (UniqueViolation "uk_discovery_config_draft_id")
    | None => Ok (set_db_drafts (<[draft_id := r]> (db_drafts d)) d, ())
    end).

Definition SELECT_CONFIG_DRAFT_FOR_PUBLISH (draft_id : string) : Statement (option DraftRow) :=
  query [draft_id] (λ d,
    r ← db_drafts d !! draft_id; if dw_deleted r then None else Some r).

Definition insert_release (release_id : string) (r : ReleaseRow) (d : Database)
    : DbResult (Database * ()) :=
  release_fits release_id r;;
  match db_releases d !! release_id with
  | Some _ => Err (UniqueViolation "uk_discovery_config_release_id")
  | None => Ok (set_db_releases (<[release_id := r]> (db_releases d)) d, ())
  end.

Definition INSERT_CONFIG_RELEASE_FROM_DRAFT (release_id published_by : string)
    (published_at_ms revision : Z) (draft_id : string) : Statement () :=
  with_text [release_id; published_by; draft_id] (λ d,
    match db_drafts d !! draft_id with
    | Some r =>
        if dw_deleted r then Ok (d, ())
        else
          insert_release release_id
            {| lw_draft_id := draft_id; lw_namespace := dw_namespace r;
               lw_environment := dw_environment r; lw_config_group := dw_config_group r;
               lw_config_key := dw_config_key r; lw_config_format := dw_config_format r;
               lw_config_value := dw_config_value r; lw_scope_kind := dw_scope_kind r;
               lw_scope_application := dw_scope_application r;
               lw_scope_service_name := dw_scope_service_name r;
               lw_content_hash := dw_content_hash r; lw_published_by := published_by;
               lw_published_at_ms := published_at_ms; lw_revision := revision;
               lw_deleted := false |} d
    | None => Ok (d, ())
    end).

Definition set_row_published (r : DraftRow) : DraftRow :=
  {| dw_namespace := dw_namespace r; dw_environment := dw_environment r;
     dw_config_group := dw_config_group r; dw_config_key := dw_config_key r;
     dw_config_format := dw_config_format r; dw_config_value := dw_config_value r;
     dw_scope_kind := dw_scope_kind r; dw_scope_application := dw_scope_application r;
     dw_scope_service_name := dw_scope_service_name r; dw_created_by := dw_created_by r;
     dw_content_hash := dw_content_hash r; dw_published := true; dw_deleted := dw_deleted r |}.

Definition MARK_DRAFT_PUBLISHED (draft_id : string) : Statement () :=
  with_text [draft_id] (λ d,
    Ok (match db_drafts d !! draft_id with
        | Some r =>
            if dw_deleted r then d
            else set_db_drafts (<[draft_id := set_row_published r]> (db_drafts d)) d
        | None => d
        end, ())).

Definition SELECT_CONFIG_RELEASE_FOR_ROLLBACK (release_id : string)
    : Statement (option ReleaseRow) :=
  query [release_id] (λ d,
    r ← db_releases d !! release_id; if lw_deleted r then None else Some r).

Definition INSERT_CONFIG_RELEASE_FROM_RELEASE (release_id : string) (r : ReleaseRow)
    : Statement () :=
  with_text ([release_id; lw_draft_id r; lw_namespace r; lw_environment r; lw_config_group r;
              lw_config_key r; lw_config_format r; lw_config_value r; lw_scope_kind r]
             ++ option_text (lw_scope_application r) ++ option_text (lw_scope_service_name r)
             ++ [lw_content_hash r; lw_published_by r])
    (insert_release release_id r).

(** The three alternatives on the scope columns; a comparison with NULL is not true. *)
Definition scope_selected (application service_name : string) (r : ReleaseRow) : bool :=
  bool_decide (lw_scope_kind r = "namespace")
  || (bool_decide (lw_scope_kind r = "application")
      && bool_decide (lw_scope_application r = Some application))
  || (bool_decide (lw_scope_kind r = "service")
      && bool_decide (lw_scope_application r = Some application)
      && bool_decide (lw_scope_service_name r = Some service_name)).

Definition SELECT_EFFECTIVE_RELEASES
    (namespace environment config_group application service_name : string)
    : Statement (list (string * ReleaseRow)) :=
  query [namespace; environment; config_group; application; service_name] (λ d,
    sort_by (cmp_on (lw_revision ∘ snd) Z.compare)
      (retain (λ '(_, r),
         bool_decide (lw_namespace r = namespace) && bool_decide (lw_environment r = environment)
         && bool_decide (lw_config_group r = config_group) && negb (lw_deleted r)
         && scope_selected application service_name r)
       (hash_iter (db_releases d)))).

(** ** Idempotency records *)

Definition SELECT_IDEMPOTENCY_RECORD (k : IdempotencyKey)
    : Statement (option IdempotencyRow) :=
  query [idk_operation_id k; idk_key k] (λ d,
    r ← db_idempotency d !! k; if iw_deleted r then None else Some r).

Definition INSERT_IDEMPOTENCY_RECORD (k : IdempotencyKey) (r : IdempotencyRow)
    : Statement () :=
  with_text [idk_operation_id k; idk_key k; iw_request_hash r; iw_resource_kind r;
             iw_resource_id r] (λ d,
    idempotency_fits k r;;
    match db_idempotency d !! k with
    | Some _ => Err (UniqueViolation "uk_discovery_idempotency_record_identity")
    | None => Ok (set_db_idempotency (<[k := r]> (db_idempotency d)) d, ())
    end).

(** ** Watch events *)

Definition INSERT_WATCH_EVENT (scope : Scope) (revision : Z) (r : EventRow) : Statement () :=
  with_text ([scope.1; scope.2; ew_event_kind r; ew_resource_id r]
             ++ option_text (ew_config_application r)) (λ d,
    event_fits scope r;;
    match db_events d !! (scope, revision) with
    | Some _ => Err (UniqueViolation "uk_discovery_watch_event_scope_revision")
    | None => Ok (set_db_events (<[(scope, revision) := r]> (db_events d)) d, ())
    end).

(** A row of [SELECT_WATCH_EVENTS]. *)
Record WatchRow : Type := {
  wr_revision : Z;
  wr_scope : Scope;
  wr_event_kind : string;
  wr_resource_id : string;
  wr_config_application : option string;
  wr_service_name : option string;
  wr_config_group : option string;
  wr_config_key : option string;
}.

Definition instance_kinds : list string :=
  ["instance_registered"; "instance_updated"; "instance_status_reported";
   "instance_renewed"; "instance_deregistered"].

Definition config_kinds : list string := ["config_published"; "config_rolled_back"].

(** A left join yields one row per partner, and one without if there is none. *)
Definition left_join {A} (l : list A) : list (option A) :=
  match l with [] => [None] | _ => Some <$> l end.

Definition joined_instances (scope : Scope) (e : EventRow) (d : Database)
    : list (option InstanceKey) :=
  left_join (retain (λ k,
    bool_decide (scope_of_key k = scope) && bool_decide (ik_instance_id k = ew_resource_id e)
    && bool_decide (ew_event_kind e ∈ instance_kinds))
    (hash_iter (db_instances d)).*1).

Definition joined_release (e : EventRow) (d : Database) : option ReleaseRow :=
  if bool_decide (ew_event_kind e ∈ config_kinds) then db_releases d !! ew_resource_id e
  else None.

Definition watch_rows (scope : Scope) (revision : Z) (e : EventRow) (d : Database)
    : list WatchRow :=
  (λ instance,
     let release := joined_release e d in
     {| wr_revision := revision; wr_scope := scope; wr_event_kind := ew_event_kind e;
        wr_resource_id := ew_resource_id e; wr_config_application := ew_config_application e;
        wr_service_name :=
          match instance with
          | Some k => Some (ik_service_name k)
          | None => r ← release; lw_scope_service_name r
          end;
        wr_config_group := lw_config_group <$> release;
        wr_config_key := lw_config_key <$> release |}) <$> joined_instances scope e d.

Definition SELECT_WATCH_EVENTS (scope : Scope) (from_revision limit : Z)
    : Statement (list WatchRow) :=
  query [scope.1; scope.2] (λ d,
    take (Z.to_nat limit)
      (mjoin ((λ '((s, revision), e), watch_rows s revision e d) <$>
        sort_by (cmp_on (snd ∘ fst) Z.compare)
          (retain (λ '((s, revision), e),
             bool_decide (s = scope) && (from_revision <? revision)%Z && negb (ew_deleted e))
           (hash_iter (db_events d)))))).

(** The events a [DELETE] keeps, and how many it removes. *)
Definition delete_events (f : Scope * Z → EventRow → bool) (d : Database) : Database * N :=
  (set_db_events (map_imap (λ k e, if f k e then None else Some e) (db_events d)) d,
   len_N (retain (λ '(k, e), f k e) (hash_iter (db_events d)))).

Definition GC_WATCH_EVENTS (before_revision limit : Z) : Statement N :=
  with_text [] (λ d,
    let revisions :=
      take (Z.to_nat limit) (sort_by Z.compare
        ((λ '((_, revision), _), revision) <$>
         retain (λ '((_, revision), e), (revision <=? before_revision)%Z && negb (ew_deleted e))
           (hash_iter (db_events d)))) in
    Ok (delete_events (λ '(_, revision) _, bool_decide (revision ∈ revisions)) d)).

(** [ROW_NUMBER() OVER (PARTITION BY resource_id ORDER BY revision DESC)] among the
    events of the scope. *)
Definition row_number (rows : list (Z * EventRow)) (revision : Z) (e : EventRow) : nat :=
  length (retain (λ '(revision', e'),
    bool_decide (ew_resource_id e' = ew_resource_id e) && (revision <=? revision')%Z) rows).

Definition COMPACT_WATCH_EVENTS (scope : Scope) (max_events_per_resource : Z) : Statement N :=
  with_text [scope.1; scope.2] (λ d,
    let rows := (λ '((_, revision), e), (revision, e)) <$>
      retain (λ '((s, _), e), bool_decide (s = scope) && negb (ew_deleted e))
        (hash_iter (db_events d)) in
    let ranked := (retain (λ '(revision, e),
      (Z.of_nat (row_number rows revision e) <=? max_events_per_resource)%Z) rows).*1 in
    Ok (delete_events (λ '(s, revision) e,
          negb (bool_decide (revision ∈ ranked)) && bool_decide (s = scope)
          && negb (ew_deleted e)) d)).

(** The count [compact_watch_events] (watch.rs) takes before and after. *)
Definition SELECT_EVENT_COUNT (scope : Scope) : Statement Z :=
  query [scope.1; scope.2] (λ d,
    Z.of_nat (length (retain (λ '((s, _), e), bool_decide (s = scope) && negb (ew_deleted e))
                        (hash_iter (db_events d))))).
End statements.
