(* ===== verification/PgCodec.v ===== *)
(** * Rows and records (storage-postgres: codec.rs, validation.rs, hash.rs, options.rs)

    The conversions between the columns of a row and the records of the contract, the
    range checks on integers, and the connection options. *)
From S2P Require Import Prelude RustStr Collections Contract MemoryStore Codec HostConfig.
From S2P Require Import PgSchema PgSql.

(** ** Validation (validation.rs) *)

Definition pg_validate_non_empty (field value : string) : DiscoveryResult () :=
  if is_blank value then Err (InvalidArgument (field +:+ " must not be empty")) else Ok ().

Definition too_large (field type : string) : DiscoveryError :=
  InvalidArgument (field +:+ " is too large for postgres " +:+ type).

Definition to_i64 (field : string) (value : N) : DiscoveryResult Z :=
  if value <=? i64_max then Ok (Z.of_N value) else Err (too_large field "BIGINT").

Definition usize_to_i64 (field : string) (value : N) : DiscoveryResult Z :=
  if value <=? i64_max then Ok (Z.of_N value) else Err (too_large field "BIGINT").

Definition i64_to_u64 (field : string) (value : Z) : DiscoveryResult N :=
  if (0 <=? value)%Z then Ok (Z.to_N value)
  else Err (InvalidConfig ("postgres returned negative " +:+ field)).

Definition u32_to_i32 (field : string) (value : N) : DiscoveryResult Z :=
  if value <=? i32_max then Ok (Z.of_N value) else Err (too_large field "INTEGER").

Definition i64_to_usize (field : string) (value : Z) : DiscoveryResult N :=
  if (0 <=? value)%Z then Ok (Z.to_N value)
  else Err (InvalidConfig ("postgres returned invalid " +:+ field)).

(** ** Enumerations (codec.rs) *)

Definition encode_instance_status (status : InstanceStatus) : string :=
  match status with
  | Serving => "serving"
  | Degraded => "degraded"
  | NotServing => "not_serving"
  end.

Definition decode_instance_status (status : string) : DiscoveryResult InstanceStatus :=
  if bool_decide (status = "serving") then Ok Serving
  else if bool_decide (status = "degraded") then Ok Degraded
  else if bool_decide (status = "not_serving") then Ok NotServing
  else Err (InvalidConfig ("postgres stored unknown instance status: " +:+ status)).

Definition encode_config_format (format : ConfigFormat) : string :=
  match format with
  | FormatText => "text"
  | FormatJson => "json"
  | FormatToml => "toml"
  end.

Definition decode_config_format (format : string) : DiscoveryResult ConfigFormat :=
  if bool_decide (format = "text") then Ok FormatText
  else if bool_decide (format = "json") then Ok FormatJson
  else if bool_decide (format = "toml") then Ok FormatToml
  else Err (InvalidConfig ("postgres stored unknown config format: " +:+ format)).

Definition encode_config_scope (scope : ConfigScope)
    : string * option string * option string :=
  match scope with
  | ScopeNamespace => ("namespace", None, None)
  | ScopeApplication application => ("application", Some application, None)
  | ScopeService application service_name =>
      ("service", Some application, Some service_name)
  end.

Definition decode_config_scope (kind : string) (application service_name : option string)
    : DiscoveryResult ConfigScope :=
  if bool_decide (kind = "namespace") then Ok ScopeNamespace
  else if bool_decide (kind = "application") then
    application ← ok_or application
      (InvalidConfig "postgres application config scope is missing application");
    Ok (ScopeApplication application)
  else if bool_decide (kind = "service") then
    application ← ok_or application
      (InvalidConfig "postgres service config scope is missing application");
    service_name ← ok_or service_name
      (InvalidConfig "postgres service config scope is missing service_name");
    Ok (ScopeService application service_name)
  else Err (InvalidConfig ("postgres stored unknown config scope: " +:+ kind)).

Definition encode_event_kind (kind : DiscoveryEventKind) : string :=
  match kind with
  | InstanceRegistered => "instance_registered"
  | InstanceUpdated => "instance_updated"
  | InstanceStatusReported => "instance_status_reported"
  | InstanceRenewed => "instance_renewed"
  | InstanceDeregistered => "instance_deregistered"
  | ConfigPublished => "config_published"
  | ConfigRolledBack => "config_rolled_back"
  end.

Definition decode_event_kind (kind : string) : DiscoveryResult DiscoveryEventKind :=
  if bool_decide (kind = "instance_registered") then Ok InstanceRegistered
  else if bool_decide (kind = "instance_updated") then Ok InstanceUpdated
  else if bool_decide (kind = "instance_status_reported") then Ok InstanceStatusReported
  else if bool_decide (kind = "instance_renewed") then Ok InstanceRenewed
  else if bool_decide (kind = "instance_deregistered") then Ok InstanceDeregistered
  else if bool_decide (kind = "config_published") then Ok ConfigPublished
  else if bool_decide (kind = "config_rolled_back") then Ok ConfigRolledBack
  else Err (InvalidConfig ("postgres stored unknown event kind: " +:+ kind)).

(** ** Rows (codec.rs) *)

Definition bind_weight (value : N) : DiscoveryResult Z := u32_to_i32 "weight" value.
Definition bind_priority (value : N) : DiscoveryResult Z := u32_to_i32 "priority" value.

(** [u32::try_from] on an [INTEGER] column. *)
Definition column_u32 (what : string) (value : Z) : DiscoveryResult N :=
  if (0 <=? value)%Z then Ok (Z.to_N value)
  else Err (InvalidConfig ("postgres returned negative " +:+ what)).

Section rows.
Context `{PgExternals}.

Definition sqlx_error (error : DbError) : DiscoveryError :=
  Unavailable ("postgres storage error: " +:+ db_error_text error).

(** [new_prefixed_id], with the next identifier of the generator. *)
Definition new_prefixed_id (prefix : string) (n : N) : string := prefix +:+ "-" +:+ uuid_v7 n.

Definition metadata_to_json (metadata : gmap string string) : DiscoveryResult string :=
  match metadata_to_string metadata with
  | Ok text => Ok text
  | Err error => Err (InvalidArgument ("invalid metadata: " +:+ error))
  end.

Definition metadata_from_json (input : string) : DiscoveryResult (gmap string string) :=
  match metadata_from_str input with
  | Ok metadata => Ok metadata
  | Err error => Err (InvalidConfig ("postgres stored invalid metadata json: " +:+ error))
  end.

Definition health_check_to_json (health_check : option HealthCheckConfig)
    : DiscoveryResult (option string) :=
  match health_check with
  | None => Ok None
  | Some config =>
      match check_to_string config with
      | Ok text => Ok (Some text)
      | Err error => Err (InvalidArgument ("invalid health_check config: " +:+ error))
      end
  end.

Definition health_check_state_to_json (state : HealthCheckRuntimeState)
    : DiscoveryResult string :=
  match check_state_to_string state with
  | Ok text => Ok text
  | Err error => Err (InvalidArgument ("invalid health_check_state: " +:+ error))
  end.

Definition health_check_from_json_text (input : option string)
    : DiscoveryResult (option HealthCheckConfig) :=
  match input with
  | Some text =>
      if is_empty text then Ok None
      else match check_from_str text with
           | Ok config => Ok (Some config)
           | Err error =>
               Err (InvalidConfig ("postgres stored invalid health_check json: " +:+ error))
           end
  | None => Ok None
  end.

Definition health_check_state_from_json_text (input : option string)
    : DiscoveryResult HealthCheckRuntimeState :=
  match input with
  | Some text =>
      if is_empty text then Ok default_health_state
      else match check_state_from_str text with
           | Ok state => Ok state
           | Err error =>
               Err (InvalidConfig
                 ("postgres stored invalid health_check_state json: " +:+ error))
           end
  | None => Ok default_health_state
  end.

Definition service_instance_from_row (row : InstanceKey * InstanceRow)
    : DiscoveryResult ServiceInstance :=
  let '(k, r) := row in
  weight ← column_u32 "weight" (ir_weight r);
  priority ← column_u32 "priority" (ir_priority r);
  status ← decode_instance_status (ir_status r);
  metadata ← metadata_from_json (ir_metadata_json r);
  expires_at_ms ← i64_to_u64 "expires_at_ms" (ir_expires_at_ms r);
  revision ← i64_to_u64 "revision" (ir_revision r);
  health_check ← health_check_from_json_text (ir_health_check_json r);
  health_check_state ← health_check_state_from_json_text (Some (ir_health_check_state_json r));
  mret {| si_namespace := ik_namespace k; si_environment := ik_environment k;
          si_service_name := ik_service_name k; si_instance_id := ik_instance_id k;
          si_endpoint := ir_endpoint r; si_protocol := ir_protocol r;
          si_version := ir_service_version r; si_region := ir_region r; si_zone := ir_zone r;
          si_weight := weight; si_priority := priority; si_status := status;
          si_metadata := metadata; si_lease_id := ir_lease_id r;
          si_expires_at_ms := expires_at_ms; si_revision := revision;
          si_health_check := health_check; si_health_check_state := health_check_state |}.

End rows.

#[global] Arguments service_instance_from_row : simpl never.
#[global] Arguments health_check_state_from_json_text : simpl never.
#[global] Arguments health_check_from_json_text : simpl never.

Definition draft_from_row (draft_id : string) (r : DraftRow) : DiscoveryResult ConfigDraft :=
  format ← decode_config_format (dw_config_format r);
  scope ← decode_config_scope (dw_scope_kind r) (dw_scope_application r)
            (dw_scope_service_name r);
  mret {| cd_draft_id := draft_id; cd_namespace := dw_namespace r;
          cd_environment := dw_environment r; cd_group := dw_config_group r;
          cd_key := dw_config_key r; cd_format := format; cd_value := dw_config_value r;
          cd_scope := scope; cd_created_by := dw_created_by r;
          cd_content_hash := dw_content_hash r; cd_published := dw_published r |}.

Definition release_from_row (release_id : string) (r : ReleaseRow)
    : DiscoveryResult ConfigRelease :=
  format ← decode_config_format (lw_config_format r);
  scope ← decode_config_scope (lw_scope_kind r) (lw_scope_application r)
            (lw_scope_service_name r);
  published_at_ms ← i64_to_u64 "published_at_ms" (lw_published_at_ms r);
  revision ← i64_to_u64 "revision" (lw_revision r);
  mret {| cr_release_id := release_id; cr_draft_id := lw_draft_id r;
          cr_namespace := lw_namespace r; cr_environment := lw_environment r;
          cr_group := lw_config_group r; cr_key := lw_config_key r; cr_format := format;
          cr_value := lw_config_value r; cr_scope := scope;
          cr_content_hash := lw_content_hash r; cr_published_by := lw_published_by r;
          cr_published_at_ms := published_at_ms; cr_revision := revision |}.

Definition event_from_row (r : WatchRow) : DiscoveryResult DiscoveryEvent :=
  revision ← i64_to_u64 "revision" (wr_revision r);
  kind ← decode_event_kind (wr_event_kind r);
  mret {| de_revision := revision; de_namespace := (wr_scope r).1;
          de_environment := (wr_scope r).2; de_kind := kind;
          de_resource_id := wr_resource_id r; de_service_name := wr_service_name r;
          de_config_group := wr_config_group r; de_config_key := wr_config_key r;
          de_config_application := wr_config_application r |}.

(** [iter().map(f).collect::<DiscoveryResult<Vec<_>>>()]. *)
Fixpoint collect {A B} (f : A → DiscoveryResult B) (l : list A) : DiscoveryResult (list B) :=
  match l with
  | [] => mret []
  | a :: l => b ← f a; bs ← collect f l; mret (b :: bs)
  end.

(** ** Connection options (options.rs) *)

Record PostgresConnectionOptions : Type := {
  pgo_host : string;
  pgo_port : N;
  pgo_database : string;
  pgo_schema : option string;
  pgo_username : option string;
  pgo_credential_source : StorageCredentialSource;
  pgo_tls_enabled : bool;
  pgo_connect_timeout_ms : N;
  pgo_max_connections : N;
}.

Definition pg_from_transport (transport : StorageTransportConfig)
    : DiscoveryResult PostgresConnectionOptions :=
  database ← ok_or (tr_database transport)
    (InvalidConfig "postgres storage requires a database name");
  let database := trim database in
  (if is_empty database
   then Err (InvalidConfig "postgres storage database name must not be empty") else Ok ());;
  mret {| pgo_host := tr_host transport; pgo_port := tr_port transport;
          pgo_database := database; pgo_schema := tr_schema transport;
          pgo_username := tr_username transport;
          pgo_credential_source := tr_credential_source transport;
          pgo_tls_enabled := tr_tls_enabled transport;
          pgo_connect_timeout_ms := tr_connect_timeout_ms transport;
          pgo_max_connections := tr_max_connections transport |}.

Definition pg_show_bool (b : bool) : string := if b then "true" else "false".

Definition ssl_mode (o : PostgresConnectionOptions) : string :=
  if pgo_tls_enabled o then "require" else "disable".

Definition address (o : PostgresConnectionOptions) : string :=
  pgo_host o +:+ ":" +:+ show_N (pgo_port o).

Definition connection_uri (o : PostgresConnectionOptions) : string :=
  let authority :=
    match pgo_username o with
    | Some username =>
        if negb (is_empty username) then username +:+ "@" +:+ address o else address o
    | None => address o
    end in
  "postgres://" +:+ authority +:+ "/" +:+ pgo_database o +:+ "?sslmode=" +:+ ssl_mode o.

Definition pg_safe_summary (o : PostgresConnectionOptions) : string :=
  "postgres host=" +:+ pgo_host o +:+ " port=" +:+ show_N (pgo_port o)
  +:+ " database=" +:+ pgo_database o +:+ " schema=" +:+ default "<none>" (pgo_schema o)
  +:+ " username=" +:+ default "<none>" (pgo_username o)
  +:+ " tls=" +:+ pg_show_bool (pgo_tls_enabled o)
  +:+ " max_connections=" +:+ show_N (pgo_max_connections o).

Section password.
(** [fs::read] and the error of [String::from_utf8], if it has one. *)
Context (read_file : string → Result string string) (utf8_error : string → option string).

Definition pg_resolve_password (o : PostgresConnectionOptions)
    : DiscoveryResult (option string) :=
  match pgo_credential_source o with
  | CredentialNone => Ok None
  | PasswordFile path =>
      let path := trim path in
      (if is_empty path
       then Err (InvalidConfig "storage password_file path must not be empty") else Ok ());;
      password ←
        match read_file path with
        | Ok bytes => Ok bytes
        | Err error => Err (InvalidConfig
            ("storage password_file could not be read: " +:+ error))
        end;
      let password := pop_ascii_whitespace password in
      (if is_empty password
       then Err (InvalidConfig "storage password_file must not be empty") else Ok ());;
      match utf8_error password with
      | Some error => Err (InvalidConfig
          ("storage password_file must be valid UTF-8: " +:+ error))
      | None => Ok (Some password)
      end
  end.

Definition database_url (o : PostgresConnectionOptions) : DiscoveryResult string :=
  password ← pg_resolve_password o;
  let authority :=
    match pgo_username o with
    | Some username =>
        if negb (is_empty username) then
          let password := default "" password in
          username +:+ (if is_empty password then "" else ":" +:+ password)
          +:+ "@" +:+ address o
        else address o
    | None => address o
    end in
  mret ("postgres://" +:+ authority +:+ "/" +:+ pgo_database o
        +:+ "?sslmode=" +:+ ssl_mode o).

(** The options the driver is given: host, port, database, mode, user, password and
    [search_path]. *)
Record PgConnectOptions : Type := {
  pco_host : string;
  pco_port : N;
  pco_database : string;
  pco_require_tls : bool;
  pco_username : option string;
  pco_password : option string;
  pco_search_path : option string;
}.

Definition to_sqlx_connect_options (o : PostgresConnectionOptions)
    : DiscoveryResult PgConnectOptions :=
  password ← pg_resolve_password o;
  mret {| pco_host := pgo_host o; pco_port := pgo_port o; pco_database := pgo_database o;
          pco_require_tls := pgo_tls_enabled o; pco_username := pgo_username o;
          pco_password := password; pco_search_path := pgo_schema o |}.

(** ** Pool configuration (database_bootstrap.rs) *)

Record DatabaseConfig : Type := {
  dbc_url : string;
  dbc_require_tls : bool;
  dbc_application_name : string;
  dbc_max_connections : N;
  dbc_min_connections : N;
  dbc_acquire_timeout_secs : N;
}.

Definition DISCOVERY_DATABASE_SERVICE_NAME : string := "DISCOVERY".

(** [u64::div_ceil]. *)
Definition div_ceil (a b : N) : N := if a mod b =? 0 then a / b else a / b + 1.

Definition postgres_database_config (o : PostgresConnectionOptions)
    : DiscoveryResult DatabaseConfig :=
  url ← database_url o;
  mret {| dbc_url := url; dbc_require_tls := pgo_tls_enabled o;
          dbc_application_name := DISCOVERY_DATABASE_SERVICE_NAME +:+ "-discovery";
          dbc_max_connections := pgo_max_connections o; dbc_min_connections := 1;
          dbc_acquire_timeout_secs :=
            N.max (div_ceil (pgo_connect_timeout_ms o) 1000) 1 |}.

(** ** The store (store.rs) *)

(** [PostgresDiscoveryStore::new_lazy]: only the options are checked. *)
Definition new_lazy (transport : StorageTransportConfig)
    : DiscoveryResult PostgresConnectionOptions :=
  connection_options ← pg_from_transport transport;
  mret connection_options.

(** [PgConnectOptions::from_str]. *)
Context (parse_url : string → Result string PgConnectOptions).

Record LazyPool : Type := {
  lp_options : PgConnectOptions;
  lp_max_connections : N;
  lp_acquire_timeout_ms : N;
}.

Definition with_tls (require : bool) (c : PgConnectOptions) : PgConnectOptions :=
  {| pco_host := pco_host c; pco_port := pco_port c; pco_database := pco_database c;
     pco_require_tls := require; pco_username := pco_username c;
     pco_password := pco_password c; pco_search_path := pco_search_path c |}.

Definition with_search_path (schema : string) (c : PgConnectOptions) : PgConnectOptions :=
  {| pco_host := pco_host c; pco_port := pco_port c; pco_database := pco_database c;
     pco_require_tls := pco_require_tls c; pco_username := pco_username c;
     pco_password := pco_password c; pco_search_path := Some schema |}.

Definition lazy_postgres_pool (o : PostgresConnectionOptions) : DiscoveryResult LazyPool :=
  config ← postgres_database_config o;
  connect_options ←
    match parse_url (dbc_url config) with
    | Ok connect_options => Ok connect_options
    | Err error => Err (InvalidConfig ("postgres url: " +:+ error))
    end;
  let connect_options := with_tls (pgo_tls_enabled o) connect_options in
  let connect_options :=
    match pgo_schema o with
    | Some schema => with_search_path schema connect_options
    | None => connect_options
    end in
  mret {| lp_options := connect_options; lp_max_connections := dbc_max_connections config;
          lp_acquire_timeout_ms := pgo_connect_timeout_ms o |}.

(** [pool], which every operation calls first; [None] stands for the panic of
    [expect]. *)
Definition pg_pool (o : PostgresConnectionOptions) : option LazyPool :=
  match lazy_postgres_pool o with Ok pool => Some pool | Err _ => None end.
End password.
