(* ===== verification/Postgres.v ===== *)
(** * PostgreSQL backend (storage-postgres: registry.rs, config.rs, watch.rs, store.rs)

    The methods of the storage contract as sequences of statements on one database.
    Each exchange with the server (a [BEGIN], a statement, a [COMMIT]) can fail, as
    [link] says of the exchanges one after the other; a failure may reach the client
    although the server has carried the exchange out.  A transaction that is not
    committed leaves nothing. *)
From S2P Require Import Prelude RustStr Collections Contract Discover StorageContract.
From S2P Require Import MemoryStore Codec HostConfig PgSchema PgSql PgCodec.

(** ** Exchanges with the server *)

Record Fault : Type := {
  ft_error : DbError;
  ft_applied : bool;
}.

(** The database, the number of exchanges so far and of identifiers generated so far. *)
Record PgWorld : Type := {
  pw_db : Database;
  pw_trips : N;
  pw_ids : N;
}.

Definition set_db (d : Database) (w : PgWorld) : PgWorld :=
  {| pw_db := d; pw_trips := pw_trips w; pw_ids := pw_ids w |}.

Definition set_trips (n : N) (w : PgWorld) : PgWorld :=
  {| pw_db := pw_db w; pw_trips := n; pw_ids := pw_ids w |}.

Definition set_ids (n : N) (w : PgWorld) : PgWorld :=
  {| pw_db := pw_db w; pw_trips := pw_trips w; pw_ids := n |}.

Section postgres.
Context `{PgExternals, HashOrder} (link : N → option Fault).
(** The hasher of the weighted shuffle and [sha256_hash] of [sdkwork_utils_rust]. *)
Context (default_hash : N → N → N) (sha256_hash : string → string).

(** One statement, as [execute], [fetch_one], [fetch_optional] or [fetch_all]. *)
Definition exec {A} (st : Statement A) : Op PgWorld A := λ w,
  let w1 := set_trips (pw_trips w + 1) w in
  match link (pw_trips w) with
  | Some fault =>
      (match st (pw_db w1) with
       | Ok (d, _) => if ft_applied fault then set_db d w1 else w1
       | Err _ => w1
       end, Err (sqlx_error (ft_error fault)))
  | None =>
      match st (pw_db w1) with
      | Ok (d, a) => (set_db d w1, Ok a)
      | Err error => (w1, Err (sqlx_error error))
      end
  end.

(** [pool.begin()], the body, [transaction.commit()]; a body that fails drops the
    transaction, which the server rolls back. *)
Definition transaction {A} (body : Op PgWorld A) : Op PgWorld A := λ w,
  let w1 := set_trips (pw_trips w + 1) w in
  match link (pw_trips w) with
  | Some fault => (w1, Err (sqlx_error (ft_error fault)))
  | None =>
      match body w1 with
      | (w2, Err error) => (set_db (pw_db w) w2, Err error)
      | (w2, Ok a) =>
          let w3 := set_trips (pw_trips w2 + 1) w2 in
          match link (pw_trips w2) with
          | None => (w3, Ok a)
          | Some fault =>
              (if ft_applied fault then w3 else set_db (pw_db w) w3,
               Err (sqlx_error (ft_error fault)))
          end
      end
  end.

Definition new_id (prefix : string) : Op PgWorld string := λ w,
  (set_ids (pw_ids w + 1) w, Ok (new_prefixed_id prefix (pw_ids w))).

(** ** Helpers (registry.rs) *)

Definition pg_next_revision (namespace environment : string) : Op PgWorld N :=
  current_revision ← exec (NEXT_REVISION namespace environment);
  lift (i64_to_u64 "revision" current_revision).

Definition insert_event (revision : N) (namespace environment : string)
    (kind : DiscoveryEventKind) (resource_id : string) (config_application : option string)
    : Op PgWorld () :=
  revision ← lift (to_i64 "revision" revision);
  exec (INSERT_WATCH_EVENT (namespace, environment) revision
          {| ew_event_kind := encode_event_kind kind; ew_resource_id := resource_id;
             ew_config_application := config_application; ew_deleted := false |}).

Definition validate_register_command (command : RegisterInstanceCommand)
    : DiscoveryResult () :=
  pg_validate_non_empty "namespace" (rc_namespace command);;
  pg_validate_non_empty "environment" (rc_environment command);;
  pg_validate_non_empty "service_name" (rc_service_name command);;
  pg_validate_non_empty "instance_id" (rc_instance_id command);;
  pg_validate_non_empty "endpoint" (rc_endpoint command);;
  pg_validate_non_empty "protocol" (rc_protocol command);;
  pg_validate_non_empty "version" (rc_version command);;
  pg_validate_non_empty "region" (rc_region command);;
  pg_validate_non_empty "zone" (rc_zone command);;
  if rc_lease_ttl_seconds command =? 0
  then Err (InvalidArgument "lease ttl must be greater than zero")
  else Ok ().

Definition pg_validate_optional_filter (field : string) (value : option string)
    : DiscoveryResult () :=
  match value with
  | Some value => pg_validate_non_empty field value
  | None => Ok ()
  end.

Definition pg_lease_expires_at_ms (now_ms lease_ttl_seconds : N) (persistent : bool)
    : DiscoveryResult N :=
  if persistent then Ok i64_max
  else
    ttl_ms ← ok_or (checked_mul lease_ttl_seconds 1000)
               (InvalidArgument "lease ttl overflows milliseconds");
    ok_or (checked_add now_ms ttl_ms) (InvalidArgument "lease expiration overflows").

Definition validate_identity (k : InstanceKey) : DiscoveryResult () :=
  pg_validate_non_empty "namespace" (ik_namespace k);;
  pg_validate_non_empty "environment" (ik_environment k);;
  pg_validate_non_empty "service_name" (ik_service_name k);;
  pg_validate_non_empty "instance_id" (ik_instance_id k).

Definition pg_conflict (expected found : N) : DiscoveryError :=
  Conflict ("expected revision " +:+ show_N expected +:+ " but found " +:+ show_N found).

(** The comparison of an expected revision with the [revision] column. *)
Definition expect_revision (expected : option N) (found : Z) : DiscoveryResult () :=
  match expected with
  | Some expected =>
      current ← i64_to_u64 "revision" found;
      if negb (current =? expected) then Err (pg_conflict expected current) else Ok ()
  | None => Ok ()
  end.

(** ** impl RegistryStore (registry.rs) *)

Definition pg_current_revision : Op PgWorld N :=
  revision ← exec SELECT_CURRENT_REVISION;
  mret (Z.to_N (revision mod Z.of_N u64_modulus)).

Definition command_key (command : RegisterInstanceCommand) : InstanceKey :=
  {| ik_namespace := rc_namespace command; ik_environment := rc_environment command;
     ik_service_name := rc_service_name command; ik_instance_id := rc_instance_id command |}.

(** What [register_instance] binds, all but the lease and the revision. *)
Record Bound : Type := {
  bd_expires_at_ms : Z;
  bd_metadata_json : string;
  bd_health_check_json : option string;
  bd_health_check_state_json : string;
  bd_weight : Z;
  bd_priority : Z;
}.

Definition bind_register (command : RegisterInstanceCommand) : DiscoveryResult Bound :=
  expires_at_ms ← pg_lease_expires_at_ms (rc_now_ms command) (rc_lease_ttl_seconds command)
                    (rc_persistent command);
  expires_at_ms ← to_i64 "expires_at_ms" expires_at_ms;
  metadata_json ← metadata_to_json (rc_metadata command);
  health_check_json ← health_check_to_json (rc_health_check command);
  health_check_state_json ← health_check_state_to_json default_health_state;
  weight ← bind_weight (rc_weight command);
  priority ← bind_priority (rc_priority command);
  mret {| bd_expires_at_ms := expires_at_ms; bd_metadata_json := metadata_json;
          bd_health_check_json := health_check_json;
          bd_health_check_state_json := health_check_state_json; bd_weight := weight;
          bd_priority := priority |}.

Definition register_row (command : RegisterInstanceCommand) (b : Bound) (lease_id : string)
    (revision : Z) : InstanceRow :=
  {| ir_endpoint := rc_endpoint command; ir_protocol := rc_protocol command;
     ir_service_version := rc_version command; ir_region := rc_region command;
     ir_zone := rc_zone command; ir_weight := bd_weight b; ir_priority := bd_priority b;
     ir_status := encode_instance_status (rc_status command);
     ir_metadata_json := bd_metadata_json b; ir_lease_id := lease_id;
     ir_expires_at_ms := bd_expires_at_ms b; ir_revision := revision;
     ir_health_check_json := bd_health_check_json b;
     ir_health_check_state_json := bd_health_check_state_json b; ir_deleted := false |}.

(** The lease that is renewed, after the check of the expected revision. *)
Definition register_lookup (command : RegisterInstanceCommand) : Op PgWorld (option string) :=
  now_ms ← lift (to_i64 "now_ms" (rc_now_ms command));
  existing ← exec (SELECT_EXISTING_INSTANCE_LEASE (command_key command) now_ms);
  match existing with
  | Some (lease_id, revision) =>
      lift (expect_revision (rc_expected_revision command) revision);;
      mret (Some lease_id)
  | None => mret None
  end.

Definition register_write (command : RegisterInstanceCommand) (b : Bound)
    (existing_lease : option string) : Op PgWorld (InstanceKey * InstanceRow) :=
  lease_id ← match existing_lease with
             | Some lease_id => mret lease_id
             | None => new_id "lease"
             end;
  revision ← pg_next_revision (rc_namespace command) (rc_environment command);
  revision_i64 ← lift (to_i64 "revision" revision);
  row ← exec (REGISTER_INSTANCE (command_key command)
                (register_row command b lease_id revision_i64));
  insert_event revision (rc_namespace command) (rc_environment command)
    (if bool_decide (is_Some existing_lease) then InstanceUpdated else InstanceRegistered)
    (rc_instance_id command) None;;
  mret row.

Definition register_result (row : InstanceKey * InstanceRow)
    : DiscoveryResult RegisterInstanceResult :=
  let '(k, r) := row in
  expires_at_ms ← i64_to_u64 "expires_at_ms" (ir_expires_at_ms r);
  revision ← i64_to_u64 "revision" (ir_revision r);
  mret {| rr_lease_id := ir_lease_id r; rr_namespace := ik_namespace k;
          rr_environment := ik_environment k; rr_service_name := ik_service_name k;
          rr_instance_id := ik_instance_id k; rr_revision := revision;
          rr_expires_at_ms := expires_at_ms |}.

Definition pg_register_instance (command : RegisterInstanceCommand)
    : Op PgWorld RegisterInstanceResult :=
  lift (validate_register_command command);;
  b ← lift (bind_register command);
  row ← transaction (existing_lease ← register_lookup command;
                     register_write command b existing_lease);
  lift (register_result row).

(** The loop of [batch_register_instances]; [index] is the position in the batch. *)
Fixpoint pg_batch_register_loop (index : N) (commands : list RegisterInstanceCommand)
    (w : PgWorld) : PgWorld * BatchRegisterResult :=
  match commands with
  | [] => (w, {| br_results := []; br_errors := [] |})
  | command :: commands =>
      let '(w1, r) := pg_register_instance command w in
      let '(w2, rest) := pg_batch_register_loop (index + 1) commands w1 in
      (w2, match r with
           | Ok result => {| br_results := result :: br_results rest;
                             br_errors := br_errors rest |}
           | Err e => {| br_results := br_results rest;
                         br_errors := {| be_index := index; be_error_code := kind_string e;
                                         be_error_message := error_to_string e |}
                                      :: br_errors rest |}
           end)
  end.

Definition pg_batch_register_instances (commands : list RegisterInstanceCommand)
    : Op PgWorld BatchRegisterResult := λ w,
  let '(w', r) := pg_batch_register_loop 0 commands w in (w', Ok r).

(** [fetch_optional] on a statement that may return several rows. *)
Definition first_row {A} (rows : list A) : option A := head rows.

Definition renew_result (row : InstanceKey * InstanceRow) : DiscoveryResult RenewLeaseResult :=
  let '(k, r) := row in
  expires_at_ms ← i64_to_u64 "expires_at_ms" (ir_expires_at_ms r);
  revision ← i64_to_u64 "revision" (ir_revision r);
  mret {| lr_lease_id := ir_lease_id r; lr_namespace := ik_namespace k;
          lr_environment := ik_environment k; lr_service_name := ik_service_name k;
          lr_instance_id := ik_instance_id k; lr_revision := revision;
          lr_expires_at_ms := expires_at_ms |}.

Definition pg_renew_lease (command : RenewLeaseCommand) : Op PgWorld RenewLeaseResult :=
  lift (pg_validate_non_empty "lease_id" (lc_lease_id command));;
  lift (if lc_lease_ttl_seconds command =? 0
        then Err (InvalidArgument "lease ttl must be greater than zero") else Ok ());;
  expires_at_ms ← lift (pg_lease_expires_at_ms (lc_now_ms command)
                          (lc_lease_ttl_seconds command) false);
  expires_at_ms ← lift (to_i64 "expires_at_ms" expires_at_ms);
  row ← transaction (
    now_ms ← lift (to_i64 "now_ms" (lc_now_ms command));
    scopes ← exec (SELECT_LEASE_SCOPE (lc_lease_id command) now_ms);
    scope ← lift (ok_or (first_row scopes) (NotFound "lease not found"));
    revision ← pg_next_revision scope.1 scope.2;
    revision_i64 ← lift (to_i64 "revision" revision);
    rows ← exec (RENEW_LEASE (lc_lease_id command) expires_at_ms revision_i64 now_ms);
    row ← lift (ok_or (first_row rows) (NotFound "lease not found"));
    insert_event revision scope.1 scope.2 InstanceRenewed (ik_instance_id row.1) None;;
    mret row);
  lift (renew_result row).

Definition status_key (command : ReportInstanceStatusCommand) : InstanceKey :=
  {| ik_namespace := sc_namespace command; ik_environment := sc_environment command;
     ik_service_name := sc_service_name command; ik_instance_id := sc_instance_id command |}.

Definition pg_report_instance_status (command : ReportInstanceStatusCommand)
    : Op PgWorld ReportInstanceStatusResult :=
  let k := status_key command in
  lift (validate_identity k);;
  row ← transaction (
    now_ms ← lift (to_i64 "now_ms" (sc_now_ms command));
    current ← exec (SELECT_ACTIVE_INSTANCE_FOR_STATUS k now_ms);
    current ← lift (ok_or current (NotFound "instance not found"));
    lift (expect_revision (sc_expected_revision command) current);;
    revision ← pg_next_revision (sc_namespace command) (sc_environment command);
    revision_i64 ← lift (to_i64 "revision" revision);
    rows ← exec (REPORT_INSTANCE_STATUS k (encode_instance_status (sc_status command))
                   revision_i64 now_ms);
    row ← lift (ok_or (first_row rows) (NotFound "instance not found"));
    insert_event revision (sc_namespace command) (sc_environment command)
      InstanceStatusReported (sc_instance_id command) None;;
    mret row);
  revision ← lift (i64_to_u64 "revision" (ir_revision row.2));
  mret {| sr_revision := revision; sr_status := sc_status command |}.

Definition deregistered (k : InstanceKey) (revision : N) : DeregisterInstanceResult :=
  {| dr_namespace := ik_namespace k; dr_environment := ik_environment k;
     dr_service_name := ik_service_name k; dr_instance_id := ik_instance_id k;
     dr_revision := revision; dr_deregistered := true |}.

Definition nothing_deregistered (k : InstanceKey) : DeregisterInstanceResult :=
  {| dr_namespace := ik_namespace k; dr_environment := ik_environment k;
     dr_service_name := ik_service_name k; dr_instance_id := ik_instance_id k;
     dr_revision := 0; dr_deregistered := false |}.

Definition pg_deregister_key (k : InstanceKey) (now_ms : N)
    : Op PgWorld DeregisterInstanceResult :=
  lift (validate_identity k);;
  transaction (
    now_ms ← lift (to_i64 "now_ms" now_ms);
    active ← exec (SELECT_ACTIVE_INSTANCE_FOR_DEREGISTER k now_ms);
    match active with
    | None => mret (nothing_deregistered k)
    | Some _ =>
        revision ← pg_next_revision (ik_namespace k) (ik_environment k);
        revision_i64 ← lift (to_i64 "revision" revision);
        rows ← exec (DEREGISTER_INSTANCE k revision_i64 now_ms);
        match first_row rows with
        | Some (k', r) =>
            insert_event revision (ik_namespace k) (ik_environment k) InstanceDeregistered
              (ik_instance_id k) None;;
            revision ← lift (i64_to_u64 "revision" (ir_revision r));
            mret (deregistered k' revision)
        | None => mret (nothing_deregistered k)
        end
    end).

Definition pg_deregister_instance (namespace environment service_name instance_id : string)
    (now_ms : N) : Op PgWorld DeregisterInstanceResult :=
  pg_deregister_key {| ik_namespace := namespace; ik_environment := environment;
                       ik_service_name := service_name; ik_instance_id := instance_id |}
    now_ms.

Fixpoint pg_batch_deregister_instances (namespace environment service_name : string)
    (instance_ids : list string) (now_ms : N)
    : Op PgWorld (list DeregisterInstanceResult) :=
  match instance_ids with
  | [] => mret []
  | instance_id :: instance_ids =>
      result ← pg_deregister_instance namespace environment service_name instance_id now_ms;
      results ← pg_batch_deregister_instances namespace environment service_name
                  instance_ids now_ms;
      mret (result :: results)
  end.

(** The [for] loop of [expire_instances]. *)
Fixpoint pg_expire_loop (now_ms : Z) (keys : list InstanceKey)
    : Op PgWorld (list DeregisterInstanceResult) :=
  match keys with
  | [] => mret []
  | k :: keys =>
      revision ← pg_next_revision (ik_namespace k) (ik_environment k);
      revision_i64 ← lift (to_i64 "revision" revision);
      rows ← exec (EXPIRE_INSTANCE k revision_i64 now_ms);
      match first_row rows with
      | Some (k', r) =>
          insert_event revision (ik_namespace k) (ik_environment k) InstanceDeregistered
            (ik_instance_id k) None;;
          revision ← lift (i64_to_u64 "revision" (ir_revision r));
          expired ← pg_expire_loop now_ms keys;
          mret (deregistered k' revision :: expired)
      | None => pg_expire_loop now_ms keys
      end
  end.

Definition pg_expire_instances (now_ms max_instances : N)
    : Op PgWorld (list DeregisterInstanceResult) :=
  lift (if max_instances =? 0
        then Err (InvalidArgument "max_instances must be greater than zero") else Ok ());;
  now_ms ← lift (to_i64 "now_ms" now_ms);
  transaction (
    limit ← lift (usize_to_i64 "max_instances" max_instances);
    keys ← exec (SELECT_EXPIRED_INSTANCES now_ms limit);
    pg_expire_loop now_ms keys).

Definition pg_discover_instances (query : DiscoverInstancesQuery) (now_ms : N)
    : Op PgWorld DiscoverInstancesResult :=
  lift (pg_validate_non_empty "namespace" (dq_namespace query));;
  lift (pg_validate_non_empty "environment" (dq_environment query));;
  lift (pg_validate_non_empty "service_name" (dq_service_name query));;
  lift (pg_validate_optional_filter "protocol" (dq_protocol query));;
  now_ms ← lift (to_i64 "now_ms" now_ms);
  rows ← exec (DISCOVER_INSTANCES_PREFIX (dq_namespace query) (dq_environment query)
                 (dq_service_name query) now_ms (dq_protocol query) (dq_healthy_only query));
  instances ← lift (collect service_instance_from_row rows);
  let revision := foldl (λ revision i, N.max revision (si_revision i)) 0 instances in
  mret (finalize_discover_instances default_hash instances query revision).

Definition query_key (query : RetrieveInstanceQuery) : InstanceKey :=
  {| ik_namespace := rq_namespace query; ik_environment := rq_environment query;
     ik_service_name := rq_service_name query; ik_instance_id := rq_instance_id query |}.

Definition pg_retrieve_instance (query : RetrieveInstanceQuery) (now_ms : N)
    : Op PgWorld (option ServiceInstance) :=
  lift (validate_identity (query_key query));;
  now_ms ← lift (to_i64 "now_ms" now_ms);
  row ← exec (RETRIEVE_INSTANCE (query_key query) now_ms);
  match row with
  | Some row => i ← lift (service_instance_from_row row); mret (Some i)
  | None => mret None
  end.

Definition service_summary (namespace environment : string) (row : string * Z * Z)
    : DiscoveryResult ServiceSummary :=
  let '(service_name, count, latest) := row in
  latest_revision ← i64_to_u64 "latest_revision" latest;
  active_instance_count ← i64_to_usize "active_instance_count" count;
  mret {| ss_namespace := namespace; ss_environment := environment;
          ss_service_name := service_name;
          ss_active_instance_count := active_instance_count;
          ss_latest_revision := latest_revision |}.

Definition pg_list_services (query : ListServicesQuery) (now_ms : N)
    : Op PgWorld ListServicesResult :=
  lift (pg_validate_non_empty "namespace" (lq_namespace query));;
  lift (pg_validate_non_empty "environment" (lq_environment query));;
  now_ms ← lift (to_i64 "now_ms" now_ms);
  rows ← exec (LIST_SERVICES (lq_namespace query) (lq_environment query) now_ms);
  services ← lift (collect (service_summary (lq_namespace query) (lq_environment query)) rows);
  let revision := foldl (λ revision s, N.max revision (ss_latest_revision s)) 0 services in
  mret (finalize_list_services services revision query).

Definition pg_list_active_instances_with_health_check (now_ms : N)
    : Op PgWorld (list ServiceInstance) :=
  now_ms ← lift (to_i64 "now_ms" now_ms);
  rows ← exec (LIST_HEALTH_CHECK_INSTANCES now_ms);
  lift (collect service_instance_from_row rows).

Definition pg_update_health_check_state
    (namespace environment service_name instance_id : string) (state : HealthCheckRuntimeState)
    : Op PgWorld () :=
  state_json ← lift (health_check_state_to_json state);
  affected ← exec (UPDATE_HEALTH_CHECK_STATE
    {| ik_namespace := namespace; ik_environment := environment;
       ik_service_name := service_name; ik_instance_id := instance_id |} state_json);
  lift (if affected =? 0 then Err (NotFound "instance not found") else Ok ()).

(** ** impl ConfigStore (config.rs) *)

Definition pg_validate_config_scope (scope : ConfigScope) : DiscoveryResult () :=
  match scope with
  | ScopeNamespace => Ok ()
  | ScopeApplication application => pg_validate_non_empty "application" application
  | ScopeService application service_name =>
      pg_validate_non_empty "application" application;;
      pg_validate_non_empty "service_name" service_name
  end.

Definition pg_validate_idempotency_context (idempotency : option IdempotencyContext)
    : DiscoveryResult () :=
  match idempotency with
  | None => Ok ()
  | Some idempotency =>
      pg_validate_non_empty "operation_id" (ic_operation_id idempotency);;
      pg_validate_non_empty "idempotency key" (ic_key idempotency);;
      pg_validate_non_empty "request_hash" (ic_request_hash idempotency)
  end.

Definition pg_validate_config_draft_command (command : CreateConfigDraftCommand)
    : DiscoveryResult () :=
  pg_validate_non_empty "namespace" (cc_namespace command);;
  pg_validate_non_empty "environment" (cc_environment command);;
  pg_validate_non_empty "group" (cc_group command);;
  pg_validate_non_empty "key" (cc_key command);;
  pg_validate_non_empty "created_by" (cc_created_by command);;
  pg_validate_config_scope (cc_scope command);;
  pg_validate_idempotency_context (cc_idempotency command).

Definition pg_validate_publish_config_command (command : PublishConfigCommand)
    : DiscoveryResult () :=
  pg_validate_non_empty "draft_id" (pc_draft_id command);;
  pg_validate_non_empty "published_by" (pc_published_by command);;
  pg_validate_idempotency_context (pc_idempotency command).

Definition pg_validate_rollback_config_command (command : RollbackConfigCommand)
    : DiscoveryResult () :=
  pg_validate_non_empty "source_release_id" (rb_source_release_id command);;
  pg_validate_non_empty "rolled_back_by" (rb_rolled_back_by command);;
  pg_validate_idempotency_context (rb_idempotency command).

Definition pg_config_application_from_scope (scope : ConfigScope) : option string :=
  match scope with
  | ScopeNamespace => None
  | ScopeApplication application | ScopeService application _ => Some application
  end.

Definition pg_idempotency_key (c : IdempotencyContext) : IdempotencyKey :=
  {| idk_operation_id := ic_operation_id c; idk_key := ic_key c |}.

(** [select_idempotency_record], with the pool or in a transaction. *)
Definition select_idempotency_record (c : option IdempotencyContext)
    : Op PgWorld (option IdempotencyRow) :=
  match c with
  | None => mret None
  | Some c => exec (SELECT_IDEMPOTENCY_RECORD (pg_idempotency_key c))
  end.

Definition validate_idempotency_record (record : IdempotencyRow)
    (expected_resource_kind : string) (c : option IdempotencyContext) : DiscoveryResult () :=
  c ← ok_or c (InvalidArgument "missing idempotency context");
  if negb (bool_decide (iw_request_hash record = ic_request_hash c))
  then Err (InvalidArgument "idempotency request hash does not match original request")
  else if negb (bool_decide (iw_resource_kind record = expected_resource_kind))
  then Err (InvalidConfig "idempotency record resource kind does not match operation")
  else Ok ().

Definition pg_replay_config_draft (c : option IdempotencyContext)
    : Op PgWorld (option ConfigDraft) :=
  record ← select_idempotency_record c;
  match record with
  | None => mret None
  | Some record =>
      lift (validate_idempotency_record record "config_draft" c);;
      row ← exec (SELECT_CONFIG_DRAFT_FOR_PUBLISH (iw_resource_id record));
      row ← lift (ok_or row (InvalidConfig "idempotency draft target is missing"));
      draft ← lift (draft_from_row (iw_resource_id record) row);
      mret (Some draft)
  end.

Definition replay_config_release_in_transaction (c : option IdempotencyContext)
    : Op PgWorld (option ConfigRelease) :=
  record ← select_idempotency_record c;
  match record with
  | None => mret None
  | Some record =>
      lift (validate_idempotency_record record "config_release" c);;
      row ← exec (SELECT_CONFIG_RELEASE_FOR_ROLLBACK (iw_resource_id record));
      row ← lift (ok_or row (InvalidConfig "idempotency release target is missing"));
      release ← lift (release_from_row (iw_resource_id record) row);
      mret (Some release)
  end.

(** [record_idempotency], with the pool or in a transaction. *)
Definition pg_record_idempotency (c : option IdempotencyContext)
    (resource_kind resource_id : string) : Op PgWorld () :=
  match c with
  | None => mret ()
  | Some c =>
      exec (INSERT_IDEMPOTENCY_RECORD (pg_idempotency_key c)
              {| iw_request_hash := ic_request_hash c; iw_resource_kind := resource_kind;
                 iw_resource_id := resource_id; iw_deleted := false |})
  end.

Definition pg_content_hash (value : string) : string := sha256_hash value.

Definition command_draft_row (command : CreateConfigDraftCommand) : DraftRow :=
  let '(scope_kind, scope_application, scope_service_name) :=
    encode_config_scope (cc_scope command) in
  {| dw_namespace := cc_namespace command; dw_environment := cc_environment command;
     dw_config_group := cc_group command; dw_config_key := cc_key command;
     dw_config_format := encode_config_format (cc_format command);
     dw_config_value := cc_value command; dw_scope_kind := scope_kind;
     dw_scope_application := scope_application; dw_scope_service_name := scope_service_name;
     dw_created_by := cc_created_by command;
     dw_content_hash := pg_content_hash (cc_value command); dw_published := false;
     dw_deleted := false |}.

Definition command_draft (command : CreateConfigDraftCommand) (draft_id : string)
    : ConfigDraft :=
  {| cd_draft_id := draft_id; cd_namespace := cc_namespace command;
     cd_environment := cc_environment command; cd_group := cc_group command;
     cd_key := cc_key command; cd_format := cc_format command; cd_value := cc_value command;
     cd_scope := cc_scope command; cd_created_by := cc_created_by command;
     cd_content_hash := pg_content_hash (cc_value command); cd_published := false |}.

Definition pg_create_config_draft (command : CreateConfigDraftCommand)
    : Op PgWorld ConfigDraft :=
  lift (pg_validate_config_draft_command command);;
  replayed ← pg_replay_config_draft (cc_idempotency command);
  match replayed with
  | Some draft => mret draft
  | None =>
      draft_id ← new_id "draft";
      exec (INSERT_CONFIG_DRAFT draft_id (command_draft_row command));;
      pg_record_idempotency (cc_idempotency command) "config_draft" draft_id;;
      mret (command_draft command draft_id)
  end.

Definition published_release (draft : ConfigDraft) (release_id : string)
    (command : PublishConfigCommand) (revision : N) : ConfigRelease :=
  {| cr_release_id := release_id; cr_draft_id := cd_draft_id draft;
     cr_namespace := cd_namespace draft; cr_environment := cd_environment draft;
     cr_group := cd_group draft; cr_key := cd_key draft; cr_format := cd_format draft;
     cr_value := cd_value draft; cr_scope := cd_scope draft;
     cr_content_hash := cd_content_hash draft; cr_published_by := pc_published_by command;
     cr_published_at_ms := pc_now_ms command; cr_revision := revision |}.

Definition pg_publish_config (command : PublishConfigCommand) : Op PgWorld ConfigRelease :=
  lift (pg_validate_publish_config_command command);;
  transaction (
    replayed ← replay_config_release_in_transaction (pc_idempotency command);
    match replayed with
    | Some release => mret release
    | None =>
        row ← exec (SELECT_CONFIG_DRAFT_FOR_PUBLISH (pc_draft_id command));
        row ← lift (ok_or row (NotFound "config draft not found"));
        draft ← lift (draft_from_row (pc_draft_id command) row);
        lift (if cd_published draft
              then Err (AlreadyPublished "config draft is already published") else Ok ());;
        revision ← pg_next_revision (cd_namespace draft) (cd_environment draft);
        release_id ← new_id "release";
        published_at_ms ← lift (to_i64 "published_at_ms" (pc_now_ms command));
        revision_i64 ← lift (to_i64 "revision" revision);
        exec (INSERT_CONFIG_RELEASE_FROM_DRAFT release_id (pc_published_by command)
                published_at_ms revision_i64 (pc_draft_id command));;
        exec (MARK_DRAFT_PUBLISHED (pc_draft_id command));;
        insert_event revision (cd_namespace draft) (cd_environment draft) ConfigPublished
          release_id (pg_config_application_from_scope (cd_scope draft));;
        pg_record_idempotency (pc_idempotency command) "config_release" release_id;;
        mret (published_release draft release_id command revision)
    end).

Definition rolled_back_release (source : ConfigRelease) (release_id : string)
    (command : RollbackConfigCommand) (revision : N) : ConfigRelease :=
  {| cr_release_id := release_id; cr_draft_id := cr_draft_id source;
     cr_namespace := cr_namespace source; cr_environment := cr_environment source;
     cr_group := cr_group source; cr_key := cr_key source; cr_format := cr_format source;
     cr_value := cr_value source; cr_scope := cr_scope source;
     cr_content_hash := cr_content_hash source; cr_published_by := rb_rolled_back_by command;
     cr_published_at_ms := rb_now_ms command; cr_revision := revision |}.

Definition copied_row (source : ConfigRelease) (command : RollbackConfigCommand)
    (published_at_ms revision : Z) : ReleaseRow :=
  let '(scope_kind, scope_application, scope_service_name) :=
    encode_config_scope (cr_scope source) in
  {| lw_draft_id := cr_draft_id source; lw_namespace := cr_namespace source;
     lw_environment := cr_environment source; lw_config_group := cr_group source;
     lw_config_key := cr_key source;
     lw_config_format := encode_config_format (cr_format source);
     lw_config_value := cr_value source; lw_scope_kind := scope_kind;
     lw_scope_application := scope_application; lw_scope_service_name := scope_service_name;
     lw_content_hash := cr_content_hash source;
     lw_published_by := rb_rolled_back_by command; lw_published_at_ms := published_at_ms;
     lw_revision := revision; lw_deleted := false |}.

Definition pg_rollback_config (command : RollbackConfigCommand) : Op PgWorld ConfigRelease :=
  lift (pg_validate_rollback_config_command command);;
  transaction (
    replayed ← replay_config_release_in_transaction (rb_idempotency command);
    match replayed with
    | Some release => mret release
    | None =>
        row ← exec (SELECT_CONFIG_RELEASE_FOR_ROLLBACK (rb_source_release_id command));
        row ← lift (ok_or row (NotFound "config release not found"));
        source ← lift (release_from_row (rb_source_release_id command) row);
        revision ← pg_next_revision (cr_namespace source) (cr_environment source);
        release_id ← new_id "release";
        published_at_ms ← lift (to_i64 "published_at_ms" (rb_now_ms command));
        revision_i64 ← lift (to_i64 "revision" revision);
        exec (INSERT_CONFIG_RELEASE_FROM_RELEASE release_id
                (copied_row source command published_at_ms revision_i64));;
        insert_event revision (cr_namespace source) (cr_environment source) ConfigRolledBack
          release_id (pg_config_application_from_scope (cr_scope source));;
        pg_record_idempotency (rb_idempotency command) "config_release" release_id;;
        mret (rolled_back_release source release_id command revision)
    end).

(** The closure [replace] of [retrieve_effective_config]. *)
Definition pg_replaces (release : ConfigRelease) (current : EffectiveConfigValue) : bool :=
  (ev_source_specificity current <? specificity (cr_scope release))
  || ((specificity (cr_scope release) =? ev_source_specificity current)
      && (ev_source_revision current <=? cr_revision release)).

Definition pg_effective_step (values : gmap string EffectiveConfigValue)
    (release : ConfigRelease) : gmap string EffectiveConfigValue :=
  if match values !! cr_key release with
     | Some current => pg_replaces release current
     | None => true
     end
  then <[cr_key release :=
           {| ev_value := cr_value release; ev_format := cr_format release;
              ev_source_release_id := cr_release_id release;
              ev_source_specificity := specificity (cr_scope release);
              ev_source_revision := cr_revision release |}]> values
  else values.

Definition pg_retrieve_effective_config (query : RetrieveEffectiveConfigQuery)
    : Op PgWorld EffectiveConfig :=
  lift (pg_validate_non_empty "namespace" (ecq_namespace query));;
  lift (pg_validate_non_empty "environment" (ecq_environment query));;
  lift (pg_validate_non_empty "application" (ecq_application query));;
  lift (pg_validate_non_empty "service_name" (ecq_service_name query));;
  lift (pg_validate_non_empty "group" (ecq_group query));;
  rows ← exec (SELECT_EFFECTIVE_RELEASES (ecq_namespace query) (ecq_environment query)
                 (ecq_group query) (ecq_application query) (ecq_service_name query));
  releases ← lift (collect (λ '(release_id, row), release_from_row release_id row) rows);
  mret {| ec_revision := foldl (λ revision r, N.max revision (cr_revision r)) 0 releases;
          ec_values := foldl pg_effective_step ∅ releases |}.

(** ** impl WatchEventStore (watch.rs) *)

Definition pg_validate_watch_query (query : WatchEventsQuery) : DiscoveryResult () :=
  pg_validate_non_empty "namespace" (wq_namespace query);;
  pg_validate_non_empty "environment" (wq_environment query);;
  pg_validate_optional_filter "service_name" (wq_service_name query);;
  pg_validate_optional_filter "config_group" (wq_config_group query);;
  pg_validate_optional_filter "config_application" (wq_config_application query);;
  if wq_max_events query =? 0
  then Err (InvalidArgument "max_events must be greater than zero") else Ok ().

Definition pg_watch_events (query : WatchEventsQuery) : Op PgWorld (list DiscoveryEvent) :=
  lift (pg_validate_watch_query query);;
  from_revision ← lift (to_i64 "from_revision" (wq_from_revision query));
  max_events ← lift (usize_to_i64 "max_events" (wq_max_events query));
  rows ← exec (SELECT_WATCH_EVENTS (wq_namespace query, wq_environment query)
                 from_revision max_events);
  events ← lift (collect event_from_row rows);
  mret (retain (matches_event query) events).

Definition pg_gc_watch_events (before_revision max_deletes : N) : Op PgWorld N :=
  before_revision ← lift (to_i64 "before_revision" before_revision);
  max_deletes ← lift (usize_to_i64 "max_deletes" max_deletes);
  exec (GC_WATCH_EVENTS before_revision max_deletes).

Definition pg_compact_watch_events (namespace environment : string)
    (max_events_per_resource : N) : Op PgWorld N :=
  lift (pg_validate_non_empty "namespace" namespace);;
  lift (pg_validate_non_empty "environment" environment);;
  before ← exec (SELECT_EVENT_COUNT (namespace, environment));
  max_events_per_resource ← lift (usize_to_i64 "max_events_per_resource"
                                    max_events_per_resource);
  exec (COMPACT_WATCH_EVENTS (namespace, environment) max_events_per_resource);;
  after ← exec (SELECT_EVENT_COUNT (namespace, environment));
  mret (Z.to_N (Z.max (before - after) 0)).

(** ** The storage contract

    A method on [&self] is the answer it gives; what it does to the count of
    exchanges does not matter to a later call of this process. *)

#[export] Instance postgres_registry_store : RegistryStore PgWorld := {|
  store_current_revision w := (pg_current_revision w).2;
  store_register_instance := pg_register_instance;
  store_batch_register_instances := pg_batch_register_instances;
  store_renew_lease := pg_renew_lease;
  store_report_instance_status := pg_report_instance_status;
  store_deregister_instance := pg_deregister_instance;
  store_batch_deregister_instances := pg_batch_deregister_instances;
  store_expire_instances := pg_expire_instances;
  store_discover_instances query now_ms w := (pg_discover_instances query now_ms w).2;
  store_retrieve_instance query now_ms w := (pg_retrieve_instance query now_ms w).2;
  store_list_services query now_ms w := (pg_list_services query now_ms w).2;
  store_list_active_instances_with_health_check now_ms w :=
    (pg_list_active_instances_with_health_check now_ms w).2;
  store_update_health_check_state := pg_update_health_check_state;
|}.

#[export] Instance postgres_config_store : ConfigStore PgWorld := {|
  store_create_config_draft := pg_create_config_draft;
  store_publish_config := pg_publish_config;
  store_rollback_config := pg_rollback_config;
  store_retrieve_effective_config query w := (pg_retrieve_effective_config query w).2;
|}.

#[export] Instance postgres_watch_store : WatchEventStore PgWorld := {|
  store_watch_events query w := (pg_watch_events query w).2;
  store_gc_watch_events := pg_gc_watch_events;
  store_compact_watch_events := pg_compact_watch_events;
|}.
End postgres.
