(* ===== verification/RegistrySpec.v ===== *)
(** * What a registry backend promises

    The abstract registry: a map from the identity of an instance to its record, and
    which answers a call may get and what it may change.  A backend that satisfies
    [RegistryBackend] can be used through this description alone; the theorems of this
    file hold of every such backend.  [MemoryBackend] and [PgTheorems] show that the
    in-memory and the PostgreSQL backend are ones. *)
From S2P Require Import Prelude RustStr Collections Contract Discover StorageContract.
From S2P Require Import MemoryStore MemoryRegistry Codec.

(** ** The abstract registry *)

Abbreviation View := (gmap InstanceKey ServiceInstance).

Inductive RegistryCall : Type :=
| DoRegister (command : RegisterInstanceCommand)
| DoRenew (command : RenewLeaseCommand)
| DoReport (command : ReportInstanceStatusCommand)
| DoDeregister (k : InstanceKey) (now_ms : N)
| DoExpire (now_ms max_instances : N)
| DoUpdateHealth (k : InstanceKey) (state : HealthCheckRuntimeState)
| DoRetrieve (k : InstanceKey) (now_ms : N)
| DoDiscover (query : DiscoverInstancesQuery) (now_ms : N).

Inductive RegistryReply : Type :=
| Registered (r : RegisterInstanceResult)
| Renewed (r : RenewLeaseResult)
| Reported (r : ReportInstanceStatusResult)
| Deregistered (r : DeregisterInstanceResult)
| Expired (l : list DeregisterInstanceResult)
| HealthUpdated
| Retrieved (o : option ServiceInstance)
| Discovered (r : DiscoverInstancesResult)
| Refused (e : DiscoveryError).

Definition live (now : N) (i : ServiceInstance) : bool := now <? si_expires_at_ms i.

Definition same_scope (k1 k2 : InstanceKey) : Prop :=
  ik_namespace k1 = ik_namespace k2 ∧ ik_environment k1 = ik_environment k2.

Definition report_key (c : ReportInstanceStatusCommand) : InstanceKey :=
  {| ik_namespace := sc_namespace c; ik_environment := sc_environment c;
     ik_service_name := sc_service_name c; ik_instance_id := sc_instance_id c |}.

Definition retrieve_query (k : InstanceKey) : RetrieveInstanceQuery :=
  {| rq_namespace := ik_namespace k; rq_environment := ik_environment k;
     rq_service_name := ik_service_name k; rq_instance_id := ik_instance_id k |}.

(** A revision newer than all of the namespace and environment of [k]. *)
Definition newer (v : View) (k : InstanceKey) (revision : N) : Prop :=
  ∀ k' i, v !! k' = Some i → same_scope k' k → si_revision i < revision.

(** An instance of this revision where the command expects another. *)
Definition mismatched (expected : option N) (o : option ServiceInstance) : Prop :=
  ∃ i n, o = Some i ∧ expected = Some n ∧ si_revision i ≠ n.

Section spec.
Context (default_hash : N → N → N).

(** The answers to a call that is carried out, and the registry after it. *)
Definition granted (v : View) (c : RegistryCall) (a : RegistryReply) (v' : View) : Prop :=
  match c, a with
  | DoRegister c, Registered r =>
      let k := register_key c in
      {| ik_namespace := rr_namespace r; ik_environment := rr_environment r;
         ik_service_name := rr_service_name r; ik_instance_id := rr_instance_id r |} = k
      ∧ (∀ i, v !! k = Some i → live (rc_now_ms c) i = true →
          rr_lease_id r = si_lease_id i
          ∧ (∀ n, rc_expected_revision c = Some n → si_revision i = n))
      ∧ (∀ k' i, v !! k' = Some i → k' ≠ k → si_lease_id i ≠ rr_lease_id r)
      ∧ newer v k (rr_revision r)
      ∧ (if rc_persistent c then i64_max <= rr_expires_at_ms r
         else rr_expires_at_ms r = rc_now_ms c + rc_lease_ttl_seconds c * 1000)
      ∧ v' = <[k := registered_instance c (rr_lease_id r) (rr_expires_at_ms r)
                      (rr_revision r)]> v
  | DoRenew c, Renewed r =>
      ∃ k i, v !! k = Some i ∧ si_lease_id i = lc_lease_id c ∧ live (lc_now_ms c) i = true
        ∧ newer v k (lr_revision r)
        ∧ lr_expires_at_ms r = lc_now_ms c + lc_lease_ttl_seconds c * 1000
        ∧ lr_lease_id r = lc_lease_id c
        ∧ {| ik_namespace := lr_namespace r; ik_environment := lr_environment r;
             ik_service_name := lr_service_name r; ik_instance_id := lr_instance_id r |} = k
        ∧ v' = <[k := set_lease (lr_expires_at_ms r) (lr_revision r) i]> v
  | DoReport c, Reported r =>
      ∃ i, v !! report_key c = Some i ∧ live (sc_now_ms c) i = true
        ∧ (∀ n, sc_expected_revision c = Some n → si_revision i = n)
        ∧ newer v (report_key c) (sr_revision r) ∧ sr_status r = sc_status c
        ∧ v' = <[report_key c := set_status (sc_status c) (sr_revision r) i]> v
  | DoDeregister k now, Deregistered r =>
      result_key r = k
      ∧ if dr_deregistered r
        then (∃ i, v !! k = Some i ∧ live now i = true) ∧ newer v k (dr_revision r)
             ∧ v' = delete k v
        else (∀ i, v !! k = Some i → live now i = false) ∧ v' = v
  | DoExpire now max, Expired l =>
      let ks := result_key <$> l in
      NoDup ks ∧ len_N ks <= max
      ∧ (∀ k, k ∈ ks → ∃ i, v !! k = Some i ∧ live now i = false)
      ∧ v' = filter (λ '(k, _), k ∉ ks) v
      ∧ (len_N ks < max → ∀ k i, v' !! k = Some i → live now i = true)
  | DoUpdateHealth k state, HealthUpdated =>
      ∃ i, v !! k = Some i ∧ v' = <[k := set_health_check_state state i]> v
  | DoRetrieve k now, Retrieved o =>
      o = (i ← v !! k; if live now i then Some i else None) ∧ v' = v
  | DoDiscover q now, Discovered r =>
      (∃ l revision, l ≡ₚ retain (discover_filter q now) (map_to_list v).*2
         ∧ r = finalize_discover_instances default_hash l q revision)
      ∧ v' = v
  | _, _ => False
  end.

(** A command a backend may refuse as invalid: a blank name, no time to live, or a
    number that the narrowest backend cannot hold. *)
Definition named (k : InstanceKey) : bool :=
  negb (is_blank (ik_namespace k)) && negb (is_blank (ik_environment k))
  && negb (is_blank (ik_service_name k)) && negb (is_blank (ik_instance_id k)).

Definition acceptable (c : RegistryCall) : bool :=
  match c with
  | DoRegister c =>
      named (register_key c) && negb (is_blank (rc_endpoint c))
      && negb (is_blank (rc_protocol c)) && negb (is_blank (rc_version c))
      && negb (is_blank (rc_region c)) && negb (is_blank (rc_zone c))
      && (0 <? rc_lease_ttl_seconds c)
      && (rc_now_ms c + rc_lease_ttl_seconds c * 1000 <=? i64_max)
      && (rc_weight c <=? 2147483647) && (rc_priority c <=? 2147483647)
  | DoRenew c =>
      negb (is_blank (lc_lease_id c)) && (0 <? lc_lease_ttl_seconds c)
      && (lc_now_ms c + lc_lease_ttl_seconds c * 1000 <=? i64_max)
  | DoReport c => named (report_key c) && (sc_now_ms c <=? i64_max)
  | DoDeregister k now => named k && (now <=? i64_max)
  | DoExpire now max => (0 <? max) && (max <=? i64_max) && (now <=? i64_max)
  | DoUpdateHealth _ _ => true
  | DoRetrieve k now => named k && (now <=? i64_max)
  | DoDiscover q now =>
      negb (is_blank (dq_namespace q)) && negb (is_blank (dq_environment q))
      && negb (is_blank (dq_service_name q))
      && is_none_or (dq_protocol q) (λ p, negb (is_blank p)) && (now <=? i64_max)
  end.

(** The refusals a call may get.  A renewal is refused when the lease is not that of a
    record that is live, or when it is one of [lost]: a lease of which the backend has
    said before that there is none. *)
Definition justified (lost : gset string) (v : View) (c : RegistryCall) (e : DiscoveryError) : Prop :=
  match e, c with
  | Unavailable _, _ => True
  | InvalidArgument _, _ => acceptable c = false
  | NotFound _, DoRenew c =>
      lc_lease_id c ∈ lost
      ∨ ∀ k i, v !! k = Some i → si_lease_id i = lc_lease_id c → live (lc_now_ms c) i = false
  | NotFound _, DoReport c =>
      ∀ i, v !! report_key c = Some i → live (sc_now_ms c) i = false
  | NotFound _, DoUpdateHealth k _ => v !! k = None
  | Conflict _, DoRegister c => mismatched (rc_expected_revision c) (v !! register_key c)
  | Conflict _, DoReport c => mismatched (sc_expected_revision c) (v !! report_key c)
  | _, _ => False
  end.

(** What a call may do.  A refusal changes nothing, except that a backend that is
    reached over a network may have carried out a call it reports as unavailable. *)
Definition allowed (lost : gset string) (v : View) (c : RegistryCall) (a : RegistryReply)
    (v' : View) : Prop :=
  match a with
  | Refused e =>
      justified lost v c e
      ∧ (v' = v ∨ (∃ m, e = Unavailable m) ∧ ∃ a', granted v c a' v')
  | a => granted v c a v'
  end.

(** The leases given up so far. *)
Definition lost_after (lost : gset string) (c : RegistryCall) (a : RegistryReply) : gset string :=
  match c, a with
  | DoRenew c, Refused (NotFound _) => {[lc_lease_id c]} ∪ lost
  | _, _ => lost
  end.

Lemma justified_mono lost lost' v c e :
  lost ⊆ lost' → justified lost v c e → justified lost' v c e.
Proof. intros Hl. destruct e, c; try done. simpl. intros [?|?]; [left; by apply Hl|by right]. Qed.

Lemma allowed_mono lost lost' v c a v' :
  lost ⊆ lost' → allowed lost v c a v' → allowed lost' v c a v'.
Proof.
  intros Hl. destruct a; try done. simpl. intros [Hj Hv]. split; [|done].
  by eapply justified_mono.
Qed.

Lemma lost_after_mono lost lost' c a : lost ⊆ lost' → lost_after lost c a ⊆ lost_after lost' c a.
Proof. intros Hl. destruct c, a; try done. simpl. destruct e; set_solver. Qed.

(** ** Backends *)

Definition reply_of {A} (f : A → RegistryReply) (r : DiscoveryResult A) : RegistryReply :=
  match r with Ok a => f a | Err e => Refused e end.

Definition run_registry {S} `{RegistryStore S} (c : RegistryCall) (s : S)
    : S * RegistryReply :=
  match c with
  | DoRegister c => let '(s', r) := store_register_instance c s in (s', reply_of Registered r)
  | DoRenew c => let '(s', r) := store_renew_lease c s in (s', reply_of Renewed r)
  | DoReport c => let '(s', r) := store_report_instance_status c s in (s', reply_of Reported r)
  | DoDeregister k now =>
      let '(s', r) := store_deregister_instance (ik_namespace k) (ik_environment k)
                        (ik_service_name k) (ik_instance_id k) now s in
      (s', reply_of Deregistered r)
  | DoExpire now max =>
      let '(s', r) := store_expire_instances now max s in (s', reply_of Expired r)
  | DoUpdateHealth k state =>
      let '(s', r) := store_update_health_check_state (ik_namespace k) (ik_environment k)
                        (ik_service_name k) (ik_instance_id k) state s in
      (s', reply_of (λ _, HealthUpdated) r)
  | DoRetrieve k now => (s, reply_of Retrieved (store_retrieve_instance (retrieve_query k) now s))
  | DoDiscover q now => (s, reply_of Discovered (store_discover_instances q now s))
  end.

(** A backend: what it holds, each record under its identity, the leases it has given up,
    its invariant, and what a call needs of the state. *)
Class RegistryBackend (S : Type) `{RegistryStore S} : Type := {
  backend_view : S → View;
  backend_lost : S → gset string;
  backend_inv : S → Prop;
  backend_ready : RegistryCall → S → Prop;
  backend_keyed s k i : backend_inv s → backend_view s !! k = Some i → key_of i = k;
  backend_sound c s :
    backend_inv s → backend_ready c s →
    backend_inv (run_registry c s).1
    ∧ allowed (backend_lost s) (backend_view s) c (run_registry c s).2
        (backend_view (run_registry c s).1)
    ∧ backend_lost (run_registry c s).1
      ⊆ lost_after (backend_lost s) c (run_registry c s).2;
}.

(** A sequence of calls and its answers. *)
Fixpoint run_calls {S} `{RegistryStore S} (cs : list RegistryCall) (s : S)
    : S * list (RegistryCall * RegistryReply) :=
  match cs with
  | [] => (s, [])
  | c :: cs =>
      let '(s1, a) := run_registry c s in
      let '(s2, l) := run_calls cs s1 in (s2, (c, a) :: l)
  end.

(** Each call finds the state it needs. *)
Fixpoint all_ready {S} `{RegistryBackend S} (cs : list RegistryCall) (s : S) : Prop :=
  match cs with
  | [] => True
  | c :: cs => backend_ready c s ∧ all_ready cs (run_registry c s).1
  end.

(** A run of the abstract registry. *)
Inductive history : gset string → View → list (RegistryCall * RegistryReply) → View → Prop :=
| history_nil lost v : history lost v [] v
| history_cons lost v c a v1 l v' :
    allowed lost v c a v1 → history (lost_after lost c a) v1 l v' →
    history lost v ((c, a) :: l) v'.

Lemma history_mono lost lost' v l v' :
  lost ⊆ lost' → history lost v l v' → history lost' v l v'.
Proof.
  intros Hl Hh. revert lost' Hl. induction Hh as [lost v|lost v c a v1 l v' Ha _ IH]; intros lost' Hl;
    [constructor|].
  econstructor; [by eapply allowed_mono|]. apply IH. by apply lost_after_mono.
Qed.

Lemma run_calls_history {S} `{RegistryBackend S} cs s :
  backend_inv s → all_ready cs s →
  backend_inv (run_calls cs s).1
  ∧ history (backend_lost s) (backend_view s) (run_calls cs s).2 (backend_view (run_calls cs s).1).
Proof.
  revert s. induction cs as [|c cs IH]; intros s Hinv Hr; [split; [done|constructor]|].
  destruct Hr as [Hc Hr]. destruct (backend_sound c s Hinv Hc) as (Hinv1 & Ha & Hlost). simpl.
  destruct (run_registry c s) as [s1 a]. simpl in *. destruct (IH s1 Hinv1 Hr) as [Hinv2 Hh].
  destruct (run_calls cs s1) as [s2 l]. split; [done|]. econstructor; [exact Ha|].
  by eapply history_mono.
Qed.

Lemma run_calls_fst {S} `{RegistryStore S} cs (s : S) : (run_calls cs s).2.*1 = cs.
Proof.
  revert s. induction cs as [|c cs IH]; intros s; [done|]. simpl.
  destruct (run_registry c s) as [s1 a]. specialize (IH s1).
  destruct (run_calls cs s1) as [s2 l]. simpl in IH. csimpl. by rewrite IH.
Qed.

(** ** Registrations last

    A call leaves the record of [k] alone: it names another instance, another lease,
    or sweeps before the record expires. *)

Definition spares (k : InstanceKey) (i : ServiceInstance) (c : RegistryCall) : bool :=
  match c with
  | DoRegister c => negb (bool_decide (register_key c = k))
  | DoRenew c => negb (bool_decide (lc_lease_id c = si_lease_id i))
  | DoReport c => negb (bool_decide (report_key c = k))
  | DoDeregister k' _ => negb (bool_decide (k' = k))
  | DoExpire now _ => live now i
  | DoUpdateHealth k' _ => negb (bool_decide (k' = k))
  | DoRetrieve _ _ | DoDiscover _ _ => true
  end.

Lemma granted_spares v c a v' k i :
  granted v c a v' → spares k i c = true → v !! k = Some i → v' !! k = Some i.
Proof.
  intros Hg Hs Hk. destruct c, a; try done; simpl in *.
  - destruct Hg as (_ & _ & _ & _ & _ & ->). rewrite negb_true_iff, bool_decide_eq_false in Hs.
    by rewrite lookup_insert_ne.
  - destruct Hg as (k' & j & Hj & Hl & _ & _ & _ & _ & _ & ->).
    rewrite negb_true_iff, bool_decide_eq_false in Hs.
    rewrite lookup_insert_ne; [done|]. intros ->. congruence.
  - destruct Hg as (j & _ & _ & _ & _ & _ & ->).
    rewrite negb_true_iff, bool_decide_eq_false in Hs. by rewrite lookup_insert_ne.
  - destruct Hg as [_ Hg]. rewrite negb_true_iff, bool_decide_eq_false in Hs.
    destruct (dr_deregistered r).
    + destruct Hg as (_ & _ & ->). by rewrite lookup_delete_ne.
    + by destruct Hg as [_ ->].
  - destruct Hg as (_ & _ & Hexp & -> & _). apply map_lookup_filter_Some. split; [done|].
    intros (j & Hj & Hd)%Hexp. congruence.
  - destruct Hg as (j & _ & ->). rewrite negb_true_iff, bool_decide_eq_false in Hs.
    by rewrite lookup_insert_ne.
  - by destruct Hg as [_ ->].
  - by destruct Hg as [_ ->].
Qed.

Lemma history_spares lost v l v' k i :
  history lost v l v' → Forall (λ x, spares k i x.1 = true) l →
  v !! k = Some i → v' !! k = Some i.
Proof.
  induction 1 as [lost v|lost v c a v1 l v' Ha _ IH]; intros Hall Hk; [done|].
  apply Forall_cons in Hall as [Hs Hall]. simpl in Hs. apply IH; [done|].
  destruct a; try by eapply granted_spares.
  destruct Ha as [_ [->|[_ [a' Hg]]]]; [done|]. by eapply granted_spares.
Qed.

Lemma granted_register v c r v' :
  granted v (DoRegister c) (Registered r) v' →
  v' !! register_key c = Some (registered_instance c (rr_lease_id r) (rr_expires_at_ms r)
                                 (rr_revision r)).
Proof. simpl. intros (_ & _ & _ & _ & _ & ->). apply lookup_insert_eq. Qed.
End spec.

#[global] Arguments backend_view {_ _ _ _} _.
#[global] Arguments backend_lost {_ _ _ _} _.
#[global] Arguments backend_inv {_ _ _ _} _.
#[global] Arguments backend_ready {_ _ _ _} _ _.
#[global] Arguments backend_sound {_ _ _ _} _ _ _ _.
