(* ===== verification/MemoryBackend.v ===== *)
(** * The in-memory registry is a registry backend

    The calls of the in-memory registry answer and change the instances as
    [RegistrySpec] allows, as long as the counters have room for the revisions and
    identifiers the call takes. *)
From S2P Require Import Prelude RustStr Collections Contract Discover StorageContract.
From S2P Require Import MemoryStore MemoryRegistry MemoryInstance Codec RegistryTheorems RegistrySpec.

Section backend.
Context `{HashOrder} (default_hash : N → N → N).

Definition call_cost (c : RegistryCall) (s : MemoryDiscoveryStore) : N :=
  match c with
  | DoExpire _ _ => N.of_nat (size (instances s))
  | _ => 1
  end.

(** The leases of records that the index no longer leads to: a renewal that found them
    expired took them out. *)
Definition memory_lost (s : MemoryDiscoveryStore) : gset string :=
  filter (λ l, lease_index s !! l = None)
    (list_to_set (si_lease_id <$> (map_to_list (instances s)).*2)).

Lemma elem_of_memory_lost s l :
  l ∈ memory_lost s ↔
  lease_index s !! l = None ∧ ∃ k i, instances s !! k = Some i ∧ si_lease_id i = l.
Proof.
  unfold memory_lost. rewrite elem_of_filter, elem_of_list_to_set, list_elem_of_fmap.
  split; intros [Hl Hi]; (split; [done|]).
  - destruct Hi as (i & -> & Hi). apply list_elem_of_fmap in Hi as ([k j] & -> & Hk).
    apply elem_of_map_to_list in Hk. by exists k, j.
  - destruct Hi as (k & i & Hk & <-). exists i. split; [done|]. apply list_elem_of_fmap.
    exists (k, i). split; [done|]. by apply elem_of_map_to_list.
Qed.

Definition memory_meets {A} (c : RegistryCall) (reply : A → RegistryReply)
    (m : Op MemoryDiscoveryStore A) (s : MemoryDiscoveryStore) : Prop :=
  let '(s', r) := m s in
  allowed default_hash (memory_lost s) (instances s) c (reply_of reply r) (instances s').

Lemma memory_guard {A B} c reply (r : DiscoveryResult A)
    (f : A → Op MemoryDiscoveryStore B) s :
  (∀ e, r = Err e → justified (memory_lost s) (instances s) c e) →
  (∀ a, r = Ok a → memory_meets c reply (f a) s) → memory_meets c reply (lift r ≫= f) s.
Proof.
  intros He Hok. unfold memory_meets. rewrite lift_bind_run. destruct r as [a|e]; [by apply Hok|].
  simpl. split; [by apply He|by left].
Qed.

Lemma query_guard {A B} lost (v : View) c (reply : B → RegistryReply) (r : DiscoveryResult A)
    (f : A → DiscoveryResult B) :
  (∀ e, r = Err e → justified lost v c e) →
  (∀ a, r = Ok a → allowed default_hash lost v c (reply_of reply (f a)) v) →
  allowed default_hash lost v c (reply_of reply (r ≫= f)) v.
Proof.
  intros He Hok. destruct r as [a|e]; [by apply Hok|]. simpl. split; [by apply He|by left].
Qed.

Lemma memory_blank_check field v e c lost (v0 : View) :
  (is_blank v = true → acceptable c = false) → validate_non_empty field v = Err e →
  justified lost v0 c e.
Proof.
  unfold validate_non_empty. destruct (is_blank v); [|done]. intros Hc [= <-].
  by apply Hc.
Qed.

Lemma memory_newer s k : store_wf s → headroom 1 s → newer (instances s) k (u64_succ (revision s)).
Proof.
  intros Hwf Hroom k' i Hi _. destruct (headroom_succ s Hroom) as [-> _].
  pose proof (rw_rev _ _ _ _ (wf_registry _ Hwf) _ _ Hi). lia.
Qed.

Lemma memory_expiry_Err now ttl e :
  lease_expires_at_ms now ttl = Err e →
  (∃ m, e = InvalidArgument m) ∧ i64_max < now + ttl * 1000.
Proof.
  assert (i64_max < u64_max) as Hlt by done. unfold lease_expires_at_ms.
  intros [E|(t & Et & E)]%result_bind_Err.
  - destruct (checked_mul ttl 1000) eqn:Em; [done|]. injection E as <-.
    apply checked_mul_None in Em. split; [by eexists|lia].
  - apply ok_or_Ok, checked_mul_Some in Et as [-> _].
    destruct (checked_add now (ttl * 1000)) eqn:Ea; [done|]. injection E as <-.
    apply checked_add_None in Ea. split; [by eexists|lia].
Qed.

Lemma memory_register_check c e lost (v : View) :
  register_checks c = Err e → justified lost v (DoRegister c) e.
Proof.
  unfold register_checks. intros E.
  repeat (apply result_bind_Err in E as [E|([] & _ & E)];
    [revert E; apply memory_blank_check; intros Hb; unfold acceptable, named, register_key;
      cbn [ik_namespace ik_environment ik_service_name ik_instance_id]; rewrite Hb;
      by rewrite ?andb_false_r|]).
  destruct (N.eqb_spec (rc_lease_ttl_seconds c) 0) as [H0|]; [|done]. injection E as <-.
  unfold justified, acceptable. rewrite H0. by rewrite !andb_false_r.
Qed.

Lemma memory_cas_Err expected o e :
  cas_check expected o = Err e → mismatched expected o ∧ ∃ m, e = Conflict m.
Proof.
  unfold cas_check. destruct expected as [n|], o as [i|]; try done.
  destruct (N.eqb_spec (si_revision i) n); [done|]. intros [= <-].
  split; [by exists i, n|]. unfold revision_conflict. eauto.
Qed.

Lemma memory_cas_Ok expected i n :
  cas_check expected (Some i) = Ok () → expected = Some n → si_revision i = n.
Proof. intros E ->. simpl in E. by destruct (N.eqb_spec (si_revision i) n). Qed.

Lemma memory_register c s :
  store_wf s → headroom 1 s → memory_meets (DoRegister c) Registered (register_instance c) s.
Proof.
  intros Hwf Hroom. unfold memory_meets. rewrite register_instance_run.
  destruct (register_checks c) as [u|e] eqn:Ec; cycle 1.
  { split; [by apply memory_register_check|by left]. }
  destruct (cas_check _ _) as [u'|e] eqn:Ecas; cycle 1.
  { apply memory_cas_Err in Ecas as [Hm [m ->]]. split; [done|by left]. }
  destruct u'. destruct (lease_for c s) as [lease seq] eqn:El.
  pose proof (lease_for_fresh _ _ _ _ (wf_registry _ Hwf) Hroom El) as (_ & _ & Hfresh).
  destruct (expiry_of c) as [x|e] eqn:Ex; cycle 1.
  { unfold expiry_of in Ex. destruct (rc_persistent c); [done|].
    apply memory_expiry_Err in Ex as [[m ->] Hlt]. split; [|by left].
    unfold justified, acceptable. rewrite !andb_false_iff, N.leb_gt. tauto. }
  simpl. split_and!; [done| | |by apply memory_newer| |done].
  - intros i Hi Hl. unfold lease_for in El. rewrite Hi in El, Ecas. simpl in El.
    unfold live in Hl. rewrite Hl in El. injection El as <- _. split; [done|].
    intros n. by apply memory_cas_Ok.
  - intros k' i Hi Hne E. apply Hne. by apply (Hfresh k' i).
  - unfold expiry_of in Ex. destruct (rc_persistent c); [by injection Ex as <-|].
    apply result_bind_Ok in Ex as (t & Et & Ex). apply ok_or_Ok, checked_mul_Some in Et as [-> _].
    by apply ok_or_Ok, checked_add_Some in Ex as [-> _].
Qed.

Lemma memory_renew c s :
  store_wf s → headroom 1 s → memory_meets (DoRenew c) Renewed (renew_lease c) s.
Proof.
  intros Hwf Hroom. apply memory_guard; [|intros [] _].
  { intros e. apply memory_blank_check. intros Hb. simpl. by rewrite Hb. }
  apply memory_guard; [|intros [] _].
  { intros e. destruct (N.eqb_spec (lc_lease_ttl_seconds c) 0) as [Ht|]; [|done]. intros [= <-].
    unfold justified, acceptable. rewrite Ht. simpl. by rewrite andb_false_r. }
  unfold memory_meets. rewrite gets_bind_run, lift_bind_run.
  destruct (lease_index s !! lc_lease_id c) as [k|] eqn:Ek; simpl ok_or; cycle 1.
  { split; [|by left]. simpl. rewrite elem_of_memory_lost.
    destruct (decide (lc_lease_id c ∈ si_lease_id <$> (map_to_list (instances s)).*2)) as [Hl|Hl].
    - left. split; [done|]. apply list_elem_of_fmap in Hl as (i & -> & Hi).
      apply list_elem_of_fmap in Hi as ([k j] & -> & Hk). apply elem_of_map_to_list in Hk.
      by exists k, j.
    - right. intros k i Hk El. destruct Hl. apply list_elem_of_fmap. exists i. split; [done|].
      apply list_elem_of_fmap. exists (k, i). split; [done|]. by apply elem_of_map_to_list. }
  cbv beta iota. rewrite lift_bind_run.
  destruct (lease_expires_at_ms _ _) as [x|e] eqn:Ex; cycle 1.
  { apply memory_expiry_Err in Ex as [[m ->] Hlt]. split; [|by left].
    unfold justified, acceptable. rewrite !andb_false_iff, N.leb_gt. tauto. }
  apply result_bind_Ok in Ex as (t & Et & Ex). apply ok_or_Ok, checked_mul_Some in Et as [-> _].
  apply ok_or_Ok, checked_add_Some in Ex as [-> _].
  destruct (rw_index _ _ _ _ (wf_registry _ Hwf) _ _ Ek) as (i & Hi & Hl).
  rewrite gets_bind_run, lift_bind_run, Hi. simpl ok_or. cbv beta iota.
  destruct (N.leb_spec (si_expires_at_ms i) (lc_now_ms c)).
  { split; [|by left]. right. intros k' j Hj El.
    assert (k' = k) as -> by (eapply rw_unique; [apply Hwf|exact Hj|exact Hi|by rewrite El]).
    rewrite Hi in Hj. injection Hj as <-. by apply N.ltb_ge. }
  pose proof (rw_key _ _ _ _ (wf_registry _ Hwf) _ _ Hi) as Hk.
  exists k, i. simpl. split_and!; try done; [|by apply memory_newer].
  by apply N.ltb_lt.
Qed.

Lemma memory_report c s :
  store_wf s → headroom 1 s → memory_meets (DoReport c) Reported (report_instance_status c) s.
Proof.
  intros Hwf Hroom.
  do 4 (apply memory_guard; [intros e; apply memory_blank_check; intros Hb;
    unfold acceptable, named, report_key;
    cbn [ik_namespace ik_environment ik_service_name ik_instance_id]; rewrite Hb;
    by rewrite ?andb_false_r|intros [] _]).
  unfold memory_meets. rewrite gets_bind_run, lift_bind_run. fold (report_key c).
  destruct (instances s !! report_key c) as [i|] eqn:Hi; simpl ok_or; cycle 1.
  { split; [|by left]. simpl. rewrite Hi. done. }
  cbv beta iota. rewrite lift_bind_run.
  destruct (N.leb_spec (si_expires_at_ms i) (sc_now_ms c)).
  { split; [|by left]. simpl. rewrite Hi. intros j [= <-]. by apply N.ltb_ge. }
  rewrite lift_bind_run. destruct (cas_check _ _) as [u'|e] eqn:Ecas; cycle 1.
  { apply memory_cas_Err in Ecas as [Hm [m ->]]. split; [|by left]. simpl. by rewrite Hi. }
  destruct u'. exists i. simpl. split_and!; [done|by apply N.ltb_lt| |by apply memory_newer|done|done].
  intros n. by apply memory_cas_Ok.
Qed.

Lemma memory_deregister k now s :
  store_wf s → headroom 1 s →
  memory_meets (DoDeregister k now) Deregistered
    (deregister_instance (ik_namespace k) (ik_environment k) (ik_service_name k)
       (ik_instance_id k) now) s.
Proof.
  intros Hwf Hroom.
  do 4 (apply memory_guard; [intros e; apply memory_blank_check; intros Hb;
    unfold acceptable, named; rewrite Hb; by rewrite ?andb_false_r|intros [] _]).
  unfold memory_meets. rewrite gets_bind_run.
  replace {| ik_namespace := _ |} with k by by destruct k.
  destruct (instances s !! k) as [i|] eqn:Hi; simpl.
  - destruct (N.leb_spec (si_expires_at_ms i) now); simpl.
    + split; [by destruct k|]. rewrite Hi. split; [|done]. intros j [= <-]. by apply N.ltb_ge.
    + pose proof (rw_key _ _ _ _ (wf_registry _ Hwf) _ _ Hi) as Hk. split; [done|].
      split_and!; [|by apply memory_newer|done]. exists i. split; [done|]. by apply N.ltb_lt.
  - split; [by destruct k|]. rewrite Hi. done.
Qed.

Lemma memory_expire now max s :
  store_wf s → memory_meets (DoExpire now max) Expired (expire_instances now max) s.
Proof.
  intros Hwf. apply memory_guard; [|intros [] _].
  { intros e. destruct (N.eqb_spec max 0) as [->|]; [|done]. by intros [= <-]. }
  unfold memory_meets. rewrite gets_bind_run.
  set (ks := take_N max (expired_keys now s)).
  assert (NoDup ks) as Hnd.
  { eapply sublist_NoDup; [apply NoDup_expired_keys|]. unfold ks. rewrite take_N_take. apply sublist_take. }
  assert (∀ k, k ∈ ks → ∃ i, instances s !! k = Some i ∧ live now i = false) as Hex.
  { intros k (i & Hi & Hle)%elem_of_take_N%elem_of_expired_keys. exists i. split; [done|].
    by apply N.ltb_ge. }
  destruct (expire_loop_spec ks s) as (s' & l & -> & Hks & Hs'); [apply Hwf|done| |].
  { intros k (i & Hi & _)%Hex. eauto. }
  assert (instances s' = filter (λ '(k, _), k ∉ ks) (instances s)) as Hv.
  { apply map_eq. intros k. apply option_eq. intros i.
    rewrite Hs', map_lookup_filter_Some. case_bool_decide; naive_solver. }
  simpl. rewrite Hks. split_and!; [done| |done|done|].
  - unfold ks. rewrite take_N_length. lia.
  - intros Hlt k i Hi. rewrite Hv in Hi. apply map_lookup_filter_Some in Hi as [Hi Hnot].
    unfold live. apply N.ltb_lt. destruct (N.lt_ge_cases now (si_expires_at_ms i)); [done|].
    destruct Hnot. unfold ks in *. rewrite take_N_length in Hlt.
    rewrite take_N_all by lia. apply elem_of_expired_keys. eauto.
Qed.

Lemma memory_update_health k state s :
  memory_meets (DoUpdateHealth k state) (λ _, HealthUpdated)
    (update_health_check_state (ik_namespace k) (ik_environment k) (ik_service_name k)
       (ik_instance_id k) state) s.
Proof.
  unfold memory_meets, update_health_check_state. rewrite gets_bind_run, lift_bind_run.
  replace {| ik_namespace := _ |} with k by by destruct k.
  destruct (instances s !! k) as [i|] eqn:Hi; simpl; [by exists i|]. split; [done|by left].
Qed.

Lemma memory_retrieve k now s :
  allowed default_hash (memory_lost s) (instances s) (DoRetrieve k now)
    (reply_of Retrieved (retrieve_instance (retrieve_query k) now s)) (instances s).
Proof.
  unfold retrieve_instance. replace {| ik_namespace := _ |} with k by by destruct k.
  do 4 (apply query_guard; [intros e; apply memory_blank_check; intros Hb;
    unfold acceptable, named; simpl in Hb; rewrite Hb; by rewrite ?andb_false_r|intros [] _]).
  done.
Qed.

Lemma memory_discover q now s :
  allowed default_hash (memory_lost s) (instances s) (DoDiscover q now)
    (reply_of Discovered (discover_instances default_hash q now s)) (instances s).
Proof.
  unfold discover_instances.
  do 3 (apply query_guard; [intros e; apply memory_blank_check; intros Hb;
    unfold acceptable; rewrite Hb; by rewrite ?andb_false_r|intros [] _]).
  apply query_guard; [|intros [] _].
  { intros e. unfold validate_optional_filter. destruct (dq_protocol q) as [p|] eqn:Ep; [|done].
    apply memory_blank_check. intros Hb. unfold acceptable. rewrite Ep. simpl.
    rewrite Hb. simpl. by rewrite !andb_false_r. }
  simpl. split; [|done]. eexists _, _. split; [|done].
  apply retain_perm. unfold hash_values. by rewrite hash_iter_perm.
Qed.

(** *** Leases given up *)

(** The same leases under the same index. *)
Lemma lost_same s s' :
  lease_index s' = lease_index s →
  (∀ k i', instances s' !! k = Some i' →
     ∃ i, instances s !! k = Some i ∧ si_lease_id i = si_lease_id i') →
  memory_lost s' ⊆ memory_lost s.
Proof.
  intros Hidx Hi l. rewrite !elem_of_memory_lost, Hidx. intros [Hl (k & i' & Hk & <-)].
  split; [done|]. apply Hi in Hk as (i & Hk & Ei). by exists k, i.
Qed.

(** A record is replaced by one with the same lease. *)
Lemma lost_insert s s' k i i' :
  lease_index s' = lease_index s → instances s !! k = Some i →
  si_lease_id i' = si_lease_id i → instances s' = <[k := i']> (instances s) →
  memory_lost s' ⊆ memory_lost s.
Proof.
  intros Hidx Hi El Hs. apply lost_same; [done|]. intros k' j. rewrite Hs.
  intros [[<- <-]|[_ Hj]]%lookup_insert_Some; [by exists i|by exists j].
Qed.

Definition unique_leases (insts : gmap InstanceKey ServiceInstance) : Prop :=
  ∀ k1 k2 i1 i2, insts !! k1 = Some i1 → insts !! k2 = Some i2 →
    si_lease_id i1 = si_lease_id i2 → k1 = k2.

Lemma lost_remove k i s :
  unique_leases (instances s) → instances s !! k = Some i →
  memory_lost (remove_instance k i s).1 ⊆ memory_lost s
  ∧ unique_leases (instances (remove_instance k i s).1).
Proof.
  intros Hu Hi. rewrite remove_instance_run. split.
  - intros l. rewrite !elem_of_memory_lost. simpl. intros [Hl (k' & j & Hj & <-)].
    apply lookup_delete_Some in Hj as [Hne Hj]. split; [|by exists k', j].
    rewrite lookup_delete_ne in Hl; [done|]. intros E. apply Hne. by eapply Hu.
  - simpl. intros k1 k2 i1 i2 [_ H1]%lookup_delete_Some [_ H2]%lookup_delete_Some. by apply Hu.
Qed.

Lemma lost_expire ks s :
  unique_leases (instances s) → memory_lost (expire_loop ks s).1 ⊆ memory_lost s.
Proof.
  revert s. induction ks as [|k ks IH]; intros s Hu; [done|]. rewrite expire_loop_cons.
  destruct (instances s !! k) as [i|] eqn:Hi; [|by apply IH].
  destruct (lost_remove k i s Hu Hi) as [H1 Hu1].
  destruct (remove_instance k i s) as [s1 [r|e]]; simpl in *; [|done].
  specialize (IH s1 Hu1). destruct (expire_loop ks s1) as [s2 [l|e]]; simpl in *; set_solver.
Qed.

Lemma lost_register c s :
  store_wf s → headroom 1 s → memory_lost (register_instance c s).1 ⊆ memory_lost s.
Proof.
  intros Hwf Hroom. rewrite register_instance_run. destruct (register_checks c); [|done].
  destruct (cas_check _ _); [|done]. destruct (lease_for c s) as [lease seq] eqn:El.
  pose proof (lease_for_fresh _ _ _ _ (wf_registry _ Hwf) Hroom El) as (_ & _ & Hfresh).
  destruct (expiry_of c) as [x|e]; simpl; [|by apply lost_same; eauto].
  intros l. rewrite !elem_of_memory_lost. simpl. intros [Hl (k & i & Hi & <-)].
  apply lookup_insert_None in Hl as [Hl Hne].
  apply lookup_insert_Some in Hi as [[_ <-]|[Hk Hi]]; [by destruct Hne|].
  split; [|by exists k, i].
  destruct (instances s !! register_key c) as [p|] eqn:Ep; [|done].
  case_bool_decide; simpl in Hl; [done|]. rewrite lookup_delete_ne in Hl; [done|].
  intros E. apply Hk. by eapply rw_unique; [apply Hwf|..].
Qed.

Lemma lost_renew c s :
  memory_lost (renew_lease c s).1
  ⊆ lost_after (memory_lost s) (DoRenew c) (reply_of Renewed (renew_lease c s).2).
Proof.
  unfold renew_lease. rewrite lift_bind_run. destruct (validate_non_empty _ _) as [?|e] eqn:Ev.
  2:{ simpl. destruct e; set_solver. }
  rewrite lift_bind_run. destruct (if _ =? 0 then _ else _) as [?|e]; [|simpl; destruct e; set_solver].
  rewrite gets_bind_run, lift_bind_run.
  destruct (lease_index s !! lc_lease_id c) as [k|]; [|simpl; set_solver]. simpl ok_or. cbv beta iota.
  rewrite lift_bind_run. destruct (lease_expires_at_ms _ _) as [x|e]; [|simpl; destruct e; set_solver].
  rewrite gets_bind_run, lift_bind_run.
  destruct (instances s !! k) as [i|] eqn:Hi; simpl ok_or; cbv beta iota; [|simpl; set_solver].
  destruct (N.leb_spec (si_expires_at_ms i) (lc_now_ms c)); simpl; [|eapply lost_insert; [reflexivity|exact Hi| |reflexivity]; reflexivity].
  intros l. rewrite elem_of_union, elem_of_singleton, !elem_of_memory_lost. simpl.
  intros [[Hl|Hl]%lookup_delete_None Hk]; [by left|by right].
Qed.

Lemma lost_report c s : memory_lost (report_instance_status c s).1 ⊆ memory_lost s.
Proof.
  unfold report_instance_status. rewrite !lift_bind_run.
  do 4 (destruct (validate_non_empty _ _); [rewrite ?lift_bind_run|done]).
  rewrite gets_bind_run, lift_bind_run. destruct (instances s !! _) as [i|] eqn:Hi; [|done].
  simpl ok_or. cbv beta iota. rewrite lift_bind_run. destruct (if _ <=? _ then _ else _); [|done].
  rewrite lift_bind_run. destruct (cas_check _ _); [|done]. rewrite eff_bind_run. simpl.
  eapply lost_insert; [reflexivity|exact Hi| |reflexivity]; reflexivity.
Qed.

Lemma lost_deregister k now s :
  unique_leases (instances s) →
  memory_lost (deregister_instance (ik_namespace k) (ik_environment k) (ik_service_name k)
    (ik_instance_id k) now s).1 ⊆ memory_lost s.
Proof.
  intros Hu. destruct (deregister_instance_run (ik_namespace k) (ik_environment k)
    (ik_service_name k) (ik_instance_id k) now s) as [r [->|(i & Hi & _ & ->)]]; [done|].
  by apply lost_remove.
Qed.

Lemma lost_expire_instances now max s :
  unique_leases (instances s) → memory_lost (expire_instances now max s).1 ⊆ memory_lost s.
Proof.
  intros Hu. unfold expire_instances. rewrite lift_bind_run.
  destruct (if max =? 0 then _ else _); [|done]. rewrite gets_bind_run. by apply lost_expire.
Qed.

Lemma lost_update_health k state s :
  memory_lost (update_health_check_state (ik_namespace k) (ik_environment k) (ik_service_name k)
    (ik_instance_id k) state s).1 ⊆ memory_lost s.
Proof.
  unfold update_health_check_state. rewrite gets_bind_run, lift_bind_run.
  destruct (instances s !! _) as [i|] eqn:Hi; simpl; [|done]. eapply lost_insert; [reflexivity|exact Hi| |reflexivity]; reflexivity.
Qed.

#[local] Existing Instance memory_registry_store.

#[export] Instance memory_backend :
  @RegistryBackend default_hash MemoryDiscoveryStore (memory_registry_store default_hash).
Proof.
  refine {| backend_view := instances; backend_lost := memory_lost; backend_inv := store_wf;
            backend_ready c s := headroom (call_cost c s) s |}.
  { intros s k i Hwf Hk. exact (rw_key _ _ _ _ (wf_registry _ Hwf) _ _ Hk). }
  intros c s Hwf Hroom.
  assert (unique_leases (instances s)) as Hu by (intros ????; by eapply rw_unique, Hwf).
  destruct c; simpl in *.
  - pose proof (register_instance_wf command s Hwf Hroom).
    pose proof (lost_register command s Hwf Hroom).
    pose proof (memory_register command s Hwf Hroom) as Hm. unfold memory_meets in Hm.
    by destruct (register_instance command s).
  - pose proof (renew_lease_wf command s Hwf Hroom). pose proof (lost_renew command s).
    pose proof (memory_renew command s Hwf Hroom) as Hm. unfold memory_meets in Hm.
    by destruct (renew_lease command s).
  - pose proof (report_instance_status_wf command s Hwf Hroom).
    pose proof (lost_report command s).
    pose proof (memory_report command s Hwf Hroom) as Hm. unfold memory_meets in Hm.
    by destruct (report_instance_status command s).
  - pose proof (deregister_instance_wf (ik_namespace k) (ik_environment k) (ik_service_name k)
                  (ik_instance_id k) now_ms s Hwf Hroom).
    pose proof (lost_deregister k now_ms s Hu).
    pose proof (memory_deregister k now_ms s Hwf Hroom) as Hm. unfold memory_meets in Hm.
    by destruct (deregister_instance _ _ _ _ _ s).
  - pose proof (expire_instances_wf now_ms max_instances s Hwf Hroom).
    pose proof (lost_expire_instances now_ms max_instances s Hu).
    pose proof (memory_expire now_ms max_instances s Hwf) as Hm. unfold memory_meets in Hm.
    by destruct (expire_instances _ _ s).
  - pose proof (update_health_check_state_wf (ik_namespace k) (ik_environment k) (ik_service_name k)
                  (ik_instance_id k) state s Hwf).
    pose proof (lost_update_health k state s).
    pose proof (memory_update_health k state s) as Hm. unfold memory_meets in Hm.
    by destruct (update_health_check_state _ _ _ _ _ s).
  - split; [done|]. split; [apply memory_retrieve|done].
  - split; [done|]. split; [apply memory_discover|done].
Defined.
End backend.
