(* ===== verification/PgLemmas.v ===== *)
(** * The PostgreSQL database: invariant and statements

    What the operations of [Postgres] do to the tables, in terms of what the tables
    hold: the decoded instances that are not deleted ([pg_view]), and the invariant
    ([db_wf]) every operation preserves. *)
From S2P Require Import Prelude RustStr Collections Contract Discover MemoryStore.
From S2P Require Import MemoryRegistry Codec PgSchema PgSql PgCodec Postgres.

(** ** Runs of effectful code *)

Lemma eff_bind_Ok {E S A B} (m : Eff E S A) (f : A → Eff E S B) s s' b :
  (m ≫= f) s = (s', Ok b) ↔ ∃ a s1, m s = (s1, Ok a) ∧ f a s1 = (s', Ok b).
Proof. rewrite eff_bind_run. destruct (m s) as [s1 [a|e]]; naive_solver. Qed.

Lemma eff_bind_Err {E S A B} (m : Eff E S A) (f : A → Eff E S B) s s' e :
  (m ≫= f) s = (s', Err e) ↔
  m s = (s', Err e) ∨ ∃ a s1, m s = (s1, Ok a) ∧ f a s1 = (s', Err e).
Proof. rewrite eff_bind_run. destruct (m s) as [s1 [a|e']]; naive_solver. Qed.

Lemma lift_run_eq {E S A} (r : Result E A) (s s' : S) q :
  lift r s = (s', q) ↔ s' = s ∧ q = r.
Proof. unfold lift. naive_solver. Qed.

Lemma retain_unique {A} (f : A → bool) l x :
  NoDup l → x ∈ l → f x = true → (∀ y, y ∈ l → f y = true → y = x) → retain f l = [x].
Proof.
  intros Hnd Hin Hf Hu. apply list_elem_of_split in Hin as (l1 & l2 & ->).
  apply NoDup_app in Hnd as (_ & Hd & [Hx _]%NoDup_cons).
  rewrite retain_app, retain_cons, Hf.
  rewrite (retain_none f l1), (retain_none f l2); [done| |].
  - intros y Hy. destruct (f y) eqn:E; [|done]. assert (y = x) as -> by (apply Hu; [set_solver|done]).
    done.
  - intros y Hy. destruct (f y) eqn:E; [|done]. assert (y = x) as -> by (apply Hu; [set_solver|done]).
    exfalso. apply (Hd x); [done|]. left.
Qed.

(** Splitting a run of a sequence that succeeds. *)
Ltac run_ok H :=
  repeat match type of H with
  | (_ ≫= _) _ = (_, Ok _) =>
      let a := fresh "a" in let s := fresh "w" in let E := fresh "E" in
      apply eff_bind_Ok in H as (a & s & E & H); cbn beta in H;
      match type of E with
      | lift _ _ = _ => apply lift_run_eq in E as [-> E]; symmetry in E
      | _ => idtac
      end
  | lift _ _ = (_, _) => apply lift_run_eq in H as [-> H]; symmetry in H
  end.

(** ** Conversions *)

Lemma to_i64_Ok field v z : to_i64 field v = Ok z ↔ z = Z.of_N v ∧ v <= i64_max.
Proof. unfold to_i64. destruct (N.leb_spec v i64_max); naive_solver lia. Qed.

Lemma usize_to_i64_Ok field v z : usize_to_i64 field v = Ok z ↔ z = Z.of_N v ∧ v <= i64_max.
Proof. unfold usize_to_i64. destruct (N.leb_spec v i64_max); naive_solver lia. Qed.

Lemma i64_to_u64_Ok field z v : i64_to_u64 field z = Ok v ↔ z = Z.of_N v.
Proof.
  unfold i64_to_u64. destruct (Z.leb_spec 0 z); split; intros E; simplify_eq.
  - by rewrite Z2N.id.
  - by rewrite N2Z.id.
  - lia.
Qed.

Lemma column_u32_Ok what z v : column_u32 what z = Ok v ↔ z = Z.of_N v.
Proof.
  unfold column_u32. destruct (Z.leb_spec 0 z); split; intros E; simplify_eq.
  - by rewrite Z2N.id.
  - by rewrite N2Z.id.
  - lia.
Qed.

Lemma u32_to_i32_Ok field v z : u32_to_i32 field v = Ok z ↔ z = Z.of_N v ∧ v <= i32_max.
Proof. unfold u32_to_i32. destruct (N.leb_spec v i32_max); naive_solver lia. Qed.

Lemma decode_encode_status st : decode_instance_status (encode_instance_status st) = Ok st.
Proof. by destruct st. Qed.

Lemma decode_status_Ok s st : decode_instance_status s = Ok st ↔ s = encode_instance_status st.
Proof.
  split; [|intros ->; apply decode_encode_status].
  unfold decode_instance_status. repeat case_bool_decide; intros [= <-]; done.
Qed.

Lemma decode_encode_format f : decode_config_format (encode_config_format f) = Ok f.
Proof. by destruct f. Qed.

Lemma decode_format_Ok s f : decode_config_format s = Ok f ↔ s = encode_config_format f.
Proof.
  split; [|intros ->; apply decode_encode_format].
  unfold decode_config_format. repeat case_bool_decide; intros [= <-]; done.
Qed.

Lemma decode_encode_kind k : decode_event_kind (encode_event_kind k) = Ok k.
Proof. by destruct k. Qed.

(** ** Exchanges *)

Section exchanges.
Context `{PgExternals} (link : N → option Fault).

Lemma exec_Ok {A} (st : Statement A) w w' a :
  exec link st w = (w', Ok a) → st (pw_db w) = Ok (pw_db w', a) ∧ pw_ids w' = pw_ids w.
Proof.
  unfold exec. destruct (link _); simpl; [done|].
  destruct (st (pw_db w)) as [[d b]|e]; intros [= <- <-]. done.
Qed.

Lemma exec_Err {A} (st : Statement A) w w' e :
  exec link st w = (w', Err e) → ∃ m, e = Unavailable m.
Proof.
  unfold exec. destruct (link _); simpl; [intros [= _ <-]; by eexists|].
  destruct (st (pw_db w)) as [[d b]|e']; intros [= _ <-]. by eexists.
Qed.

(** A transaction commits what its body did, or leaves the database as it was; only if
    the answer to the commit is lost may it have committed and report an error. *)
Lemma transaction_cases {A} (body : Op PgWorld A) w w' r :
  transaction link body w = (w', r) →
  (∃ a w2, r = Ok a ∧ body (set_trips (pw_trips w + 1) w) = (w2, Ok a) ∧ pw_db w' = pw_db w2)
  ∨ (∃ e, r = Err e ∧ pw_db w' = pw_db w
       ∧ ((∃ m, e = Unavailable m)
          ∨ ∃ w2, body (set_trips (pw_trips w + 1) w) = (w2, Err e)))
  ∨ (∃ m a w2, r = Err (Unavailable m)
       ∧ body (set_trips (pw_trips w + 1) w) = (w2, Ok a) ∧ pw_db w' = pw_db w2).
Proof.
  unfold transaction. destruct (link (pw_trips w)) as [f|].
  { intros [= <- <-]. right; left. eexists. split_and!; [done|done|]. left. by eexists. }
  destruct (body _) as [w2 [a|e]] eqn:Hb.
  - destruct (link (pw_trips w2)) as [f|].
    + destruct (ft_applied f); intros [= <- <-].
      * right; right. eexists _, a, w2. by split_and!.
      * right; left. eexists. split_and!; [done|done|]. left. by eexists.
    + intros [= <- <-]. left. by exists a, w2.
  - intros [= <- <-]. right; left. exists e. split_and!; [done|done|]. right. by eexists.
Qed.

Lemma new_id_Ok prefix w w' id :
  new_id prefix w = (w', Ok id) → pw_db w' = pw_db w.
Proof. by intros [= <- _]. Qed.

Lemma new_id_Err prefix w w' e : new_id prefix w ≠ (w', Err e).
Proof. done. Qed.
End exchanges.

Lemma with_text_Ok {A} texts (f : Statement A) d d' a :
  with_text texts f d = Ok (d', a) → f d = Ok (d', a).
Proof. unfold with_text. by destruct (existsb _ _). Qed.

Lemma query_Ok {A} texts (f : Database → A) d d' a :
  query texts f d = Ok (d', a) → d' = d ∧ a = f d.
Proof. intros E%with_text_Ok. naive_solver. Qed.

(** ** Rows and what they stand for *)

Section view.
Context `{PgExternals}.

Definition row_decodes (k : InstanceKey) (r : InstanceRow) (i : ServiceInstance) : Prop :=
  service_instance_from_row (k, r) = Ok i.

Lemma row_decodes_spec k r i :
  row_decodes k r i ↔
  column_u32 "weight" (ir_weight r) = Ok (si_weight i)
  ∧ column_u32 "priority" (ir_priority r) = Ok (si_priority i)
  ∧ ir_status r = encode_instance_status (si_status i)
  ∧ metadata_from_json (ir_metadata_json r) = Ok (si_metadata i)
  ∧ ir_expires_at_ms r = Z.of_N (si_expires_at_ms i)
  ∧ ir_revision r = Z.of_N (si_revision i)
  ∧ health_check_from_json_text (ir_health_check_json r) = Ok (si_health_check i)
  ∧ health_check_state_from_json_text (Some (ir_health_check_state_json r))
    = Ok (si_health_check_state i)
  ∧ key_of i = k ∧ si_endpoint i = ir_endpoint r ∧ si_protocol i = ir_protocol r
  ∧ si_version i = ir_service_version r ∧ si_region i = ir_region r ∧ si_zone i = ir_zone r
  ∧ si_lease_id i = ir_lease_id r.
Proof.
  unfold row_decodes, service_instance_from_row. split.
  - intros E. repeat (apply result_bind_Ok in E as (? & ? & E)).
    repeat match goal with
    | H : i64_to_u64 _ _ = Ok _ |- _ => apply i64_to_u64_Ok in H
    | H : decode_instance_status _ = Ok _ |- _ => apply decode_status_Ok in H
    end. injection E as <-. split_and!; try done. by destruct k.
  - intros (E1 & E2 & E3%decode_status_Ok & E4 & E5%(i64_to_u64_Ok "expires_at_ms")
      & E6%(i64_to_u64_Ok "revision") & E7 & E8 & <- & E).
    rewrite E1, E2, E3, E4, E5, E6, E7, E8. destruct i, r. simpl in *.
    by destruct E as (-> & -> & -> & -> & -> & ->).
Qed.

Lemma row_decodes_lease k r i e rev :
  row_decodes k r i →
  row_decodes k (set_row_lease (Z.of_N e) (Z.of_N rev) r) (set_lease e rev i).
Proof. rewrite !row_decodes_spec. naive_solver. Qed.

Lemma row_decodes_status k r i st rev :
  row_decodes k r i →
  row_decodes k (set_row_status (encode_instance_status st) (Z.of_N rev) r) (set_status st rev i).
Proof. rewrite !row_decodes_spec. naive_solver. Qed.

Lemma row_decodes_deleted k r i rev :
  row_decodes k r i → row_decodes k (set_row_deleted (Z.of_N rev) r) (set_status (si_status i) rev i).
Proof. rewrite !row_decodes_spec. naive_solver. Qed.

Definition view_of (m : gmap InstanceKey InstanceRow) : gmap InstanceKey ServiceInstance :=
  map_imap (λ k r,
    if ir_deleted r then None
    else match service_instance_from_row (k, r) with Ok i => Some i | Err _ => None end) m.

(** The instances the database holds. *)
Definition pg_view (d : Database) : gmap InstanceKey ServiceInstance :=
  view_of (db_instances d).

Lemma lookup_view m k i :
  view_of m !! k = Some i ↔ ∃ r, m !! k = Some r ∧ ir_deleted r = false ∧ row_decodes k r i.
Proof.
  unfold view_of, row_decodes. rewrite map_lookup_imap. destruct (m !! k) as [r|]; simpl.
  - destruct (ir_deleted r) eqn:E.
    + split; [done|]. intros (r' & [= <-] & ? & _). congruence.
    + destruct (service_instance_from_row (k, r)) as [j|err] eqn:Ed; split.
      * intros [= ->]. eauto.
      * intros (r' & [= <-] & _ & [= ->]%(eq_trans (eq_sym Ed))). done.
      * done.
      * intros (r' & [= <-] & _ & Hr). congruence.
  - split; [done|]. by intros (r & ? & _).
Qed.

Lemma view_insert m k r i :
  ir_deleted r = false → row_decodes k r i → view_of (<[k := r]> m) = <[k := i]> (view_of m).
Proof.
  intros Hd Hr. apply map_eq. intros k'. apply option_eq. intros j.
  rewrite lookup_view. destruct (decide (k = k')) as [<-|Hne].
  - setoid_rewrite lookup_insert_eq. split.
    + intros (r' & [= <-] & _ & Hj). unfold row_decodes in *. congruence.
    + intros [= <-]. eauto.
  - setoid_rewrite lookup_insert_ne; [|done..]. by rewrite lookup_view.
Qed.

Lemma view_insert_deleted m k r :
  ir_deleted r = true → view_of (<[k := r]> m) = delete k (view_of m).
Proof.
  intros Hd. apply map_eq. intros k'. apply option_eq. intros j.
  rewrite lookup_view. destruct (decide (k = k')) as [<-|Hne].
  - rewrite lookup_insert_eq, lookup_delete_eq. split; [|done].
    intros (r' & [= <-] & ? & _). congruence.
  - rewrite lookup_insert_ne, lookup_delete_ne by done. by rewrite lookup_view.
Qed.

(** ** The invariant *)

Definition counter (d : Database) (s : Scope) : Z := default 0%Z (db_counters d !! s).

Record rows_wf (c : Scope → Z) (m : gmap InstanceKey InstanceRow) : Prop := {
  rws_decodes k r : m !! k = Some r → ∃ i, row_decodes k r i;
  rws_revision k r : m !! k = Some r → (ir_revision r <= c (scope_of_key k))%Z;
  rws_lease k1 k2 r1 r2 : m !! k1 = Some r1 → m !! k2 = Some r2 →
    ir_lease_id r1 = ir_lease_id r2 → k1 = k2;
}.

Record releases_wf (c : Scope → Z) (m : gmap string ReleaseRow) : Prop := {
  lws_decodes id r : m !! id = Some r → ∃ x, release_from_row id r = Ok x;
  lws_revision id r : m !! id = Some r →
    (0 < lw_revision r <= c (lw_namespace r, lw_environment r))%Z;
  lws_unique id1 id2 r1 r2 : m !! id1 = Some r1 → m !! id2 = Some r2 →
    lw_namespace r1 = lw_namespace r2 → lw_environment r1 = lw_environment r2 →
    lw_revision r1 = lw_revision r2 → id1 = id2;
}.

Record events_rows_wf (c : Scope → Z) (m : gmap (Scope * Z) EventRow) : Prop := {
  ews_revision s rev e : m !! (s, rev) = Some e → (0 < rev <= c s)%Z;
  ews_kind s rev e : m !! (s, rev) = Some e →
    ∃ kind, ew_event_kind e = encode_event_kind kind;
}.

Record db_wf (d : Database) : Prop := {
  dbw_counters s : (0 <= counter d s <= i64_max_Z)%Z;
  dbw_rows : rows_wf (counter d) (db_instances d);
  dbw_drafts id r : db_drafts d !! id = Some r → ∃ x, draft_from_row id r = Ok x;
  dbw_releases : releases_wf (counter d) (db_releases d);
  dbw_events : events_rows_wf (counter d) (db_events d);
}.

Lemma db_wf_empty : db_wf empty_database.
Proof. split; [done|split| |split|split]; done. Qed.
End view.
