(* ===== verification/PgRegistry.v ===== *)
(** * The registry operations on the database

    For each operation of the PostgreSQL registry, the database it leaves when it
    commits, and the refusals it gives. *)
From S2P Require Import Prelude RustStr Collections Contract Discover MemoryStore.
From S2P Require Import MemoryRegistry Codec PgSchema PgSql PgCodec Postgres PgLemmas.

Section statements.
Context `{PgExternals, HashOrder}.

(** ** Updates of rows *)

Lemma update_none f g d :
  (∀ k r, db_instances d !! k = Some r → f k r = false) → (update_instances f g d).2 = [].
Proof.
  intros Hf. unfold update_instances. simpl. rewrite retain_none; [done|].
  intros [k r] Hk%elem_of_hash_iter. by apply Hf.
Qed.

Lemma update_one f g d k r :
  db_instances d !! k = Some r → f k r = true →
  (∀ k' r', db_instances d !! k' = Some r' → f k' r' = true → k' = k) →
  update_instances f g d = (set_db_instances (<[k := g r]> (db_instances d)) d, [(k, g r)]).
Proof.
  intros Hk Hf Hu. unfold update_instances. f_equal.
  - f_equal. apply map_eq. intros k'. rewrite map_lookup_imap.
    destruct (decide (k' = k)) as [->|Hne]; [by rewrite lookup_insert_eq, Hk; simpl; rewrite Hf|].
    rewrite lookup_insert_ne by done. destruct (db_instances d !! k') as [r'|] eqn:E; [|done].
    simpl. destruct (f k' r') eqn:Ef; [|done]. by destruct (Hne (Hu _ _ E Ef)).
  - rewrite (retain_unique _ _ (k, r)); [done|apply NoDup_hash_iter|by apply elem_of_hash_iter|done|].
    intros [k' r'] Hin%elem_of_hash_iter Hf'. pose proof (Hu _ _ Hin Hf') as ->. congruence.
Qed.

Lemma update_key k f g d rows d' :
  update_instances (λ k' r, bool_decide (k' = k) && f r) g d = (d', rows) →
  match row_where k f d with
  | Some r => d' = set_db_instances (<[k := g r]> (db_instances d)) d ∧ rows = [(k, g r)]
  | None => rows = []
  end.
Proof.
  unfold row_where. destruct (db_instances d !! k) as [r|] eqn:Hk; simpl.
  - destruct (f r) eqn:Hf; intros E.
    + rewrite (update_one _ _ _ k r) in E; [naive_solver|done| |].
      * by rewrite bool_decide_eq_true_2, Hf.
      * by intros k' r' _ [->%bool_decide_eq_true _]%andb_true_iff.
    + replace rows with (d', rows).2 by done. rewrite <- E. apply update_none. intros k' r' Hk'.
      destruct (decide (k' = k)) as [->|]; [|by rewrite bool_decide_eq_false_2].
      assert (r' = r) as -> by congruence. by rewrite Hf, andb_false_r.
  - intros E. replace rows with (d', rows).2 by done. rewrite <- E. apply update_none.
    intros k' r' Hk'. rewrite bool_decide_eq_false_2 by congruence. done.
Qed.

(** ** The database after a change of one scope *)

Definition advanced (s : Scope) (m : gmap InstanceKey InstanceRow) (e : EventRow)
    (d : Database) : Database :=
  set_db_events (<[(s, (counter d s + 1)%Z) := e]> (db_events d))
    (set_db_instances m
       (set_db_counters (<[s := (counter d s + 1)%Z]> (db_counters d)) d)).

Lemma counter_bump d s s' z :
  counter (set_db_counters (<[s := z]> (db_counters d)) d) s' =
  if decide (s' = s) then z else counter d s'.
Proof.
  unfold counter. simpl. destruct (decide (s' = s)) as [->|Hne].
  - by rewrite lookup_insert_eq.
  - by rewrite lookup_insert_ne.
Qed.

Lemma counter_advanced m e d s s' :
  counter (advanced s m e d) s' = if decide (s' = s) then (counter d s + 1)%Z else counter d s'.
Proof. apply counter_bump. Qed.

Lemma rows_wf_mono (c1 c2 : Scope → Z) m :
  (∀ s, (c1 s <= c2 s)%Z) → rows_wf c1 m → rows_wf c2 m.
Proof.
  intros Hc []. split; try done. intros k r Hk. specialize (rws_revision k r Hk).
  specialize (Hc (scope_of_key k)). lia.
Qed.

Lemma releases_wf_mono (c1 c2 : Scope → Z) m :
  (∀ s, (c1 s <= c2 s)%Z) → releases_wf c1 m → releases_wf c2 m.
Proof.
  intros Hc []. split; try done. intros id r Hk. specialize (lws_revision id r Hk).
  specialize (Hc (lw_namespace r, lw_environment r)). lia.
Qed.

Lemma events_rows_wf_mono (c1 c2 : Scope → Z) m :
  (∀ s, (c1 s <= c2 s)%Z) → events_rows_wf c1 m → events_rows_wf c2 m.
Proof.
  intros Hc []. split; try done. intros s rev e Hk. specialize (ews_revision s rev e Hk).
  specialize (Hc s). lia.
Qed.

Lemma events_rows_insert c m s rev e kind :
  events_rows_wf c m → (0 < rev <= c s)%Z → ew_event_kind e = encode_event_kind kind →
  events_rows_wf c (<[(s, rev) := e]> m).
Proof.
  intros [H1 H2] Hrev Hkind. split; intros s' rev' e' Hl;
    apply lookup_insert_Some in Hl as [[[= <- <-] <-]|[_ Hl]]; eauto.
Qed.

Lemma advanced_wf d s m e kind :
  db_wf d → (counter d s < i64_max_Z)%Z →
  rows_wf (λ s', if decide (s' = s) then (counter d s + 1)%Z else counter d s') m →
  ew_event_kind e = encode_event_kind kind → db_wf (advanced s m e d).
Proof.
  intros [Hc Hr Hd Hl He] Hmax Hm Hkind.
  assert (∀ s', (counter d s' <= counter (advanced s m e d) s')%Z) as Hle.
  { intros s'. rewrite counter_advanced. destruct (decide _) as [->|]; lia. }
  split; simpl.
  - intros s'. rewrite counter_advanced. destruct (decide _); [|apply Hc].
    pose proof (Hc s). lia.
  - eapply rows_wf_mono; [|exact Hm]. intros s'. by rewrite counter_advanced.
  - done.
  - by eapply releases_wf_mono.
  - apply (events_rows_insert _ _ _ _ _ kind); [by eapply events_rows_wf_mono| |done].
    rewrite counter_advanced, decide_True by done. pose proof (Hc s). lia.
Qed.

Lemma rows_wf_put (c : Scope → Z) m k r i :
  rows_wf c m → row_decodes k r i → (ir_revision r <= c (scope_of_key k))%Z →
  (∀ k' r', m !! k' = Some r' → ir_lease_id r' = ir_lease_id r → k' = k) →
  rows_wf c (<[k := r]> m).
Proof.
  intros [H1 H2 H3] Hr Hrev Hl. split.
  - intros k' r' [[<- <-]|[_ Hk']]%lookup_insert_Some; eauto.
  - intros k' r' [[<- <-]|[_ Hk']]%lookup_insert_Some; eauto.
  - intros k1 k2 r1 r2 [[<- <-]|[? Hk1]]%lookup_insert_Some
      [[<- <-]|[? Hk2]]%lookup_insert_Some E; [done| | |by eapply H3].
    + symmetry. by eapply Hl.
    + by eapply Hl.
Qed.

(** A row of the scope is put in place of another with the same lease. *)
Lemma rows_wf_replace d k r r' i' :
  db_wf d → db_instances d !! k = Some r → row_decodes k r' i' → ir_lease_id r' = ir_lease_id r →
  ir_revision r' = (counter d (scope_of_key k) + 1)%Z →
  rows_wf (λ s', if decide (s' = scope_of_key k) then (counter d (scope_of_key k) + 1)%Z
                 else counter d s') (<[k := r']> (db_instances d)).
Proof.
  intros Hwf Hk Hr' Hl Hrev. eapply rows_wf_put; [|exact Hr'| |].
  - eapply rows_wf_mono; [|apply Hwf]. intros s'. simpl. destruct (decide _) as [->|]; lia.
  - simpl. rewrite decide_True by done. lia.
  - intros k' r'' Hk' E. eapply (rws_lease _ _ (dbw_rows _ Hwf)); [exact Hk'|exact Hk|congruence].
Qed.

Lemma view_newer d k :
  db_wf d → ∀ k' i, pg_view d !! k' = Some i → scope_of_key k' = scope_of_key k →
  si_revision i < Z.to_N (counter d (scope_of_key k) + 1).
Proof.
  intros Hwf k' i (r & Hr & _ & Hi)%lookup_view Hs.
  pose proof (rws_revision _ _ (dbw_rows _ Hwf) _ _ Hr) as Hle. rewrite Hs in Hle.
  apply row_decodes_spec in Hi as (_ & _ & _ & _ & _ & Hrev & _). lia.
Qed.

(** ** Statements on well-formed databases *)

Lemma NEXT_REVISION_Ok ns env d d' z :
  db_wf d → NEXT_REVISION ns env d = Ok (d', z) →
  z = (counter d (ns, env) + 1)%Z ∧ (counter d (ns, env) < i64_max_Z)%Z
  ∧ d' = set_db_counters (<[(ns, env) := z]> (db_counters d)) d.
Proof.
  intros Hwf. unfold NEXT_REVISION. destruct refuses_ambiguous_column; [done|].
  intros E%with_text_Ok. apply result_bind_Ok in E as (_ & _ & E).
  apply result_bind_Ok in E as (_ & _ & E). apply result_bind_Ok in E as (z' & Ez & [= <- <-]).
  unfold counter. destruct (db_counters d !! (ns, env)) as [c|]; simpl.
  - destruct (Z.leb_spec i64_max_Z c); [done|]. injection Ez as <-. done.
  - injection Ez as <-. split_and!; [done|done|done].
Qed.

Lemma lease_taken_false k l d :
  lease_taken k l d = false ↔
  ∀ k' r, db_instances d !! k' = Some r → ir_lease_id r = l → k' = k.
Proof.
  unfold lease_taken. split.
  - intros E k' r Hk Hl. destruct (decide (k' = k)) as [|Hne]; [done|]. exfalso.
    apply not_true_iff_false in E. apply E. apply existsb_exists. exists (k', r).
    split; [by apply list_elem_of_In, elem_of_hash_iter|].
    by rewrite bool_decide_eq_false_2, bool_decide_eq_true_2.
  - intros Hl. apply not_true_iff_false. intros ((k' & r) & Hin & E)%existsb_exists.
    apply list_elem_of_In, elem_of_hash_iter in Hin.
    apply andb_true_iff in E as [E1%negb_true_iff%bool_decide_eq_false E2%bool_decide_eq_true].
    by apply E1, (Hl _ r).
Qed.

Lemma INSERT_WATCH_EVENT_Ok s rev e d d' u :
  INSERT_WATCH_EVENT s rev e d = Ok (d', u) →
  d' = set_db_events (<[(s, rev) := e]> (db_events d)) d.
Proof.
  intros E%with_text_Ok. apply result_bind_Ok in E as (_ & _ & E). by case_match; simplify_eq.
Qed.
End statements.

(** ** Operations *)

(** The JSON columns give back what was written: [serde_json] encodes the values of
    these types, and the text [jsonb] prints stands for the value it was given. *)
Class JsonFaithful `{PgExternals} : Prop := {
  jf_metadata m : ∃ text, metadata_to_string m = Ok text;
  jf_metadata_back m text j :
    metadata_to_string m = Ok text → jsonb_in text = Ok j → metadata_from_str j = Ok m;
  jf_check c : ∃ text, check_to_string c = Ok text;
  jf_check_back c text j :
    check_to_string c = Ok text → jsonb_in text = Ok j →
    is_empty j = false ∧ check_from_str j = Ok c;
  jf_state s : ∃ text, check_state_to_string s = Ok text;
  jf_state_back s text j :
    check_state_to_string s = Ok text → jsonb_in text = Ok j →
    is_empty j = false ∧ check_state_from_str j = Ok s;
}.

Section operations.
Context `{PgExternals, HashOrder, !JsonFaithful} (link : N → option Fault).

Lemma next_revision_Ok ns env w w' n :
  db_wf (pw_db w) → pg_next_revision link ns env w = (w', Ok n) →
  Z.of_N n = (counter (pw_db w) (ns, env) + 1)%Z
  ∧ (counter (pw_db w) (ns, env) < i64_max_Z)%Z
  ∧ pw_db w' = set_db_counters (<[(ns, env) := Z.of_N n]> (db_counters (pw_db w))) (pw_db w).
Proof.
  intros Hwf Hr. unfold pg_next_revision in Hr. run_ok Hr.
  apply exec_Ok in E as [E _]. apply NEXT_REVISION_Ok in E as (-> & Hmax & ->); [|done].
  apply i64_to_u64_Ok in Hr. rewrite <- Hr. done.
Qed.

Lemma insert_event_Ok n ns env kind id app w w' u :
  insert_event link n ns env kind id app w = (w', Ok u) →
  pw_db w' = set_db_events
    (<[((ns, env), Z.of_N n) := {| ew_event_kind := encode_event_kind kind;
         ew_resource_id := id; ew_config_application := app; ew_deleted := false |}]>
       (db_events (pw_db w))) (pw_db w).
Proof.
  intros Hr. unfold insert_event in Hr. run_ok Hr. apply to_i64_Ok in E as [-> _].
  apply exec_Ok in Hr as [Hr _]. by apply INSERT_WATCH_EVENT_Ok in Hr.
Qed.

Lemma to_jsonb_Ok text j : to_jsonb text = Ok j ↔ jsonb_in text = Ok j.
Proof. unfold to_jsonb. destruct (jsonb_in text); naive_solver. Qed.

(** The row a registration writes. *)
Lemma REGISTER_INSTANCE_Ok k r d d' row :
  REGISTER_INSTANCE k r d = Ok (d', row) →
  ∃ r', row = (k, r') ∧ d' = set_db_instances (<[k := r']> (db_instances d)) d
    ∧ (∀ k' r'', db_instances d !! k' = Some r'' → ir_lease_id r'' = ir_lease_id r → k' = k)
    ∧ jsonb_in (ir_metadata_json r) = Ok (ir_metadata_json r')
    ∧ match ir_health_check_json r with
      | Some text => ∃ j, jsonb_in text = Ok j ∧ ir_health_check_json r' = Some j
      | None => ir_health_check_json r' = None
      end
    ∧ jsonb_in (ir_health_check_state_json r) = Ok (ir_health_check_state_json r')
    ∧ ir_deleted r' = false ∧ ir_endpoint r' = ir_endpoint r ∧ ir_protocol r' = ir_protocol r
    ∧ ir_service_version r' = ir_service_version r ∧ ir_region r' = ir_region r
    ∧ ir_zone r' = ir_zone r ∧ ir_weight r' = ir_weight r ∧ ir_priority r' = ir_priority r
    ∧ ir_status r' = ir_status r ∧ ir_lease_id r' = ir_lease_id r
    ∧ ir_expires_at_ms r' = ir_expires_at_ms r ∧ ir_revision r' = ir_revision r.
Proof.
  intros E%with_text_Ok.
  apply result_bind_Ok in E as (mj & Em & E). apply result_bind_Ok in E as (hj & Eh & E).
  apply result_bind_Ok in E as (sj & Es & E). apply result_bind_Ok in E as (_ & _ & E).
  destruct (lease_taken k (ir_lease_id r) d) eqn:Hl; [done|]. injection E as <- <-.
  eexists. split; [done|]. simpl. split; [done|]. split; [by apply lease_taken_false|].
  split; [by apply to_jsonb_Ok|]. split.
  { destruct (ir_health_check_json r) as [text|]; [|by injection Eh as <-].
    apply result_bind_Ok in Eh as (j & Ej & [= <-]). exists j. by rewrite <- to_jsonb_Ok. }
  split; [by apply to_jsonb_Ok|]. done.
Qed.

Lemma bind_register_Ok c b :
  bind_register c = Ok b →
  ∃ expires, bd_expires_at_ms b = Z.of_N expires
    ∧ (if rc_persistent c then expires = i64_max
       else expires = rc_now_ms c + rc_lease_ttl_seconds c * 1000)
    ∧ metadata_to_string (rc_metadata c) = Ok (bd_metadata_json b)
    ∧ match rc_health_check c with
      | Some hc => ∃ text, check_to_string hc = Ok text ∧ bd_health_check_json b = Some text
      | None => bd_health_check_json b = None
      end
    ∧ check_state_to_string default_health_state = Ok (bd_health_check_state_json b)
    ∧ bd_weight b = Z.of_N (rc_weight c) ∧ bd_priority b = Z.of_N (rc_priority c).
Proof.
  unfold bind_register. intros E.
  apply result_bind_Ok in E as (x & Ex & E). apply result_bind_Ok in E as (z & Ez & E).
  apply result_bind_Ok in E as (mj & Em & E). apply result_bind_Ok in E as (hj & Eh & E).
  apply result_bind_Ok in E as (sj & Es & E). apply result_bind_Ok in E as (wt & Ew & E).
  apply result_bind_Ok in E as (pr & Ep & [= <-]). simpl.
  apply to_i64_Ok in Ez as [-> _]. apply u32_to_i32_Ok in Ew as [-> _].
  apply u32_to_i32_Ok in Ep as [-> _]. exists x. split; [done|]. split.
  { unfold pg_lease_expires_at_ms in Ex. destruct (rc_persistent c); [by injection Ex|].
    apply result_bind_Ok in Ex as (ttl & Et & Ex). apply ok_or_Ok, checked_mul_Some in Et as [-> _].
    by apply ok_or_Ok, checked_add_Some in Ex as [-> _]. }
  unfold metadata_to_json, health_check_to_json, health_check_state_to_json in *.
  split; [destruct (metadata_to_string _); by simplify_eq|]. split.
  { destruct (rc_health_check c) as [hc|]; [|by injection Eh].
    destruct (check_to_string hc) as [text|]; [|done]. injection Eh as <-. eauto. }
  split; [destruct (check_state_to_string _); by simplify_eq|]. done.
Qed.

Lemma register_row_decodes c b lease rev r' expires :
  bd_expires_at_ms b = Z.of_N expires →
  metadata_to_string (rc_metadata c) = Ok (bd_metadata_json b) →
  match rc_health_check c with
  | Some hc => ∃ text, check_to_string hc = Ok text ∧ bd_health_check_json b = Some text
  | None => bd_health_check_json b = None
  end →
  check_state_to_string default_health_state = Ok (bd_health_check_state_json b) →
  bd_weight b = Z.of_N (rc_weight c) → bd_priority b = Z.of_N (rc_priority c) →
  (∃ d d', REGISTER_INSTANCE (command_key c) (register_row c b lease (Z.of_N rev)) d
           = Ok (d', (command_key c, r'))) →
  row_decodes (command_key c) r' (registered_instance c lease expires rev).
Proof.
  intros Hx Hm Hh Hs Hw Hp (d & d' & E).
  apply REGISTER_INSTANCE_Ok in E
    as (r2 & [= <-] & _ & _ & Jm & Jh & Js & _ & E1 & E2 & E3 & E4 & E5 & E6 & E7 & E8 & E9
        & E10 & E11).
  simpl in *. apply row_decodes_spec. simpl.
  rewrite E6, E7, E8, E10, E11, Hx, Hw, Hp.
  split_and!; try done; try by apply column_u32_Ok.
  - unfold metadata_from_json. by rewrite (jf_metadata_back _ _ _ Hm Jm).
  - destruct (rc_health_check c) as [hc|].
    + destruct Hh as (text & Ht & Hb). rewrite Hb in Jh. destruct Jh as (j & Ej & ->).
      destruct (jf_check_back _ _ _ Ht Ej) as [Hne Hj].
      unfold health_check_from_json_text. by rewrite Hne, Hj.
    + rewrite Hh in Jh. by rewrite Jh.
  - destruct (jf_state_back _ _ _ Hs Js) as [Hne Hj].
    unfold health_check_state_from_json_text. by rewrite Hne, Hj.
Qed.

Lemma register_lookup_Ok c w w' lease :
  register_lookup link c w = (w', Ok lease) →
  pw_db w' = pw_db w
  ∧ match row_where (command_key c) (row_active (Z.of_N (rc_now_ms c))) (pw_db w) with
    | Some r => lease = Some (ir_lease_id r)
                ∧ expect_revision (rc_expected_revision c) (ir_revision r) = Ok ()
    | None => lease = None
    end.
Proof.
  intros Hr. unfold register_lookup in Hr.
  apply eff_bind_Ok in Hr as (now & w1 & E & Hr). apply lift_run_eq in E as [-> E].
  symmetry in E. apply to_i64_Ok in E as [-> _].
  apply eff_bind_Ok in Hr as (o & w2 & E & Hr). apply exec_Ok in E as [E _].
  apply query_Ok in E as [Hdb ->]. unfold row_where in *.
  destruct (db_instances (pw_db w) !! command_key c) as [r|]; simpl in *.
  - destruct (row_active _ r); simpl in *.
    + apply eff_bind_Ok in Hr as ([] & w3 & E & Hr). apply lift_run_eq in E as [-> E].
      injection Hr as <- <-. done.
    + by injection Hr as <- <-.
  - by injection Hr as <- <-.
Qed.

Lemma register_write_Ok c b existing w w' row :
  db_wf (pw_db w) → register_write link c b existing w = (w', Ok row) →
  let d := pw_db w in let s := (rc_namespace c, rc_environment c) in
  ∃ lease n r' e,
    row = (command_key c, r') ∧ (∀ l, existing = Some l → lease = l)
    ∧ Z.of_N n = (counter d s + 1)%Z ∧ (counter d s < i64_max_Z)%Z
    ∧ (∃ d d', REGISTER_INSTANCE (command_key c) (register_row c b lease (Z.of_N n)) d
               = Ok (d', (command_key c, r')))
    ∧ (∀ k' r'', db_instances d !! k' = Some r'' → ir_lease_id r'' = lease → k' = command_key c)
    ∧ (∃ kind, ew_event_kind e = encode_event_kind kind)
    ∧ pw_db w' = advanced s (<[command_key c := r']> (db_instances d)) e d.
Proof.
  intros Hwf Hr d s. unfold register_write in Hr.
  apply eff_bind_Ok in Hr as (lease & w1 & E & Hr).
  assert (pw_db w1 = d ∧ ∀ l, existing = Some l → lease = l) as [Hd1 Hlease].
  { destruct existing as [l|]; [injection E as <- <-; naive_solver|].
    apply new_id_Ok in E. naive_solver. }
  apply eff_bind_Ok in Hr as (n & w2 & E2 & Hr).
  apply next_revision_Ok in E2 as (Hn & Hmax & Hd2); [|by rewrite Hd1].
  rewrite Hd1 in Hn, Hmax, Hd2.
  apply eff_bind_Ok in Hr as (z & w3 & E3 & Hr). apply lift_run_eq in E3 as [-> E3].
  symmetry in E3. apply to_i64_Ok in E3 as [-> _].
  apply eff_bind_Ok in Hr as (row' & w4 & E4 & Hr). apply exec_Ok in E4 as [E4 _].
  pose proof E4 as (r' & -> & Hd4 & Hl & _)%REGISTER_INSTANCE_Ok.
  apply eff_bind_Ok in Hr as ([] & w5 & E5 & [= <- <-]). apply insert_event_Ok in E5.
  rewrite Hd2 in Hl. simpl in Hl.
  match type of E5 with context [<[_ := ?e]> _] => exists lease, n, r', e end. split_and!; [done|done|done|done|by eauto|exact Hl| |].
  - eexists. simpl. reflexivity.
  - rewrite E5, Hd4, Hd2. unfold advanced. rewrite Hn. done.
Qed.

(** A registration that commits. *)
Lemma register_commits c b w w' row :
  db_wf (pw_db w) → bind_register c = Ok b →
  (existing ← register_lookup link c; register_write link c b existing) w = (w', Ok row) →
  let d := pw_db w in let k := command_key c in
  ∃ lease expires n,
    register_result row = Ok {| rr_lease_id := lease; rr_namespace := rc_namespace c;
      rr_environment := rc_environment c; rr_service_name := rc_service_name c;
      rr_instance_id := rc_instance_id c; rr_revision := n; rr_expires_at_ms := expires |}
    ∧ db_wf (pw_db w')
    ∧ pg_view (pw_db w') = <[k := registered_instance c lease expires n]> (pg_view d)
    ∧ n = Z.to_N (counter d (scope_of_key k) + 1)
    ∧ (if rc_persistent c then expires = i64_max
       else expires = rc_now_ms c + rc_lease_ttl_seconds c * 1000)
    ∧ (∀ k' r, db_instances d !! k' = Some r → ir_lease_id r = lease → k' = k)
    ∧ (∀ r, row_where k (row_active (Z.of_N (rc_now_ms c))) d = Some r →
        lease = ir_lease_id r ∧ expect_revision (rc_expected_revision c) (ir_revision r) = Ok ()).
Proof.
  intros Hwf Hb Hr d k. apply eff_bind_Ok in Hr as (existing & w1 & E1 & Hr).
  apply register_lookup_Ok in E1 as [Hd1 Hex].
  apply register_write_Ok in Hr as (lease & n & r' & e & -> & Hl & Hn & Hmax & Hreg & Hu & [kind Hk] & Hd');
    [|by rewrite Hd1].
  rewrite Hd1 in Hn, Hmax, Hu, Hd'. fold d in Hn, Hmax, Hu, Hd', Hex. fold k in Hd'.
  apply bind_register_Ok in Hb as (expires & Hx & Hexp & Hm & Hh & Hs & Hw & Hp).
  pose proof (register_row_decodes c b lease n r' expires Hx Hm Hh Hs Hw Hp Hreg) as Hdec.
  fold k in Hdec. pose proof Hdec as (_ & _ & _ & _ & Dx & Dn & _ & _ & _ & _ & _ & _ & _ & _ & Dl)%row_decodes_spec.
  simpl in Dx, Dn, Dl.
  assert (ir_deleted r' = false) as Hdel.
  { destruct Hreg as (d0 & d1 & E). 
    by apply REGISTER_INSTANCE_Ok in E as (r2 & [= <-] & _ & _ & _ & _ & _ & Hd0 & _). }
  exists lease, expires, n. split.
  { unfold register_result. rewrite (proj2 (i64_to_u64_Ok _ _ _) Dx). simpl.
    rewrite (proj2 (i64_to_u64_Ok _ _ _) Dn). simpl. by rewrite <- Dl. }
  split.
  { rewrite Hd'. apply (advanced_wf _ _ _ _ kind); [done|done| |done].
    eapply rows_wf_put; [|exact Hdec| |].
    - apply (rows_wf_mono (counter d)); [|apply Hwf]. intros s'. simpl.
      destruct (decide _) as [->|]; lia.
    - simpl. rewrite decide_True by done. rewrite Dn, Hn. done.
    - rewrite <- Dl. exact Hu. }
  split; [rewrite Hd'; by apply view_insert|]. split_and!; [|done|done|].
  - change (scope_of_key k) with (rc_namespace c, rc_environment c). rewrite <- Hn. lia.
  - intros r Hrow. fold k in Hex. rewrite Hrow in Hex. destruct Hex as [-> ?].
    split; [by apply Hl|done].
Qed.

(** ** Rows that are in force *)

Lemma row_active_live now k r i :
  row_decodes k r i → row_active (Z.of_N now) r = negb (ir_deleted r) && (now <? si_expires_at_ms i).
Proof.
  intros (_ & _ & _ & _ & Hx & _)%row_decodes_spec. unfold row_active. rewrite Hx. f_equal.
  destruct (N.ltb_spec now (si_expires_at_ms i)); [by apply Z.ltb_lt; lia|by apply Z.ltb_ge; lia].
Qed.

Lemma row_expired_live now k r i :
  row_decodes k r i →
  row_expired (Z.of_N now) r = negb (ir_deleted r) && negb (now <? si_expires_at_ms i).
Proof.
  intros (_ & _ & _ & _ & Hx & _)%row_decodes_spec. unfold row_expired. rewrite Hx. f_equal.
  destruct (N.ltb_spec now (si_expires_at_ms i)); simpl; [by apply Z.leb_gt; lia|by apply Z.leb_le; lia].
Qed.

(** A row in force is a live instance of the view, and the other way round. *)
Lemma row_where_active d k now :
  db_wf d →
  match row_where k (row_active (Z.of_N now)) d with
  | Some r => ∃ i, db_instances d !! k = Some r ∧ ir_deleted r = false ∧ row_decodes k r i
                   ∧ pg_view d !! k = Some i ∧ (now <? si_expires_at_ms i) = true
  | None => ∀ i, pg_view d !! k = Some i → (now <? si_expires_at_ms i) = false
  end.
Proof.
  intros Hwf. unfold row_where. destruct (db_instances d !! k) as [r|] eqn:Hk; simpl.
  - destruct (rws_decodes _ _ (dbw_rows _ Hwf) _ _ Hk) as [i Hi].
    rewrite (row_active_live now k r i Hi). destruct (ir_deleted r) eqn:Hd; simpl.
    + intros j (r' & Hr' & Hd' & _)%lookup_view. congruence.
    + destruct (now <? si_expires_at_ms i) eqn:Hl.
      * exists i. split_and!; try done. apply lookup_view. eauto.
      * intros j (r' & Hr' & _ & Hj)%lookup_view. unfold row_decodes in *. congruence.
  - intros i (r & Hr & _)%lookup_view. congruence.
Qed.

(** ** One change of a row in force *)

(** The row of [k] is replaced, under the next revision of its scope. *)
Lemma replaced_commits d k r i r' i' e kind n :
  db_wf d → db_instances d !! k = Some r → row_decodes k r i →
  row_decodes k r' i' → ir_lease_id r' = ir_lease_id r → ir_revision r' = Z.of_N n →
  Z.of_N n = (counter d (scope_of_key k) + 1)%Z → (counter d (scope_of_key k) < i64_max_Z)%Z →
  ew_event_kind e = encode_event_kind kind →
  let d' := advanced (scope_of_key k) (<[k := r']> (db_instances d)) e d in
  db_wf d'
  ∧ pg_view d' = if ir_deleted r' then delete k (pg_view d) else <[k := i']> (pg_view d).
Proof.
  intros Hwf Hk _ Hr' Hl Hrev Hn Hmax Hkind d'. split.
  - apply (advanced_wf _ _ _ _ kind); [done|done| |done].
    eapply rows_wf_replace; [done|exact Hk|exact Hr'|done|congruence].
  - unfold d', pg_view. simpl. destruct (ir_deleted r') eqn:Hd.
    + by apply view_insert_deleted.
    + by apply view_insert.
Qed.
End operations.
