(* ===== verification/PgCommits.v ===== *)
(** * Registry calls that commit

    What each operation of the PostgreSQL registry leaves in the database when its
    transaction commits. *)
From S2P Require Import Prelude RustStr Collections Contract Discover MemoryStore.
From S2P Require Import MemoryRegistry Codec PgSchema PgSql PgCodec Postgres PgLemmas PgRegistry.

(** The first step of a run that succeeds. *)
Ltac step_ok H a w E :=
  apply eff_bind_Ok in H as (a & w & E & H); cbn beta in H;
  lazymatch type of E with
  | lift _ _ = _ => apply lift_run_eq in E as [-> E]; symmetry in E
  | exec _ _ _ = _ => apply exec_Ok in E as [E _]
  | _ => idtac
  end.

Section commits.
Context `{PgExternals, HashOrder, !JsonFaithful} (link : N → option Fault).

Lemma returned {A} texts (f : Database → Database * A) (pre : DbResult ()) d d' a :
  with_text texts (λ d, pre;; Ok (f d)) d = Ok (d', a) → f d = (d', a).
Proof. intros E%with_text_Ok. apply result_bind_Ok in E as (_ & _ & E). congruence. Qed.

Lemma returned' {A} texts (f : Database → Database * A) d d' a :
  with_text texts (λ d, Ok (f d)) d = Ok (d', a) → f d = (d', a).
Proof. intros E%with_text_Ok. congruence. Qed.

(** The scope of a row is given a new revision and the row is replaced. *)
Lemma committed_row d k r i r' i' n w1 w2 w3 e kind :
  db_wf d → db_instances d !! k = Some r → row_decodes k r i →
  Z.of_N n = (counter d (scope_of_key k) + 1)%Z → (counter d (scope_of_key k) < i64_max_Z)%Z →
  pw_db w1 = set_db_counters (<[scope_of_key k := Z.of_N n]> (db_counters d)) d →
  pw_db w2 = set_db_instances (<[k := r']> (db_instances (pw_db w1))) (pw_db w1) →
  pw_db w3 = set_db_events (<[(scope_of_key k, Z.of_N n) := e]> (db_events (pw_db w2))) (pw_db w2) →
  row_decodes k r' i' → ir_lease_id r' = ir_lease_id r → ir_revision r' = Z.of_N n →
  ew_event_kind e = encode_event_kind kind →
  db_wf (pw_db w3) ∧ db_instances (pw_db w3) = <[k := r']> (db_instances d)
  ∧ pg_view (pw_db w3) = if ir_deleted r' then delete k (pg_view d) else <[k := i']> (pg_view d).
Proof.
  intros Hwf Hk Hi Hn Hmax Hd1 Hd2 Hd3 Hi' Hl Hrev Hkind. rewrite Hd1 in Hd2.
  destruct (replaced_commits d k r i r' i' e kind n Hwf Hk Hi Hi' Hl Hrev Hn Hmax Hkind)
    as [Hwf' Hview].
  assert (pw_db w3 = advanced (scope_of_key k) (<[k := r']> (db_instances d)) e d) as Hd.
  { rewrite Hd3, Hd2. unfold advanced. rewrite Hn. done. }
  rewrite Hd. done.
Qed.

Lemma updated_row d k f g r w1 w2 rows c :
  row_where k f d = Some r → pw_db w1 = set_db_counters c d →
  update_instances (λ k' r', bool_decide (k' = k) && f r') g (pw_db w1) = (pw_db w2, rows) →
  rows = [(k, g r)] ∧ pw_db w2 = set_db_instances (<[k := g r]> (db_instances (pw_db w1))) (pw_db w1).
Proof.
  intros Hw Hd1 Hu%update_key. rewrite Hd1 in *.
  change (row_where k f (set_db_counters ?m d)) with (row_where k f d) in Hu.
  rewrite Hw in Hu. naive_solver.
Qed.

Lemma expect_revision_Ok expected k r i :
  row_decodes k r i → expect_revision expected (ir_revision r) = Ok () →
  ∀ n, expected = Some n → si_revision i = n.
Proof.
  intros (_ & _ & _ & _ & _ & Hrev & _)%row_decodes_spec E n ->. simpl in E.
  apply result_bind_Ok in E as (c & Ec%i64_to_u64_Ok & E).
  destruct (N.eqb_spec c n); [lia|done].
Qed.

(** ** Status reports *)

Definition report_body (c : ReportInstanceStatusCommand) : Op PgWorld (InstanceKey * InstanceRow) :=
  let k := status_key c in
  now_ms ← lift (to_i64 "now_ms" (sc_now_ms c));
  current ← exec link (SELECT_ACTIVE_INSTANCE_FOR_STATUS k now_ms);
  current ← lift (ok_or current (NotFound "instance not found"));
  lift (expect_revision (sc_expected_revision c) current);;
  revision ← pg_next_revision link (sc_namespace c) (sc_environment c);
  revision_i64 ← lift (to_i64 "revision" revision);
  rows ← exec link (REPORT_INSTANCE_STATUS k (encode_instance_status (sc_status c))
                      revision_i64 now_ms);
  row ← lift (ok_or (first_row rows) (NotFound "instance not found"));
  insert_event link revision (sc_namespace c) (sc_environment c) InstanceStatusReported
    (sc_instance_id c) None;;
  mret row.

Lemma report_commits c w w' row :
  let k := status_key c in
  db_wf (pw_db w) → report_body c w = (w', Ok row) →
  ∃ i n, pg_view (pw_db w) !! k = Some i ∧ (sc_now_ms c <? si_expires_at_ms i) = true
    ∧ (∀ m, sc_expected_revision c = Some m → si_revision i = m)
    ∧ n = Z.to_N (counter (pw_db w) (scope_of_key k) + 1)
    ∧ ir_revision row.2 = Z.of_N n ∧ db_wf (pw_db w')
    ∧ pg_view (pw_db w') = <[k := set_status (sc_status c) n i]> (pg_view (pw_db w)).
Proof.
  intros k Hwf Hr. set (d := pw_db w) in *. unfold report_body in Hr.
  step_ok Hr now w1 E. apply to_i64_Ok in E as [-> _].
  step_ok Hr o w2 E. apply query_Ok in E as [Hd2 ->]. fold d in Hd2.
  step_ok Hr cur w3 E. apply ok_or_Ok in E. fold d in E.
  pose proof (row_where_active d k (sc_now_ms c) Hwf) as Hrow. fold k in E, Hr.
  destruct (row_where k _ d) as [r|] eqn:Hw; [|done]. injection E as <-.
  destruct Hrow as (i & Hk & Hdel & Hi & Hv & Hlive).
  step_ok Hr u w4 Ex. destruct u. step_ok Hr n w5 E5.
  apply next_revision_Ok in E5 as (Hn & Hmax & Hd5); [|by rewrite Hd2].
  rewrite Hd2 in Hn, Hmax, Hd5.
  step_ok Hr z w6 E6. apply to_i64_Ok in E6 as [-> _].
  step_ok Hr rows w7 E7. apply returned in E7. step_ok Hr row' w8 E8.
  step_ok Hr u w9 E9. injection Hr as <- <-. apply insert_event_Ok in E9.
  destruct (updated_row d k _ _ r w5 w7 rows _ Hw Hd5 E7) as [-> Hd7].
  destruct (committed_row d k r i _ (set_status (sc_status c) n i) n w5 w7 w9 _
              InstanceStatusReported Hwf Hk Hi Hn Hmax Hd5 Hd7 E9) as (Hwf' & _ & Hview); try done.
  { by apply row_decodes_status. }
  injection E8 as <-. exists i, n. split_and!; [done|done| |unfold k, scope_of_key; simpl; lia|done|done|].
  - by apply (expect_revision_Ok _ k r).
  - rewrite Hview. simpl. by rewrite Hdel.
Qed.

(** ** Renewals *)

Definition renew_body (c : RenewLeaseCommand) (expires_at_ms : Z)
    : Op PgWorld (InstanceKey * InstanceRow) :=
  now_ms ← lift (to_i64 "now_ms" (lc_now_ms c));
  scopes ← exec link (SELECT_LEASE_SCOPE (lc_lease_id c) now_ms);
  scope ← lift (ok_or (first_row scopes) (NotFound "lease not found"));
  revision ← pg_next_revision link scope.1 scope.2;
  revision_i64 ← lift (to_i64 "revision" revision);
  rows ← exec link (RENEW_LEASE (lc_lease_id c) expires_at_ms revision_i64 now_ms);
  row ← lift (ok_or (first_row rows) (NotFound "lease not found"));
  insert_event link revision scope.1 scope.2 InstanceRenewed (ik_instance_id row.1) None;;
  mret row.

(** A lease is of one row. *)
Lemma lease_scope d l now s :
  db_wf d →
  first_row ((λ '(k, _), scope_of_key k) <$>
    retain (λ '(_, r), bool_decide (ir_lease_id r = l) && row_active (Z.of_N now) r)
      (hash_iter (db_instances d))) = Some s →
  ∃ k r, s = scope_of_key k ∧ db_instances d !! k = Some r ∧ ir_lease_id r = l
    ∧ row_active (Z.of_N now) r = true
    ∧ ∀ g, update_instances (λ _ r, bool_decide (ir_lease_id r = l) && row_active (Z.of_N now) r) g d
           = (set_db_instances (<[k := g r]> (db_instances d)) d, [(k, g r)]).
Proof.
  intros Hwf Hs. unfold first_row in Hs.
  destruct (retain _ _) as [|[k r] rest] eqn:E; [done|]. injection Hs as <-.
  assert ((k, r) ∈ (k, r) :: rest) as Hin by left. rewrite <- E in Hin.
  apply elem_of_retain in Hin as [Hf Hin]. apply elem_of_hash_iter in Hin.
  pose proof Hf as [Hl%bool_decide_eq_true Ha]%andb_true_iff.
  exists k, r. split_and!; try done. intros g. apply update_one; [done|done|].
  intros k' r' Hk' [Hl'%bool_decide_eq_true _]%andb_true_iff.
  eapply (rws_lease _ _ (dbw_rows _ Hwf)); [done..|congruence].
Qed.

Lemma renew_commits c expires w w' row :
  db_wf (pw_db w) → renew_body c (Z.of_N expires) w = (w', Ok row) →
  let d := pw_db w in
  ∃ k i n, pg_view d !! k = Some i ∧ si_lease_id i = lc_lease_id c
    ∧ (lc_now_ms c <? si_expires_at_ms i) = true
    ∧ n = Z.to_N (counter d (scope_of_key k) + 1)
    ∧ renew_result row = Ok {| lr_lease_id := lc_lease_id c; lr_namespace := ik_namespace k;
        lr_environment := ik_environment k; lr_service_name := ik_service_name k;
        lr_instance_id := ik_instance_id k; lr_revision := n; lr_expires_at_ms := expires |}
    ∧ db_wf (pw_db w') ∧ pg_view (pw_db w') = <[k := set_lease expires n i]> (pg_view d).
Proof.
  intros Hwf Hr d. unfold renew_body in Hr.
  step_ok Hr now w1 E. apply to_i64_Ok in E as [-> _].
  step_ok Hr o w2 E. apply query_Ok in E as [Hd2 ->]. fold d in Hd2.
  step_ok Hr s w3 E. apply ok_or_Ok in E. fold d in E.
  apply lease_scope in E as (k & r & -> & Hk & Hl & Ha & Hup); [|done].
  destruct (rws_decodes _ _ (dbw_rows _ Hwf) _ _ Hk) as [i Hi].
  rewrite (row_active_live _ k r i Hi) in Ha. apply andb_true_iff in Ha as [Hdel%negb_true_iff Hlive].
  step_ok Hr n w5 E5. apply next_revision_Ok in E5 as (Hn & Hmax & Hd5); [|by rewrite Hd2].
  rewrite Hd2 in Hn, Hmax, Hd5. change ((scope_of_key k).1, (scope_of_key k).2) with (scope_of_key k) in *.
  step_ok Hr z w6 E6. apply to_i64_Ok in E6 as [-> _].
  step_ok Hr rows w7 E7. apply returned' in E7. step_ok Hr row' w8 E8.
  step_ok Hr u w9 E9. injection Hr as <- <-. apply insert_event_Ok in E9.
  change ((scope_of_key k).1, (scope_of_key k).2) with (scope_of_key k) in *.
  assert (pw_db w7 = set_db_instances (<[k := set_row_lease (Z.of_N expires) (Z.of_N n) r]>
            (db_instances (pw_db w5))) (pw_db w5)
          ∧ rows = [(k, set_row_lease (Z.of_N expires) (Z.of_N n) r)]) as [Hd7 ->].
  { specialize (Hup (set_row_lease (Z.of_N expires) (Z.of_N n))). rewrite Hd5 in E7 |- *.
    unfold update_instances in E7, Hup. simpl in E7. injection Hup as Hm Hrows.
    injection E7 as <- <-. by rewrite Hm, Hrows. }
  injection E8 as <-.
  destruct (committed_row d k r i _ (set_lease expires n i) n w5 w7 w9 _ InstanceRenewed
              Hwf Hk Hi Hn Hmax Hd5 Hd7 E9) as (Hwf' & _ & Hview); try done.
  { by apply row_decodes_lease. }
  exists k, i, n. split_and!; [apply lookup_view; eauto| |done|lia| |done|].
  - apply row_decodes_spec in Hi. naive_solver congruence.
  - unfold renew_result. simpl. rewrite !(proj2 (i64_to_u64_Ok _ _ _) eq_refl). simpl. by rewrite Hl.
  - rewrite Hview. simpl. by rewrite Hdel.
Qed.

(** ** Deregistrations *)

(** The statements from the new revision to the event, where the row satisfies [f]. *)
Lemma deleted_row k f r i n w1 w2 w3 w4 rows u :
  let d := pw_db w1 in
  db_wf d → row_where k f d = Some r → row_decodes k r i →
  pg_next_revision link (ik_namespace k) (ik_environment k) w1 = (w2, Ok n) →
  update_instances (λ k' r, bool_decide (k' = k) && f r) (set_row_deleted (Z.of_N n)) (pw_db w2)
    = (pw_db w3, rows) →
  insert_event link n (ik_namespace k) (ik_environment k) InstanceDeregistered
    (ik_instance_id k) None w3 = (w4, Ok u) →
  rows = [(k, set_row_deleted (Z.of_N n) r)] ∧ n = Z.to_N (counter d (scope_of_key k) + 1)
  ∧ db_wf (pw_db w4) ∧ db_instances (pw_db w4) = <[k := set_row_deleted (Z.of_N n) r]> (db_instances d)
  ∧ pg_view (pw_db w4) = delete k (pg_view d).
Proof.
  intros d Hwf Hw Hi Hn Hu He. apply next_revision_Ok in Hn as (Hn & Hmax & Hd2); [|done].
  fold d in Hn, Hmax, Hd2. apply insert_event_Ok in He.
  destruct (updated_row d k f _ r w2 w3 rows _ Hw Hd2 Hu) as [-> Hd3].
  assert (db_instances d !! k = Some r) as Hk.
  { unfold row_where in Hw. destruct (db_instances d !! k); simplify_eq/=. by case_match; simplify_eq. }
  destruct (committed_row d k r i _ (set_status (si_status i) n i) n w2 w3 w4 _
              InstanceDeregistered Hwf Hk Hi Hn Hmax Hd2 Hd3 He) as (Hwf' & Hdb & Hview); try done.
  { by apply row_decodes_deleted. }
  split_and!; [done| |done|done|done]. unfold scope_of_key. lia.
Qed.

Definition deregister_body (k : InstanceKey) (now_ms : N) : Op PgWorld DeregisterInstanceResult :=
  now_ms ← lift (to_i64 "now_ms" now_ms);
  active ← exec link (SELECT_ACTIVE_INSTANCE_FOR_DEREGISTER k now_ms);
  match active with
  | None => mret (nothing_deregistered k)
  | Some _ =>
      revision ← pg_next_revision link (ik_namespace k) (ik_environment k);
      revision_i64 ← lift (to_i64 "revision" revision);
      rows ← exec link (DEREGISTER_INSTANCE k revision_i64 now_ms);
      match first_row rows with
      | Some (k', r) =>
          insert_event link revision (ik_namespace k) (ik_environment k) InstanceDeregistered
            (ik_instance_id k) None;;
          revision ← lift (i64_to_u64 "revision" (ir_revision r));
          mret (deregistered k' revision)
      | None => mret (nothing_deregistered k)
      end
  end.

Lemma deregister_commits k now w w' res :
  db_wf (pw_db w) → deregister_body k now w = (w', Ok res) →
  let d := pw_db w in
  db_wf (pw_db w')
  ∧ ((∃ i n, pg_view d !! k = Some i ∧ (now <? si_expires_at_ms i) = true
        ∧ n = Z.to_N (counter d (scope_of_key k) + 1) ∧ res = deregistered k n
        ∧ pg_view (pw_db w') = delete k (pg_view d))
     ∨ (∀ i, pg_view d !! k = Some i → (now <? si_expires_at_ms i) = false)
       ∧ res = nothing_deregistered k ∧ pg_view (pw_db w') = pg_view d).
Proof.
  intros Hwf Hr d. unfold deregister_body in Hr.
  step_ok Hr z w1 E. apply to_i64_Ok in E as [-> _].
  step_ok Hr o w2 E. apply query_Ok in E as [Hd2 ->]. fold d in Hd2, Hr.
  pose proof (row_where_active d k now Hwf) as Hrow.
  destruct (row_where k _ d) as [r|] eqn:Hw; simpl in Hr; cycle 1.
  { injection Hr as <- <-. rewrite Hd2. auto. }
  destruct Hrow as (i & Hk & Hdel & Hi & Hv & Hlive).
  step_ok Hr n w5 E5. step_ok Hr z w6 E6. apply to_i64_Ok in E6 as [-> _].
  step_ok Hr rows w7 E7. apply returned' in E7.
  pose proof E5 as (_ & _ & Hd5)%next_revision_Ok; [|by rewrite Hd2].
  rewrite Hd2 in Hd5. pose proof (updated_row d k _ _ r w5 w7 rows _ Hw Hd5 E7) as [-> _].
  simpl in Hr. step_ok Hr u w8 E8. change (pw_db w) with d in Hwf. rewrite <- Hd2 in Hwf, Hw.
  destruct (deleted_row k _ r i n w2 w5 w7 w8 _ u Hwf Hw Hi E5 E7 E8) as (_ & Hn & Hwf' & _ & Hview).
  rewrite Hd2 in Hn, Hview. step_ok Hr n' w9 E9. apply i64_to_u64_Ok in E9. simpl in E9.
  assert (n' = n) as -> by lia. injection Hr as <- <-. split; [done|]. left. eauto 10.
Qed.

(** ** Sweeps *)

Lemma row_where_insert_ne k k' f r d m :
  k' ≠ k → db_instances d = <[k := r]> m →
  row_where k' f d = (r ← m !! k'; if f r then Some r else None).
Proof. intros Hne Hd. unfold row_where. by rewrite Hd, lookup_insert_ne. Qed.

Lemma expire_loop_commits now keys w w' l :
  db_wf (pw_db w) → NoDup keys →
  (∀ k, k ∈ keys → is_Some (row_where k (row_expired now) (pw_db w))) →
  pg_expire_loop link now keys w = (w', Ok l) →
  result_key <$> l = keys ∧ db_wf (pw_db w')
  ∧ pg_view (pw_db w') = filter (λ '(k, _), k ∉ keys) (pg_view (pw_db w)).
Proof.
  revert w w' l. induction keys as [|k keys IH]; intros w w' l Hwf Hnd Hall Hr.
  { injection Hr as <- <-. split_and!; [done|done|]. symmetry. apply map_filter_id. set_solver. }
  apply NoDup_cons in Hnd as [Hnew Hnd]. destruct (Hall k ltac:(left)) as [r Hw].
  simpl in Hr. step_ok Hr n w5 E5. step_ok Hr z w6 E6. apply to_i64_Ok in E6 as [-> _].
  step_ok Hr rows w7 E7. apply returned' in E7.
  pose proof E5 as (_ & _ & Hd5)%next_revision_Ok; [|done].
  pose proof (updated_row (pw_db w) k _ _ r w5 w7 rows _ Hw Hd5 E7) as [-> _].
  simpl in Hr. step_ok Hr u w8 E8. step_ok Hr n' w9 _n.
  step_ok Hr l' w10 E10. injection Hr as <- <-.
  assert (∃ i, row_decodes k r i) as [i Hi].
  { unfold row_where in Hw. destruct (db_instances (pw_db w) !! k) eqn:Hk; [|done]. simpl in Hw.
    case_match; simplify_eq. by eapply (rws_decodes _ _ (dbw_rows _ Hwf)). }
  destruct (deleted_row k _ r i n w w5 w7 w8 _ u Hwf Hw Hi E5 E7 E8) as (_ & Hn & Hwf' & Hdb & Hview).
  apply IH in E10 as (Hk & Hwf10 & Hv10); [|done|done|].
  - split_and!; [by rewrite <- Hk; destruct k|done|]. rewrite Hv10, Hview.
    apply map_eq. intros k'. apply option_eq. intros j.
    rewrite !map_lookup_filter_Some, lookup_delete_Some. set_solver.
  - intros k' Hk'. rewrite (row_where_insert_ne k k' _ _ _ _ ltac:(set_solver) Hdb).
    apply Hall. by right.
Qed.
End commits.
