(* ===== verification/PgQueries.v ===== *)
(** * Registry calls that change one row or none

    Sweeps, health updates and queries of the PostgreSQL registry against the
    instances the database holds. *)
From S2P Require Import Prelude RustStr Collections Contract Discover MemoryStore.
From S2P Require Import MemoryRegistry Codec PgSchema PgSql PgCodec Postgres PgLemmas PgRegistry.
From S2P Require Import PgCommits.

Lemma collect_Ok {A B} (f : A → DiscoveryResult B) l bs :
  collect f l = Ok bs ↔ Forall2 (λ a b, f a = Ok b) l bs.
Proof.
  revert bs. induction l as [|a l IH]; intros bs; simpl.
  - split; [intros [= <-]; constructor|by inversion 1].
  - rewrite result_bind_Ok. split.
    + intros (b & Hb & E). apply result_bind_Ok in E as (bs' & Hbs & [= <-]).
      constructor; [done|by apply IH].
    + inversion 1 as [|? b ? bs' Hb Hbs]; subst. exists b. split; [done|].
      apply IH in Hbs. by rewrite Hbs.
Qed.

Lemma collect_total {A B} (f : A → DiscoveryResult B) l :
  (∀ a, a ∈ l → ∃ b, f a = Ok b) → ∃ bs, collect f l = Ok bs.
Proof.
  induction l as [|a l IH]; intros Hf; [by eexists|]. simpl.
  destruct (Hf a ltac:(left)) as [b ->]. destruct IH as [bs ->]; [|by eexists].
  intros a' Ha. apply Hf. by right.
Qed.

Lemma collect_elem {A B} (f : A → DiscoveryResult B) l bs b :
  collect f l = Ok bs → b ∈ bs ↔ ∃ a, a ∈ l ∧ f a = Ok b.
Proof.
  intros Hc%collect_Ok. induction Hc as [|a b' l bs Hf _ IH]; [set_solver|].
  rewrite elem_of_cons, IH. setoid_rewrite elem_of_cons. split.
  - intros [->|(a' & Ha & Hb)]; eauto.
  - intros (a' & [->|Ha] & Hb); [left; congruence|eauto].
Qed.

Section queries.
Context `{PgExternals, HashOrder, !JsonFaithful} (link : N → option Fault).

(** ** Sweeps *)

Lemma row_where_lookup k f d r :
  row_where k f d = Some r ↔ db_instances d !! k = Some r ∧ f r = true.
Proof.
  unfold row_where. destruct (db_instances d !! k) as [r'|]; simpl; [|naive_solver].
  destruct (f r') eqn:E; naive_solver congruence.
Qed.

Definition pg_expired_keys (now : Z) (d : Database) : list InstanceKey :=
  sort_by collated_key (retain (λ '(_, r), row_expired now r) (hash_iter (db_instances d))).*1.

Lemma elem_of_pg_expired_keys now d k :
  k ∈ pg_expired_keys now d ↔ is_Some (row_where k (row_expired now) d).
Proof.
  unfold pg_expired_keys. rewrite sort_by_perm, list_elem_of_fmap. split.
  - intros ([k' r] & -> & [Hr Hk%elem_of_hash_iter]%elem_of_retain). exists r.
    by apply row_where_lookup.
  - intros [r [Hk Hr]%row_where_lookup]. exists (k, r). split; [done|].
    apply elem_of_retain. split; [done|by apply elem_of_hash_iter].
Qed.

Lemma retain_fst_NoDup {K V} (f : K * V → bool) l : NoDup l.*1 → NoDup (retain f l).*1.
Proof.
  induction l as [|[k v] l IH]; [done|]. rewrite retain_cons. simpl.
  intros [Hk Hnd]%NoDup_cons. destruct (f (k, v)); [|by apply IH].
  simpl. apply NoDup_cons. split; [|by apply IH].
  intros ([k' v'] & -> & [_ Hin]%elem_of_retain)%list_elem_of_fmap. apply Hk.
  by apply (list_elem_of_fmap_2 fst _ (_, v')).
Qed.

Lemma NoDup_pg_expired_keys now d : NoDup (pg_expired_keys now d).
Proof.
  unfold pg_expired_keys. rewrite sort_by_perm. apply retain_fst_NoDup, NoDup_hash_keys.
Qed.

Lemma row_where_expired d k now :
  db_wf d →
  is_Some (row_where k (row_expired (Z.of_N now)) d) ↔
  ∃ i, pg_view d !! k = Some i ∧ (now <? si_expires_at_ms i) = false.
Proof.
  intros Hwf. split.
  - intros [r [Hk Hr]%row_where_lookup].
    destruct (rws_decodes _ _ (dbw_rows _ Hwf) _ _ Hk) as [i Hi].
    rewrite (row_expired_live now k r i Hi) in Hr.
    apply andb_true_iff in Hr as [Hd%negb_true_iff Hl%negb_true_iff].
    exists i. split; [|done]. apply lookup_view. eauto.
  - intros (i & (r & Hk & Hd & Hi)%lookup_view & Hl). exists r. apply row_where_lookup.
    split; [done|]. by rewrite (row_expired_live now k r i Hi), Hd, Hl.
Qed.

Definition expire_body (now_ms : Z) (max_instances : N) : Op PgWorld (list DeregisterInstanceResult) :=
  limit ← lift (usize_to_i64 "max_instances" max_instances);
  keys ← exec link (SELECT_EXPIRED_INSTANCES now_ms limit);
  pg_expire_loop link now_ms keys.

Lemma expire_commits now max w w' l :
  db_wf (pw_db w) → expire_body (Z.of_N now) max w = (w', Ok l) →
  let v := pg_view (pw_db w) in let v' := pg_view (pw_db w') in
  db_wf (pw_db w') ∧ NoDup (result_key <$> l) ∧ len_N (result_key <$> l) <= max
  ∧ (∀ k, k ∈ (result_key <$> l) → ∃ i, v !! k = Some i ∧ (now <? si_expires_at_ms i) = false)
  ∧ v' = filter (λ '(k, _), k ∉ (result_key <$> l)) v
  ∧ (len_N (result_key <$> l) < max →
     ∀ k i, v' !! k = Some i → (now <? si_expires_at_ms i) = true).
Proof.
  intros Hwf Hr v v'. unfold expire_body in Hr.
  step_ok Hr limit w1 E. apply usize_to_i64_Ok in E as [-> _].
  step_ok Hr keys w2 E. apply query_Ok in E as [Hd2 Hkeys].
  fold (pg_expired_keys (Z.of_N now) (pw_db w)) in Hkeys.
  set (all := pg_expired_keys (Z.of_N now) (pw_db w)) in *.
  assert (∀ k, k ∈ keys → k ∈ all) as Hsub. { intros k. rewrite Hkeys. by apply subseteq_take. }
  assert (NoDup keys) as Hnd. { rewrite Hkeys. eapply sublist_NoDup; [apply NoDup_pg_expired_keys|apply sublist_take]. }
  apply expire_loop_commits in Hr as (Hk & Hwf' & Hv); [|by rewrite Hd2|done|].
  2:{ intros k Hin. rewrite Hd2. apply elem_of_pg_expired_keys. by apply Hsub. }
  rewrite Hk. rewrite Hd2 in Hv. fold v in Hv. fold v' in Hv.
  split_and!; [done|done| | |done|].
  - unfold len_N. rewrite Hkeys, length_take. lia.
  - intros k Hin. by apply row_where_expired, elem_of_pg_expired_keys, Hsub.
  - intros Hlt k i Hki. destruct (now <? si_expires_at_ms i) eqn:El; [done|]. exfalso.
    rewrite Hv in Hki. apply map_lookup_filter_Some in Hki as [Hki Hnot]. apply Hnot.
    assert (keys = all) as ->.
    { rewrite Hkeys. apply take_ge. unfold len_N in Hlt. rewrite Hkeys, length_take in Hlt. lia. }
    apply elem_of_pg_expired_keys, row_where_expired; [done|]. by exists i.
Qed.

(** ** Health *)

Lemma row_decodes_check_state k r i state text j :
  row_decodes k r i → check_state_to_string state = Ok text → jsonb_in text = Ok j →
  row_decodes k (set_row_check_state j r) (set_health_check_state state i).
Proof.
  rewrite !row_decodes_spec. intros Hi Ht Hj. destruct (jf_state_back _ _ _ Ht Hj) as [Hne Hs].
  simpl. split_and!; try naive_solver. unfold health_check_state_from_json_text.
  by rewrite Hne, Hs.
Qed.

(** A row keeps its lease and revision. *)
Lemma same_revision_wf d k r r' i' :
  db_wf d → db_instances d !! k = Some r → row_decodes k r' i' →
  ir_lease_id r' = ir_lease_id r → ir_revision r' = ir_revision r →
  db_wf (set_db_instances (<[k := r']> (db_instances d)) d).
Proof.
  intros [Hc Hr Hd Hl He] Hk Hr' Hlease Hrev. split; try done. simpl.
  eapply rows_wf_put; [exact Hr|done| |].
  - rewrite Hrev. by apply (rws_revision _ _ Hr).
  - intros k' r'' Hk' E. eapply (rws_lease _ _ Hr); [exact Hk'|exact Hk|congruence].
Qed.

Lemma UPDATE_HEALTH_CHECK_STATE_Ok k state text d d' n :
  db_wf d → check_state_to_string state = Ok text →
  UPDATE_HEALTH_CHECK_STATE k text d = Ok (d', n) →
  db_wf d'
  ∧ match pg_view d !! k with
    | Some i => n ≠ 0 ∧ pg_view d' = <[k := set_health_check_state state i]> (pg_view d)
    | None => n = 0 ∧ pg_view d' = pg_view d
    end.
Proof.
  intros Hwf Ht E%with_text_Ok. apply result_bind_Ok in E as (j & Hj%to_jsonb_Ok & E).
  destruct (update_instances _ _ d) as [d2 rows] eqn:Hu. injection E as -> <-.
  pose proof (update_key k (λ r, negb (ir_deleted r)) _ _ _ _ Hu) as Hk.
  destruct (row_where k _ d) as [r|] eqn:Hw.
  - apply row_where_lookup in Hw as [Hr Hd%negb_true_iff]. destruct Hk as [-> ->].
    destruct (rws_decodes _ _ (dbw_rows _ Hwf) _ _ Hr) as [i Hi].
    pose proof (row_decodes_check_state _ _ _ _ _ _ Hi Ht Hj) as Hi'.
    assert (pg_view d !! k = Some i) as -> by (apply lookup_view; eauto).
    split; [by apply (same_revision_wf d k r _ _ Hwf Hr Hi')|]. split; [done|].
    by apply view_insert.
  - rewrite Hk. destruct (pg_view d !! k) as [i|] eqn:Hv.
    { apply lookup_view in Hv as (r & Hr & Hd & _).
      enough (row_where k (λ r, negb (ir_deleted r)) d = Some r) by congruence.
      apply row_where_lookup. by rewrite Hd. }
    assert (d' = d) as ->; [|done].
    injection Hu as <- _. destruct d; unfold set_db_instances; simpl; f_equal.
    apply map_eq. intros k'. rewrite map_lookup_imap.
    destruct (_ !! k') as [r|] eqn:Hr; [|done]. simpl. case_bool_decide as Hkk; [|done].
    subst k'. unfold row_where in Hw. simpl in *. rewrite Hr in Hw. simpl in Hw.
    by destruct (ir_deleted r).
Qed.

(** ** Queries *)

Lemma retrieve_answers k now w w' o :
  db_wf (pw_db w) →
  (row ← exec link (RETRIEVE_INSTANCE k (Z.of_N now));
   match row with
   | Some row => i ← lift (service_instance_from_row row); mret (Some i)
   | None => mret None
   end) w = (w', o) →
  match o with
  | Ok o => o = (i ← pg_view (pw_db w) !! k; if now <? si_expires_at_ms i then Some i else None)
  | Err e => ∃ m, e = Unavailable m
  end.
Proof.
  intros Hwf Hr. destruct o as [o|e].
  - step_ok Hr row w1 E. apply query_Ok in E as [_ ->].
    pose proof (row_where_active (pw_db w) k now Hwf) as Hrow.
    destruct (row_where k _ _) as [r|]; simpl in Hr.
    + destruct Hrow as (i & _ & _ & Hi & Hv & Hl). step_ok Hr i' w2 E. injection Hr as <- <-.
      rewrite Hv. simpl. rewrite Hl. unfold row_decodes in Hi. congruence.
    + injection Hr as <- <-. destruct (pg_view _ !! k) as [i|]; [|done]. simpl.
      by rewrite (Hrow i eq_refl).
  - apply eff_bind_Err in Hr as [Hr|(row & w1 & E & Hr)]; [by apply exec_Err in Hr|].
    apply exec_Ok in E as [E _]. apply query_Ok in E as [_ ->].
    pose proof (row_where_active (pw_db w) k now Hwf) as Hrow.
    destruct (row_where k _ _) as [r|]; simpl in Hr; [|done].
    destruct Hrow as (i & _ & _ & Hi & _). unfold row_decodes in Hi. rewrite eff_bind_run in Hr.
    unfold lift in Hr. by rewrite Hi in Hr.
Qed.

Definition discover_where (q : DiscoverInstancesQuery) (now : Z)
    (row : InstanceKey * InstanceRow) : bool :=
  let '(k, r) := row in
  bool_decide (ik_namespace k = dq_namespace q)
  && bool_decide (ik_environment k = dq_environment q)
  && bool_decide (ik_service_name k = dq_service_name q) && row_active now r
  && is_none_or (dq_protocol q) (λ p, bool_decide (ir_protocol r = p))
  && (negb (dq_healthy_only q) || bool_decide (ir_status r ∈ ["serving"; "degraded"])).

Lemma discoverable_status st :
  bool_decide (encode_instance_status st ∈ ["serving"; "degraded"]) = is_discoverable st.
Proof. by destruct st. Qed.

Lemma discover_where_filter q now k r i :
  row_decodes k r i →
  discover_where q (Z.of_N now) (k, r) = negb (ir_deleted r) && discover_filter q now i.
Proof.
  intros Hi. pose proof (row_active_live now k r i Hi) as Ha.
  apply row_decodes_spec in Hi as (_ & _ & Hs & _ & _ & _ & _ & _ & <- & _ & Hp & _).
  unfold discover_where, discover_filter. rewrite Ha, Hs, <- Hp, discoverable_status. simpl.
  destruct (ir_deleted r); simpl; [by rewrite !andb_false_r|].
  rewrite <- !andb_assoc. do 3 f_equal. rewrite !andb_assoc. f_equal. apply andb_comm.
Qed.

Lemma discover_rows q now d rows instances :
  db_wf d → rows ≡ₚ retain (discover_where q (Z.of_N now)) (map_to_list (db_instances d)) →
  collect service_instance_from_row rows = Ok instances →
  instances ≡ₚ retain (discover_filter q now) (map_to_list (pg_view d)).*2.
Proof.
  intros Hwf Hrows Hc.
  assert (∀ b, b ∈ instances ↔ ∃ a, a ∈ rows ∧ service_instance_from_row a = Ok b) as Helem
    by (intros b; by apply collect_elem).
  apply collect_Ok in Hc.
  assert (key_of <$> instances = rows.*1) as Hkeys.
  { clear Hrows Helem. induction Hc as [|[k r] i rows instances Hi _ IH]; [done|]. csimpl.
    rewrite IH. f_equal. by apply row_decodes_spec in Hi as (_ & _ & _ & _ & _ & _ & _ & _ & -> & _). }
  assert (NoDup instances) as Hnd.
  { apply (NoDup_fmap_1 key_of). rewrite Hkeys, Hrows.
    apply retain_fst_NoDup, NoDup_fst_map_to_list. }
  apply NoDup_Permutation; [done| |].
  { eapply sublist_NoDup; [|apply retain_sublist]. apply (NoDup_fmap_1 key_of). rewrite <- list_fmap_compose.
    erewrite (Forall_fmap_ext_1 _ fst); [apply NoDup_fst_map_to_list|].
    apply Forall_forall. intros [k i] Hin%elem_of_map_to_list.
    apply lookup_view in Hin as (r & _ & _ & Hi).
    by apply row_decodes_spec in Hi as (_ & _ & _ & _ & _ & _ & _ & _ & Hk & _). }
  intros i. rewrite elem_of_retain, list_elem_of_fmap. split.
  - intros Hin. apply Helem in Hin as ([k r] & Hin & Hi). rewrite Hrows in Hin.
    apply elem_of_retain in Hin as [Hf Hin%elem_of_map_to_list].
    rewrite (discover_where_filter _ _ _ _ i Hi) in Hf.
    apply andb_true_iff in Hf as [Hd%negb_true_iff Hf]. split; [done|]. exists (k, i).
    split; [done|]. apply elem_of_map_to_list, lookup_view. eauto.
  - intros [Hf ([k i'] & -> & Hin%elem_of_map_to_list)]. simpl in *.
    apply lookup_view in Hin as (r & Hr & Hd & Hi).
    apply Helem. exists (k, r). split; [|done].
    rewrite Hrows. apply elem_of_retain. rewrite (discover_where_filter _ _ _ _ i' Hi), Hd.
    split; [done|by apply elem_of_map_to_list].
Qed.
End queries.
