(* ===== verification/PgBackend.v ===== *)
(** * The PostgreSQL registry is a registry backend

    Every call of the PostgreSQL registry, under any faults of the link, answers and
    changes the instances as [RegistrySpec] allows. *)
From S2P Require Import Prelude RustStr Collections Contract Discover StorageContract.
From S2P Require Import MemoryStore MemoryRegistry Codec PgSchema PgSql PgCodec Postgres.
From S2P Require Import RegistrySpec PgLemmas PgRegistry PgCommits PgQueries.

Section refusals.
Context `{PgExternals, HashOrder, !JsonFaithful} (link : N → option Fault).

(** ** Errors of a run *)

Definition fails_only {A} (P : DiscoveryError → Prop) (m : Op PgWorld A) (w : PgWorld) : Prop :=
  ∀ w' e, m w = (w', Err e) → P e.

Lemma fails_bind {A B} P (m : Op PgWorld A) (f : A → Op PgWorld B) w :
  fails_only P m w → (∀ a w1, m w = (w1, Ok a) → fails_only P (f a) w1) →
  fails_only P (m ≫= f) w.
Proof. intros Hm Hf w' e [Hr|(a & w1 & Ha & Hr)]%eff_bind_Err; [by eapply Hm|by eapply Hf]. Qed.

Lemma fails_lift {A} P (r : DiscoveryResult A) w :
  (∀ e, r = Err e → P e) → fails_only P (lift r) w.
Proof. intros Hr w' e [_ Hq]%lift_run_eq. by apply Hr. Qed.

Lemma fails_mret {A} P (a : A) w : fails_only P (mret a) w.
Proof. intros w' e [=]. Qed.

Lemma fails_exec {A} (P : DiscoveryError → Prop) (st : Statement A) w :
  (∀ m, P (Unavailable m)) → fails_only P (exec link st) w.
Proof. intros HP w' e [m ->]%exec_Err. apply HP. Qed.

Lemma fails_next_revision (P : DiscoveryError → Prop) ns env w :
  (∀ m, P (Unavailable m)) → db_wf (pw_db w) → fails_only P (pg_next_revision link ns env) w.
Proof.
  intros HP Hwf. apply fails_bind; [by apply fails_exec|]. intros z w1 [E _]%exec_Ok.
  apply NEXT_REVISION_Ok in E as (-> & _ & _); [|done]. apply fails_lift. intros e.
  unfold i64_to_u64. pose proof (dbw_counters _ Hwf (ns, env)).
  by rewrite (proj2 (Z.leb_le _ _)) by lia.
Qed.

Lemma fails_to_i64 (P : DiscoveryError → Prop) field v w :
  (i64_max < v → P (too_large field "BIGINT")) → fails_only P (lift (to_i64 field v)) w.
Proof.
  intros HP. apply fails_lift. intros e. unfold to_i64. destruct (N.leb_spec v i64_max); [done|].
  intros [= <-]. by apply HP.
Qed.

Lemma fails_insert_event (P : DiscoveryError → Prop) n ns env kind id app w :
  (∀ m, P (Unavailable m)) → n <= i64_max →
  fails_only P (insert_event link n ns env kind id app) w.
Proof.
  intros HP Hn. apply fails_bind; [apply fails_to_i64; lia|]. intros z w1 _. by apply fails_exec.
Qed.

Lemma next_revision_bound ns env w w' n :
  db_wf (pw_db w) → pg_next_revision link ns env w = (w', Ok n) → n <= i64_max.
Proof.
  intros Hwf (Hn & Hmax & _)%next_revision_Ok; [|done]. unfold i64_max_Z in Hmax. lia.
Qed.

(** The tail of a write: the new revision, the statement that uses it, the event. *)
Lemma fails_write {A B} (P : DiscoveryError → Prop) ns env (st : Z → Statement A)
    (f : N → A → Op PgWorld B) w :
  (∀ m, P (Unavailable m)) → db_wf (pw_db w) →
  (∀ n z a w1 w2, pg_next_revision link ns env w = (w1, Ok n) → n <= i64_max →
     z = Z.of_N n → st z (pw_db w1) = Ok (pw_db w2, a) → fails_only P (f n a) w2) →
  fails_only P
    (revision ← pg_next_revision link ns env;
     revision_i64 ← lift (to_i64 "revision" revision);
     a ← exec link (st revision_i64); f revision a) w.
Proof.
  intros HP Hwf Hf. apply fails_bind; [by apply fails_next_revision|]. intros n w1 Hn.
  pose proof (next_revision_bound _ _ _ _ _ Hwf Hn) as Hmax.
  apply fails_bind; [apply fails_to_i64; lia|]. intros z w2 [-> Hz]%lift_run_eq.
  symmetry in Hz. apply to_i64_Ok in Hz as [-> _].
  apply fails_bind; [by apply fails_exec|]. intros a w3 [E _]%exec_Ok. by eapply Hf.
Qed.

Definition unavailable (e : DiscoveryError) : Prop := ∃ m, e = Unavailable m.

Lemma expect_revision_Err k r i expected e :
  row_decodes k r i → expect_revision expected (ir_revision r) = Err e →
  ∃ n m, expected = Some n ∧ si_revision i ≠ n ∧ e = Conflict m.
Proof.
  intros (_ & _ & _ & _ & _ & Hrev & _)%row_decodes_spec. unfold expect_revision.
  destruct expected as [n|]; [|done]. rewrite Hrev. 
  rewrite (proj2 (i64_to_u64_Ok "revision" (Z.of_N (si_revision i)) _) eq_refl). simpl.
  destruct (N.eqb_spec (si_revision i) n); [done|]. intros [= <-]. unfold pg_conflict. eauto 10.
Qed.

(** ** Refusals of the bodies *)

Lemma register_refusals c b w :
  db_wf (pw_db w) → bind_register c = Ok b →
  fails_only (justified ∅ (pg_view (pw_db w)) (DoRegister c))
    (existing ← register_lookup link c; register_write link c b existing) w.
Proof.
  intros Hwf _. set (P := justified _ _ _). assert (∀ m, P (Unavailable m)) as HP by done.
  apply fails_bind.
  - apply fails_bind.
    { apply fails_to_i64. intros Hm. unfold P. simpl. rewrite !andb_false_iff, N.leb_gt. lia. }
    intros z w1 [-> Hz]%lift_run_eq. symmetry in Hz. apply to_i64_Ok in Hz as [-> _].
    apply fails_bind; [by apply fails_exec|]. intros o w2 [E _]%exec_Ok.
    apply query_Ok in E as [_ ->].
    pose proof (row_where_active (pw_db w) (command_key c) (rc_now_ms c) Hwf) as Hrow.
    destruct (row_where _ _ _) as [r|]; simpl; [|apply fails_mret].
    destruct Hrow as (i & _ & _ & Hi & Hv & _).
    apply fails_bind; [|intros; apply fails_mret]. apply fails_lift. intros e He.
    apply (expect_revision_Err (command_key c) r i) in He as (n & m & Hn & Hne & ->); [|done].
    unfold P. simpl. exists i, n. done.
  - intros existing w1 [Hd1 _]%register_lookup_Ok. apply fails_bind.
    { destruct existing; [apply fails_mret|]. intros w' e []%new_id_Err. }
    intros lease w2 E.
    assert (pw_db w2 = pw_db w) as Hd2.
    { rewrite <- Hd1. destruct existing; [by injection E as <- _|by apply new_id_Ok in E]. }
    apply (fails_write P); [done|by rewrite Hd2|]. intros n z row w3 w4 _ Hn -> _.
    apply fails_bind; [by apply fails_insert_event|]. intros; apply fails_mret.
Qed.

(** No live record has a lease of which no row is selected. *)
Lemma no_lease_scope d l now k i :
  first_row ((λ '(k, _), scope_of_key k) <$>
    retain (λ '(_, r), bool_decide (ir_lease_id r = l) && row_active (Z.of_N now) r)
      (hash_iter (db_instances d))) = None →
  pg_view d !! k = Some i → si_lease_id i = l → live now i = false.
Proof.
  intros Hnone (r & Hk & Hdel & Hi)%lookup_view El. destruct (live now i) eqn:Hl; [|done].
  assert ((k, r) ∈ retain (λ '(_, r), bool_decide (ir_lease_id r = l)
            && row_active (Z.of_N now) r) (hash_iter (db_instances d))) as Hin.
  { apply elem_of_retain. split; [|by apply elem_of_hash_iter].
    rewrite (row_active_live now k r i Hi), Hdel. unfold live in Hl. rewrite Hl. simpl.
    rewrite andb_true_r. apply bool_decide_eq_true. apply row_decodes_spec in Hi. naive_solver congruence. }
  unfold first_row in Hnone. destruct (retain _ _); [by apply not_elem_of_nil in Hin|done].
Qed.

Lemma renew_refusals c expires w :
  db_wf (pw_db w) →
  fails_only (justified ∅ (pg_view (pw_db w)) (DoRenew c)) (renew_body link c expires) w.
Proof.
  intros Hwf. set (P := justified _ _ _). assert (∀ m, P (Unavailable m)) as HP by done.
  apply fails_bind.
  { apply fails_to_i64. intros Hm. unfold P. simpl. rewrite !andb_false_iff, N.leb_gt. lia. }
  intros z w1 [-> Hz]%lift_run_eq. symmetry in Hz. apply to_i64_Ok in Hz as [-> _].
  apply fails_bind; [by apply fails_exec|]. intros o w2 [E _]%exec_Ok.
  apply query_Ok in E as [Hd2 ->]. apply fails_bind.
  { apply fails_lift. intros e. destruct (first_row _) eqn:Ef; simpl; [done|]. intros [= <-].
    right. intros k i Hk El. by eapply no_lease_scope. }
  intros s w3 [-> Hs]%lift_run_eq. symmetry in Hs. apply ok_or_Ok in Hs.
  apply lease_scope in Hs as (k & r & -> & _ & _ & _ & Hup); [|done].
  apply (fails_write P); [done|by rewrite Hd2|]. intros n z' rows w5 w6 Hrev Hn -> Hst.
  apply next_revision_Ok in Hrev as (_ & _ & Hd5); [|by rewrite Hd2].
  apply returned' in Hst. specialize (Hup (set_row_lease expires (Z.of_N n))).
  assert (rows = [(k, set_row_lease expires (Z.of_N n) r)]) as ->.
  { rewrite Hd5, Hd2 in Hst. unfold update_instances in Hst, Hup. simpl in Hst.
    injection Hup as _ Hrows. injection Hst as _ <-. by rewrite Hrows. }
  apply fails_bind; [by apply fails_lift|]. intros row w7 _.
  apply fails_bind; [by apply fails_insert_event|]. intros; apply fails_mret.
Qed.

Lemma report_refusals c w :
  db_wf (pw_db w) →
  fails_only (justified ∅ (pg_view (pw_db w)) (DoReport c)) (report_body link c) w.
Proof.
  intros Hwf. set (P := justified _ _ _). assert (∀ m, P (Unavailable m)) as HP by done.
  apply fails_bind.
  { apply fails_to_i64. intros Hm. unfold P. simpl. rewrite !andb_false_iff, N.leb_gt. lia. }
  intros z w1 [-> Hz]%lift_run_eq. symmetry in Hz. apply to_i64_Ok in Hz as [-> _].
  apply fails_bind; [by apply fails_exec|]. intros o w2 [E _]%exec_Ok.
  apply query_Ok in E as [Hd2 ->].
  pose proof (row_where_active (pw_db w) (status_key c) (sc_now_ms c) Hwf) as Hrow.
  destruct (row_where _ _ _) as [r|] eqn:Hw; simpl.
  - destruct Hrow as (i & _ & _ & Hi & Hv & _).
    apply fails_bind; [by apply fails_lift|]. intros rev w3 [-> Hrev]%lift_run_eq.
    injection Hrev as ->. apply fails_bind.
    { apply fails_lift. intros e He.
      apply (expect_revision_Err (status_key c) r i) in He as (n & m & Hn & Hne & ->); [|done].
      unfold P. simpl. exists i, n. done. }
    intros [] w4 [-> _]%lift_run_eq.
    apply (fails_write P); [done|by rewrite Hd2|]. intros n z rows w5 w6 Hn Hmax -> E.
    apply next_revision_Ok in Hn as (_ & _ & Hd5); [|by rewrite Hd2]. rewrite Hd2 in Hd5.
    apply returned in E. destruct (updated_row _ _ _ _ r _ _ _ _ Hw Hd5 E) as [-> _].
    apply fails_bind; [by apply fails_lift|]. intros row w7 _.
    apply fails_bind; [by apply fails_insert_event|]. intros; apply fails_mret.
  - apply fails_bind; [|by intros ? ? [_ [=]]%lift_run_eq]. apply fails_lift.
    intros e [= <-]. done.
Qed.

Lemma deregister_refusals k now w :
  db_wf (pw_db w) →
  fails_only (justified ∅ (pg_view (pw_db w)) (DoDeregister k now)) (deregister_body link k now) w.
Proof.
  intros Hwf. set (P := justified _ _ _). assert (∀ m, P (Unavailable m)) as HP by done.
  apply fails_bind.
  { apply fails_to_i64. intros Hm. unfold P. simpl. rewrite !andb_false_iff, N.leb_gt. lia. }
  intros z w1 [-> _]%lift_run_eq.
  apply fails_bind; [by apply fails_exec|]. intros o w2 [E _]%exec_Ok.
  apply query_Ok in E as [Hd2 _]. destruct o; [|apply fails_mret].
  apply (fails_write P); [done|by rewrite Hd2|]. intros n z' rows w5 w6 Hn Hmax -> E%returned'.
  destruct (first_row rows) as [[k' r]|] eqn:Hrow; [|apply fails_mret].
  apply fails_bind; [by apply fails_insert_event|]. intros [] w7 _.
  apply fails_bind; [|intros; apply fails_mret]. apply fails_lift. intros e.
  assert (ir_revision r = Z.of_N n) as ->.
  { injection E as _ <-. unfold first_row in Hrow.
    destruct (retain _ _) as [|[k1 r1] l]; [done|]. by injection Hrow as _ <-. }
  by rewrite (proj2 (i64_to_u64_Ok _ _ _) eq_refl).
Qed.

Lemma expire_loop_refusals P now keys w :
  (∀ m, P (Unavailable m)) → db_wf (pw_db w) → NoDup keys →
  (∀ k, k ∈ keys → is_Some (row_where k (row_expired now) (pw_db w))) →
  fails_only P (pg_expire_loop link now keys) w.
Proof.
  intros HP. revert w. induction keys as [|k keys IH]; intros w Hwf Hnd Hall; [apply fails_mret|].
  apply NoDup_cons in Hnd as [Hnew Hnd]. destruct (Hall k ltac:(left)) as [r Hw].
  pose proof Hw as [Hk Hr]%row_where_lookup.
  destruct (rws_decodes _ _ (dbw_rows _ Hwf) _ _ Hk) as [i Hi]. simpl.
  apply (fails_write P); [done|done|]. intros n z rows w5 w6 Hn Hmax -> E%returned'.
  pose proof Hn as (_ & _ & Hd5)%next_revision_Ok; [|done].
  destruct (updated_row _ _ _ _ r _ _ _ _ Hw Hd5 E) as [-> _]. simpl.
  apply fails_bind; [by apply fails_insert_event|]. intros u w7 He.
  apply fails_bind.
  { apply fails_lift. intros e. by rewrite (proj2 (i64_to_u64_Ok _ _ _) eq_refl). }
  intros n' w8 [-> _]%lift_run_eq.
  destruct (deleted_row link k _ r i n w w5 w6 w7 _ u Hwf Hw Hi Hn E He) as (_ & _ & Hwf' & Hdb & _).
  apply fails_bind; [|intros; apply fails_mret]. apply IH; [done|done|].
  intros k' Hk'. rewrite (row_where_insert_ne k k' _ _ _ _ ltac:(set_solver) Hdb).
  apply Hall. by right.
Qed.

Lemma expire_refusals now max w :
  db_wf (pw_db w) →
  fails_only (justified ∅ (pg_view (pw_db w)) (DoExpire now max)) (expire_body link (Z.of_N now) max) w.
Proof.
  intros Hwf. set (P := justified _ _ _). assert (∀ m, P (Unavailable m)) as HP by done.
  apply fails_bind.
  { apply fails_lift. intros e. unfold usize_to_i64. destruct (N.leb_spec max i64_max); [done|].
    intros [= <-]. unfold P. simpl. rewrite !andb_false_iff, !N.leb_gt. lia. }
  intros z w1 [-> _]%lift_run_eq.
  apply fails_bind; [by apply fails_exec|]. intros keys w2 [E _]%exec_Ok.
  apply query_Ok in E as [Hd2 ->]. apply expire_loop_refusals; [done|by rewrite Hd2| |].
  - eapply sublist_NoDup; [apply (NoDup_pg_expired_keys (Z.of_N now) (pw_db w))|apply sublist_take].
  - intros k Hin%subseteq_take. rewrite Hd2. by apply elem_of_pg_expired_keys.
Qed.
End refusals.

(** ** The backend *)

Section backend.
Context `{PgExternals, HashOrder, !JsonFaithful} (link : N → option Fault).
Context (default_hash : N → N → N).

Definition meets {A} (c : RegistryCall) (reply : A → RegistryReply) (m : Op PgWorld A)
    (w : PgWorld) : Prop :=
  let '(w', r) := m w in
  db_wf (pw_db w')
  ∧ allowed default_hash ∅ (pg_view (pw_db w)) c (reply_of reply r) (pg_view (pw_db w')).

Lemma granted_allowed v c a v' :
  granted default_hash v c a v' → allowed default_hash ∅ v c a v'.
Proof. destruct a; [done..|]. by destruct c. Qed.

Lemma meets_eq {A} c (reply : A → RegistryReply) (m1 m2 : Op PgWorld A) w :
  m1 w = m2 w → meets c reply m1 w → meets c reply m2 w.
Proof. intros E. unfold meets. by rewrite E. Qed.

(** A check before the first exchange. *)
Lemma meets_guard {A B} c reply (r : DiscoveryResult A) (f : A → Op PgWorld B) w :
  db_wf (pw_db w) →
  (∀ e, r = Err e → (∃ m, e = InvalidArgument m) ∧ acceptable c = false) →
  (∀ a, r = Ok a → meets c reply (f a) w) → meets c reply (lift r ≫= f) w.
Proof.
  intros Hwf Herr Hok. unfold meets. rewrite eff_bind_run. unfold lift.
  destruct r as [a|e]; [by apply Hok|]. destruct (Herr e eq_refl) as [[m ->] Hc].
  split; [done|]. split; [done|by left].
Qed.

Lemma meets_transaction {A B} c reply (body : Op PgWorld A) (f : A → DiscoveryResult B) w :
  db_wf (pw_db w) →
  (∀ w1 w2 a, pw_db w1 = pw_db w → body w1 = (w2, Ok a) →
     db_wf (pw_db w2) ∧ ∃ b, f a = Ok b
     ∧ granted default_hash (pg_view (pw_db w)) c (reply b) (pg_view (pw_db w2))) →
  (∀ w1, pw_db w1 = pw_db w →
     fails_only (justified ∅ (pg_view (pw_db w)) c) body w1) →
  meets c reply (a ← transaction link body; lift (f a)) w.
Proof.
  intros Hwf Hc Hr. unfold meets. rewrite eff_bind_run.
  destruct (transaction link body w) as [w' q] eqn:E.
  apply transaction_cases in E as [(a & w2 & -> & Hb & Hd)|[(e & -> & Hd & He)|(m & a & w2 & -> & Hb & Hd)]].
  - apply Hc in Hb as (Hwf2 & b & Hf & Hg); [|done]. unfold lift. rewrite Hf, Hd. simpl.
    split; [done|by apply granted_allowed].
  - rewrite Hd. split; [done|]. simpl. split; [|by left].
    destruct He as [[m ->]|[w2 Hb]]; [done|]. by eapply Hr, Hb.
  - apply Hc in Hb as (Hwf2 & b & Hf & Hg); [|done]. rewrite Hd. split; [done|]. simpl.
    split; [done|]. right. eauto.
Qed.

Lemma meets_transaction' {A} c reply (body : Op PgWorld A) w :
  db_wf (pw_db w) →
  (∀ w1 w2 a, pw_db w1 = pw_db w → body w1 = (w2, Ok a) →
     db_wf (pw_db w2)
     ∧ granted default_hash (pg_view (pw_db w)) c (reply a) (pg_view (pw_db w2))) →
  (∀ w1, pw_db w1 = pw_db w → fails_only (justified ∅ (pg_view (pw_db w)) c) body w1) →
  meets c reply (transaction link body) w.
Proof.
  intros Hwf Hc Hr.
  assert (meets c reply (a ← transaction link body; lift (Ok a)) w) as Hm.
  { apply meets_transaction; [done| |done]. intros w1 w2 a Hd Hb.
    destruct (Hc w1 w2 a Hd Hb). eauto. }
  unfold meets in *. rewrite eff_bind_run in Hm.
  by destruct (transaction link body w) as [w' [a|e]].
Qed.

(** ** Checks *)

Lemma blank_check field s e :
  pg_validate_non_empty field s = Err e → (∃ m, e = InvalidArgument m) ∧ is_blank s = true.
Proof. unfold pg_validate_non_empty. destruct (is_blank s); [|done]. intros [= <-]. eauto. Qed.

Lemma identity_check k e :
  validate_identity k = Err e → (∃ m, e = InvalidArgument m) ∧ named k = false.
Proof.
  unfold validate_identity, named, pg_validate_non_empty.
  destruct (is_blank (ik_namespace k)), (is_blank (ik_environment k)),
    (is_blank (ik_service_name k)), (is_blank (ik_instance_id k)); simpl; intros [= <-]; eauto.
Qed.

Lemma to_i64_Err field v e :
  to_i64 field v = Err e → (∃ m, e = InvalidArgument m) ∧ i64_max < v.
Proof.
  unfold to_i64. destruct (N.leb_spec v i64_max); [done|]. intros [= <-]. split; [by eexists|done].
Qed.

Lemma u32_to_i32_Err field v e :
  u32_to_i32 field v = Err e → (∃ m, e = InvalidArgument m) ∧ i32_max < v.
Proof.
  unfold u32_to_i32. destruct (N.leb_spec v i32_max); [done|]. intros [= <-].
  split; [by eexists|done].
Qed.

Lemma expires_Err now ttl persistent e :
  pg_lease_expires_at_ms now ttl persistent ≫= to_i64 "expires_at_ms" = Err e →
  (∃ m, e = InvalidArgument m) ∧ i64_max < now + ttl * 1000.
Proof.
  assert (i64_max < u64_max) as Hlt by done. unfold pg_lease_expires_at_ms.
  intros [E|(x & Ex & [? E]%to_i64_Err)]%result_bind_Err; destruct persistent; try done.
  - apply result_bind_Err in E as [E|(t & Et & E)].
    + destruct (checked_mul ttl 1000) eqn:Em; [done|]. injection E as <-.
      apply checked_mul_None in Em. split; [by eexists|lia].
    + apply ok_or_Ok, checked_mul_Some in Et as [-> _].
      destruct (checked_add now (ttl * 1000)) eqn:Ea; [done|]. injection E as <-.
      apply checked_add_None in Ea. split; [by eexists|lia].
  - injection Ex as <-. lia.
  - apply result_bind_Ok in Ex as (t & Et & Ex). apply ok_or_Ok, checked_mul_Some in Et as [-> _].
    apply ok_or_Ok, checked_add_Some in Ex as [-> _]. done.
Qed.

Lemma bind_register_check c e :
  bind_register c = Err e → (∃ m, e = InvalidArgument m) ∧ acceptable (DoRegister c) = false.
Proof.
  intros E.
  enough ((∃ m, e = InvalidArgument m)
          ∧ (i64_max < rc_now_ms c + rc_lease_ttl_seconds c * 1000 ∨ i32_max < rc_weight c
             ∨ i32_max < rc_priority c)) as [? Hc].
  { split; [done|]. unfold acceptable. rewrite !andb_false_iff, !N.leb_gt. unfold i32_max in Hc. tauto. }
  unfold bind_register in E.
  destruct (jf_metadata (rc_metadata c)) as [mt Hm].
  destruct (jf_state default_health_state) as [st Hs].
  pose proof (expires_Err (rc_now_ms c) (rc_lease_ttl_seconds c) (rc_persistent c) e) as Hx.
  apply result_bind_Err in E as [E|(x & Ex & E)].
  { destruct Hx; [by rewrite E|]. tauto. }
  apply result_bind_Err in E as [E|(z & Ez & E)].
  { destruct Hx; [by rewrite Ex|]. tauto. }
  apply result_bind_Err in E as [E|(mj & _ & E)].
  { unfold metadata_to_json in E. by rewrite Hm in E. }
  apply result_bind_Err in E as [E|(hj & _ & E)].
  { unfold health_check_to_json in E. destruct (rc_health_check c) as [hc|]; [|done].
    destruct (jf_check hc) as [t Ht]. by rewrite Ht in E. }
  apply result_bind_Err in E as [E|(sj & _ & E)].
  { unfold health_check_state_to_json in E. by rewrite Hs in E. }
  apply result_bind_Err in E as [[? E]%u32_to_i32_Err|(wt & _ & E)]; [tauto|].
  apply result_bind_Err in E as [[? E]%u32_to_i32_Err|(pr & _ & E)]; [tauto|done].
Qed.

(** ** Calls *)

Lemma newer_view d k n :
  db_wf d → n = Z.to_N (counter d (scope_of_key k) + 1) → newer (pg_view d) k n.
Proof.
  intros Hwf -> k' i Hi [Hns Henv]. apply (view_newer d k Hwf k' i Hi).
  unfold scope_of_key. by rewrite Hns, Henv.
Qed.

Lemma register_check c e :
  validate_register_command c = Err e →
  (∃ m, e = InvalidArgument m) ∧ acceptable (DoRegister c) = false.
Proof.
  unfold validate_register_command. intros E.
  repeat (apply result_bind_Err in E as [[Hm Hb]%blank_check|([] & _ & E)];
    [split; [done|]; unfold acceptable, named, register_key;
      cbn [ik_namespace ik_environment ik_service_name ik_instance_id]; rewrite Hb;
      by rewrite ?andb_false_r|]).
  destruct (N.eqb_spec (rc_lease_ttl_seconds c) 0) as [H0'|]; [|done]. injection E as <-.
  split; [by eexists|]. unfold acceptable. rewrite H0'. by rewrite !andb_false_r.
Qed.

Lemma register_meets c w :
  db_wf (pw_db w) → meets (DoRegister c) Registered (pg_register_instance link c) w.
Proof.
  intros Hwf. apply meets_guard; [done|apply register_check|]. intros [] _.
  apply meets_guard; [done|apply bind_register_check|]. intros b Hb.
  apply meets_transaction; [done| |].
  - intros w1 w2 row Hd Hr. rewrite <- Hd in Hwf |- *.
    apply (register_commits link c b w1 w2 row Hwf Hb) in Hr
      as (lease & expires & n & Hres & Hwf' & Hview & Hn & Hexp & Hlease & Hsame).
    split; [done|]. eexists. split; [exact Hres|]. simpl.
    change (register_key c) with (command_key c). split_and!; [done| | | | |exact Hview].
    + intros i Hi Hl. pose proof (row_where_active (pw_db w1) (command_key c) (rc_now_ms c) Hwf) as Hrow.
      destruct (row_where _ _ _) as [r|].
      * destruct Hrow as (i' & _ & _ & Hdec & Hi' & _). assert (i' = i) as -> by congruence.
        destruct (Hsame r eq_refl) as [-> Hex]. split.
        -- by apply row_decodes_spec in Hdec as (_ & _ & _ & _ & _ & _ & _ & _ & _ & _ & _ & _ & _ & _ & ->).
        -- by apply (expect_revision_Ok _ (command_key c) r).
      * unfold live in Hl. by rewrite (Hrow i Hi) in Hl.
    + intros k' i (r & Hr & _ & Hdec)%lookup_view Hne E. apply Hne. apply (Hlease k' r Hr).
      apply row_decodes_spec in Hdec. naive_solver congruence.
    + by apply newer_view.
    + by destruct (rc_persistent c) eqn:Hp; subst expires.
  - intros w1 Hd. rewrite <- Hd in Hwf |- *. by apply register_refusals.
Qed.

Lemma renew_meets c w :
  db_wf (pw_db w) → meets (DoRenew c) Renewed (pg_renew_lease link c) w.
Proof.
  intros Hwf. apply meets_guard; [done| |intros [] _].
  { intros e [Hm Hb]%blank_check. split; [done|]. simpl. by rewrite Hb. }
  apply meets_guard; [done| |intros [] _].
  { intros e. destruct (N.eqb_spec (lc_lease_ttl_seconds c) 0) as [Ht|]; [|done]. intros [= <-].
    split; [by eexists|]. unfold acceptable. rewrite Ht. simpl. by rewrite andb_false_r. }
  pose proof (λ e, expires_Err (lc_now_ms c) (lc_lease_ttl_seconds c) false e) as Hx.
  apply meets_guard; [done| |intros x Ex].
  { intros e He. specialize (Hx e). rewrite He in Hx. destruct (Hx eq_refl) as [? Hlt].
    split; [done|]. simpl. rewrite !andb_false_iff, N.leb_gt. tauto. }
  apply meets_guard; [done| |intros z Ez].
  { intros e He. specialize (Hx e). rewrite Ex in Hx. destruct (Hx He) as [? Hlt].
    split; [done|]. simpl. rewrite !andb_false_iff, N.leb_gt. tauto. }
  apply to_i64_Ok in Ez as [-> _].
  assert (x = lc_now_ms c + lc_lease_ttl_seconds c * 1000) as Hexp.
  { apply result_bind_Ok in Ex as (t & Et & Ex). apply ok_or_Ok, checked_mul_Some in Et as [-> _].
    by apply ok_or_Ok, checked_add_Some in Ex as [-> _]. }
  apply (meets_transaction _ _ (renew_body link c (Z.of_N x))); [done| |].
  - intros w1 w2 row Hd Hr. rewrite <- Hd in Hwf |- *.
    apply renew_commits in Hr as (k & i & n & Hi & Hl & Hlive & Hn & Hres & Hwf' & Hview); [|done].
    split; [done|]. eexists. split; [exact Hres|]. exists k, i. simpl.
    split_and!; try done; [by apply newer_view|by destruct k].
  - intros w1 Hd. rewrite <- Hd in Hwf |- *. by apply renew_refusals.
Qed.

Lemma report_meets c w :
  db_wf (pw_db w) → meets (DoReport c) Reported (pg_report_instance_status link c) w.
Proof.
  intros Hwf. apply meets_guard; [done| |intros [] _].
  { intros e [Hm Hb]%identity_check. split; [done|]. unfold acceptable.
    change (report_key c) with (status_key c). by rewrite Hb. }
  eapply (meets_eq (DoReport c) Reported); cycle 1.
  1: apply (meets_transaction (DoReport c) Reported (report_body link c)
    (λ row, revision ← i64_to_u64 "revision" (ir_revision row.2);
            mret {| sr_revision := revision; sr_status := sc_status c |})); [done| |].
  - intros w1 w2 row Hd Hr. rewrite <- Hd in Hwf |- *.
    apply report_commits in Hr as (i & n & Hi & Hlive & Hex & Hn & Hrev & Hwf' & Hview); [|done].
    split; [done|]. eexists. split.
    { rewrite Hrev, (proj2 (i64_to_u64_Ok _ _ _) eq_refl). reflexivity. }
    exists i. simpl. split_and!; try done. by apply newer_view.
  - intros w1 Hd. rewrite <- Hd in Hwf |- *. by apply report_refusals.
  - rewrite !eff_bind_run. fold (report_body link c).
    destruct (transaction link (report_body link c) w) as [w' [row|e]]; [|done].
    rewrite eff_bind_run. unfold lift. by destruct (i64_to_u64 _ _).
Qed.

Lemma deregister_meets k now w :
  db_wf (pw_db w) → meets (DoDeregister k now) Deregistered (pg_deregister_key link k now) w.
Proof.
  intros Hwf. apply meets_guard; [done| |intros [] _].
  { intros e [Hm Hb]%identity_check. split; [done|]. unfold acceptable. by rewrite Hb. }
  apply (meets_transaction' _ _ (deregister_body link k now)); [done| |].
  - intros w1 w2 res Hd Hr. rewrite <- Hd in Hwf |- *.
    apply deregister_commits in Hr as [Hwf' [(i & n & Hi & Hl & Hn & -> & Hv)|(Hno & -> & Hv)]]; [| |done];
      (split; [done|]); simpl; (split; [by destruct k|]).
    + split_and!; [by eauto|by apply newer_view|done].
    + done.
  - intros w1 Hd. rewrite <- Hd in Hwf |- *. by apply deregister_refusals.
Qed.

Lemma expire_meets now max w :
  db_wf (pw_db w) → meets (DoExpire now max) Expired (pg_expire_instances link now max) w.
Proof.
  intros Hwf. apply meets_guard; [done| |intros [] _].
  { intros e. destruct (N.eqb_spec max 0) as [->|]; [|done]. intros [= <-]. split; [by eexists|done]. }
  apply meets_guard; [done| |intros z Hz].
  { intros e [Hm Hlt]%to_i64_Err. split; [done|]. unfold acceptable.
    rewrite !andb_false_iff, !N.leb_gt. tauto. }
  apply to_i64_Ok in Hz as [-> _].
  apply (meets_transaction' _ _ (expire_body link (Z.of_N now) max)); [done| |].
  - intros w1 w2 l Hd Hr. rewrite <- Hd in Hwf |- *.
    apply expire_commits in Hr as (Hwf' & Hg); [|done]. split; [done|]. exact Hg.
  - intros w1 Hd. rewrite <- Hd in Hwf |- *. by apply expire_refusals.
Qed.

Lemma update_health_meets k state w :
  db_wf (pw_db w) →
  meets (DoUpdateHealth k state) (λ _, HealthUpdated)
    (pg_update_health_check_state link (ik_namespace k) (ik_environment k) (ik_service_name k)
       (ik_instance_id k) state) w.
Proof.
  intros Hwf. destruct (jf_state state) as [text Ht].
  unfold meets, pg_update_health_check_state, health_check_state_to_json. rewrite Ht.
  rewrite eff_bind_run. unfold lift at 1. rewrite eff_bind_run.
  replace {| ik_namespace := _ |} with k by by destruct k.
  pose proof (UPDATE_HEALTH_CHECK_STATE_Ok k state text (pw_db w)) as Hup.
  unfold exec. change (pw_db (set_trips (pw_trips w + 1) w)) with (pw_db w).
  destruct (UPDATE_HEALTH_CHECK_STATE k text (pw_db w)) as [[d' n]|err].
  - destruct (Hup d' n Hwf Ht eq_refl) as [Hwf' Hv].
    destruct (link _) as [fault|]; simpl.
    + destruct (ft_applied fault); simpl; (split; [done|]); (split; [done|]); [|by left].
      destruct (pg_view (pw_db w) !! k) as [i|] eqn:Hi.
      * right. split; [by eexists|]. exists HealthUpdated. exists i. naive_solver.
      * left. naive_solver.
    + split; [done|]. destruct (pg_view (pw_db w) !! k) as [i|] eqn:Hi.
      * destruct Hv as [Hn Hv]. rewrite (proj2 (N.eqb_neq n 0)) by done. exists i. done.
      * destruct Hv as [-> Hv]. simpl. split; [done|by left].
  - destruct (link _) as [fault|]; simpl; (split; [done|]); (split; [done|by left]).
Qed.

Lemma retrieve_allowed k now w :
  db_wf (pw_db w) →
  allowed default_hash ∅ (pg_view (pw_db w)) (DoRetrieve k now)
    (reply_of Retrieved (pg_retrieve_instance link (retrieve_query k) now w).2) (pg_view (pw_db w)).
Proof.
  intros Hwf. unfold pg_retrieve_instance.
  replace (query_key (retrieve_query k)) with k by by destruct k.
  rewrite eff_bind_run. unfold lift at 1. destruct (validate_identity k) as [[]|e] eqn:Ev; cycle 1.
  { apply identity_check in Ev as [[m ->] Hb]. simpl. split; [by rewrite Hb|by left]. }
  rewrite eff_bind_run. unfold lift at 1. destruct (to_i64 "now_ms" now) as [z|e] eqn:Ez; cycle 1.
  { apply to_i64_Err in Ez as [[m ->] Hlt]. simpl. split; [|by left].
    rewrite andb_false_iff, N.leb_gt. by right. }
  apply to_i64_Ok in Ez as [-> _].
  match goal with |- context [reply_of _ (?m w).2] => destruct (m w) as [w' o] eqn:E end.
  apply retrieve_answers in E; [|done].
  destruct o as [o|e]; simpl; [done|]. destruct E as [m ->]. split; [done|by left].
Qed.

Lemma discover_allowed q now w :
  db_wf (pw_db w) →
  allowed default_hash ∅ (pg_view (pw_db w)) (DoDiscover q now)
    (reply_of Discovered (pg_discover_instances link default_hash q now w).2) (pg_view (pw_db w)).
Proof.
  intros Hwf. enough (meets (DoDiscover q now) Discovered
    (λ w, (w, (pg_discover_instances link default_hash q now w).2)) w) as [_ Hm] by exact Hm.
  unfold pg_discover_instances, meets.
  assert (∀ {A} (r : DiscoveryResult A) (f : A → Op PgWorld DiscoverInstancesResult),
    (∀ e, r = Err e → (∃ m, e = InvalidArgument m) ∧ acceptable (DoDiscover q now) = false) →
    (∀ a, r = Ok a → allowed default_hash ∅ (pg_view (pw_db w)) (DoDiscover q now)
                       (reply_of Discovered (f a w).2) (pg_view (pw_db w))) →
    allowed default_hash ∅ (pg_view (pw_db w)) (DoDiscover q now)
      (reply_of Discovered ((lift r ≫= f) w).2) (pg_view (pw_db w))) as Hguard.
  { intros A r f He Ha. rewrite eff_bind_run. unfold lift. destruct r as [a|e]; [by apply Ha|].
    destruct (He e eq_refl) as [[m ->] Hc]. simpl. split; [done|by left]. }
  split; [done|]. unfold acceptable in Hguard.
  do 3 (apply Hguard; [intros e [? Hb]%blank_check; split; [done|]; rewrite Hb;
    by rewrite ?andb_false_r|intros [] _]).
  apply Hguard; [|intros [] _].
  { intros e He. unfold pg_validate_optional_filter in He. destruct (dq_protocol q); [|done].
    apply blank_check in He as [? Hb]. split; [done|]. simpl. rewrite Hb. simpl.
    by rewrite !andb_false_r. }
  apply Hguard; [|intros z Hz].
  { intros e [? Hlt]%to_i64_Err. split; [done|]. rewrite !andb_false_iff, N.leb_gt. by right. }
  apply to_i64_Ok in Hz as [-> _]. rewrite eff_bind_run.
  destruct (exec link _ w) as [w1 [rows|e]] eqn:E; cycle 1.
  { apply exec_Err in E as [m ->]. simpl. split; [done|by left]. }
  apply exec_Ok in E as [[_ Hrows]%query_Ok _]. rewrite eff_bind_run. unfold lift.
  assert (rows ≡ₚ retain (discover_where q (Z.of_N now)) (map_to_list (db_instances (pw_db w)))) as Hp.
  { rewrite Hrows, sort_by_perm, hash_iter_perm. done. }
  destruct (collect _ rows) as [l|e] eqn:Hc.
  - simpl. split; [|done]. exists l. eexists. split; [|done]. by eapply discover_rows.
  - exfalso. destruct (collect_total service_instance_from_row rows) as [bs Hbs]; [|congruence].
    intros [k r] Hin. rewrite Hp in Hin. apply elem_of_retain in Hin as [_ Hin%elem_of_map_to_list].
    by apply (rws_decodes _ _ (dbw_rows _ Hwf)).
Qed.
End backend.
