(* ===== verification/PgSample.v ===== *)
(** * A server to run the PostgreSQL backend on

    One possible instance of what the model takes from the server, the driver and
    serde_json, so that the definitions can be evaluated: JSON is text that spells the
    code of a value in bits. *)
From S2P Require Import Prelude RustStr Collections Contract Discover MemoryStore.
From S2P Require Import MemoryRegistry Codec PgSchema PgSql PgCodec Postgres PgRegistry.
From Stdlib Require Import Ascii.

Fixpoint bits (p : positive) : string :=
  match p with
  | xH => "."
  | xO p => String "0" (bits p)
  | xI p => String "1" (bits p)
  end.

Fixpoint unbits (s : string) : option positive :=
  match s with
  | String "." EmptyString => Some xH
  | String "0" s => xO <$> unbits s
  | String "1" s => xI <$> unbits s
  | _ => None
  end.

Lemma unbits_bits p : unbits (bits p) = Some p.
Proof. induction p as [p IH|p IH|]; simpl; rewrite ?IH; done. Qed.

Definition to_text `{Countable A} (a : A) : Result string string := Ok (bits (encode a)).

Definition from_text `{Countable A} (text : string) : Result string A :=
  match unbits text ≫= decode with Some a => Ok a | None => Err "expected value" end.

Lemma from_to_text `{Countable A} (a : A) text :
  to_text a = Ok text → is_empty text = false ∧ from_text text = Ok a.
Proof.
  intros [= <-]. split; [by destruct (encode a)|]. unfold from_text.
  rewrite unbits_bits. simpl. by rewrite decode_encode.
Qed.

Definition probe_code (p : HealthCheckProbe) : () + (string * N) + string :=
  match p with
  | ProbeTcp => inl (inl ())
  | ProbeHttp path status => inl (inr (path, status))
  | ProbeGrpc name => inr name
  end.

Definition probe_of_code (c : () + (string * N) + string) : HealthCheckProbe :=
  match c with
  | inl (inl _) => ProbeTcp
  | inl (inr (path, status)) => ProbeHttp path status
  | inr name => ProbeGrpc name
  end.

#[export] Instance HealthCheckProbe_countable : Countable HealthCheckProbe.
Proof. by refine (inj_countable' probe_code probe_of_code _); intros []. Defined.

#[export] Instance HealthCheckConfig_countable : Countable HealthCheckConfig.
Proof.
  by refine (inj_countable'
    (λ c, (hc_probe c, hc_interval_ms c, hc_timeout_ms c, hc_unhealthy_threshold c,
           hc_healthy_threshold c))
    (λ '(p, i, t, u, h), {| hc_probe := p; hc_interval_ms := i; hc_timeout_ms := t;
       hc_unhealthy_threshold := u; hc_healthy_threshold := h |}) _); intros [].
Defined.

#[export] Instance HealthCheckRuntimeState_countable : Countable HealthCheckRuntimeState.
Proof.
  by refine (inj_countable'
    (λ s, (consecutive_successes s, consecutive_failures s, last_check_ms s))
    (λ '(a, b, c), {| consecutive_successes := a; consecutive_failures := b;
                      last_check_ms := c |}) _); intros [].
Defined.

(** [ambiguous] is the answer of the server to an unqualified column. *)
Definition sample_externals (ambiguous : bool) : PgExternals := {|
  jsonb_in := Ok;
  collate := String.compare;
  refuses_ambiguous_column := ambiguous;
  db_error_text := λ _, "server error";
  uuid_v7 := λ n, show_N (n + 1);
  metadata_to_string := to_text;
  metadata_from_str := from_text;
  check_to_string := to_text;
  check_from_str := from_text;
  check_state_to_string := to_text;
  check_state_from_str := from_text;
|}.

Lemma sample_faithful ambiguous : @JsonFaithful (sample_externals ambiguous).
Proof.
  split; simpl; try by eexists.
  - intros m text j Ht [= <-]. by apply from_to_text in Ht as [_ ->].
  - intros c text j Ht [= <-]. by apply from_to_text.
  - intros s text j Ht [= <-]. by apply from_to_text.
Qed.

(** A link that never fails, and one that fails at one exchange. *)
Definition steady : N → option Fault := λ _, None.

Definition drops_at (n : N) (applied : bool) : N → option Fault := λ m,
  if m =? n then Some {| ft_error := LinkFailure "connection reset"; ft_applied := applied |}
  else None.

Definition empty_world : PgWorld := {| pw_db := empty_database; pw_trips := 0; pw_ids := 0 |}.
