(* ===== verification/PgTheorems.v ===== *)
(** * Theorems on the PostgreSQL registry

    The PostgreSQL and the in-memory registry as backends: every sequence of calls is
    a run of the abstract registry, and what a client may rely on whichever of them it
    uses. *)
From S2P Require Import Prelude RustStr Collections Contract Discover StorageContract.
From S2P Require Import MemoryStore MemoryRegistry MemoryInstance Codec RegistryTheorems RegistrySpec.
From S2P Require Import MemoryBackend PgSchema PgSql PgCodec Postgres PgLemmas PgRegistry PgCommits.
From S2P Require Import PgQueries PgBackend PgSample.

Section instance.
Context `{PgExternals, HashOrder, !JsonFaithful} (link : N → option Fault).
Context (default_hash : N → N → N).

#[export] Instance postgres_backend :
  @RegistryBackend default_hash PgWorld (postgres_registry_store link default_hash).
Proof.
  refine {| backend_view w := pg_view (pw_db w); backend_lost _ := ∅;
            backend_inv w := db_wf (pw_db w);
            backend_ready _ _ := True |}.
  { intros w k i _ (r & _ & _ & Hr)%lookup_view. apply row_decodes_spec in Hr. tauto. }
  intros c w Hwf _. rewrite (assoc and). split; [|apply empty_subseteq]. destruct c; simpl.
  - pose proof (register_meets link default_hash command w Hwf) as Hm. unfold meets in Hm.
    by destruct (pg_register_instance link command w).
  - pose proof (renew_meets link default_hash command w Hwf) as Hm. unfold meets in Hm.
    by destruct (pg_renew_lease link command w).
  - pose proof (report_meets link default_hash command w Hwf) as Hm. unfold meets in Hm.
    by destruct (pg_report_instance_status link command w).
  - pose proof (deregister_meets link default_hash k now_ms w Hwf) as Hm. unfold meets in Hm.
    unfold pg_deregister_instance. replace {| ik_namespace := _ |} with k by by destruct k.
    by destruct (pg_deregister_key link k now_ms w).
  - pose proof (expire_meets link default_hash now_ms max_instances w Hwf) as Hm.
    unfold meets in Hm. by destruct (pg_expire_instances link now_ms max_instances w).
  - pose proof (update_health_meets link default_hash k state w Hwf) as Hm. unfold meets in Hm.
    by destruct (pg_update_health_check_state link _ _ _ _ state w).
  - split; [done|by apply retrieve_allowed].
  - split; [done|by apply discover_allowed].
Defined.
End instance.

(** ** Runs of the backends *)

(** C3: the PostgreSQL registry refines the abstract registry: whatever calls are made,
    in whatever order, and wherever the link to the server fails, the answers and the
    instances the database holds are a run of the abstract registry, and the database
    stays well-formed. *)
Theorem postgres_registry_refines `{PgExternals, HashOrder, !JsonFaithful} link default_hash cs w :
  db_wf (pw_db w) →
  let '(w', answers) :=
    @run_calls PgWorld (postgres_registry_store link default_hash) cs w in
  db_wf (pw_db w')
  ∧ history default_hash ∅ (pg_view (pw_db w)) answers (pg_view (pw_db w')).
Proof.
  intros Hwf.
  assert (∀ cs w, @all_ready default_hash PgWorld _ (postgres_backend link default_hash) cs w) as Hr.
  { clear. induction cs as [|c cs IH]; intros w; [done|]. split; [done|apply IH]. }
  pose proof (@run_calls_history default_hash PgWorld _ (postgres_backend link default_hash) cs w
                Hwf (Hr cs w)) as Hm.
  by destruct (run_calls cs w).
Qed.

(** The second call is cut off after it was carried out. *)
Definition sample_calls : list RegistryCall :=
  [DoRegister (sample_register "drive-1" 1000); DoRegister (sample_register "drive-2" 1000);
   DoExpire 40000 10; DoRetrieve (register_key (sample_register "drive-1" 1000)) 2000].

Definition sample_run : PgWorld * list (RegistryCall * RegistryReply) :=
  @run_calls PgWorld
    (@postgres_registry_store (sample_externals false) canonical_order (drops_at 11 true)
       (λ _ n, n)) sample_calls empty_world.

(** The same calls on a server that refuses the ambiguous column of [NEXT_REVISION]. *)
Definition refused_run : PgWorld * list (RegistryCall * RegistryReply) :=
  @run_calls PgWorld
    (@postgres_registry_store (sample_externals true) canonical_order (drops_at 11 true)
       (λ _ n, n)) sample_calls empty_world.

Lemma postgres_registry_refines_witness :
  (∃ r, head sample_run.2 = Some (DoRegister (sample_register "drive-1" 1000), Registered r))
  ∧ @db_wf (sample_externals false) (pw_db sample_run.1)
  ∧ history (λ _ n, n) ∅ ∅ sample_run.2 (@pg_view (sample_externals false) (pw_db sample_run.1))
  ∧ (∃ m, head refused_run.2
          = Some (DoRegister (sample_register "drive-1" 1000), Refused (Unavailable m)))
  ∧ @db_wf (sample_externals true) (pw_db refused_run.1)
  ∧ history (λ _ n, n) ∅ ∅ refused_run.2 (@pg_view (sample_externals true) (pw_db refused_run.1)).
Proof.
  split; [eexists; vm_compute; reflexivity|].
  pose proof (@postgres_registry_refines (sample_externals false) canonical_order
    (sample_faithful false) (drops_at 11 true) (λ _ n, n) sample_calls empty_world
    (@db_wf_empty (sample_externals false))) as Hm.
  pose proof (@postgres_registry_refines (sample_externals true) canonical_order
    (sample_faithful true) (drops_at 11 true) (λ _ n, n) sample_calls empty_world
    (@db_wf_empty (sample_externals true))) as Hm'.
  unfold sample_run. destruct (run_calls sample_calls empty_world).
  destruct Hm as [? ?]. split; [done|]. split; [done|].
  split; [eexists; vm_compute; reflexivity|].
  unfold refused_run. destruct (@run_calls PgWorld _ sample_calls empty_world). exact Hm'.
Defined.

(** C4: the in-memory registry refines the same abstract registry, while its counters
    have room for the revisions and identifiers the calls take.  A lease that a renewal
    found expired is given up for good, as the abstract registry permits; none is at the
    start of an empty store. *)
Theorem memory_registry_refines `{HashOrder} default_hash cs s :
  store_wf s → @all_ready default_hash _ _ (memory_backend default_hash) cs s →
  let '(s', answers) :=
    @run_calls MemoryDiscoveryStore (memory_registry_store default_hash) cs s in
  store_wf s' ∧ history default_hash (memory_lost s) (instances s) answers (instances s').
Proof.
  intros Hwf Hr.
  pose proof (@run_calls_history default_hash _ _ (memory_backend default_hash) cs s Hwf Hr) as Hm.
  by destruct (run_calls cs s).
Qed.

Lemma memory_registry_refines_witness :
  let '(s', answers) := @run_calls MemoryDiscoveryStore
    (@memory_registry_store canonical_order (λ _ n, n)) sample_calls new_store in
  store_wf s' ∧ history (λ _ n, n) ∅ ∅ answers (instances s').
Proof.
  change (history (λ _ n, n) ∅ ∅) with (history (λ _ n, n) (memory_lost new_store) (instances new_store)).
  apply (@memory_registry_refines canonical_order (λ _ n, n) sample_calls new_store store_wf_new).
  repeat split; vm_compute; by intros [=].
Defined.

(** C6: what a client of any backend may rely on: a registration that was answered stays
    what a lookup returns until it expires, whatever other calls are made that do not
    concern it; only a backend that cannot be reached answers otherwise. *)
Theorem registration_survives default_hash {S} `{RegistryBackend default_hash S}
    c r cs s s1 s2 answers now :
  backend_inv s → backend_ready (DoRegister c) s →
  run_registry (DoRegister c) s = (s1, Registered r) →
  all_ready default_hash cs s1 → run_calls cs s1 = (s2, answers) →
  let k := register_key c in
  let i := registered_instance c (rr_lease_id r) (rr_expires_at_ms r) (rr_revision r) in
  Forall (λ call, spares k i call = true) cs →
  backend_ready (DoRetrieve k now) s2 → acceptable (DoRetrieve k now) = true →
  now < rr_expires_at_ms r →
  (run_registry (DoRetrieve k now) s2).2 = Retrieved (Some i)
  ∨ ∃ m, (run_registry (DoRetrieve k now) s2).2 = Refused (Unavailable m).
Proof.
  intros Hinv Hready Hreg Hall Hrun k i Hspare Hready2 Hacc Hnow.
  destruct (backend_sound (DoRegister c) s Hinv Hready) as (Hinv1 & Hg & _). rewrite Hreg in Hinv1, Hg.
  apply (granted_register default_hash) in Hg. fold k i in Hg.
  destruct (run_calls_history default_hash cs s1 Hinv1 Hall) as [Hinv2 Hh].
  pose proof (run_calls_fst cs s1) as Hfst. rewrite Hrun in Hinv2, Hh, Hfst. simpl in *.
  assert (backend_view s2 !! k = Some i) as Hk.
  { eapply history_spares; [exact Hh| |exact Hg]. rewrite <- Hfst in Hspare.
    by apply Forall_fmap in Hspare. }
  destruct (backend_sound (DoRetrieve k now) s2 Hinv2 Hready2) as (_ & Ha & _). simpl in *.
  destruct (store_retrieve_instance (retrieve_query k) now s2) as [o|e]; simpl in *.
  - left. destruct Ha as [-> _]. rewrite Hk. simpl. unfold live. simpl.
    by rewrite (proj2 (N.ltb_lt _ _) Hnow).
  - right. destruct Ha as [Hj _]. destruct e; try done; [|by eexists]. simpl in Hj. congruence.
Qed.

Lemma registration_survives_witness :
  let '(w1, a) := @run_registry PgWorld
    (@postgres_registry_store (sample_externals false) canonical_order steady (λ _ n, n))
    (DoRegister (sample_register "drive-1" 1000)) empty_world in
  ∃ r, a = Registered r ∧
  let i := registered_instance (sample_register "drive-1" 1000) (rr_lease_id r)
             (rr_expires_at_ms r) (rr_revision r) in
  (∃ w2, (@run_registry PgWorld
     (@postgres_registry_store (sample_externals false) canonical_order steady (λ _ n, n))
     (DoRetrieve (register_key (sample_register "drive-1" 1000)) 2000) w2).2
   = Retrieved (Some i)
   ∨ ∃ m, (@run_registry PgWorld
     (@postgres_registry_store (sample_externals false) canonical_order steady (λ _ n, n))
     (DoRetrieve (register_key (sample_register "drive-1" 1000)) 2000) w2).2
   = Refused (Unavailable m)).
Proof.
  set (B := @postgres_backend (sample_externals false) canonical_order (sample_faithful false)
              steady (λ _ n, n)).
  set (R := @postgres_registry_store (sample_externals false) canonical_order steady (λ _ n, n)).
  destruct (@run_registry PgWorld R (DoRegister (sample_register "drive-1" 1000)) empty_world)
    as [w1 a] eqn:E1.
  assert (∃ r, a = Registered r ∧ rr_expires_at_ms r = 31000) as (r & -> & Hx).
  { apply (f_equal snd) in E1. vm_compute in E1. subst a. eexists. split; reflexivity. }
  exists r. split; [done|].
  destruct (@run_calls PgWorld R [DoRegister (sample_register "drive-2" 1500)] w1) as [w2 l] eqn:E2.
  exists w2.
  apply (@registration_survives (λ _ n, n) PgWorld R B (sample_register "drive-1" 1000) r
           [DoRegister (sample_register "drive-2" 1500)] empty_world w1 w2 l 2000).
  - apply (@db_wf_empty (sample_externals false)).
  - done.
  - done.
  - done.
  - done.
  - by repeat constructor.
  - done.
  - vm_compute. reflexivity.
  - rewrite Hx. lia.
Defined.
