(* ===== verification/PgConfig.v ===== *)
(** * The configuration and watch operations on the database

    What the operations of the PostgreSQL configuration store leave in the database,
    and that they and the upkeep of the event log preserve its invariant. *)
From S2P Require Import Prelude RustStr Collections Contract Discover MemoryStore.
From S2P Require Import MemoryRegistry Codec PgSchema PgSql PgCodec Postgres PgLemmas PgRegistry.
From S2P Require Import PgCommits.

(** ** Rows of drafts and releases *)

Lemma decode_encode_scope scope :
  let '(kind, application, service_name) := encode_config_scope scope in
  decode_config_scope kind application service_name = Ok scope.
Proof. by destruct scope. Qed.

Lemma command_draft_decodes sha c id :
  draft_from_row id (command_draft_row sha c) = Ok (command_draft sha c id).
Proof.
  unfold draft_from_row, command_draft_row, command_draft.
  pose proof (decode_encode_scope (cc_scope c)) as Hs.
  destruct (encode_config_scope (cc_scope c)) as [[kind app] svc]. simpl.
  by rewrite decode_encode_format, Hs.
Qed.

Definition release_row (id : string) (r : DraftRow) (by_ : string) (at_ rev : Z) : ReleaseRow :=
  {| lw_draft_id := id; lw_namespace := dw_namespace r;
     lw_environment := dw_environment r; lw_config_group := dw_config_group r;
     lw_config_key := dw_config_key r; lw_config_format := dw_config_format r;
     lw_config_value := dw_config_value r; lw_scope_kind := dw_scope_kind r;
     lw_scope_application := dw_scope_application r;
     lw_scope_service_name := dw_scope_service_name r;
     lw_content_hash := dw_content_hash r; lw_published_by := by_;
     lw_published_at_ms := at_; lw_revision := rev; lw_deleted := false |}.

Lemma i64_to_u64_of_N field n : i64_to_u64 field (Z.of_N n) = Ok n.
Proof. by apply i64_to_u64_Ok. Qed.

Lemma published_row_decodes id r draft rid c n :
  draft_from_row id r = Ok draft →
  release_from_row rid (release_row id r (pc_published_by c) (Z.of_N (pc_now_ms c)) (Z.of_N n))
  = Ok (published_release draft rid c n).
Proof.
  unfold draft_from_row, release_from_row. intros E.
  apply result_bind_Ok in E as (f & Ef & E). apply result_bind_Ok in E as (s & Es & [= <-]).
  simpl. rewrite Ef. simpl. rewrite Es. simpl. rewrite !i64_to_u64_of_N. done.
Qed.

Lemma published_draft_decodes id r draft :
  draft_from_row id r = Ok draft → ∃ x, draft_from_row id (set_row_published r) = Ok x.
Proof.
  unfold draft_from_row. intros E.
  apply result_bind_Ok in E as (f & Ef & E). apply result_bind_Ok in E as (s & Es & [= <-]).
  simpl. rewrite Ef. simpl. rewrite Es. simpl. eauto.
Qed.

Lemma copied_row_decodes source rid c n :
  release_from_row rid (copied_row source c (Z.of_N (rb_now_ms c)) (Z.of_N n))
  = Ok (rolled_back_release source rid c n).
Proof.
  unfold release_from_row, copied_row, rolled_back_release.
  pose proof (decode_encode_scope (cr_scope source)) as Hs.
  destruct (encode_config_scope (cr_scope source)) as [[kind app] svc]. simpl.
  rewrite decode_encode_format, Hs. simpl. rewrite !i64_to_u64_of_N. done.
Qed.

Section configuration.
Context `{PgExternals, HashOrder} (link : N → option Fault) (sha256_hash : string → string).

(** ** Databases *)

(** A release and its event, under the next revision of the scope. *)
Definition released (s : Scope) (id : string) (r : ReleaseRow) (e : EventRow) (d : Database)
    : Database :=
  set_db_events (<[(s, (counter d s + 1)%Z) := e]> (db_events d))
    (set_db_releases (<[id := r]> (db_releases d))
       (set_db_counters (<[s := (counter d s + 1)%Z]> (db_counters d)) d)).

Definition remembered (c : option IdempotencyContext) (kind id : string) (d : Database)
    : Database :=
  match c with
  | None => d
  | Some c =>
      set_db_idempotency
        (<[pg_idempotency_key c := {| iw_request_hash := ic_request_hash c;
             iw_resource_kind := kind; iw_resource_id := id; iw_deleted := false |}]>
           (db_idempotency d)) d
  end.

Lemma remembered_wf c kind id d : db_wf d → db_wf (remembered c kind id d).
Proof. intros []. destruct c; by split. Qed.

(** A release of a revision no other of its scope has. *)
Lemma releases_wf_put (c : Scope → Z) m id r x :
  releases_wf c m → release_from_row id r = Ok x →
  (0 < lw_revision r <= c (lw_namespace r, lw_environment r))%Z →
  (∀ id' r', m !! id' = Some r' → lw_namespace r' = lw_namespace r →
     lw_environment r' = lw_environment r → lw_revision r' ≠ lw_revision r) →
  releases_wf c (<[id := r]> m).
Proof.
  intros [H1 H2 H3] Hx Hrev Hnew. split.
  - intros id' r' [[<- <-]|[_ Hk]]%lookup_insert_Some; eauto.
  - intros id' r' [[<- <-]|[_ Hk]]%lookup_insert_Some; eauto.
  - intros id1 id2 r1 r2 [[<- <-]|[_ Hk1]]%lookup_insert_Some
      [[<- <-]|[_ Hk2]]%lookup_insert_Some E1 E2 E3; [done| | |by eapply H3].
    + by destruct (Hnew id2 r2 Hk2).
    + by destruct (Hnew id1 r1 Hk1).
Qed.

Lemma released_counter s id r e d s' :
  counter (released s id r e d) s' =
  if decide (s' = s) then (counter d s + 1)%Z else counter d s'.
Proof.
  unfold released, counter. simpl. destruct (decide (s' = s)) as [->|].
  - by rewrite lookup_insert_eq.
  - by rewrite lookup_insert_ne.
Qed.

Lemma released_wf s id r x e kind d :
  db_wf d → (counter d s < i64_max_Z)%Z →
  release_from_row id r = Ok x → s = (lw_namespace r, lw_environment r) →
  lw_revision r = (counter d s + 1)%Z → ew_event_kind e = encode_event_kind kind →
  db_wf (released s id r e d).
Proof.
  intros [Hc Hr Hd Hl He] Hmax Hx -> Hrev Hkind.
  set (s := (lw_namespace r, lw_environment r)) in *.
  assert (∀ s', (counter d s' <= counter (released s id r e d) s')%Z) as Hle.
  { intros s'. rewrite released_counter. destruct (decide _) as [->|]; lia. }
  pose proof (Hc s) as Hcs.
  split; [|by eapply rows_wf_mono|done| |].
  - intros s'. rewrite released_counter. destruct (decide _); [lia|apply Hc].
  - apply (releases_wf_put _ _ _ _ x); [by eapply releases_wf_mono|done| |].
    + fold s. rewrite released_counter, decide_True by done. lia.
    + intros id' r' Hk E1 E2. pose proof (lws_revision _ _ Hl _ _ Hk) as Hle'.
      rewrite E1, E2 in Hle'. fold s in Hle'. lia.
  - apply (events_rows_insert _ _ _ _ _ kind); [by eapply events_rows_wf_mono| |done].
    rewrite released_counter, decide_True by done. lia.
Qed.

(** ** Statements *)

Lemma record_idempotency_Ok c kind id w w' u :
  pg_record_idempotency link c kind id w = (w', Ok u) →
  pw_db w' = remembered c kind id (pw_db w)
  ∧ ∀ k, c = Some k → db_idempotency (pw_db w) !! pg_idempotency_key k = None.
Proof.
  unfold pg_record_idempotency. destruct c as [c|]; [|by intros [= <- _]].
  intros [E _]%exec_Ok. apply with_text_Ok in E. apply result_bind_Ok in E as (_ & _ & E).
  destruct (db_idempotency _ !! _) eqn:Hk; [done|]. injection E as <-.
  split; [done|]. by intros k [= <-].
Qed.

(** The release a recorded key stands for; nothing is written. *)
Lemma replay_release_Ok c w w' o :
  replay_config_release_in_transaction link c w = (w', Ok o) →
  pw_db w' = pw_db w
  ∧ ∀ release, o = Some release →
      ∃ k record row, c = Some k ∧ db_idempotency (pw_db w) !! pg_idempotency_key k = Some record
        ∧ iw_request_hash record = ic_request_hash k
        ∧ db_releases (pw_db w) !! iw_resource_id record = Some row
        ∧ release_from_row (iw_resource_id record) row = Ok release.
Proof.
  intros Hr. unfold replay_config_release_in_transaction in Hr. step_ok Hr rec w1 E.
  destruct c as [k|]; [|injection E as <- <-; injection Hr as <- <-; done]. simpl in E.
  apply exec_Ok in E as [[Hd1 ->]%query_Ok _]. simpl in Hr.
  destruct (db_idempotency (pw_db w) !! _) as [record|] eqn:Hk; simpl in Hr;
    [|injection Hr as <- <-; done].
  destruct (iw_deleted record); [injection Hr as <- <-; done|].
  step_ok Hr u w2 E. step_ok Hr row w3 E3. apply query_Ok in E3 as [Hd3 ->].
  step_ok Hr row' w4 E4. apply ok_or_Ok in E4. step_ok Hr release w5 E5. injection Hr as <- <-.
  split; [congruence|]. intros release' [= <-].
  unfold validate_idempotency_record in E. simpl in E. case_bool_decide as Hh; [|done].
  rewrite Hd1 in E4. destruct (db_releases (pw_db w) !! _) as [r|] eqn:Hr; [|done]. simpl in E4.
  destruct (lw_deleted r); [done|]. injection E4 as ->. exists k, record, row'. done.
Qed.

(** ** Publication *)

Definition publish_body (c : PublishConfigCommand) : Op PgWorld ConfigRelease :=
  replayed ← replay_config_release_in_transaction link (pc_idempotency c);
  match replayed with
  | Some release => mret release
  | None =>
      row ← exec link (SELECT_CONFIG_DRAFT_FOR_PUBLISH (pc_draft_id c));
      row ← lift (ok_or row (NotFound "config draft not found"));
      draft ← lift (draft_from_row (pc_draft_id c) row);
      lift (if cd_published draft
            then Err (AlreadyPublished "config draft is already published") else Ok ());;
      revision ← pg_next_revision link (cd_namespace draft) (cd_environment draft);
      release_id ← new_id "release";
      published_at_ms ← lift (to_i64 "published_at_ms" (pc_now_ms c));
      revision_i64 ← lift (to_i64 "revision" revision);
      exec link (INSERT_CONFIG_RELEASE_FROM_DRAFT release_id (pc_published_by c)
              published_at_ms revision_i64 (pc_draft_id c));;
      exec link (MARK_DRAFT_PUBLISHED (pc_draft_id c));;
      insert_event link revision (cd_namespace draft) (cd_environment draft) ConfigPublished
        release_id (pg_config_application_from_scope (cd_scope draft));;
      pg_record_idempotency link (pc_idempotency c) "config_release" release_id;;
      mret (published_release draft release_id c revision)
  end.

(** A publication that takes effect: the draft is marked, the release, its event and
    the idempotency record are there. *)
Definition published_db (c : PublishConfigCommand) (d : Database) (release : ConfigRelease)
    (d' : Database) : Prop :=
  ∃ row draft e, db_drafts d !! pc_draft_id c = Some row ∧ dw_deleted row = false
    ∧ draft_from_row (pc_draft_id c) row = Ok draft ∧ cd_published draft = false
    ∧ db_releases d !! cr_release_id release = None
    ∧ release = published_release draft (cr_release_id release) c (cr_revision release)
    ∧ cr_revision release = Z.to_N (counter d (cd_namespace draft, cd_environment draft) + 1)
    ∧ ew_event_kind e = encode_event_kind ConfigPublished
    ∧ ew_resource_id e = cr_release_id release
    ∧ d' = remembered (pc_idempotency c) "config_release" (cr_release_id release)
        (set_db_drafts (<[pc_draft_id c := set_row_published row]> (db_drafts d))
           (released (cd_namespace draft, cd_environment draft) (cr_release_id release)
              (release_row (pc_draft_id c) row (pc_published_by c) (Z.of_N (pc_now_ms c))
                 (Z.of_N (cr_revision release))) e d)).

Lemma insert_release_Ok id r d d' u :
  insert_release id r d = Ok (d', u) →
  db_releases d !! id = None ∧ d' = set_db_releases (<[id := r]> (db_releases d)) d.
Proof.
  intros E. apply result_bind_Ok in E as (_ & _ & E).
  destruct (db_releases d !! id); [done|]. by injection E as <-.
Qed.

Lemma draft_from_row_fields id r draft :
  draft_from_row id r = Ok draft →
  cd_draft_id draft = id ∧ cd_namespace draft = dw_namespace r
  ∧ cd_environment draft = dw_environment r ∧ cd_published draft = dw_published r.
Proof.
  unfold draft_from_row. intros E. apply result_bind_Ok in E as (f & _ & E).
  by apply result_bind_Ok in E as (s & _ & [= <-]).
Qed.

Lemma release_from_row_fields id r x :
  release_from_row id r = Ok x →
  cr_release_id x = id ∧ cr_namespace x = lw_namespace r ∧ cr_environment x = lw_environment r
  ∧ lw_revision r = Z.of_N (cr_revision x).
Proof.
  unfold release_from_row. intros E.
  apply result_bind_Ok in E as (f & _ & E). apply result_bind_Ok in E as (s & _ & E).
  apply result_bind_Ok in E as (a & _ & E).
  by apply result_bind_Ok in E as (n & Hn%i64_to_u64_Ok & [= <-]).
Qed.

(** The release a recorded key of [c] stands for. *)
Definition recorded (c : option IdempotencyContext) (d : Database) (release : ConfigRelease)
    : Prop :=
  ∃ k record row, c = Some k ∧ db_idempotency d !! pg_idempotency_key k = Some record
    ∧ iw_request_hash record = ic_request_hash k
    ∧ db_releases d !! iw_resource_id record = Some row
    ∧ release_from_row (iw_resource_id record) row = Ok release.

Lemma publish_commits c w w' release :
  db_wf (pw_db w) → publish_body c w = (w', Ok release) →
  (pw_db w' = pw_db w ∧ recorded (pc_idempotency c) (pw_db w) release)
  ∨ (published_db c (pw_db w) release (pw_db w') ∧ db_wf (pw_db w')).
Proof.
  intros Hwf Hr. unfold publish_body in Hr. set (d := pw_db w) in *.
  step_ok Hr o w1 E. apply replay_release_Ok in E as [Hd1 Hrep]. fold d in Hd1, Hrep.
  destruct o as [release'|].
  { injection Hr as <- <-. left. split; [done|]. by apply Hrep. }
  clear Hrep. right.
  step_ok Hr o w2 E. apply query_Ok in E as [Hd2 ->]. rewrite Hd1 in Hr, Hd2.
  step_ok Hr row w3 E. apply ok_or_Ok in E.
  destruct (db_drafts d !! pc_draft_id c) as [row'|] eqn:Hrow; [|done]. simpl in E.
  destruct (dw_deleted row') eqn:Hdel; [done|]. injection E as ->.
  step_ok Hr draft w4 Hdraft. step_ok Hr u w5 E. destruct (cd_published draft) eqn:Hpub; [done|].
  pose proof (draft_from_row_fields _ _ _ Hdraft) as (_ & Hns & Henv & _).
  step_ok Hr n w6 E6. apply next_revision_Ok in E6 as (Hn & Hmax & Hd6); [|by rewrite Hd2].
  rewrite Hd2 in Hn, Hmax, Hd6.
  step_ok Hr rid w7 E7. apply new_id_Ok in E7.
  step_ok Hr t w8 E8. apply to_i64_Ok in E8 as [-> _].
  step_ok Hr z w9 E9. apply to_i64_Ok in E9 as [-> _].
  step_ok Hr u1 w10 E10. apply with_text_Ok in E10. rewrite E7, Hd6 in E10. simpl in E10.
  rewrite Hrow, Hdel in E10. apply insert_release_Ok in E10 as [Hnew Hd10].
  step_ok Hr u2 w11 E11. apply with_text_Ok in E11. rewrite Hd10 in E11. simpl in E11.
  rewrite Hrow, Hdel in E11. injection E11 as Hd11.
  step_ok Hr u3 w12 E12. apply insert_event_Ok in E12.
  step_ok Hr u4 w13 E13. apply record_idempotency_Ok in E13 as [Hd13 _]. injection Hr as <- <-.
  rewrite E12, <- Hd11 in Hd13. rewrite Hn in Hd13.
  match type of Hd13 with context [<[(_, _) := ?e]> (db_events _)] =>
    assert (pw_db w13 = remembered (pc_idempotency c) "config_release" rid
        (set_db_drafts (<[pc_draft_id c := set_row_published row]> (db_drafts d))
           (released (cd_namespace draft, cd_environment draft) rid
              (release_row (pc_draft_id c) row (pc_published_by c) (Z.of_N (pc_now_ms c))
                 (Z.of_N n)) e d))) as Hd; [|set (ev := e) in *]
  end.
  { rewrite Hd13, Hn. destruct (pc_idempotency c); done. }
  split.
  - exists row, draft, ev. simpl. split_and!; try done. lia.
  - rewrite Hd. apply remembered_wf.
    assert (db_wf (released (cd_namespace draft, cd_environment draft) rid
      (release_row (pc_draft_id c) row (pc_published_by c) (Z.of_N (pc_now_ms c)) (Z.of_N n)) ev d))
      as [Hc' Hr' Hd' Hl' He'].
    { apply (released_wf _ _ _ (published_release draft rid c n) _ ConfigPublished);
        try done; [by apply published_row_decodes|by rewrite Hns, Henv]. }
    split; try done. simpl. intros id r [[<- <-]|[_ Hk]]%lookup_insert_Some.
    + by eapply published_draft_decodes.
    + by apply (dbw_drafts _ Hwf).
Qed.

(** ** Rollback *)

Definition rollback_body (c : RollbackConfigCommand) : Op PgWorld ConfigRelease :=
  replayed ← replay_config_release_in_transaction link (rb_idempotency c);
  match replayed with
  | Some release => mret release
  | None =>
      row ← exec link (SELECT_CONFIG_RELEASE_FOR_ROLLBACK (rb_source_release_id c));
      row ← lift (ok_or row (NotFound "config release not found"));
      source ← lift (release_from_row (rb_source_release_id c) row);
      revision ← pg_next_revision link (cr_namespace source) (cr_environment source);
      release_id ← new_id "release";
      published_at_ms ← lift (to_i64 "published_at_ms" (rb_now_ms c));
      revision_i64 ← lift (to_i64 "revision" revision);
      exec link (INSERT_CONFIG_RELEASE_FROM_RELEASE release_id
              (copied_row source c published_at_ms revision_i64));;
      insert_event link revision (cr_namespace source) (cr_environment source) ConfigRolledBack
        release_id (pg_config_application_from_scope (cr_scope source));;
      pg_record_idempotency link (rb_idempotency c) "config_release" release_id;;
      mret (rolled_back_release source release_id c revision)
  end.

Definition rolled_back_db (c : RollbackConfigCommand) (d : Database) (release : ConfigRelease)
    (d' : Database) : Prop :=
  ∃ row source e, db_releases d !! rb_source_release_id c = Some row ∧ lw_deleted row = false
    ∧ release_from_row (rb_source_release_id c) row = Ok source
    ∧ db_releases d !! cr_release_id release = None
    ∧ release = rolled_back_release source (cr_release_id release) c (cr_revision release)
    ∧ cr_revision release = Z.to_N (counter d (cr_namespace source, cr_environment source) + 1)
    ∧ ew_event_kind e = encode_event_kind ConfigRolledBack
    ∧ ew_resource_id e = cr_release_id release
    ∧ d' = remembered (rb_idempotency c) "config_release" (cr_release_id release)
        (released (cr_namespace source, cr_environment source) (cr_release_id release)
           (copied_row source c (Z.of_N (rb_now_ms c)) (Z.of_N (cr_revision release))) e d).

Lemma copied_row_fields source c t z :
  lw_namespace (copied_row source c t z) = cr_namespace source
  ∧ lw_environment (copied_row source c t z) = cr_environment source
  ∧ lw_revision (copied_row source c t z) = z.
Proof. unfold copied_row. by destruct (encode_config_scope _) as [[??]?]. Qed.

Lemma rollback_commits c w w' release :
  db_wf (pw_db w) → rollback_body c w = (w', Ok release) →
  (pw_db w' = pw_db w ∧ recorded (rb_idempotency c) (pw_db w) release)
  ∨ (rolled_back_db c (pw_db w) release (pw_db w') ∧ db_wf (pw_db w')).
Proof.
  intros Hwf Hr. unfold rollback_body in Hr. set (d := pw_db w) in *.
  step_ok Hr o w1 E. apply replay_release_Ok in E as [Hd1 Hrep]. fold d in Hd1, Hrep.
  destruct o as [release'|].
  { injection Hr as <- <-. left. split; [done|]. by apply Hrep. }
  clear Hrep. right.
  step_ok Hr o w2 E. apply query_Ok in E as [Hd2 ->]. rewrite Hd1 in Hr, Hd2.
  step_ok Hr row w3 E. apply ok_or_Ok in E.
  destruct (db_releases d !! rb_source_release_id c) as [row'|] eqn:Hrow; [|done]. simpl in E.
  destruct (lw_deleted row') eqn:Hdel; [done|]. injection E as ->.
  step_ok Hr source w4 Hsource.
  step_ok Hr n w6 E6. apply next_revision_Ok in E6 as (Hn & Hmax & Hd6); [|by rewrite Hd2].
  rewrite Hd2 in Hn, Hmax, Hd6.
  step_ok Hr rid w7 E7. apply new_id_Ok in E7.
  step_ok Hr t w8 E8. apply to_i64_Ok in E8 as [-> _].
  step_ok Hr z w9 E9. apply to_i64_Ok in E9 as [-> _].
  step_ok Hr u1 w10 E10. apply with_text_Ok, insert_release_Ok in E10 as [Hnew Hd10].
  rewrite E7, Hd6 in Hnew, Hd10. simpl in Hnew.
  step_ok Hr u3 w12 E12. apply insert_event_Ok in E12.
  step_ok Hr u4 w13 E13. apply record_idempotency_Ok in E13 as [Hd13 _]. injection Hr as <- <-.
  rewrite E12, Hd10, Hn in Hd13.
  match type of Hd13 with context [<[(_, _) := ?e]> (db_events _)] =>
    assert (pw_db w13 = remembered (rb_idempotency c) "config_release" rid
        (released (cr_namespace source, cr_environment source) rid
              (copied_row source c (Z.of_N (rb_now_ms c)) (Z.of_N n)) e d)) as Hd;
      [|set (ev := e) in *]
  end.
  { rewrite Hd13, Hn. destruct (rb_idempotency c); done. }
  pose proof (copied_row_fields source c (Z.of_N (rb_now_ms c)) (Z.of_N n)) as (Hns & Henv & Hrev).
  split.
  - exists row, source, ev. simpl. split_and!; try done. lia.
  - rewrite Hd. apply remembered_wf.
    apply (released_wf _ _ _ (rolled_back_release source rid c n) _ ConfigRolledBack);
      [done|done|by apply copied_row_decodes|by rewrite Hns, Henv|congruence|done].
Qed.

(** ** Drafts *)

(** Some exchange between two moments failed. *)
Definition link_failed (w w' : PgWorld) : Prop :=
  ∃ n, pw_trips w <= n < pw_trips w' ∧ is_Some (link n).

Lemma exec_effect {A} (st : Statement A) w w' r :
  exec link st w = (w', r) →
  pw_trips w' = pw_trips w + 1
  ∧ ((∃ d a, st (pw_db w) = Ok (d, a) ∧ pw_db w' = d
        ∧ (r = Ok a ∨ (∃ m, r = Err (Unavailable m)) ∧ is_Some (link (pw_trips w))))
     ∨ (∃ m, r = Err (Unavailable m)) ∧ pw_db w' = pw_db w
       ∧ (is_Some (link (pw_trips w)) ∨ ∃ e, st (pw_db w) = Err e)).
Proof.
  unfold exec. destruct (link _) as [fault|]; simpl.
  - destruct (st (pw_db w)) as [[d a]|e]; [destruct (ft_applied fault)|]; intros [= <- <-];
      (split; [done|]); [left; eauto 10|right; eauto 10|right; eauto 10].
  - destruct (st (pw_db w)) as [[d a]|e]; intros [= <- <-]; (split; [done|]); [left|right]; eauto 10.
Qed.

Lemma exec_cases {A} (st : Statement A) w w' r :
  exec link st w = (w', r) →
  (∃ d a, st (pw_db w) = Ok (d, a) ∧ pw_db w' = d
     ∧ (r = Ok a ∨ ∃ m, r = Err (Unavailable m)))
  ∨ (∃ m, r = Err (Unavailable m)) ∧ pw_db w' = pw_db w.
Proof. intros [_ E]%exec_effect. naive_solver. Qed.

Lemma exec_trips {A} (st : Statement A) w w' r :
  exec link st w = (w', r) → pw_trips w' = pw_trips w + 1.
Proof. by intros [? _]%exec_effect. Qed.

(** The draft is there, without its idempotency record. *)
Definition drafted_db (c : CreateConfigDraftCommand) (id : string) (d : Database) : Database :=
  set_db_drafts (<[id := command_draft_row sha256_hash c]> (db_drafts d)) d.

Lemma drafted_wf c id d : db_wf d → db_wf (drafted_db c id d).
Proof.
  intros []. split; try done. simpl. intros id' r [[<- <-]|[_ Hk]]%lookup_insert_Some; [|eauto].
  eexists. apply command_draft_decodes.
Qed.

Definition recorded_draft (c : option IdempotencyContext) (d : Database) (draft : ConfigDraft)
    : Prop :=
  ∃ k record row, c = Some k ∧ db_idempotency d !! pg_idempotency_key k = Some record
    ∧ iw_request_hash record = ic_request_hash k
    ∧ db_drafts d !! iw_resource_id record = Some row
    ∧ draft_from_row (iw_resource_id record) row = Ok draft.

Lemma query_exec {A} texts (f : Database → A) w w' r :
  exec link (query texts f) w = (w', r) → pw_db w' = pw_db w.
Proof.
  intros [(d & a & E & Hd & _)|[_ Hd]]%exec_cases; [|done]. apply query_Ok in E as [-> _]. congruence.
Qed.

(** No record, or one that was withdrawn. *)
Definition unrecorded (k : IdempotencyKey) (d : Database) : Prop :=
  match db_idempotency d !! k with Some record => iw_deleted record = true | None => True end.

Lemma replay_draft_frame c w w' r :
  pg_replay_config_draft link c w = (w', r) →
  pw_db w' = pw_db w ∧ (∀ draft, r = Ok (Some draft) → recorded_draft c (pw_db w) draft)
  ∧ pw_trips w <= pw_trips w'
  ∧ (r = Ok None → ∀ k, c = Some k → unrecorded (pg_idempotency_key k) (pw_db w)).
Proof.
  unfold pg_replay_config_draft. rewrite eff_bind_run.
  destruct c as [k|]; simpl; [|intros [= <- <-]; split_and!; done || lia].
  destruct (exec link _ w) as [w1 q] eqn:E. pose proof E as Hd1%query_exec.
  pose proof E as Ht1%exec_trips.
  destruct q as [o|e]; [|intros [= <- <-]; split_and!; done || lia].
  apply exec_Ok in E as [[_ ->]%query_Ok _].
  assert (unrecorded (pg_idempotency_key k) (pw_db w) →
    ∀ k', Some k = Some k' → unrecorded (pg_idempotency_key k') (pw_db w)) as Hun
    by (intros ? ? [= <-]; done).
  unfold unrecorded at 1 in Hun.
  destruct (db_idempotency (pw_db w) !! _) as [record|] eqn:Hk; simpl;
    [|intros [= <- <-]; split_and!; [done|done|lia|intros _; by apply Hun]].
  destruct (iw_deleted record);
    [intros [= <- <-]; split_and!; [done|done|lia|intros _; by apply Hun]|].
  rewrite eff_bind_run. unfold lift at 1.
  destruct (validate_idempotency_record _ _ _) as [[]|e] eqn:Ev;
    [|intros [= <- <-]; split_and!; done || lia].
  rewrite eff_bind_run. destruct (exec link _ w1) as [w2 q] eqn:E. pose proof E as Hd2%query_exec.
  pose proof E as Ht2%exec_trips.
  destruct q as [o|e]; [|intros [= <- <-]; split_and!; [congruence|done|lia|done]].
  apply exec_Ok in E as [[_ ->]%query_Ok _]. rewrite Hd1.
  rewrite eff_bind_run. unfold lift at 1.
  destruct (db_drafts (pw_db w) !! _) as [row|] eqn:Hrow; simpl;
    [|intros [= <- <-]; split_and!; [congruence|done|lia|done]].
  destruct (dw_deleted row); simpl; [intros [= <- <-]; split_and!; [congruence|done|lia|done]|].
  rewrite eff_bind_run. unfold lift.
  destruct (draft_from_row _ row) as [draft|e] eqn:Hdr; intros [= <- <-];
    split_and!; try congruence; try lia; try done.
  intros draft' [= <-]. unfold validate_idempotency_record in Ev. simpl in Ev.
  case_bool_decide as Hh; [|done]. exists k, record, row. done.
Qed.

Lemma insert_draft_Ok id r d d' u :
  INSERT_CONFIG_DRAFT id r d = Ok (d', u) →
  db_drafts d !! id = None ∧ d' = set_db_drafts (<[id := r]> (db_drafts d)) d.
Proof.
  intros E%with_text_Ok. apply result_bind_Ok in E as (_ & _ & E).
  destruct (db_drafts d !! id); [done|]. by injection E as <-.
Qed.

Lemma insert_record_Ok k r d d' u :
  INSERT_IDEMPOTENCY_RECORD k r d = Ok (d', u) →
  db_idempotency d !! k = None ∧ d' = set_db_idempotency (<[k := r]> (db_idempotency d)) d.
Proof.
  intros E%with_text_Ok. apply result_bind_Ok in E as (_ & _ & E).
  destruct (db_idempotency d !! k); [done|]. by injection E as <-.
Qed.

(** What the record's columns hold of a text. *)
Definition fits (limit : N) (s : string) : Prop := has_nul s = false ∧ char_count s <= limit.

Lemma varchar_fits limit s : has_nul s = false → varchar limit s = Ok () → fits limit s.
Proof. unfold varchar, fits. destruct (N.ltb_spec limit (char_count s)); [done|]. done. Qed.

Lemma insert_draft_fits id r d d' u : INSERT_CONFIG_DRAFT id r d = Ok (d', u) → fits 128 id.
Proof.
  unfold INSERT_CONFIG_DRAFT, with_text. destruct (existsb _ _) eqn:En; [done|].
  intros E. apply result_bind_Ok in E as ([] & Hf & _).
  apply result_bind_Ok in Hf as ([] & Hf & _). apply varchar_fits; [|done].
  simpl in En. by apply orb_false_iff in En as [? _].
Qed.

(** Why the server refuses the record of a draft. *)
Lemma insert_record_Err k hash id d e :
  INSERT_IDEMPOTENCY_RECORD (pg_idempotency_key k)
    {| iw_request_hash := hash; iw_resource_kind := "config_draft"; iw_resource_id := id;
       iw_deleted := false |} d = Err e →
  fits 256 id →
  (∃ s, s ∈ [ic_operation_id k; ic_key k; hash] ∧ ¬ fits 256 s)
  ∨ is_Some (db_idempotency d !! pg_idempotency_key k).
Proof.
  intros E [Hn Hl]. destruct (db_idempotency d !! pg_idempotency_key k) eqn:Hk; [right; by eexists|].
  left. assert (∀ s, fits 256 s ∨ ¬ fits 256 s) as Hdec.
  { intros s. unfold fits. destruct (has_nul s); [right; by intros [? _]|].
    destruct (decide (char_count s <= 256)); [by left|right; by intros [_ ?]]. }
  destruct (Hdec (ic_operation_id k)) as [[N1 L1]|?]; [|eexists; split; [|done]; set_solver].
  destruct (Hdec (ic_key k)) as [[N2 L2]|?]; [|eexists; split; [|done]; set_solver].
  destruct (Hdec hash) as [[N3 L3]|?]; [|eexists; split; [|done]; set_solver]. exfalso.
  revert E. unfold INSERT_IDEMPOTENCY_RECORD, with_text. simpl existsb.
  rewrite N1, N2, N3, Hn. unfold idempotency_fits, varchar. cbn [idk_operation_id idk_key
    pg_idempotency_key iw_request_hash iw_resource_kind iw_resource_id].
  rewrite !(proj2 (N.ltb_ge _ _)) by first [done|by vm_compute].
  fold (pg_idempotency_key k). cbn. rewrite Hk. done.
Qed.

(** The server cannot store the record of a request: its operation, key or hash does not
    fit the columns, or a withdrawn record holds the key. *)
Definition record_refused (c : option IdempotencyContext) (d : Database) : Prop :=
  ∃ k, c = Some k
    ∧ ((∃ s, s ∈ [ic_operation_id k; ic_key k; ic_request_hash k] ∧ ¬ fits 256 s)
       ∨ ∃ record, db_idempotency d !! pg_idempotency_key k = Some record
           ∧ iw_deleted record = true).

Lemma record_effect c id w w' r :
  pg_record_idempotency link c "config_draft" id w = (w', r) → fits 256 id →
  (∀ k, c = Some k → unrecorded (pg_idempotency_key k) (pw_db w)) →
  pw_trips w <= pw_trips w'
  ∧ (r = Ok () ∧ pw_db w' = remembered c "config_draft" id (pw_db w)
     ∨ (∃ m, r = Err (Unavailable m))
       ∧ (pw_db w' = pw_db w
            ∧ (is_Some (link (pw_trips w)) ∧ pw_trips w' = pw_trips w + 1
               ∨ record_refused c (pw_db w))
          ∨ pw_db w' = remembered c "config_draft" id (pw_db w)
            ∧ is_Some (link (pw_trips w)) ∧ pw_trips w' = pw_trips w + 1)).
Proof.
  intros Hr Hid Hun. unfold pg_record_idempotency in Hr.
  destruct c as [k|]; [|injection Hr as <- <-; split; [lia|by left]].
  apply exec_effect in Hr as [Ht [(d & [] & [_ ->]%insert_record_Ok & Hd & Hq)|(Hu & Hd & Hf)]];
    (split; [lia|]).
  - destruct Hq as [->|[? ?]]; [by left|]. right. split; [done|]. by right.
  - right. split; [done|]. left. split; [done|].
    destruct Hf as [Hf|[e Hf]]; [by left|]. right. exists k. split; [done|].
    apply insert_record_Err in Hf as [Hf|[record Hf]]; [by left| |done]. right.
    specialize (Hun k eq_refl). unfold unrecorded in Hun. rewrite Hf in Hun. eauto.
Qed.

(** Everything the creation of a draft can leave: nothing new, the draft alone, or the
    draft with its idempotency record. *)
Lemma create_draft_outcomes c w w' r :
  pg_create_config_draft link sha256_hash c w = (w', r) →
  let d := pw_db w in
  match r with
  | Ok draft =>
      (pw_db w' = d ∧ recorded_draft (cc_idempotency c) d draft)
      ∨ ∃ id, db_drafts d !! id = None ∧ draft = command_draft sha256_hash c id
          ∧ pw_db w' = remembered (cc_idempotency c) "config_draft" id (drafted_db c id d)
  | Err e =>
      pw_db w' = d
      ∨ (∃ m, e = Unavailable m) ∧ ∃ id, db_drafts d !! id = None
          ∧ (pw_db w' = drafted_db c id d
               ∧ (link_failed w w' ∨ record_refused (cc_idempotency c) d)
             ∨ pw_db w' = remembered (cc_idempotency c) "config_draft" id (drafted_db c id d)
               ∧ link_failed w w')
  end.
Proof.
  intros Hr d. unfold pg_create_config_draft in Hr. rewrite eff_bind_run in Hr. unfold lift in Hr.
  destruct (pg_validate_config_draft_command c) as [[]|e]; [|injection Hr as <- <-; by left].
  rewrite eff_bind_run in Hr. destruct (pg_replay_config_draft link _ w) as [w1 q] eqn:E.
  apply replay_draft_frame in E as (Hd1 & Hrep & Ht1 & Hun). fold d in Hd1, Hrep, Hun.
  destruct q as [[draft|]|e]; [injection Hr as <- <-; left; split; [done|by apply Hrep]| |
    injection Hr as <- <-; by left].
  clear Hrep. specialize (Hun eq_refl). rewrite eff_bind_run in Hr. simpl in Hr.
  set (id := new_prefixed_id "draft" (pw_ids w1)) in *. set (w2 := set_ids (pw_ids w1 + 1) w1) in *.
  assert (pw_db w2 = d) as Hd2 by done. assert (pw_trips w2 = pw_trips w1) as Ht2 by done.
  rewrite eff_bind_run in Hr.
  destruct (exec link (INSERT_CONFIG_DRAFT id _) w2) as [w3 q] eqn:E.
  apply exec_effect in E as [Ht3 [(d3 & [] & Hins & Hd3 & Hq)|([m ->] & Hd3 & _)]]; cycle 1.
  { injection Hr as <- <-. left. congruence. }
  pose proof Hins as [Hid ->]%insert_draft_Ok. apply insert_draft_fits in Hins as [Hn Hl].
  rewrite Hd2 in Hid, Hd3. fold (drafted_db c id d) in Hd3.
  destruct Hq as [->|[[m ->] Hf]]; cycle 1.
  { injection Hr as <- <-. right. split; [by eexists|]. exists id. split; [done|]. left.
    split; [done|]. left. exists (pw_trips w2). split; [lia|done]. }
  rewrite eff_bind_run in Hr. destruct (pg_record_idempotency link _ _ _ w3) as [w4 q] eqn:E.
  apply record_effect in E as (Ht4 & [[-> Hd4]|([m ->] & Hd4)]); [| |split; [done|lia]|by rewrite Hd3].
  - injection Hr as <- <-. right. exists id. rewrite Hd3 in Hd4. done.
  - injection Hr as <- <-. right. split; [by eexists|]. exists id. split; [done|].
    rewrite Hd3 in Hd4. assert (is_Some (link (pw_trips w3)) ∧ pw_trips w4 = pw_trips w3 + 1 →
      link_failed w w4) as Hf by (intros [? ?]; exists (pw_trips w3); split; [lia|done]).
    destruct Hd4 as [[? [?|?]]|[? ?]]; [left..|right]; auto.
Qed.

(** ** The upkeep of the event log *)

Lemma delete_events_wf f d : db_wf d → db_wf (delete_events f d).1.
Proof.
  intros [Hc Hr Hd Hl [He1 He2]]. split; try done. split; simpl.
  - intros s rev e. rewrite map_lookup_imap. destruct (db_events d !! (s, rev)) eqn:E; [|done].
    simpl. case_match; [done|]. intros [= <-]. by eapply He1.
  - intros s rev e. rewrite map_lookup_imap. destruct (db_events d !! (s, rev)) eqn:E; [|done].
    simpl. case_match; [done|]. intros [= <-]. by eapply He2.
Qed.

Lemma exec_wf {A} (st : Statement A) w :
  (∀ d d' a, db_wf d → st d = Ok (d', a) → db_wf d') → db_wf (pw_db w) →
  db_wf (pw_db (exec link st w).1).
Proof.
  intros Hst Hwf. destruct (exec link st w) as [w' r] eqn:E.
  apply exec_cases in E as [(d & a & E & <- & _)|[_ Hd]]; simpl; [by eapply Hst|by rewrite Hd].
Qed.

Lemma bind_wf {A B} (m : Op PgWorld A) (f : A → Op PgWorld B) w :
  db_wf (pw_db (m w).1) → (∀ a w1, db_wf (pw_db w1) → db_wf (pw_db (f a w1).1)) →
  db_wf (pw_db ((m ≫= f) w).1).
Proof. intros Hm Hf. rewrite eff_bind_run. destruct (m w) as [w1 [a|e]]; simpl in *; auto. Qed.

Lemma query_wf {A} texts (f : Database → A) d d' a : db_wf d → query texts f d = Ok (d', a) → db_wf d'.
Proof. by intros Hwf [-> _]%query_Ok. Qed.

Lemma gc_wf before max w : db_wf (pw_db w) → db_wf (pw_db (pg_gc_watch_events link before max w).1).
Proof.
  intros Hwf. apply bind_wf; [done|]. intros b w1 Hwf1. apply bind_wf; [done|]. intros l w2 Hwf2.
  apply exec_wf; [|done]. intros d d' a Hd E. apply with_text_Ok in E. injection E as <- _.
  by apply (delete_events_wf (λ '(_, revision) _, bool_decide _)).
Qed.

Lemma compact_wf ns env max w :
  db_wf (pw_db w) → db_wf (pw_db (pg_compact_watch_events link ns env max w).1).
Proof.
  intros Hwf. do 2 (apply bind_wf; [done|]; clear w Hwf; intros _ w Hwf).
  apply bind_wf; [apply exec_wf; [apply query_wf|done]|]. clear w Hwf. intros before w Hwf.
  apply bind_wf; [done|]. clear w Hwf. intros z w Hwf.
  apply bind_wf.
  { apply exec_wf; [|done]. intros d d' a Hd E. apply with_text_Ok in E. injection E as <- _.
    by apply (delete_events_wf (λ '(s, revision) e, _)). }
  clear w Hwf. intros n w Hwf.
  apply bind_wf; [apply exec_wf; [apply query_wf|done]|]. done.
Qed.
End configuration.
