(* ===== verification/PgConfigTheorems.v ===== *)
(** * Theorems on the PostgreSQL configuration store and the database as a whole

    Publication and rollback take effect as a whole or not at all; the creation of a
    draft, which is not a transaction, can stop half way; every operation keeps the
    database well-formed. *)
From S2P Require Import Prelude RustStr Collections Contract Discover StorageContract MemoryStore.
From S2P Require Import MemoryRegistry MemoryConfig Codec RegistryTheorems RegistrySpec PgSchema PgSql.
From S2P Require Import PgCodec Postgres PgLemmas PgRegistry PgCommits PgQueries PgBackend PgSample.
From S2P Require Import PgConfig PgTheorems.

(** ** Transactions *)

Lemma transaction_whole `{PgExternals} link {A} (body : Op PgWorld A)
    (done_ : Database → A → Database → Prop) w w' r :
  (∀ w1 w2 a, pw_db w1 = pw_db w → body w1 = (w2, Ok a) → done_ (pw_db w) a (pw_db w2)) →
  transaction link body w = (w', r) →
  match r with
  | Ok a => done_ (pw_db w) a (pw_db w')
  | Err e => pw_db w' = pw_db w
             ∨ (∃ m, e = Unavailable m) ∧ ∃ a, done_ (pw_db w) a (pw_db w')
  end.
Proof.
  intros Hb E.
  apply transaction_cases in E as [(a & w2 & -> & Hr & Hd)|[(e & -> & Hd & _)|(m & a & w2 & -> & Hr & Hd)]].
  - rewrite Hd. by apply (Hb (set_trips (pw_trips w + 1) w)).
  - by left.
  - right. split; [by eexists|]. exists a. rewrite Hd.
    by apply (Hb (set_trips (pw_trips w + 1) w)).
Qed.

Section theorems.
Context `{PgExternals} (link : N → option Fault).

Lemma publish_whole c w w' r :
  db_wf (pw_db w) → pg_publish_config link c w = (w', r) →
  let outcome release d' :=
    (d' = pw_db w ∧ recorded (pc_idempotency c) (pw_db w) release)
    ∨ (published_db c (pw_db w) release d' ∧ db_wf d') in
  match r with
  | Ok release => outcome release (pw_db w')
  | Err e => pw_db w' = pw_db w
             ∨ (∃ m, e = Unavailable m) ∧ ∃ release, outcome release (pw_db w')
  end.
Proof.
  intros Hwf Hr outcome. unfold pg_publish_config in Hr. rewrite eff_bind_run in Hr. unfold lift in Hr.
  destruct (pg_validate_publish_config_command c) as [[]|e]; [|injection Hr as <- <-; by left].
  apply (transaction_whole link (publish_body link c) (λ _, outcome) w w' r); [|done].
  intros w1 w2 release Hd Hb. unfold outcome. rewrite <- Hd. apply publish_commits in Hb; [done|].
  by rewrite Hd.
Qed.

Lemma rollback_whole c w w' r :
  db_wf (pw_db w) → pg_rollback_config link c w = (w', r) →
  let outcome release d' :=
    (d' = pw_db w ∧ recorded (rb_idempotency c) (pw_db w) release)
    ∨ (rolled_back_db c (pw_db w) release d' ∧ db_wf d') in
  match r with
  | Ok release => outcome release (pw_db w')
  | Err e => pw_db w' = pw_db w
             ∨ (∃ m, e = Unavailable m) ∧ ∃ release, outcome release (pw_db w')
  end.
Proof.
  intros Hwf Hr outcome. unfold pg_rollback_config in Hr. rewrite eff_bind_run in Hr. unfold lift in Hr.
  destruct (pg_validate_rollback_config_command c) as [[]|e]; [|injection Hr as <- <-; by left].
  apply (transaction_whole link (rollback_body link c) (λ _, outcome) w w' r); [|done].
  intros w1 w2 release Hd Hb. unfold outcome. rewrite <- Hd. apply rollback_commits in Hb; [done|].
  by rewrite Hd.
Qed.
End theorems.

(** C7: a publication takes effect as a whole.  If it succeeds, either the request was
    recorded before, the recorded release is returned and nothing changes, or the draft
    existed unpublished and is marked, and the release under the next revision of its
    scope, its event and the idempotency record are all written.  If it fails, nothing
    changes, except that a failure of the link may hide a publication that took effect
    as a whole. *)
Theorem pg_publish_all_or_nothing `{PgExternals} link c w w' r :
  db_wf (pw_db w) → pg_publish_config link c w = (w', r) →
  let d := pw_db w in let d' := pw_db w' in
  match r with
  | Ok release => (d' = d ∧ recorded (pc_idempotency c) d release) ∨ published_db c d release d'
  | Err e => d' = d ∨ (∃ m, e = Unavailable m) ∧ ∃ release, published_db c d release d'
  end.
Proof.
  intros Hwf Hr. pose proof (publish_whole link c w w' r Hwf Hr) as Hp.
  destruct r as [release|e]; naive_solver.
Qed.

Definition sample_draft_command (key : string) : CreateConfigDraftCommand :=
  {| cc_namespace := "acme"; cc_environment := "prod"; cc_group := "app"; cc_key := "timeout";
     cc_format := FormatText; cc_value := "30"; cc_scope := ScopeNamespace;
     cc_created_by := "ops";
     cc_idempotency := Some {| ic_operation_id := "create"; ic_key := key;
                               ic_request_hash := "hash" |} |}.

Definition sample_publish_command (draft_id : string) : PublishConfigCommand :=
  {| pc_draft_id := draft_id; pc_published_by := "ops"; pc_now_ms := 5000; pc_idempotency := None |}.

Definition drafted_world : PgWorld :=
  (@pg_create_config_draft (sample_externals false) steady (λ s, s)
     (sample_draft_command "k") empty_world).1.

Lemma drafted_world_wf : @db_wf (sample_externals false) (pw_db drafted_world).
Proof.
  pose proof (@db_wf_empty (sample_externals false)) as Hwf.
  unfold drafted_world. destruct (pg_create_config_draft _ _ _ _) as [w' r] eqn:E.
  assert (∃ draft, r = Ok draft) as [draft ->].
  { apply (f_equal snd) in E. vm_compute in E. subst r. by eexists. }
  apply (@create_draft_outcomes (sample_externals false)) in E. simpl.
  destruct E as [[-> _]|(id & _ & _ & ->)]; [done|]. by apply remembered_wf, drafted_wf.
Qed.

(** The commit of the publication is lost on the way back. *)
Lemma pg_publish_all_or_nothing_witness :
  let c := sample_publish_command "draft-1" in
  let run := @pg_publish_config (sample_externals false) (drops_at 9 true) c drafted_world in
  (∃ m, run.2 = Err (Unavailable m)) ∧ size (db_releases (pw_db run.1)) = 1%nat
  ∧ (pw_db run.1 = pw_db drafted_world
     ∨ (∃ m, Unavailable "postgres storage error: server error" = Unavailable m)
       ∧ ∃ release, @published_db c (pw_db drafted_world) release (pw_db run.1)).
Proof.
  intros c run. split; [eexists; vm_compute; reflexivity|]. split; [by vm_compute|].
  apply (@pg_publish_all_or_nothing (sample_externals false) (drops_at 9 true) c
           drafted_world run.1 (Err (Unavailable "postgres storage error: server error"))
           drafted_world_wf).
  vm_compute. reflexivity.
Defined.




(** A client that repeats the request after such a failure, with the same idempotency
    key, creates a second draft. *)
Lemma pg_draft_retry_duplicates :
  let first := @pg_create_config_draft (sample_externals false) (drops_at 2 false) (λ s, s)
                 (sample_draft_command "k") empty_world in
  let second := @pg_create_config_draft (sample_externals false) (drops_at 2 false) (λ s, s)
                  (sample_draft_command "k") first.1 in
  (∃ m, first.2 = Err (Unavailable m)) ∧ (∃ draft, second.2 = Ok draft)
  ∧ size (db_drafts (pw_db second.1)) = 2%nat.
Proof. split; [|split]; [eexists; vm_compute; reflexivity..|by vm_compute]. Qed.

(** ** Every operation *)

Section reachable.
Context `{PgExternals, HashOrder, !JsonFaithful}.
Context (default_hash : N → N → N) (sha256_hash : string → string).

(** One call of the storage contract, over any link. *)
Inductive pg_step (w : PgWorld) : PgWorld → Prop :=
| pg_step_registry link c :
    pg_step w (@run_registry PgWorld (postgres_registry_store link default_hash) c w).1
| pg_step_batch_register link commands :
    pg_step w (pg_batch_register_instances link commands w).1
| pg_step_batch_deregister link ns env svc ids now :
    pg_step w (pg_batch_deregister_instances link ns env svc ids now w).1
| pg_step_draft link c : pg_step w (pg_create_config_draft link sha256_hash c w).1
| pg_step_publish link c : pg_step w (pg_publish_config link c w).1
| pg_step_rollback link c : pg_step w (pg_rollback_config link c w).1
| pg_step_gc link before max : pg_step w (pg_gc_watch_events link before max w).1
| pg_step_compact link ns env max :
    pg_step w (pg_compact_watch_events link ns env max w).1.

Lemma batch_register_wf link index commands w :
  db_wf (pw_db w) → db_wf (pw_db (pg_batch_register_loop link index commands w).1).
Proof.
  revert index w. induction commands as [|c commands IH]; intros index w Hwf; [done|].
  simpl. pose proof (register_meets link default_hash c w Hwf) as Hm. unfold meets in Hm.
  destruct (pg_register_instance link c w) as [w1 r]. destruct Hm as [Hwf1 _].
  specialize (IH (index + 1) w1 Hwf1). by destruct (pg_batch_register_loop _ _ commands w1).
Qed.

Lemma deregister_wf link k now w :
  db_wf (pw_db w) → db_wf (pw_db (pg_deregister_key link k now w).1).
Proof.
  intros Hwf. pose proof (deregister_meets link default_hash k now w Hwf) as Hm.
  unfold meets in Hm. destruct (pg_deregister_key link k now w). apply Hm.
Qed.

Lemma batch_deregister_wf link ns env svc ids now w :
  db_wf (pw_db w) → db_wf (pw_db (pg_batch_deregister_instances link ns env svc ids now w).1).
Proof.
  revert w. induction ids as [|id ids IH]; intros w Hwf; [done|]. simpl.
  apply bind_wf; [by apply deregister_wf|]. intros r w1 Hwf1.
  apply bind_wf; [by apply IH|]. done.
Qed.

Lemma pg_step_wf w w' : db_wf (pw_db w) → pg_step w w' → db_wf (pw_db w').
Proof.
  intros Hwf Hs. destruct Hs.
  - by apply (@backend_sound default_hash PgWorld _ (postgres_backend link default_hash) c w Hwf).
  - unfold pg_batch_register_instances. pose proof (batch_register_wf link 0 commands w Hwf).
    by destruct (pg_batch_register_loop _ _ _ w).
  - by apply batch_deregister_wf.
  - destruct (pg_create_config_draft link sha256_hash c w) as [w' [draft|e]] eqn:E;
      apply create_draft_outcomes in E; simpl.
    + destruct E as [[E _]|(id & _ & _ & E)]; rewrite E; [done|]. by apply remembered_wf, drafted_wf.
    + destruct E as [E|(_ & id & _ & [[E _]|[E _]])]; rewrite E; [done|by apply drafted_wf|].
      by apply remembered_wf, drafted_wf.
  - destruct (pg_publish_config link c w) as [w' [release|e]] eqn:E;
      apply publish_whole in E; [|done| |done]; simpl; naive_solver congruence.
  - destruct (pg_rollback_config link c w) as [w' [release|e]] eqn:E;
      apply rollback_whole in E; [|done| |done]; simpl; naive_solver congruence.
  - by apply gc_wf.
  - by apply compact_wf.
Qed.
End reachable.

(** C5: whatever calls a fleet of processes makes, one after the other and over links
    that fail at any exchange, the database stays well-formed: stored rows decode, no
    revision is ahead of the counter of its scope, leases are unique, and so are the
    revisions of releases and events in a scope. *)
Theorem postgres_invariant `{PgExternals, HashOrder, !JsonFaithful} default_hash sha256_hash w :
  rtc (pg_step default_hash sha256_hash) empty_world w → db_wf (pw_db w).
Proof.
  intros Hr. assert (db_wf (pw_db empty_world)) as Hwf by apply db_wf_empty.
  revert Hwf. induction Hr as [|w1 w2 w3 Hs _ IH]; intros Hwf; [done|].
  apply IH. by eapply pg_step_wf.
Qed.

Lemma postgres_invariant_witness :
  @db_wf (sample_externals false)
    (pw_db (@pg_publish_config (sample_externals false) (drops_at 9 false)
              (sample_publish_command "draft-1") drafted_world).1).
Proof.
  apply (@postgres_invariant (sample_externals false) canonical_order (sample_faithful false)
           (λ _ n, n) (λ s, s)).
  eapply rtc_l; [apply (pg_step_draft _ _ _ steady (sample_draft_command "k"))|].
  eapply rtc_l; [apply (pg_step_publish _ _ _ (drops_at 9 false) (sample_publish_command "draft-1"))|].
  apply rtc_refl.
Defined.
