(* ===== verification/PgEquivalence.v ===== *)
(** * The PostgreSQL and the in-memory answers

    The effective configuration and the event log of the PostgreSQL backend compared
    with what the in-memory backend computes from the same contents. *)
From S2P Require Import Prelude RustStr Collections Contract Discover StorageContract MemoryStore.
From S2P Require Import MemoryRegistry MemoryConfig MemoryWatch Codec RegistryTheorems ConfigTheorems.
From S2P Require Import PgSchema PgSql PgCodec Postgres PgLemmas PgRegistry PgCommits PgQueries.
From S2P Require Import PgSample PgConfig PgConfigTheorems.

#[export] Instance Z_compare_total : TotalCmp Z.compare.
Proof.
  split.
  - intros x y. by rewrite Z.compare_antisym.
  - intros x y z. rewrite !Z.compare_lt_iff. lia.
  - intros x y z. rewrite Z.compare_eq_iff. by intros ->.
Qed.

(** ** Releases *)

Lemma scope_selected_applies app svc r scope :
  decode_config_scope (lw_scope_kind r) (lw_scope_application r) (lw_scope_service_name r)
    = Ok scope →
  scope_selected app svc r = applies_to scope app svc.
Proof.
  unfold decode_config_scope, scope_selected. intros E.
  destruct (bool_decide (lw_scope_kind r = "namespace")) eqn:E1.
  { injection E as <-. done. }
  destruct (bool_decide (lw_scope_kind r = "application")) eqn:E2.
  { apply result_bind_Ok in E as (a & Ha%ok_or_Ok & [= <-]).
    apply bool_decide_eq_true in E2. rewrite E2, Ha. simpl. rewrite ?orb_false_r.
    apply bool_decide_ext. naive_solver. }
  destruct (bool_decide (lw_scope_kind r = "service")) eqn:E3; [|done].
  apply result_bind_Ok in E as (a & Ha%ok_or_Ok & E).
  apply result_bind_Ok in E as (s & Hs%ok_or_Ok & [= <-]). rewrite Ha, Hs. simpl.
  f_equal; apply bool_decide_ext; naive_solver.
Qed.

Lemma release_decodes_filter q id r x :
  release_from_row id r = Ok x →
  (bool_decide (lw_namespace r = ecq_namespace q)
   && bool_decide (lw_environment r = ecq_environment q)
   && bool_decide (lw_config_group r = ecq_group q)
   && scope_selected (ecq_application q) (ecq_service_name q) r) = effective_filter q x.
Proof.
  unfold release_from_row, effective_filter. intros E.
  apply result_bind_Ok in E as (f & _ & E). apply result_bind_Ok in E as (s & Hs & E).
  apply result_bind_Ok in E as (a & _ & E). apply result_bind_Ok in E as (n & _ & [= <-]). simpl.
  by rewrite (scope_selected_applies _ _ _ _ Hs).
Qed.

Lemma filter_scope q x :
  effective_filter q x = true →
  cr_namespace x = ecq_namespace q ∧ cr_environment x = ecq_environment q.
Proof. unfold effective_filter. rewrite !andb_true_iff, !bool_decide_eq_true. tauto. Qed.

Section releases.
Context `{PgExternals, HashOrder}.

(** The releases of a namespace and environment are the same in both. *)
Definition same_releases (ns env : string) (d : Database) (s : MemoryDiscoveryStore) : Prop :=
  ∀ x, cr_namespace x = ns → cr_environment x = env →
    x ∈ releases s ↔ ∃ id r, db_releases d !! id = Some r ∧ lw_deleted r = false
                             ∧ release_from_row id r = Ok x.

(** The rows of the releases that [p] selects, in ascending revision, as [ORDER BY
    revision ASC] lists them. *)
Definition release_rows (p : ReleaseRow → bool) (d : Database) : list (string * ReleaseRow) :=
  sort_by (cmp_on (lw_revision ∘ snd) Z.compare)
    (retain (λ '(_, r), p r) (hash_iter (db_releases d))).

Definition decode_release : string * ReleaseRow → DiscoveryResult ConfigRelease :=
  λ '(id, r), release_from_row id r.

Lemma elem_of_release_rows p d id r :
  (id, r) ∈ release_rows p d ↔ db_releases d !! id = Some r ∧ p r = true.
Proof. unfold release_rows. rewrite elem_of_sort_by, elem_of_retain, elem_of_hash_iter. tauto. Qed.

Lemma release_rows_decode p d :
  db_wf d → ∃ xs, collect decode_release (release_rows p d) = Ok xs.
Proof.
  intros Hwf. apply collect_total. intros [id r] [Hk _]%elem_of_release_rows.
  by apply (lws_decodes _ _ (dbw_releases _ Hwf)).
Qed.

Lemma decoded_sorted l xs :
  StronglySorted (cmp_le (cmp_on (lw_revision ∘ snd) Z.compare)) l →
  Forall2 (λ a x, (let '(id, r) := a in release_from_row id r) = Ok x) l xs →
  StronglySorted (λ x y, cr_revision x <= cr_revision y) xs.
Proof.
  intros Hs Hf. induction Hf as [|[id r] x l xs Hx Hf IH]; [constructor|].
  apply StronglySorted_inv in Hs as [Hs Hall]. constructor; [by apply IH|].
  clear IH Hs. induction Hf as [|[id' r'] x' l xs Hx' Hf IH]; [constructor|].
  apply Forall_cons in Hall as [Hle Hall]. constructor; [|by apply IH].
  apply release_from_row_fields in Hx as (_ & _ & _ & Hr).
  apply release_from_row_fields in Hx' as (_ & _ & _ & Hr').
  unfold cmp_le, cmp_on in Hle. simpl in Hle. rewrite Hr, Hr' in Hle.
  apply Z.compare_ngt_iff in Hle. lia.
Qed.

(** A history in order: no release twice, and the revisions ascend. *)
Definition in_order (history : list ConfigRelease) : Prop :=
  NoDup history ∧ StronglySorted (λ x y, cr_revision x <= cr_revision y) history.

Lemma decoded_rows p d xs :
  collect decode_release (release_rows p d) = Ok xs →
  in_order xs
  ∧ ∀ x, x ∈ xs ↔ ∃ id r, db_releases d !! id = Some r ∧ p r = true ∧ release_from_row id r = Ok x.
Proof.
  intros Hc. split; [split|].
  - apply (NoDup_fmap_1 cr_release_id). apply collect_Ok in Hc.
    assert (cr_release_id <$> xs = (release_rows p d).*1) as ->.
    { induction Hc as [|[id r] x l xs Hx _ IH]; [done|]. csimpl. rewrite IH.
      by apply release_from_row_fields in Hx as [-> _]. }
    unfold release_rows. rewrite sort_by_perm. apply retain_fst_NoDup, NoDup_hash_keys.
  - apply collect_Ok in Hc. eapply decoded_sorted; [|exact Hc]. apply sort_by_sorted. apply _.
  - intros x. rewrite (collect_elem _ _ _ x Hc). split.
    + intros ([id r] & [Hk Hp]%elem_of_release_rows & Hx). by eexists _, _.
    + intros (id & r & Hk & Hp & Hx). exists (id, r). by rewrite elem_of_release_rows.
Qed.

(** The rows an effective configuration is computed from. *)
Definition effective_where (q : RetrieveEffectiveConfigQuery) (r : ReleaseRow) : bool :=
  bool_decide (lw_namespace r = ecq_namespace q) && bool_decide (lw_environment r = ecq_environment q)
  && bool_decide (lw_config_group r = ecq_group q) && negb (lw_deleted r)
  && scope_selected (ecq_application q) (ecq_service_name q) r.

Lemma effective_where_filter q id r x :
  release_from_row id r = Ok x →
  effective_where q r = true ↔ lw_deleted r = false ∧ effective_filter q x = true.
Proof.
  intros Hx. rewrite <- (release_decodes_filter q id r x Hx). unfold effective_where.
  rewrite !andb_true_iff, negb_true_iff. tauto.
Qed.

(** In a well-formed database two releases of a scope have different revisions. *)
Lemma same_revision_eq d id1 id2 r1 r2 x y :
  db_wf d → db_releases d !! id1 = Some r1 → db_releases d !! id2 = Some r2 →
  release_from_row id1 r1 = Ok x → release_from_row id2 r2 = Ok y →
  cr_namespace x = cr_namespace y → cr_environment x = cr_environment y →
  cr_revision x = cr_revision y → x = y.
Proof.
  intros Hwf Hk1 Hk2 Hx Hy Hns Henv Hrev.
  pose proof (release_from_row_fields _ _ _ Hx) as (_ & Hn1 & He1 & Hr1).
  pose proof (release_from_row_fields _ _ _ Hy) as (_ & Hn2 & He2 & Hr2).
  assert (id1 = id2) as ->; [|congruence].
  apply (lws_unique _ _ (dbw_releases _ Hwf) _ _ r1 r2 Hk1 Hk2); congruence.
Qed.

Lemma effective_rows_releases q d s xs :
  db_wf d → in_order (releases s) →
  same_releases (ecq_namespace q) (ecq_environment q) d s →
  collect decode_release (release_rows (effective_where q) d) = Ok xs →
  xs = retain (effective_filter q) (releases s).
Proof.
  intros Hwf [Hnd Hsorted] Hsame [[Hxnd Hxs] Hin]%decoded_rows.
  assert (∀ x, x ∈ xs ↔ x ∈ retain (effective_filter q) (releases s)) as Heq.
  { intros x. rewrite Hin, elem_of_retain. split.
    - intros (id & r & Hk & Hp & Hx). apply (effective_where_filter q id r x Hx) in Hp as [Hd Hf].
      split; [done|]. pose proof Hf as [Hns Henv]%filter_scope. apply Hsame; eauto.
    - intros [Hf Hx]. pose proof Hf as [Hns Henv]%filter_scope.
      apply Hsame in Hx as (id & r & Hk & Hd & Hx); [|done..]. exists id, r.
      split_and!; [done| |done]. by apply (effective_where_filter q id r x Hx). }
  apply (StronglySorted_unique_strong (λ x y, cr_revision x <= cr_revision y)).
  - intros x y Hx Hy%Heq Hle1 Hle2.
    assert (effective_filter q x = true) as [Hns1 Henv1]%filter_scope
      by (by apply Heq, elem_of_retain in Hx as [? _]).
    assert (effective_filter q y = true) as [Hns2 Henv2]%filter_scope
      by (by apply Heq, elem_of_retain in Hy as [? _]).
    apply Hin in Hx as (id1 & r1 & Hk1 & _ & Hx). apply Hin in Hy as (id2 & r2 & Hk2 & _ & Hy).
    apply (same_revision_eq d id1 id2 r1 r2); [done..|congruence|congruence|lia].
  - exact Hxs.
  - by apply StronglySorted_filter.
  - apply NoDup_Permutation; [done| |done]. eapply sublist_NoDup; [exact Hnd|apply retain_sublist].
Qed.

(** Every database has its counterpart in memory. *)
Lemma same_releases_exists ns env d :
  db_wf d → ∃ s, in_order (releases s) ∧ same_releases ns env d s.
Proof.
  intros Hwf. destruct (release_rows_decode (λ r, negb (lw_deleted r)) d Hwf) as [xs Hxs].
  apply decoded_rows in Hxs as [Hord Hin]. exists (set_releases xs new_store). split; [done|].
  intros x _ _. simpl. rewrite Hin. by setoid_rewrite negb_true_iff.
Qed.

Lemma effective_fold xs acc :
  foldl effective_step acc xs =
  {| ec_revision := foldl (λ revision r, N.max revision (cr_revision r)) (ec_revision acc) xs;
     ec_values := foldl pg_effective_step (ec_values acc) xs |}.
Proof.
  revert acc. induction xs as [|x xs IH]; intros acc; simpl; [by destruct acc|].
  rewrite IH. simpl. done.
Qed.
End releases.

(** C8: the effective configuration of a well-formed database is the one the in-memory
    backend computes from the same releases, whatever identifiers these carry: for every
    history that lists the releases of the namespace and environment in the order of
    their revisions, and there is one for every database, it has the same values, the
    same revision, and the same refusals of a request; only a failure of the server or of
    the link answers otherwise. *)
Theorem pg_effective_matches_memory `{PgExternals, HashOrder} link q w :
  db_wf (pw_db w) →
  (∃ s, in_order (releases s)
     ∧ same_releases (ecq_namespace q) (ecq_environment q) (pw_db w) s)
  ∧ ∀ s, in_order (releases s) →
      same_releases (ecq_namespace q) (ecq_environment q) (pw_db w) s →
      (pg_retrieve_effective_config link q w).2 = retrieve_effective_config q s
      ∨ ∃ m, (pg_retrieve_effective_config link q w).2 = Err (Unavailable m).
Proof.
  intros Hwf. split; [by apply same_releases_exists|]. intros s Hs Hsame.
  unfold pg_retrieve_effective_config, retrieve_effective_config.
  change pg_validate_non_empty with validate_non_empty.
  do 5 (rewrite lift_bind_run; destruct (validate_non_empty _ _) as [[]|e]; [|by left]; simpl).
  rewrite eff_bind_run. destruct (exec link _ w) as [w1 [rows|e]] eqn:E.
  2:{ apply exec_Err in E as [m ->]. right. by eexists. }
  apply exec_Ok in E as [[_ ->]%query_Ok _]. fold decode_release.
  destruct (release_rows_decode (effective_where q) (pw_db w) Hwf) as [xs Hxs].
  rewrite lift_bind_run. change (sort_by _ _) with (release_rows (effective_where q) (pw_db w)).
  rewrite Hxs.
  rewrite (effective_rows_releases q _ s xs Hwf Hs Hsame Hxs). left. simpl.
  by rewrite effective_fold.
Qed.

(** A server whose identifiers are UUIDs of version 7. *)
Definition uuid_externals : PgExternals := {|
  jsonb_in := Ok; collate := String.compare; refuses_ambiguous_column := false;
  db_error_text := λ _, "server error";
  uuid_v7 := λ n, "0198c3a1-5f2e-7b4d-9a10-6c0f2e8d000" +:+ show_N n;
  metadata_to_string := to_text; metadata_from_str := from_text;
  check_to_string := to_text; check_from_str := from_text;
  check_state_to_string := to_text; check_state_from_str := from_text;
|}.

Definition uuid_drafted : PgWorld :=
  (@pg_create_config_draft uuid_externals steady (λ s, s) (sample_draft_command "k") empty_world).1.

Definition uuid_published : PgWorld :=
  (@pg_publish_config uuid_externals steady
     (sample_publish_command "draft-0198c3a1-5f2e-7b4d-9a10-6c0f2e8d0000") uuid_drafted).1.

Lemma uuid_drafted_wf : @db_wf uuid_externals (pw_db uuid_drafted).
Proof.
  pose proof (@db_wf_empty uuid_externals) as Hwf.
  unfold uuid_drafted. destruct (pg_create_config_draft _ _ _ _) as [w' r] eqn:E.
  assert (∃ draft, r = Ok draft) as [draft ->].
  { apply (f_equal snd) in E. vm_compute in E. subst r. by eexists. }
  apply (@create_draft_outcomes uuid_externals) in E. simpl.
  destruct E as [[-> _]|(id & _ & _ & ->)]; [done|]. by apply remembered_wf, drafted_wf.
Qed.

Lemma uuid_published_wf : @db_wf uuid_externals (pw_db uuid_published).
Proof.
  unfold uuid_published. destruct (pg_publish_config _ _ uuid_drafted) as [w' r] eqn:E.
  apply (@publish_whole uuid_externals) in E; [|apply uuid_drafted_wf].
  destruct r as [release|e]; simpl; [destruct E as [[-> _]|[_ ?]]; [apply uuid_drafted_wf|done]|].
  destruct E as [->|(_ & release & [[-> _]|[_ E]])]; [apply uuid_drafted_wf..|done].
Qed.

(** One release, with the identifier the server gave it. *)
Lemma pg_effective_matches_memory_witness :
  let q := {| ecq_namespace := "acme"; ecq_environment := "prod"; ecq_application := "web";
              ecq_service_name := "drive"; ecq_group := "app" |} in
  let answer := (@pg_retrieve_effective_config uuid_externals canonical_order steady q
                   uuid_published).2 in
  db_releases (pw_db uuid_published) !! "release-0198c3a1-5f2e-7b4d-9a10-6c0f2e8d0001" ≠ None
  ∧ ∃ s, same_releases "acme" "prod" (pw_db uuid_published) s
      ∧ (answer = retrieve_effective_config q s ∨ ∃ m, answer = Err (Unavailable m)).
Proof.
  intros q answer. split; [by vm_compute|].
  destruct (@pg_effective_matches_memory uuid_externals canonical_order steady q uuid_published
    uuid_published_wf) as [(s & Hs & Hsame) Hall].
  exists s. split; [exact Hsame|exact (Hall s Hs Hsame)].
Defined.
