(* ===== verification/PgWatch.v ===== *)
(** * Theorems on the PostgreSQL event log

    A watch without filters gives out the events of its scope one page after the other,
    leaving none out; a watch with a filter looks for its events in a page that was cut
    before the filter is applied. *)
From S2P Require Import Prelude RustStr Collections Contract Discover StorageContract MemoryStore.
From S2P Require Import MemoryRegistry MemoryWatch Codec RegistryTheorems PgSchema PgSql PgCodec.
From S2P Require Import Postgres PgLemmas PgRegistry PgCommits PgQueries PgBackend PgSample PgConfig.
From S2P Require Import PgEquivalence.

Section watch.
Context `{PgExternals, HashOrder}.

(** Two services of a scope do not share an instance identifier. *)
Definition one_service_per_id (d : Database) : Prop :=
  ∀ k1 k2, is_Some (db_instances d !! k1) → is_Some (db_instances d !! k2) →
    scope_of_key k1 = scope_of_key k2 → ik_instance_id k1 = ik_instance_id k2 → k1 = k2.

Definition scope_events (scope : Scope) (from : Z) (d : Database) : list ((Scope * Z) * EventRow) :=
  sort_by (cmp_on (snd ∘ fst) Z.compare)
    (retain (λ '((s, revision), e),
       bool_decide (s = scope) && (from <? revision)%Z && negb (ew_deleted e))
     (hash_iter (db_events d))).

Lemma elem_of_scope_events scope from d s rev e :
  ((s, rev), e) ∈ scope_events scope from d ↔
  db_events d !! (s, rev) = Some e ∧ s = scope ∧ (from < rev)%Z ∧ ew_deleted e = false.
Proof.
  unfold scope_events. rewrite elem_of_sort_by, elem_of_retain, elem_of_hash_iter.
  rewrite !andb_true_iff, bool_decide_eq_true, Z.ltb_lt, negb_true_iff. tauto.
Qed.

Lemma joined_once d scope e :
  one_service_per_id d → length (joined_instances scope e d) = 1%nat.
Proof.
  intros Hone. unfold joined_instances.
  set (l := retain _ _).
  assert (∀ k1 k2, k1 ∈ l → k2 ∈ l → k1 = k2) as Hl.
  { assert (∀ k, k ∈ l → is_Some (db_instances d !! k) ∧ scope_of_key k = scope
                         ∧ ik_instance_id k = ew_resource_id e) as Hin.
    { intros k [Hf ([k' r] & -> & Hk%elem_of_hash_iter)%list_elem_of_fmap]%elem_of_retain.
      rewrite !andb_true_iff, !bool_decide_eq_true in Hf. simpl in *. split; [by eexists|tauto]. }
    intros k1 k2 (? & ? & ?)%Hin (? & ? & ?)%Hin. apply Hone; congruence. }
  assert (NoDup l) as Hnd.
  { eapply sublist_NoDup; [|apply retain_sublist]. apply NoDup_hash_keys. }
  destruct l as [|k1 [|k2 l]]; [done|done|]. exfalso.
  apply NoDup_cons in Hnd as [Hnot _]. apply Hnot. rewrite (Hl k1 k2); [left|left|right; left].
Qed.

(** What an answered event tells of a row of the log: its revision, scope, kind, resource
    and application as stored; for a release its group, key and service as published;
    for an instance the service of a row of the scope that has its identifier, if there
    is one. *)
Definition reports (d : Database) (row : (Scope * Z) * EventRow) (ev : DiscoveryEvent) : Prop :=
  let '((scope, revision), e) := row in
  Z.of_N (de_revision ev) = revision ∧ (de_namespace ev, de_environment ev) = scope
  ∧ encode_event_kind (de_kind ev) = ew_event_kind e ∧ de_resource_id ev = ew_resource_id e
  ∧ de_config_application ev = ew_config_application e
  ∧ match de_kind ev with
    | ConfigPublished | ConfigRolledBack =>
        let release := db_releases d !! ew_resource_id e in
        de_config_group ev = lw_config_group <$> release
        ∧ de_config_key ev = lw_config_key <$> release
        ∧ de_service_name ev = (r ← release; lw_scope_service_name r)
    | _ =>
        de_config_group ev = None ∧ de_config_key ev = None
        ∧ match de_service_name ev with
          | Some service =>
              is_Some (db_instances d !!
                {| ik_namespace := scope.1; ik_environment := scope.2;
                   ik_service_name := service; ik_instance_id := ew_resource_id e |})
          | None => ∀ k, is_Some (db_instances d !! k) → scope_of_key k = scope →
                      ik_instance_id k ≠ ew_resource_id e
          end
    end.

Definition row_events (d : Database) (row : (Scope * Z) * EventRow) : list WatchRow :=
  let '((s, revision), e) := row in watch_rows s revision e d.

Lemma row_events_ne d row : row_events d row ≠ [].
Proof.
  destruct row as [[s rev] e]. unfold row_events, watch_rows, joined_instances.
  by destruct (retain _ _).
Qed.

Lemma row_events_revision d row r : r ∈ row_events d row → wr_revision r = row.1.2.
Proof. destruct row as [[s rev] e]. by intros (i & -> & _)%list_elem_of_fmap. Qed.

Lemma row_events_once d row : one_service_per_id d → length (row_events d row) = 1%nat.
Proof.
  destruct row as [[s rev] e]. intros Hone. unfold row_events, watch_rows. rewrite length_fmap.
  by apply joined_once.
Qed.

Lemma elem_of_left_join {A} (l : list A) o :
  o ∈ left_join l ↔ match o with Some a => a ∈ l | None => l = [] end.
Proof. destruct l as [|a l], o as [b|]; simpl; set_solver. Qed.

Lemma elem_of_joined d scope e o :
  o ∈ joined_instances scope e d →
  match o with
  | Some k => is_Some (db_instances d !! k) ∧ scope_of_key k = scope
              ∧ ik_instance_id k = ew_resource_id e ∧ ew_event_kind e ∈ instance_kinds
  | None => ew_event_kind e ∈ instance_kinds → ∀ k, is_Some (db_instances d !! k) →
              scope_of_key k = scope → ik_instance_id k ≠ ew_resource_id e
  end.
Proof.
  unfold joined_instances. intros Ho%elem_of_left_join. destruct o as [k|].
  - apply elem_of_retain in Ho as [Hf ([k' r] & -> & Hk%elem_of_hash_iter)%list_elem_of_fmap].
    rewrite !andb_true_iff, !bool_decide_eq_true in Hf. simpl in *. split; [by eexists|tauto].
  - intros Hkind k [r Hk] Hs Hid.
    assert (k ∈ (retain (λ k, bool_decide (scope_of_key k = scope)
        && bool_decide (ik_instance_id k = ew_resource_id e)
        && bool_decide (ew_event_kind e ∈ instance_kinds)) (hash_iter (db_instances d)).*1)) as Hin.
    { apply elem_of_retain. rewrite !bool_decide_eq_true_2 by done. split; [done|].
      apply (list_elem_of_fmap_2 fst _ (k, r)). by apply elem_of_hash_iter. }
    rewrite Ho in Hin. set_solver.
Qed.

Lemma kind_joins kind :
  match kind with
  | ConfigPublished | ConfigRolledBack =>
      (encode_event_kind kind ∉ instance_kinds) ∧ encode_event_kind kind ∈ config_kinds
  | _ => encode_event_kind kind ∈ instance_kinds ∧ encode_event_kind kind ∉ config_kinds
  end.
Proof. destruct kind; split; unfold instance_kinds, config_kinds; set_solver. Qed.

(** Every row of the join decodes to an event that reports its log entry. *)
Lemma row_events_report d row r kind :
  (0 <= row.1.2)%Z → ew_event_kind row.2 = encode_event_kind kind → r ∈ row_events d row →
  ∃ ev, event_from_row r = Ok ev ∧ reports d row ev.
Proof.
  destruct row as [[s rev] e]. intros Hrev Hkind (o & -> & Ho%elem_of_joined)%list_elem_of_fmap.
  simpl in Hrev, Hkind. unfold event_from_row. cbn [wr_revision wr_event_kind].
  replace rev with (Z.of_N (Z.to_N rev)) by lia. rewrite i64_to_u64_of_N. simpl.
  rewrite Hkind, decode_encode_kind. simpl. eexists. split; [done|].
  rewrite Hkind in Ho. pose proof (kind_joins kind) as Hj. unfold joined_release. rewrite Hkind.
  split_and!; simpl; try done; [by destruct s|].
  destruct kind; destruct Hj as [Hj1 Hj2];
    rewrite ?(bool_decide_eq_true_2 _ Hj2), ?(bool_decide_eq_false_2 _ Hj2);
    destruct o as [k|]; try (by destruct Ho as (_ & _ & _ & ?)); split_and!; try done; simpl;
    try (by apply Ho);
    destruct Ho as ([x Hk] & <- & <- & _); destruct k; by exists x.
Qed.

Lemma NoDup_scope_events scope from d : NoDup (scope_events scope from d).
Proof.
  unfold scope_events. rewrite sort_by_perm. eapply sublist_NoDup; [|apply retain_sublist].
  apply NoDup_hash_iter.
Qed.

Lemma scope_events_sorted scope from d :
  StronglySorted (λ a b, (a.1.2 < b.1.2)%Z) (scope_events scope from d).
Proof.
  apply (StronglySorted_strict
           (λ a b, (a.1.2 <= b.1.2)%Z ∧ a ∈ scope_events scope from d
                   ∧ b ∈ scope_events scope from d)).
  - intros [[s1 r1] e1] [[s2 r2] e2] (Hle & (H1 & -> & _)%elem_of_scope_events
      & (H2 & -> & _)%elem_of_scope_events) Hne. simpl in *.
    destruct (decide (r1 = r2)) as [->|]; [|lia]. congruence.
  - apply NoDup_scope_events.
  - assert (∀ l, StronglySorted (cmp_le (cmp_on (snd ∘ fst) Z.compare)) l →
      (∀ x, x ∈ l → x ∈ scope_events scope from d) →
      StronglySorted (λ a b, (a.1.2 <= b.1.2)%Z ∧ a ∈ scope_events scope from d
                             ∧ b ∈ scope_events scope from d) l) as Hs.
    { intros l. induction 1 as [|x l _ IH Hall]; intros Hin; constructor.
      - apply IH. set_solver.
      - rewrite Forall_forall in *. intros y Hy. split; [|set_solver].
        specialize (Hall y Hy). unfold cmp_le, cmp_on in Hall. simpl in Hall.
        exact Hall. }
    apply Hs; [apply sort_by_sorted; apply _|done].
Qed.

End watch.

Lemma elem_of_take_join {A B} (f : A → list B) l n b :
  (∀ a, f a ≠ []) → b ∈ take n (mjoin (f <$> l)) → ∃ a, a ∈ take n l ∧ b ∈ f a.
Proof.
  intros Hf. revert n. induction l as [|a l IH]; intros n Hb; [destruct n; set_solver|].
  destruct n as [|n]; [set_solver|]. csimpl in Hb. rewrite take_app in Hb.
  apply elem_of_app in Hb as [Hb|Hb].
  - exists a. split; [left|]. by apply subseteq_take in Hb.
  - assert (b ∈ take n (mjoin (f <$> l))) as Hb'.
    { destruct (f a) as [|x xs] eqn:E; [by destruct (Hf a)|]. simpl in Hb.
      assert (take (n - length xs) (mjoin (f <$> l)) `prefix_of` take n (mjoin (f <$> l))) as [t ->].
      { exists (drop (n - length xs) (take n (mjoin (f <$> l)))).
        replace (take (n - length xs) (mjoin (f <$> l)))
          with (take (n - length xs) (take n (mjoin (f <$> l)))) by (rewrite take_take; f_equal; lia).
        by rewrite take_drop. }
      apply elem_of_app. by left. }
    apply IH in Hb' as (a' & Ha & Hb'). exists a'. split; [by right|done].
Qed.

(** The first [m] elements of a concatenation of non-empty lists: a run of whole lists and
    the beginning of one more. *)
Lemma take_join {A B} (f : A → list B) l m :
  (∀ a, f a ≠ []) →
  ∃ n gs, take m (mjoin (f <$> l)) = mjoin gs
    ∧ Forall2 (λ a g, g ≠ [] ∧ g `prefix_of` f a) (take n l) gs
    ∧ (n = length l ∨ (n <= length l)%nat ∧ length (mjoin gs) = m).
Proof.
  intros Hf. revert m. induction l as [|a l IH]; intros m.
  { exists 0%nat, []. csimpl. split_and!; [by destruct m|constructor|by left]. }
  destruct m as [|m]; [exists 0%nat, []; split_and!; [done|constructor|right; simpl; lia]|].
  csimpl. destruct (decide (S m <= length (f a))%nat) as [Hle|Hle].
  - exists 1%nat, [take (S m) (f a)]. rewrite take_app_le by done. csimpl. rewrite app_nil_r.
    split_and!; [done| |right; rewrite length_take; lia].
    constructor; [|rewrite take_0; constructor].
    split; [destruct (f a) eqn:E; [by destruct (Hf a)|done]|]. exists (drop (S m) (f a)).
    by rewrite take_drop.
  - destruct (IH (S m - length (f a))%nat) as (n & gs & Ht & Hgs & Hn).
    exists (S n), (f a :: gs). rewrite take_app_ge, Ht by lia. csimpl. rewrite length_app.
    split_and!; [done|constructor; [split; [apply Hf|done]|done]|].
    destruct Hn as [->|[Hn Hlen]]; [by left|right; lia].
Qed.

Lemma join_sorted {A B} (f : A → list B) (ka : A → Z) (kb : B → Z) l :
  (∀ a b, b ∈ f a → kb b = ka a) → StronglySorted (λ a a', (ka a < ka a')%Z) l →
  StronglySorted (λ b b', (kb b <= kb b')%Z) (mjoin (f <$> l)).
Proof.
  intros Hk. induction 1 as [|a l _ IH Hall]; [constructor|]. csimpl.
  assert (∀ b', b' ∈ mjoin (f <$> l) → (ka a <= kb b')%Z) as Hl.
  { intros b' (g & Hb & (a' & -> & Ha)%list_elem_of_fmap)%list_elem_of_join.
    rewrite Forall_forall in Hall. specialize (Hall a' Ha). rewrite (Hk a' b' Hb). lia. }
  assert (∀ b, b ∈ f a → kb b = ka a) as Ha by (intros; by apply Hk).
  induction (f a) as [|b bs IHb]; [done|]. csimpl. constructor; [apply IHb; set_solver|].
  apply Forall_forall. intros b' [Hb'|Hb']%elem_of_app.
  - rewrite !Ha by set_solver. lia.
  - rewrite (Ha b) by set_solver. by apply Hl.
Qed.

Lemma join_once_sorted {A B} (f : A → list B) (ka : A → Z) (kb : B → Z) l :
  (∀ a, length (f a) = 1%nat) → (∀ a b, b ∈ f a → kb b = ka a) →
  StronglySorted (λ a a', (ka a < ka a')%Z) l →
  StronglySorted (λ b b', (kb b < kb b')%Z) (mjoin (f <$> l)).
Proof.
  intros H1 Hk. induction 1 as [|a l _ IH Hall]; [constructor|]. csimpl.
  pose proof (H1 a) as Ha. pose proof (Hk a) as Hka.
  destruct (f a) as [|b [|b' bs]]; [done| |done]. csimpl. constructor; [done|].
  apply Forall_forall. intros b' (g & Hb & (a' & -> & Ha')%list_elem_of_fmap)%list_elem_of_join.
  rewrite Forall_forall in Hall. rewrite (Hka b) by left. rewrite (Hk a' b' Hb). by apply Hall.
Qed.

Section pages.
Context `{PgExternals, HashOrder}.

(** The revision a client watches on from. *)
Definition resume (from : N) (l : list DiscoveryEvent) : N := from_option de_revision from (last l).

(** [l] is a page on the first [n] events of the scope after [from]. *)
Record page_of (d : Database) (scope : Scope) (from max : N) (n : nat) (l : list DiscoveryEvent)
    : Prop := {
  page_sound ev : ev ∈ l →
    ∃ row, row ∈ take n (scope_events scope (Z.of_N from) d) ∧ reports d row ev;
  page_covers row : row ∈ take n (scope_events scope (Z.of_N from) d) →
    ∃ ev, ev ∈ l ∧ reports d row ev;
  page_order : StronglySorted (λ e1 e2, de_revision e1 <= de_revision e2) l;
  page_full : len_N l <= max ∧ (len_N l = max ∨ n = length (scope_events scope (Z.of_N from) d));
  page_next : scope_events scope (Z.of_N (resume from l)) d
              = drop n (scope_events scope (Z.of_N from) d);
  page_once : one_service_per_id d →
    StronglySorted (λ e1 e2, de_revision e1 < de_revision e2) l
    ∧ n = Nat.min (N.to_nat max) (length (scope_events scope (Z.of_N from) d));
}.

Lemma reports_revision d row ev : reports d row ev → Z.of_N (de_revision ev) = row.1.2.
Proof. destruct row as [[s rev] e]. by intros [? _]. Qed.

Lemma drop_scope_events scope from to d n :
  (from <= to)%Z →
  (∀ row, row ∈ take n (scope_events scope from d) → (row.1.2 <= to)%Z) →
  (∀ row, row ∈ drop n (scope_events scope from d) → (to < row.1.2)%Z) →
  scope_events scope to d = drop n (scope_events scope from d).
Proof.
  intros Hft Hlow Hhigh.
  pose proof (scope_events_sorted scope from d) as Hsort.
  rewrite <- (take_drop n (scope_events scope from d)) in Hsort.
  apply (StronglySorted_unique_strong (λ a b : (Scope * Z) * EventRow, (a.1.2 < b.1.2)%Z)).
  - intros x y _ _ ? ?. lia.
  - apply scope_events_sorted.
  - by apply StronglySorted_app_1_r in Hsort.
  - apply NoDup_Permutation.
    + apply NoDup_scope_events.
    + eapply sublist_NoDup; [apply NoDup_scope_events|apply sublist_drop].
    + intros [[s rev] e]. rewrite elem_of_scope_events. split.
      * intros (Hk & -> & Hlt & Hd).
        assert (((scope, rev), e) ∈ scope_events scope from d) as Hin
          by (apply elem_of_scope_events; split_and!; [done|done|lia|done]).
        rewrite <- (take_drop n (scope_events scope from d)) in Hin.
        apply elem_of_app in Hin as [Hin%Hlow|Hin]; [simpl in Hin; lia|done].
      * intros Hin. pose proof (Hhigh _ Hin) as Hlt. simpl in Hlt.
        assert (((s, rev), e) ∈ scope_events scope from d) as Hall
          by (rewrite <- (take_drop n (scope_events scope from d)); apply elem_of_app; by right).
        apply elem_of_scope_events in Hall as (? & ? & _ & ?). split_and!; done.
Qed.
(** The lists a page is joined from, when every log row has one partner. *)
Lemma joined_once_length {A B} (f : A → list B) l gs :
  (∀ a, length (f a) = 1%nat) → Forall2 (λ a g, g ≠ [] ∧ g `prefix_of` f a) l gs →
  length (mjoin gs) = length l.
Proof.
  intros Hf. induction 1 as [|a g l gs [Hne Hp] _ IH]; [done|]. csimpl. rewrite length_app, IH.
  apply prefix_length in Hp. rewrite Hf in Hp. destruct g as [|b [|c g]]; simpl in *; [done|lia|lia].
Qed.

Lemma watch_rows_sorted (R : relation Z) rows events :
  collect event_from_row rows = Ok events →
  StronglySorted (λ r1 r2, R (wr_revision r1) (wr_revision r2)) rows →
  StronglySorted (λ e1 e2, R (Z.of_N (de_revision e1)) (Z.of_N (de_revision e2))) events.
Proof.
  intros Hc%collect_Ok. assert (∀ r ev, event_from_row r = Ok ev →
    Z.of_N (de_revision ev) = wr_revision r) as Hrev.
  { intros r ev. unfold event_from_row. destruct (i64_to_u64 _ _) as [n|] eqn:E; [|done]. simpl.
    destruct (decode_event_kind _); [|done]. intros [= <-]. by apply i64_to_u64_Ok in E. }
  induction Hc as [|r ev rows events Hr Hc IH]; [constructor|].
  intros [Hs Hall]%StronglySorted_inv. constructor; [by apply IH|].
  apply Forall_forall. intros ev' Hin. apply list_elem_of_lookup in Hin as [i Hi].
  destruct (Forall2_lookup_r _ _ _ _ _ Hc Hi) as (r' & Hr' & Hd).
  rewrite (Hrev _ _ Hr), (Hrev _ _ Hd). rewrite Forall_forall in Hall. apply Hall.
  by eapply list_elem_of_lookup_2.
Qed.

Lemma last_max (l : list DiscoveryEvent) ev from :
  StronglySorted (λ e1 e2, de_revision e1 <= de_revision e2) l → ev ∈ l →
  de_revision ev <= resume from l.
Proof.
  intros Hs Hin. unfold resume. destruct (last l) as [e|] eqn:E.
  - apply last_Some in E as [l' ->]. simpl.
    apply elem_of_app in Hin as [Hin|Hin]; [|apply list_elem_of_singleton in Hin as ->; lia].
    exact (StronglySorted_app_1_elem_of _ _ _ ev e Hs Hin ltac:(left)).
  - apply last_None in E as ->. set_solver.
Qed.

(** Watching on from the last event of a page gives what the page left. *)
Lemma next_page d scope from n l :
  (∀ ev, ev ∈ l → ∃ row, row ∈ take n (scope_events scope (Z.of_N from) d) ∧ reports d row ev) →
  (∀ row, row ∈ take n (scope_events scope (Z.of_N from) d) → ∃ ev, ev ∈ l ∧ reports d row ev) →
  StronglySorted (λ e1 e2, de_revision e1 <= de_revision e2) l →
  scope_events scope (Z.of_N (resume from l)) d = drop n (scope_events scope (Z.of_N from) d).
Proof.
  intros Hsound Hcov Hord. set (pending := scope_events scope (Z.of_N from) d) in *.
  assert (∀ row, row ∈ pending → (Z.of_N from < row.1.2)%Z) as Hfrom.
  { intros [[s rev] e] (_ & _ & Hlt & _)%elem_of_scope_events. done. }
  assert (resume from l = from ∨ ∃ ev, ev ∈ l ∧ resume from l = de_revision ev) as Hres.
  { unfold resume. destruct (last l) as [e|] eqn:E; [right|by left].
    exists e. split; [|done]. apply last_Some in E as [l' ->]. set_solver. }
  apply drop_scope_events.
  - destruct Hres as [->|(ev & Hev & ->)]; [lia|]. apply Hsound in Hev as (row & Hrow & Hr).
    rewrite (reports_revision _ _ _ Hr). apply subseteq_take, Hfrom in Hrow. lia.
  - intros row (ev & Hev & Hr)%Hcov. rewrite <- (reports_revision _ _ _ Hr).
    pose proof (last_max l ev from Hord Hev). lia.
  - intros row Hrow. fold pending in Hrow. destruct Hres as [->|(ev & Hev & ->)].
    + apply Hfrom. rewrite <- (take_drop n pending). apply elem_of_app. by right.
    + apply Hsound in Hev as (row' & Hrow' & Hr). rewrite (reports_revision _ _ _ Hr).
      pose proof (scope_events_sorted scope (Z.of_N from) d) as Hsort. fold pending in Hsort.
      rewrite <- (take_drop n pending) in Hsort.
      exact (StronglySorted_app_1_elem_of _ _ _ row' row Hsort Hrow' Hrow).
Qed.

Lemma StronglySorted_take {A} (R : relation A) l n : StronglySorted R l → StronglySorted R (take n l).
Proof. intros Hs. rewrite <- (take_drop n l) in Hs. by apply StronglySorted_app_1_l in Hs. Qed.

(** A page of rows decodes to events that report a run of the log, each row of it. *)
Lemma rows_report d scope from m :
  db_wf d → let pending := scope_events scope from d in
  (0 <= from)%Z →
  ∃ n gs events, take m (mjoin (row_events d <$> pending)) = mjoin gs
    ∧ Forall2 (λ row g, g ≠ [] ∧ g `prefix_of` row_events d row) (take n pending) gs
    ∧ (n = length pending ∨ (n <= length pending)%nat ∧ length (mjoin gs) = m)
    ∧ collect event_from_row (mjoin gs) = Ok events
    ∧ (∀ ev, ev ∈ events → ∃ row, row ∈ take n pending ∧ reports d row ev)
    ∧ (∀ row, row ∈ take n pending → ∃ ev, ev ∈ events ∧ reports d row ev).
Proof.
  intros Hwf pending Hfrom.
  destruct (take_join (row_events d) pending m (row_events_ne d)) as (n & gs & Hrows & Hgs & Hn).
  assert (∀ row r, row ∈ take n pending → r ∈ row_events d row →
    ∃ ev, event_from_row r = Ok ev ∧ reports d row ev) as Hrep.
  { intros [[s rev] e] r (Hk & -> & Hlt & _)%subseteq_take%elem_of_scope_events Hr.
    destruct (ews_kind _ _ (dbw_events _ Hwf) _ _ _ Hk) as [kind Hkind].
    apply (row_events_report d _ r kind); [simpl; lia|done|done]. }
  assert (∀ r, r ∈ mjoin gs → ∃ row, row ∈ take n pending ∧ r ∈ row_events d row) as Hsound.
  { intros r (g & Hr & [i Hi]%list_elem_of_lookup)%list_elem_of_join.
    destruct (Forall2_lookup_r _ _ _ _ _ Hgs Hi) as (row & Hrow & _ & [t Ht]).
    exists row. split; [by eapply list_elem_of_lookup_2|]. rewrite Ht. apply elem_of_app. by left. }
  destruct (collect_total event_from_row (mjoin gs)) as [events Hc].
  { intros r (row & Hrow & Hr)%Hsound. destruct (Hrep row r Hrow Hr) as (ev & ? & _). eauto. }
  exists n, gs, events. split_and!; try done.
  - intros ev (r & Hr & Hev)%(collect_elem _ _ _ _ Hc). apply Hsound in Hr as (row & Hrow & Hr).
    destruct (Hrep row r Hrow Hr) as (ev' & ? & ?). exists row. split; [done|congruence].
  - intros row Hrow. pose proof Hrow as [i Hi]%list_elem_of_lookup.
    destruct (Forall2_lookup_l _ _ _ _ _ Hgs Hi) as (g & Hg & Hne & [t Ht]).
    destruct g as [|r g]; [done|].
    destruct (Hrep row r Hrow) as (ev & Hev & ?); [rewrite Ht; left|]. exists ev. split; [|done].
    apply (collect_elem _ _ _ _ Hc). exists r. split; [|done].
    apply list_elem_of_join. exists (r :: g). split; [left|by eapply list_elem_of_lookup_2].
Qed.

(** The rows of a page, decoded. *)
Lemma rows_page d scope from max :
  db_wf d →
  ∃ events, collect event_from_row
      (take (N.to_nat max) (mjoin (row_events d <$> scope_events scope (Z.of_N from) d))) = Ok events
    ∧ ∃ n, page_of d scope from max n events.
Proof.
  intros Hwf. set (pending := scope_events scope (Z.of_N from) d).
  destruct (rows_report d scope (Z.of_N from) (N.to_nat max) Hwf ltac:(lia))
    as (n & gs & events & Hrows & Hgs & Hn & Hc & Hs & Hcv).
  fold pending in Hrows, Hgs, Hn, Hs, Hcv. exists events. rewrite Hrows. split; [done|]. exists n.
  assert (StronglySorted (λ e1 e2, de_revision e1 <= de_revision e2) events) as Hord.
  { eapply StronglySorted_weaken; [|apply (watch_rows_sorted Z.le (mjoin gs) _ Hc)];
      [intros; simpl in *; lia|]. rewrite <- Hrows. apply StronglySorted_take.
    apply (join_sorted _ (λ row, row.1.2)); [apply row_events_revision|apply scope_events_sorted]. }
  assert (length events = length (mjoin gs)) as Hlen
    by (apply collect_Ok, Forall2_length in Hc; done).
  pose proof (f_equal length Hrows) as Hl. rewrite length_take in Hl.
  constructor; try done.
  - unfold len_N. rewrite Hlen. fold pending.
    destruct Hn as [Hn|[_ Hn]]; [split; [lia|by right]|]. split; [lia|left; lia].
  - by apply next_page.
  - intros Hone. fold pending. pose proof (λ a, row_events_once d a Hone) as H1. split.
    + eapply StronglySorted_weaken; [|apply (watch_rows_sorted Z.lt (mjoin gs) _ Hc)];
        [intros; simpl in *; lia|]. rewrite <- Hrows. apply StronglySorted_take.
      apply (join_once_sorted _ (λ row, row.1.2)); [apply H1|apply row_events_revision|].
      apply scope_events_sorted.
    + rewrite (joined_once_length _ _ _ H1 Hgs), length_take in Hl.
      assert (length (mjoin (row_events d <$> pending)) = length pending) as E.
      { apply (joined_once_length (row_events d)); [apply H1|]. clear.
        induction pending; constructor; [split; [apply row_events_ne|done]|done]. }
      rewrite E in Hl. destruct Hn as [->|[Hn _]]; lia.
Qed.
End pages.

(** The calls the server is not asked for: a blank namespace or environment, no events
    wanted, or a number that is no BIGINT. *)
Definition watch_refused (q : WatchEventsQuery) : Prop :=
  is_blank (wq_namespace q) = true ∨ is_blank (wq_environment q) = true ∨ wq_max_events q = 0
  ∨ i64_max < wq_from_revision q ∨ i64_max < wq_max_events q.

Section runs.
Context `{PgExternals, HashOrder}.

(** What a valid call answers: the matching ones among the events of its page of rows. *)
Lemma watch_run link q w :
  pg_validate_watch_query q = Ok () → wq_from_revision q <= i64_max →
  wq_max_events q <= i64_max →
  let rows := take (N.to_nat (wq_max_events q)) (mjoin (row_events (pw_db w) <$>
    scope_events (wq_namespace q, wq_environment q) (Z.of_N (wq_from_revision q)) (pw_db w))) in
  (pg_watch_events link q w).2 = (events ← collect event_from_row rows;
                                  mret (retain (matches_event q) events))
  ∨ ∃ m, (pg_watch_events link q w).2 = Err (Unavailable m).
Proof.
  intros Hv Hfrom Hmax rows. unfold pg_watch_events. rewrite lift_bind_run, Hv, lift_bind_run.
  rewrite (proj2 (to_i64_Ok _ _ (Z.of_N (wq_from_revision q))) (conj eq_refl Hfrom)).
  rewrite lift_bind_run.
  rewrite (proj2 (usize_to_i64_Ok _ _ (Z.of_N (wq_max_events q))) (conj eq_refl Hmax)).
  rewrite eff_bind_run. destruct (exec link _ w) as [w1 [rs|e]] eqn:E.
  2:{ apply exec_Err in E as [m ->]. right. by eexists. }
  apply exec_Ok in E as [[_ Hrows]%query_Ok _]. left.
  replace (Z.to_nat (Z.of_N (wq_max_events q))) with (N.to_nat (wq_max_events q)) in Hrows by lia.
  change (rs = rows) in Hrows. subst rs. rewrite lift_bind_run.
  by destruct (collect event_from_row rows).
Qed.

Lemma watch_refusal link q w :
  wq_service_name q = None → wq_config_group q = None → wq_config_application q = None →
  (watch_refused q ∧ ∃ m, (pg_watch_events link q w).2 = Err (InvalidArgument m))
  ∨ (¬ watch_refused q ∧ pg_validate_watch_query q = Ok () ∧ wq_from_revision q <= i64_max
     ∧ wq_max_events q <= i64_max).
Proof.
  intros Hs Hg Ha. unfold watch_refused, pg_watch_events. rewrite lift_bind_run.
  unfold pg_validate_watch_query. rewrite Hs, Hg, Ha. unfold pg_validate_non_empty.
  destruct (is_blank (wq_namespace q)); [left; split; [tauto|by eexists]|].
  destruct (is_blank (wq_environment q)); [left; split; [tauto|by eexists]|]. cbn [mbind result_bind].
  destruct (N.eqb_spec (wq_max_events q) 0) as [E|E]; [left; split; [tauto|by eexists]|].
  unfold to_i64, usize_to_i64.
  destruct (N.leb_spec (wq_from_revision q) i64_max) as [Hf|Hf];
    destruct (N.leb_spec (wq_max_events q) i64_max) as [Hm|Hm];
    try (left; split; [tauto|by eexists]).
  right. split_and!; [|done|done|done]. intros [?|[?|[?|[?|?]]]]; done || lia.
Qed.
End runs.

(** C34: a watch without filters answers with a page of the event log: the events it gives
    report, field by field, the first events of its namespace and environment after the
    given revision, leave none of them out and are in the order of their revisions; the
    page holds [max_events] events or goes to the end of the log; and what is after the
    page is exactly what the log has after the revision of its last event, so watching on
    from there skips and repeats nothing.  An event about an instance identifier that
    several services of the scope share may fill several places of a page, one for each
    of the services; without such identifiers every event is given once and the page is
    the first [max_events].  The call is refused exactly for a blank scope, zero events or
    numbers beyond a BIGINT, and fails otherwise only with the server or the link. *)
Theorem pg_unfiltered_watch `{PgExternals, HashOrder} link q w :
  db_wf (pw_db w) →
  wq_service_name q = None → wq_config_group q = None → wq_config_application q = None →
  let scope := (wq_namespace q, wq_environment q) in
  let pending := scope_events scope (Z.of_N (wq_from_revision q)) (pw_db w) in
  StronglySorted (λ a b, (a.1.2 < b.1.2)%Z) pending
  ∧ (∀ s rev e, ((s, rev), e) ∈ pending ↔ db_events (pw_db w) !! (s, rev) = Some e
       ∧ s = scope ∧ (Z.of_N (wq_from_revision q) < rev)%Z ∧ ew_deleted e = false)
  ∧ match (pg_watch_events link q w).2 with
    | Ok l => ¬ watch_refused q
              ∧ ∃ n, page_of (pw_db w) scope (wq_from_revision q) (wq_max_events q) n l
    | Err (InvalidArgument _) => watch_refused q
    | Err (Unavailable _) => ¬ watch_refused q
    | Err _ => False
    end.
Proof.
  intros Hwf Hs Hg Ha scope pending.
  split; [apply scope_events_sorted|]. split; [intros; apply elem_of_scope_events|].
  destruct (watch_refusal link q w Hs Hg Ha) as [(Hr & m & ->)|(Hr & Hv & Hfrom & Hmax)]; [done|].
  destruct (watch_run link q w Hv Hfrom Hmax) as [->|[m ->]]; [|done].
  destruct (rows_page (pw_db w) scope (wq_from_revision q) (wq_max_events q) Hwf)
    as (events & Hc & n & Hpage).
  fold scope. rewrite Hc. simpl. rewrite retain_all; [by eauto|].
  intros ev ([[s rev] e] & Hrow & Hev)%(page_sound _ _ _ _ _ _ Hpage).
  apply subseteq_take, elem_of_scope_events in Hrow as (_ & -> & Hlt & _).
  destruct Hev as (Hrev & [= Hns Henv] & _). unfold matches_event. rewrite Hs, Hg, Ha.
  rewrite !bool_decide_eq_true_2 by done. simpl. by rewrite (proj2 (N.ltb_lt _ _)) by lia.
Qed.

(** ** A sample log: an instance of [drive], then one of [mail] *)

Definition mail_register : RegisterInstanceCommand :=
  {| rc_namespace := "acme"; rc_environment := "prod"; rc_service_name := "mail";
     rc_instance_id := "mail-1"; rc_endpoint := "10.0.0.2:50051"; rc_protocol := "grpc";
     rc_version := "0.1.0"; rc_region := "eu"; rc_zone := "eu-a"; rc_weight := 100;
     rc_priority := 0; rc_status := Serving; rc_metadata := ∅;
     rc_lease_ttl_seconds := 30; rc_now_ms := 1000; rc_expected_revision := None;
     rc_persistent := false; rc_health_check := None |}.

Definition watched_world : PgWorld :=
  (@pg_register_instance (sample_externals false) canonical_order steady mail_register
     (@pg_register_instance (sample_externals false) canonical_order steady
        (sample_register "drive-1" 1000) empty_world).1).1.

Definition watch_query (service : option string) (from : N) : WatchEventsQuery :=
  {| wq_namespace := "acme"; wq_environment := "prod"; wq_from_revision := from;
     wq_service_name := service; wq_config_group := None; wq_config_application := None;
     wq_max_events := 1 |}.

Lemma watched_world_wf : @db_wf (sample_externals false) (pw_db watched_world).
Proof.
  pose proof (sample_faithful false).
  assert (∀ c w, @db_wf (sample_externals false) (pw_db w) →
    @db_wf (sample_externals false)
      (pw_db (@pg_register_instance (sample_externals false) canonical_order steady c w).1)) as Hr.
  { intros c w Hwf.
    pose proof (@register_meets (sample_externals false) canonical_order (sample_faithful false)
                  steady (λ _ n, n) c w Hwf) as Hm.
    unfold meets in Hm. destruct (pg_register_instance steady c w). apply Hm. }
  apply Hr, Hr, db_wf_empty.
Qed.

Lemma pg_unfiltered_watch_witness :
  ∃ l n, (@pg_watch_events (sample_externals false) canonical_order steady (watch_query None 1)
            watched_world).2 = Ok l
    ∧ @page_of canonical_order (pw_db watched_world) ("acme", "prod") 1 1 n l
    ∧ (λ e, (de_revision e, de_kind e, de_resource_id e, de_service_name e)) <$> l
      = [(2, InstanceRegistered, "mail-1", Some "mail")].
Proof.
  destruct (@pg_unfiltered_watch (sample_externals false) canonical_order steady
    (watch_query None 1) watched_world watched_world_wf eq_refl eq_refl eq_refl) as (_ & _ & Ha).
  destruct (@pg_watch_events (sample_externals false) canonical_order steady (watch_query None 1)
              watched_world).2 as [l|e] eqn:E;
    vm_compute in E; [|discriminate E].
  destruct Ha as [_ [n Hpage]]. exists l, n. split; [done|]. split; [exact Hpage|].
  injection E as <-. reflexivity.
Defined.

(** ** Filters *)

(** A watch for one service finds none of its events while the first [max_events]
    events after its revision are about instances of other services, whatever events
    of the service follow: the page is cut before the filter is applied, so a client
    that resumes from the last event it was given repeats the same request. *)
Theorem pg_service_watch_starves `{PgExternals, HashOrder} link q w service :
  db_wf (pw_db w) → wq_service_name q = Some service →
  pg_validate_watch_query q = Ok () → wq_from_revision q <= i64_max →
  wq_max_events q <= i64_max →
  let scope := (wq_namespace q, wq_environment q) in
  let pending := scope_events scope (Z.of_N (wq_from_revision q)) (pw_db w) in
  (∀ rev e, ((scope, rev), e) ∈ take (N.to_nat (wq_max_events q)) pending →
     ∃ k, joined_instances scope e (pw_db w) = [Some k] ∧ ik_service_name k ≠ service) →
  (pg_watch_events link q w).2 = Ok []
  ∨ ∃ m, (pg_watch_events link q w).2 = Err (Unavailable m).
Proof.
  intros Hwf Hs Hv Hfrom Hmax scope pending Hother.
  destruct (watch_run link q w Hv Hfrom Hmax) as [->|[m ->]]; [left|right; by eexists].
  set (rows := take _ _).
  assert (∀ r, r ∈ rows → ∃ ev, event_from_row r = Ok ev ∧ matches_event q ev = false) as Hev.
  { intros r Hr. apply elem_of_take_join in Hr as ([[s rev] e] & Hin & Hr);
      [|apply row_events_ne]. fold pending in Hin.
    pose proof Hin as (Hk & -> & Hlt & _)%subseteq_take%elem_of_scope_events.
    destruct (Hother _ _ Hin) as (k & Hj & Hne).
    destruct (ews_kind _ _ (dbw_events _ Hwf) _ _ _ Hk) as [kind Hkind].
    unfold row_events, watch_rows in Hr. fold scope in Hr. rewrite Hj in Hr.
    apply list_elem_of_singleton in Hr as ->.
    unfold event_from_row. cbn [wr_revision wr_event_kind].
    replace rev with (Z.of_N (Z.to_N rev)) by lia. rewrite i64_to_u64_of_N. simpl.
    rewrite Hkind, decode_encode_kind. simpl. eexists. split; [done|].
    unfold matches_event. rewrite Hs. simpl. rewrite (bool_decide_eq_false_2 (_ = service)) by done.
    by rewrite !andb_false_r. }
  destruct (collect_total event_from_row rows) as [events Hc].
  { intros r (ev & Hr & _)%Hev. eauto. }
  rewrite Hc. simpl. f_equal. apply retain_none. intros ev Hin.
  apply (collect_elem _ _ _ ev Hc) in Hin as (r & Hr & Hd).
  apply Hev in Hr as (ev' & Hd' & Hm). congruence.
Qed.

Lemma pg_service_watch_starves_witness :
  (∃ e, watch_events (watch_query (Some "mail") 0)
          (register_instance mail_register
             (register_instance (sample_register "drive-1" 1000) new_store).1).1 = Ok [e])
  ∧ ((@pg_watch_events (sample_externals false) canonical_order steady
        (watch_query (Some "mail") 0) watched_world).2 = Ok []
     ∨ ∃ m, (@pg_watch_events (sample_externals false) canonical_order steady
        (watch_query (Some "mail") 0) watched_world).2 = Err (Unavailable m)).
Proof.
  split; [eexists; vm_compute; reflexivity|].
  apply (@pg_service_watch_starves (sample_externals false) canonical_order steady
    (watch_query (Some "mail") 0) watched_world "mail" watched_world_wf eq_refl eq_refl).
  - by vm_compute.
  - by vm_compute.
  - intros rev e Hin. vm_compute in Hin. apply list_elem_of_singleton in Hin.
    injection Hin as -> ->. eexists. split; [vm_compute; reflexivity|]. by intros [=].
Defined.
