(* ===== verification/PgLimits.v ===== *)
(** * Where the PostgreSQL backend falls short

    The statement every write starts with is refused by a server that refuses
    ambiguous column names; the revision check of a registration does not hold between
    replicas; the sweep of the event log is not confined to a scope. *)
From S2P Require Import Prelude RustStr Collections Contract Discover StorageContract MemoryStore.
From S2P Require Import MemoryRegistry Codec RegistryTheorems PgSchema PgSql PgCodec Postgres PgLemmas.
From S2P Require Import PgRegistry PgCommits PgQueries PgBackend PgSample PgConfig PgConfigTheorems.
From S2P Require Import PgWatch.

(** ** Operations that write nothing *)

Section ambiguous.
Context `{PgExternals, HashOrder} (link : N → option Fault).

Definition reads_only {A} (m : Op PgWorld A) : Prop :=
  ∀ w w' a, m w = (w', Ok a) → pw_db w' = pw_db w.

Lemma reads_bind {A B} (m : Op PgWorld A) (f : A → Op PgWorld B) :
  reads_only m → (∀ a, reads_only (f a)) → reads_only (m ≫= f).
Proof.
  intros Hm Hf w w' b (a & w1 & Ha & Hb)%eff_bind_Ok. apply Hm in Ha. apply Hf in Hb. congruence.
Qed.

Lemma reads_lift {A} (r : DiscoveryResult A) : reads_only (lift r).
Proof. by intros w w' a [-> _]%lift_run_eq. Qed.

Lemma reads_mret {A} (a : A) : reads_only (mret a).
Proof. by intros w w' b [= <- _]. Qed.

Lemma reads_query {A} texts (f : Database → A) : reads_only (exec link (query texts f)).
Proof. by intros w w' a Hd%query_exec. Qed.

Lemma reads_new_id prefix : reads_only (new_id prefix).
Proof. intros w w' id Hid. by apply new_id_Ok in Hid. Qed.

(** Nothing after the statement is reached. *)
Lemma revision_refused ns env w w' n :
  refuses_ambiguous_column = true → pg_next_revision link ns env w ≠ (w', Ok n).
Proof.
  intros Ha (z & w1 & [E _]%exec_Ok & _)%eff_bind_Ok. unfold NEXT_REVISION in E. by rewrite Ha in E.
Qed.

(** A run that never succeeds. *)
Definition never {A} (m : Op PgWorld A) : Prop := ∀ w w' a, m w ≠ (w', Ok a).

Lemma never_bind {A B} (m : Op PgWorld A) (f : A → Op PgWorld B) :
  (∀ a, never (f a)) → never (m ≫= f).
Proof. intros Hf w w' b (a & w1 & _ & Hb)%eff_bind_Ok. by eapply Hf. Qed.

Lemma never_revision {A} ns env (f : N → Op PgWorld A) :
  refuses_ambiguous_column = true → never (pg_next_revision link ns env ≫= f).
Proof. intros Ha w w' a (n & w1 & []%(revision_refused _ _ _ _ _ Ha) & _)%eff_bind_Ok. Qed.

Lemma never_transaction {A B} (body : Op PgWorld A) (f : A → Op PgWorld B) :
  never body → never (transaction link body ≫= f).
Proof.
  intros Hb w w' b (a & w1 & E & _)%eff_bind_Ok.
  apply transaction_cases in E as [(a' & w2 & _ & Hr & _)|[(e & E & _)|(m & a' & w2 & E & _)]];
    [by eapply Hb|done|done].
Qed.

Lemma never_reads {A} (m : Op PgWorld A) : never m → reads_only m.
Proof. by intros Hm w w' a []%Hm. Qed.

Lemma reads_revision {A} ns env (f : N → Op PgWorld A) :
  refuses_ambiguous_column = true → reads_only (pg_next_revision link ns env ≫= f).
Proof. intros Ha w w' a (n & w1 & []%(revision_refused _ _ _ _ _ Ha) & _)%eff_bind_Ok. Qed.

Lemma reads_transaction {A} (body : Op PgWorld A) w :
  reads_only body → pw_db (transaction link body w).1 = pw_db w.
Proof.
  intros Hb. destruct (transaction link body w) as [w' r] eqn:E. simpl.
  apply transaction_cases in E as [(a & w2 & _ & Hr & ->)|[(e & _ & -> & _)|(m & a & w2 & _ & Hr & ->)]];
    [by apply Hb in Hr|done|by apply Hb in Hr].
Qed.

Lemma frame_bind {A B} (m : Op PgWorld A) (r : A → DiscoveryResult B) w :
  pw_db (m w).1 = pw_db w → pw_db ((a ← m; lift (r a)) w).1 = pw_db w.
Proof. rewrite eff_bind_run. by destruct (m w) as [w1 [a|e]]. Qed.

Lemma frame_guard {A B} (r : DiscoveryResult A) (f : A → Op PgWorld B) w :
  (∀ a, pw_db (f a w).1 = pw_db w) → pw_db ((lift r ≫= f) w).1 = pw_db w.
Proof. intros Hf. rewrite lift_bind_run. destruct r; [apply Hf|done]. Qed.
End ambiguous.

Create HintDb reads.
#[export] Hint Resolve reads_lift reads_mret reads_query reads_new_id reads_revision never_reads : reads.
#[export] Hint Extern 1 (reads_only (exec _ _)) => apply reads_query : reads.

(** The statements of a body up to the first that needs a revision. *)
Ltac reads_steps :=
  repeat first
    [ by eauto with reads
    | apply reads_bind; [by eauto with reads|intros ?]
    | case_match ].

(** C21: on a server that refuses ambiguous column names, as PostgreSQL documents for the
    unqualified [current_revision] of the statement that advances the counter, no
    registration, renewal, status report, deregistration, sweep, publication or
    rollback changes the database, whatever the link does, and the first three never
    succeed. *)
Theorem ambiguous_column_blocks_writes `{PgExternals, HashOrder} link w :
  refuses_ambiguous_column = true →
  (∀ c, pw_db (pg_register_instance link c w).1 = pw_db w
        ∧ ∀ r, (pg_register_instance link c w).2 ≠ Ok r)
  ∧ (∀ c, pw_db (pg_renew_lease link c w).1 = pw_db w ∧ ∀ r, (pg_renew_lease link c w).2 ≠ Ok r)
  ∧ (∀ c, pw_db (pg_report_instance_status link c w).1 = pw_db w
          ∧ ∀ r, (pg_report_instance_status link c w).2 ≠ Ok r)
  ∧ (∀ k now, pw_db (pg_deregister_key link k now w).1 = pw_db w)
  ∧ (∀ now max, pw_db (pg_expire_instances link now max w).1 = pw_db w)
  ∧ (∀ c, pw_db (pg_publish_config link c w).1 = pw_db w)
  ∧ (∀ c, pw_db (pg_rollback_config link c w).1 = pw_db w).
Proof.
  intros Ha. pose proof (λ A ns env f, never_revision (A := A) link ns env f Ha) as Hnever.
  assert (∀ c b, never (existing ← register_lookup link c; register_write link c b existing)) as H1.
  { intros c b. apply never_bind. intros existing. apply never_bind. intros lease. apply Hnever. }
  assert (∀ c x, never (renew_body link c x)) as H2.
  { intros c x. unfold renew_body. do 3 (apply never_bind; intros ?). apply Hnever. }
  assert (∀ c, never (report_body link c)) as H3.
  { intros c. unfold report_body. do 4 (apply never_bind; intros ?). apply Hnever. }
  split_and!.
  - intros c. split.
    + do 2 (apply frame_guard; intros ?). apply frame_bind, reads_transaction. eauto with reads.
    + intros r Hr. destruct (pg_register_instance link c w) as [w' r'] eqn:E. simpl in Hr. subst r'.
      revert E. do 2 (apply never_bind; intros ?). apply never_transaction, H1.
  - intros c. split.
    + do 4 (apply frame_guard; intros ?). apply frame_bind, (reads_transaction link (renew_body link c _)).
      eauto with reads.
    + intros r Hr. destruct (pg_renew_lease link c w) as [w' r'] eqn:E. simpl in Hr. subst r'.
      revert E. do 4 (apply never_bind; intros ?). apply (never_transaction link (renew_body link c _)), H2.
  - intros c. split.
    + apply frame_guard. intros ?. rewrite eff_bind_run. fold (report_body link c).
      pose proof (reads_transaction link (report_body link c) w (never_reads _ (H3 c))) as Hf.
      destruct (transaction link (report_body link c) w) as [w1 [row|e]]; [|done].
      rewrite lift_bind_run. by destruct (i64_to_u64 _ _).
    + intros r Hr. destruct (pg_report_instance_status link c w) as [w' r'] eqn:E. simpl in Hr.
      subst r'. revert E. apply never_bind. intros ?.
      apply (never_transaction link (report_body link c)), H3.
  - intros k now. apply frame_guard. intros ?. apply reads_transaction. reads_steps.
  - intros now max. do 2 (apply frame_guard; intros ?). apply reads_transaction.
    do 2 (apply reads_bind; [by eauto with reads|intros ?]). 
    match goal with |- reads_only (pg_expire_loop _ _ ?keys) => destruct keys end; simpl; reads_steps.
  - intros c. apply frame_guard. intros ?. apply reads_transaction. apply reads_bind; [|intros ?; reads_steps].
    intros w1 w2 o Hr. by apply replay_release_Ok in Hr as [? _].
  - intros c. apply frame_guard. intros ?. apply reads_transaction. apply reads_bind; [|intros ?; reads_steps].
    intros w1 w2 o Hr. by apply replay_release_Ok in Hr as [? _].
Qed.

Lemma ambiguous_column_blocks_writes_witness :
  (∃ m, (@pg_register_instance (sample_externals true) canonical_order steady
           (sample_register "drive-1" 1000) empty_world).2 = Err (Unavailable m))
  ∧ pw_db (@pg_register_instance (sample_externals true) canonical_order steady
           (sample_register "drive-1" 1000) empty_world).1 = empty_database.
Proof.
  split; [eexists; vm_compute; reflexivity|].
  destruct (@ambiguous_column_blocks_writes (sample_externals true) canonical_order steady
              empty_world eq_refl) as [Hr _].
  apply (Hr (sample_register "drive-1" 1000)).
Defined.

(** ** Replicas *)

(** Two transactions that expect the same revision: each looks up the instance before
    the other writes. *)
Definition both_register (c1 c2 : RegisterInstanceCommand) (b1 b2 : Bound) (w : PgWorld)
    : DiscoveryResult (InstanceKey * InstanceRow) * DiscoveryResult (InstanceKey * InstanceRow) :=
  let E := sample_externals false in let O := canonical_order in
  let '(w1, lease1) := @register_lookup E steady c1 w in
  let '(w2, lease2) := @register_lookup E steady c2 w1 in
  match lease1, lease2 with
  | Ok l1, Ok l2 =>
      let '(w3, r1) := @register_write E O steady c1 b1 l1 w2 in
      let '(w4, r2) := @register_write E O steady c2 b2 l2 w3 in (r1, r2)
  | Err e, _ | _, Err e => (Err e, Err e)
  end.

(** In memory the second of two writers that expect the same revision is refused
    ([cas_second_writer_loses]); here both are told that they replaced it. *)
Lemma replicas_both_replace :
  let c := sample_cas "drive-1" 2000 1 in
  ∃ b r1 r2, @bind_register (sample_externals false) c = Ok b
    ∧ both_register c c b b watched_world = (Ok r1, Ok r2)
    ∧ ir_revision r1.2 = 3%Z ∧ ir_revision r2.2 = 4%Z.
Proof.
  eexists _, _, _. split; [vm_compute; reflexivity|]. split; [vm_compute; reflexivity|].
  split; vm_compute; reflexivity.
Qed.

(** ** The sweep of the event log *)

(** One registration in each of two environments: a sweep of one event up to revision
    one removes both, and leaves the second environment without any. *)
Definition two_scopes_world : PgWorld :=
  let c := sample_register "drive-1" 1000 in
  (@pg_register_instance (sample_externals false) canonical_order steady
     {| rc_namespace := rc_namespace c; rc_environment := "staging";
        rc_service_name := rc_service_name c; rc_instance_id := rc_instance_id c;
        rc_endpoint := rc_endpoint c; rc_protocol := rc_protocol c; rc_version := rc_version c;
        rc_region := rc_region c; rc_zone := rc_zone c; rc_weight := rc_weight c;
        rc_priority := rc_priority c; rc_status := rc_status c; rc_metadata := rc_metadata c;
        rc_lease_ttl_seconds := rc_lease_ttl_seconds c; rc_now_ms := rc_now_ms c;
        rc_expected_revision := rc_expected_revision c; rc_persistent := rc_persistent c;
        rc_health_check := rc_health_check c |} watched_world).1.

Lemma gc_exceeds_its_limit :
  let '(w', r) := @pg_gc_watch_events (sample_externals false) canonical_order steady 1 1
                    two_scopes_world in
  r = Ok 2 ∧ db_events (pw_db w') !! (("acme", "staging"), 1%Z) = None
  ∧ is_Some (db_events (pw_db two_scopes_world) !! (("acme", "staging"), 1%Z)).
Proof. vm_compute. split_and!; [done|done|by eexists]. Qed.

(** ** Widths of columns *)

(** Names that pass the codecs are stored as they are or refused, never cut. *)
Lemma names_never_cut limit s : all_bytes is_identity_char s = true → blank_excess limit s = false.
Proof.
  intros Hs. assert (without_blanks s = s) as Hw.
  { induction s as [|a s IH]; [done|]. simpl in Hs. apply andb_true_iff in Hs as [Ha Hs].
    simpl. rewrite (IH Hs). destruct s; [|done]. destruct (N.eqb_spec (byte_at a) 32) as [E|]; [|done].
    unfold is_identity_char, is_ascii_alphanumeric in Ha. by rewrite E in Ha. }
  unfold blank_excess. rewrite Hw. destruct (N.ltb_spec limit (char_count s)) as [Hlt|]; [|done].
  by apply N.leb_gt.
Qed.

(** The codecs accept an environment of up to 128 bytes, the column holds 64 characters. *)
Lemma long_environment_refused `{PgExternals, HashOrder} link c w w' r :
  64 < char_count (rc_environment c) → pg_register_instance link c w ≠ (w', Ok r).
Proof.
  intros Hlong. revert w w' r. do 2 (apply never_bind; intros ?). apply never_transaction.
  apply never_bind. intros existing. apply never_bind. intros lease.
  intros w w' row (n & w1 & Hn & _)%eff_bind_Ok. apply eff_bind_Ok in Hn as (z & w2 & [E _]%exec_Ok & _).
  unfold NEXT_REVISION in E. destruct refuses_ambiguous_column; [done|].
  apply with_text_Ok in E. apply result_bind_Ok in E as (_ & _ & E).
  apply result_bind_Ok in E as (u & Hv & _). unfold varchar in Hv.
  by rewrite (proj2 (N.ltb_lt _ _) Hlong) in Hv.
Qed.
