(* ===== verification/RpcContract.v ===== *)
(** * RPC contract inventory (contract: rpc_contract.rs; rpc: manifest.rs)

    The contract crate compares the methods that the .proto files of a workspace declare
    with the methods of the RPC manifest, and checks the manifest against the rules on
    surfaces, authentication, streaming and idempotency.  The files are a tree of names and
    contents; the JSON reader of the manifest is a parameter. *)
From S2P Require Import Prelude RustStr Collections Contract.
From Stdlib Require Import Ascii.

(** ** The manifest document *)

Record RpcManifestMethod : Type := {
  mm_method : string;
  mm_operation_id : string;
  mm_auth : string;
  mm_idempotency : string;
  mm_streaming : string;
  mm_compatibility : string;
}.

Record RpcManifestService : Type := {
  ms_package : string;
  ms_service : string;
  ms_surface : string;
  ms_owner : string;
  ms_methods : list RpcManifestMethod;
}.

Record RpcManifestDocument : Type := {
  md_schema_version : N;
  md_kind : string;
  md_domain : string;
  md_capability : string;
  md_sdk_family : string;
  md_proto_roots : list string;
  md_services : list RpcManifestService;
}.

Record RpcContractInventory : Type := {
  ri_proto_methods : gset string;
  ri_manifest_methods : gset string;
  ri_manifest_standard_violations : list string;
}.

(** ** Paths and files *)

(** A path by its components, last one first. *)
Record Path : Type := { pa_absolute : bool; pa_components : list string }.

Definition path_join (p : Path) (name : string) : Path :=
  {| pa_absolute := pa_absolute p; pa_components := name :: pa_components p |}.

Definition path_parent (p : Path) : option Path :=
  match pa_components p with
  | [] => None
  | _ :: up => Some {| pa_absolute := pa_absolute p; pa_components := up |}
  end.

Definition path_display (p : Path) : string :=
  (if pa_absolute p then "/" else "") +:+ join "/" (reverse (pa_components p)).

(** [Path::extension] of a file name: what follows its last dot, when something
    precedes that dot. *)
Definition extension (name : string) : option string :=
  match reverse (split "." name) with
  | ext :: stem :: rest =>
      if bool_decide (rest = [] ∧ stem = "") then None else Some ext
  | _ => None
  end.

(** What the process finds under a path.  Reading a directory, an entry of it or a file
    may fail with the message of the operating system. *)
Inductive FsNode : Type :=
| FsMissing (error : string)
| FsFile (contents : Result string string)
| FsDir (entries : Result string (list (Result string (string * FsNode)))).

Definition read_to_string (node : FsNode) : Result string string :=
  match node with
  | FsMissing error => Err error
  | FsFile contents => contents
  | FsDir _ => Err "Is a directory (os error 21)"
  end.

Fixpoint named_entry (name : string) (entries : list (Result string (string * FsNode))) : FsNode :=
  match entries with
  | [] => FsMissing "No such file or directory (os error 2)"
  | Ok (n, node) :: rest => if bool_decide (n = name) then node else named_entry name rest
  | Err _ :: rest => named_entry name rest
  end.

(** The node a relative path leads to. *)
Fixpoint resolve_path (node : FsNode) (names : list string) : FsNode :=
  match names, node with
  | [], _ => node
  | name :: rest, FsDir (Ok entries) => resolve_path (named_entry name entries) rest
  | _, FsDir (Err error) | _, FsMissing error => FsMissing error
  | _, FsFile _ => FsMissing "Not a directory (os error 20)"
  end.

(** ** Methods of the .proto files *)

(** [collect_proto_files]: the files in the order of the directory listings, each with its
    path and what it holds. *)
Fixpoint collect_proto_files (path : Path) (node : FsNode)
    : DiscoveryResult (list (Path * FsNode)) :=
  let unreadable error :=
    Err (InvalidArgument
      ("failed to read proto directory " +:+ path_display path +:+ ": " +:+ error)) in
  match node with
  | FsMissing error => unreadable error
  | FsFile _ => unreadable "Not a directory (os error 20)"
  | FsDir (Err error) => unreadable error
  | FsDir (Ok entries) =>
      (fix go (entries : list (Result string (string * FsNode))) :=
         match entries with
         | [] => Ok []
         | Err error :: _ =>
             Err (InvalidArgument ("failed to read proto directory entry: " +:+ error))
         | Ok (name, child) :: rest =>
             files ← match child with
                     | FsDir _ => collect_proto_files (path_join path name) child
                     | _ => Ok (if bool_decide (extension name = Some "proto")
                                then [(path_join path name, child)] else [])
                     end;
             more ← go rest;
             mret (files ++ more)
         end) entries
  end.

Fixpoint find_map {A B} (f : A → option B) (l : list A) : option B :=
  match l with
  | [] => None
  | x :: l' => match f x with Some b => Some b | None => find_map f l' end
  end.

Definition package_of_line (line : string) : option string :=
  rest ← strip_prefix (trim line) "package ";
  trim <$> strip_suffix rest ";".

Definition parse_package (content : string) : option string :=
  find_map package_of_line (lines content).

(** One line of a file: the service it is in and the methods found so far. *)
Definition scan_line (display package : string) (st : option string * gset string)
    (line : string) : DiscoveryResult (option string * gset string) :=
  let '(current_service, methods) := st in
  let trimmed := trim line in
  match rest ← strip_prefix trimmed "service "; first_word rest with
  | Some service_name => Ok (Some service_name, methods)
  | None =>
      if starts_with trimmed "}" then Ok (None, methods)
      else match rest ← strip_prefix trimmed "rpc "; head (split "(" rest) with
           | Some method_name =>
               service ← ok_or current_service
                 (InvalidArgument ("rpc method outside service in " +:+ display));
               mret (current_service,
                     {[ package +:+ "." +:+ service +:+ "." +:+ method_name ]} ∪ methods)
           | None => Ok (current_service, methods)
           end
  end.

(** A loop whose body may return early. *)
Fixpoint fold_result {E A B} (f : A → B → Result E A) (a : A) (l : list B) : Result E A :=
  match l with
  | [] => Ok a
  | x :: l' => a' ← f a x; fold_result f a' l'
  end.

Definition scan_file (methods : gset string) (file : Path * FsNode)
    : DiscoveryResult (gset string) :=
  let display := path_display file.1 in
  content ← match read_to_string file.2 with
            | Ok content => Ok content
            | Err error =>
                Err (InvalidArgument
                  ("failed to read proto file " +:+ display +:+ ": " +:+ error))
            end;
  package ← ok_or (parse_package content)
    (InvalidArgument ("proto file lacks package: " +:+ display));
  st ← fold_result (scan_line display package) (None, methods) (lines content);
  mret st.2.

Definition collect_proto_methods (proto_root : Path) (node : FsNode)
    : DiscoveryResult (gset string) :=
  files ← collect_proto_files proto_root node;
  fold_result scan_file ∅ files.

(** ** Methods of the manifest *)

Definition manifest_keys (manifest : RpcManifestDocument) : list string :=
  service ← md_services manifest;
  method ← ms_methods service;
  [ms_package service +:+ "." +:+ ms_service service +:+ "." +:+ mm_method method].

Definition insert_key (methods : gset string) (key : string) : DiscoveryResult (gset string) :=
  if bool_decide (key ∈ methods)
  then Err (InvalidArgument ("duplicate rpc manifest method: " +:+ key))
  else Ok ({[ key ]} ∪ methods).

Definition collect_manifest_methods (manifest : RpcManifestDocument)
    : DiscoveryResult (gset string) :=
  fold_result insert_key ∅ (manifest_keys manifest).

(** ** Rules on the manifest *)

Definition require_value (condition : bool) (message : string) : list string :=
  if condition then [] else [message].

Definition require_non_empty (label value : string) : list string :=
  require_value (negb (is_empty (trim value))) (label +:+ " must not be empty").

Definition is_watch_method (method : RpcManifestMethod) : bool :=
  starts_with (mm_method method) "Watch" || ends_with (mm_operation_id method) ".watch".

Definition is_read_method (method : RpcManifestMethod) : bool :=
  starts_with (mm_method method) "Retrieve"
  || starts_with (mm_method method) "Discover"
  || starts_with (mm_method method) "List"
  || ends_with (mm_operation_id method) ".retrieve"
  || ends_with (mm_operation_id method) ".discover"
  || ends_with (mm_operation_id method) ".list".

Definition is_write_method (method : RpcManifestMethod) : bool :=
  starts_with (mm_method method) "Create"
  || starts_with (mm_method method) "Publish"
  || starts_with (mm_method method) "Rollback"
  || starts_with (mm_method method) "Register"
  || starts_with (mm_method method) "Renew"
  || starts_with (mm_method method) "Deregister"
  || starts_with (mm_method method) "Report"
  || ends_with (mm_operation_id method) ".create"
  || ends_with (mm_operation_id method) ".publish"
  || ends_with (mm_operation_id method) ".rollback"
  || ends_with (mm_operation_id method) ".register"
  || ends_with (mm_operation_id method) ".renew"
  || ends_with (mm_operation_id method) ".deregister"
  || ends_with (mm_operation_id method) ".report".

Definition expected_auth_for_surface (surface : string) : option string :=
  if bool_decide (surface = "internal") then Some "service-identity"
  else if bool_decide (surface = "backend") then Some "backend-operator"
  else None.

Definition validate_service_auth_semantics (service : RpcManifestService)
    (service_name : string) : list string :=
  match expected_auth_for_surface (ms_surface service) with
  | None => []
  | Some expected_auth =>
      require_value
        (forallb (λ method, bool_decide (mm_auth method = expected_auth)) (ms_methods service))
        (service_name +:+ " surface " +:+ ms_surface service +:+ " methods must use auth "
         +:+ expected_auth)
  end.

Definition validate_write_method_metadata (service : RpcManifestService)
    (method : RpcManifestMethod) (method_name : string) : list string :=
  if negb (is_write_method method) then []
  else
    let expected_idempotency :=
      if bool_decide (ms_surface service = "backend") then "required" else "optional" in
    require_value (bool_decide (mm_streaming method = "unary"))
      (method_name +:+ " write methods must use unary streaming")
    ++ require_value (bool_decide (mm_idempotency method = expected_idempotency))
      (method_name +:+ " write methods must use idempotency " +:+ expected_idempotency).

Definition validate_method_metadata_semantics (service : RpcManifestService)
    (method : RpcManifestMethod) (method_name : string) : list string :=
  if is_watch_method method then
    require_value (bool_decide (mm_streaming method = "server"))
      (method_name +:+ " watch methods must use server streaming")
    ++ require_value (bool_decide (mm_idempotency method = "none"))
      (method_name +:+ " watch methods must use idempotency none")
  else if is_read_method method then
    require_value (bool_decide (mm_streaming method = "unary"))
      (method_name +:+ " read methods must use unary streaming")
    ++ require_value (bool_decide (mm_idempotency method = "none"))
      (method_name +:+ " read methods must use idempotency none")
  else validate_write_method_metadata service method method_name.

(** The body of the loop over the methods of a service. *)
Definition validate_method (service : RpcManifestService) (service_name : string)
    (method : RpcManifestMethod) : list string :=
  let method_name := service_name +:+ "." +:+ mm_method method in
  require_non_empty (method_name +:+ ".method") (mm_method method)
  ++ require_non_empty (method_name +:+ ".operationId") (mm_operation_id method)
  ++ require_non_empty (method_name +:+ ".auth") (mm_auth method)
  ++ require_value (bool_decide (mm_idempotency method ∈ ["none"; "optional"; "required"]))
       (method_name +:+ ".idempotency must be none, optional, or required")
  ++ require_value (bool_decide (mm_streaming method ∈ ["unary"; "server"; "client"; "bidi"]))
       (method_name +:+ ".streaming must be unary, server, client, or bidi")
  ++ require_non_empty (method_name +:+ ".compatibility") (mm_compatibility method)
  ++ validate_method_metadata_semantics service method method_name.

(** The body of the loop over the services. *)
Definition validate_service (service : RpcManifestService) : list string :=
  let service_name := ms_package service +:+ "." +:+ ms_service service in
  require_non_empty (service_name +:+ ".package") (ms_package service)
  ++ require_non_empty (service_name +:+ ".service") (ms_service service)
  ++ require_value (bool_decide (ms_surface service ∈ ["internal"; "backend"]))
       (service_name +:+ ".surface must be internal or backend")
  ++ require_non_empty (service_name +:+ ".owner") (ms_owner service)
  ++ require_value (bool_decide (ms_methods service ≠ []))
       (service_name +:+ ".methods must not be empty")
  ++ validate_service_auth_semantics service service_name
  ++ mjoin (validate_method service service_name <$> ms_methods service).

Definition validate_manifest_standard (manifest : RpcManifestDocument) : list string :=
  require_value (md_schema_version manifest =? 1) "schemaVersion must be 1"
  ++ require_value (bool_decide (md_kind manifest = "sdkwork.rpc.manifest"))
       "kind must be sdkwork.rpc.manifest"
  ++ require_non_empty "domain" (md_domain manifest)
  ++ require_non_empty "capability" (md_capability manifest)
  ++ require_value (bool_decide (md_sdk_family manifest = "sdkwork-discovery-rpc-sdk"))
       "sdkFamily must be sdkwork-discovery-rpc-sdk"
  ++ require_value (existsb (λ root, bool_decide (root = "../../proto")) (md_proto_roots manifest))
       "protoRoots must include ../../proto"
  ++ mjoin (validate_service <$> md_services manifest).

(** ** The inventory *)

Definition btree_set_iter (s : gset string) : list string :=
  sort_by String.compare (elements s).

Definition proto_methods_missing_from_manifest (i : RpcContractInventory) : list string :=
  btree_set_iter (ri_proto_methods i ∖ ri_manifest_methods i).

Definition manifest_methods_missing_from_proto (i : RpcContractInventory) : list string :=
  btree_set_iter (ri_manifest_methods i ∖ ri_proto_methods i).

Section inventory.
(** [serde_json::from_str] for the manifest document. *)
Context (from_str : string → Result string RpcManifestDocument).

Definition load_manifest (manifest_path : Path) (node : FsNode)
    : DiscoveryResult RpcManifestDocument :=
  content ← match read_to_string node with
            | Ok content => Ok content
            | Err error =>
                Err (InvalidArgument ("failed to read rpc manifest "
                  +:+ path_display manifest_path +:+ ": " +:+ error))
            end;
  match from_str content with
  | Ok manifest => Ok manifest
  | Err error =>
      Err (InvalidArgument ("failed to parse rpc manifest "
        +:+ path_display manifest_path +:+ ": " +:+ error))
  end.

Definition load_from_roots (proto_root : Path) (proto_node : FsNode)
    (manifest_path : Path) (manifest_node : FsNode) : DiscoveryResult RpcContractInventory :=
  proto_methods ← collect_proto_methods proto_root proto_node;
  manifest ← load_manifest manifest_path manifest_node;
  manifest_methods ← collect_manifest_methods manifest;
  mret {| ri_proto_methods := proto_methods;
          ri_manifest_methods := manifest_methods;
          ri_manifest_standard_violations := validate_manifest_standard manifest |}.

(** [load]: [filesystem] gives what is found under an absolute or relative path. *)
Definition load (filesystem : Path → FsNode) (workspace_root : Path)
    : DiscoveryResult RpcContractInventory :=
  let under names := foldl path_join workspace_root names in
  let proto := ["proto"; "sdkwork"; "discovery"] in
  let manifest := ["sdks"; "sdkwork-discovery-rpc-sdk"; "sdkwork-discovery-rpc.manifest.json"] in
  let workspace := filesystem workspace_root in
  load_from_roots (under proto) (resolve_path workspace proto) (under manifest) (resolve_path workspace manifest).

Definition load_from_workspace (filesystem : Path → FsNode) (cargo_manifest_dir : Path)
    : DiscoveryResult RpcContractInventory :=
  match path_parent cargo_manifest_dir ≫= path_parent with
  | Some workspace_root => load filesystem workspace_root
  | None => Err (InvalidArgument "cannot resolve workspace root from cargo manifest dir")
  end.
End inventory.

(** ** The manifest of the RPC server (rpc: manifest.rs) *)

Record DiscoveryRpcMethod : Type := {
  rmt_package : string;
  rmt_service : string;
  rmt_surface : string;
  rmt_method : string;
  rmt_operation_id : string;
  rmt_auth : string;
  rmt_idempotency : string;
  rmt_streaming : string;
  rmt_owner : string;
  rmt_compatibility : string;
}.

Record DiscoveryRpcServiceManifest : Type := {
  rsm_schema_version : N;
  rsm_kind : string;
  rsm_domain : string;
  rsm_capability : string;
  rsm_sdk_family : string;
  rsm_proto_roots : list string;
  rsm_methods : list DiscoveryRpcMethod;
}.

Record MethodSpec : Type := {
  sp_package : string;
  sp_service : string;
  sp_surface : string;
  sp_method : string;
  sp_operation_id : string;
  sp_auth : string;
  sp_idempotency : string;
  sp_streaming : string;
}.

Definition method (spec : MethodSpec) : DiscoveryRpcMethod := {|
  rmt_package := sp_package spec;
  rmt_service := sp_service spec;
  rmt_surface := sp_surface spec;
  rmt_method := sp_method spec;
  rmt_operation_id := sp_operation_id spec;
  rmt_auth := sp_auth spec;
  rmt_idempotency := sp_idempotency spec;
  rmt_streaming := sp_streaming spec;
  rmt_owner := "sdkwork-platform";
  rmt_compatibility := "stable";
|}.

Definition discovery_rpc_service_manifest : DiscoveryRpcServiceManifest := {|
  rsm_schema_version := 1;
  rsm_kind := "sdkwork.rpc.manifest";
  rsm_domain := "platform";
  rsm_capability := "discovery";
  rsm_sdk_family := "sdkwork-discovery-rpc-sdk";
  rsm_proto_roots := ["../../proto"];
  rsm_methods := [
    method {| sp_package := "sdkwork.discovery.internal.v1"; sp_service := "RegistryService";
              sp_surface := "internal"; sp_method := "RegisterInstance";
              sp_operation_id := "discovery.registry.instances.register";
              sp_auth := "service-identity"; sp_idempotency := "optional"; sp_streaming := "unary" |};
    method {| sp_package := "sdkwork.discovery.internal.v1"; sp_service := "RegistryService";
              sp_surface := "internal"; sp_method := "BatchRegisterInstances";
              sp_operation_id := "discovery.registry.instances.batch_register";
              sp_auth := "service-identity"; sp_idempotency := "optional"; sp_streaming := "unary" |};
    method {| sp_package := "sdkwork.discovery.internal.v1"; sp_service := "RegistryService";
              sp_surface := "internal"; sp_method := "RenewLease";
              sp_operation_id := "discovery.registry.leases.renew";
              sp_auth := "service-identity"; sp_idempotency := "optional"; sp_streaming := "unary" |};
    method {| sp_package := "sdkwork.discovery.internal.v1"; sp_service := "RegistryService";
              sp_surface := "internal"; sp_method := "DeregisterInstance";
              sp_operation_id := "discovery.registry.instances.deregister";
              sp_auth := "service-identity"; sp_idempotency := "optional"; sp_streaming := "unary" |};
    method {| sp_package := "sdkwork.discovery.internal.v1"; sp_service := "RegistryService";
              sp_surface := "internal"; sp_method := "ReportInstanceStatus";
              sp_operation_id := "discovery.registry.instances.status.report";
              sp_auth := "service-identity"; sp_idempotency := "optional"; sp_streaming := "unary" |};
    method {| sp_package := "sdkwork.discovery.internal.v1"; sp_service := "RegistryService";
              sp_surface := "internal"; sp_method := "RetrieveInstance";
              sp_operation_id := "discovery.registry.instances.retrieve";
              sp_auth := "service-identity"; sp_idempotency := "none"; sp_streaming := "unary" |};
    method {| sp_package := "sdkwork.discovery.internal.v1"; sp_service := "RegistryService";
              sp_surface := "internal"; sp_method := "DiscoverInstances";
              sp_operation_id := "discovery.registry.instances.discover";
              sp_auth := "service-identity"; sp_idempotency := "none"; sp_streaming := "unary" |};
    method {| sp_package := "sdkwork.discovery.internal.v1"; sp_service := "DiscoveryConfigService";
              sp_surface := "internal"; sp_method := "RetrieveEffectiveConfig";
              sp_operation_id := "discovery.config.effective.retrieve";
              sp_auth := "service-identity"; sp_idempotency := "none"; sp_streaming := "unary" |};
    method {| sp_package := "sdkwork.discovery.internal.v1"; sp_service := "DiscoveryConfigService";
              sp_surface := "internal"; sp_method := "WatchConfig";
              sp_operation_id := "discovery.config.releases.watch";
              sp_auth := "service-identity"; sp_idempotency := "none"; sp_streaming := "server" |};
    method {| sp_package := "sdkwork.discovery.internal.v1"; sp_service := "DiscoveryWatchService";
              sp_surface := "internal"; sp_method := "WatchService";
              sp_operation_id := "discovery.registry.services.watch";
              sp_auth := "service-identity"; sp_idempotency := "none"; sp_streaming := "server" |};
    method {| sp_package := "sdkwork.discovery.backend.v3"; sp_service := "DiscoveryAdminService";
              sp_surface := "backend"; sp_method := "CreateConfigDraft";
              sp_operation_id := "discovery.config.drafts.create";
              sp_auth := "backend-operator"; sp_idempotency := "required"; sp_streaming := "unary" |};
    method {| sp_package := "sdkwork.discovery.backend.v3"; sp_service := "DiscoveryAdminService";
              sp_surface := "backend"; sp_method := "PublishConfig";
              sp_operation_id := "discovery.config.releases.publish";
              sp_auth := "backend-operator"; sp_idempotency := "required"; sp_streaming := "unary" |};
    method {| sp_package := "sdkwork.discovery.backend.v3"; sp_service := "DiscoveryAdminService";
              sp_surface := "backend"; sp_method := "RollbackConfig";
              sp_operation_id := "discovery.config.releases.rollback";
              sp_auth := "backend-operator"; sp_idempotency := "required"; sp_streaming := "unary" |};
    method {| sp_package := "sdkwork.discovery.backend.v3"; sp_service := "DiscoveryAdminService";
              sp_surface := "backend"; sp_method := "ListServices";
              sp_operation_id := "discovery.registry.services.list";
              sp_auth := "backend-operator"; sp_idempotency := "none"; sp_streaming := "unary" |}
  ];
|}.
