(* ===== verification/RpcContractTheorems.v ===== *)
(** * Theorems about the RPC contract inventory

    The rules of the manifest check as a declarative standard; the methods found in the
    .proto files; the contract the repository ships. *)
From S2P Require Import Prelude RustStr Collections Contract RpcContract.
From Stdlib Require Import Ascii.

(** ** Loops with early return *)

Lemma fold_result_app {E A B} (f : A → B → Result E A) a l1 l2 :
  fold_result f a (l1 ++ l2) = fold_result f a l1 ≫= λ a', fold_result f a' l2.
Proof.
  revert a. induction l1 as [|x l1 IH]; intros a; [done|]. simpl.
  destruct (f a x); simpl; [apply IH|done].
Qed.

(** ** The standard of the manifest *)

Definition filled (s : string) : Prop := is_blank s = false.

(** The verbs of the standard: how the name of a method begins, and the action its
    operation identifier ends with. *)
Definition watch_verbs : list (string * string) := [("Watch", "watch")].

Definition read_verbs : list (string * string) :=
  [("Retrieve", "retrieve"); ("Discover", "discover"); ("List", "list")].

Definition write_verbs : list (string * string) :=
  [("Create", "create"); ("Publish", "publish"); ("Rollback", "rollback");
   ("Register", "register"); ("Renew", "renew"); ("Deregister", "deregister");
   ("Report", "report")].

Definition named_by (verbs : list (string * string)) (m : RpcManifestMethod) : Prop :=
  ∃ verb action, (verb, action) ∈ verbs
    ∧ ((∃ rest, mm_method m = verb +:+ rest)
       ∨ ∃ front, mm_operation_id m = front +:+ "." +:+ action).

Definition watches (m : RpcManifestMethod) : Prop := named_by watch_verbs m.
Definition reads (m : RpcManifestMethod) : Prop := ¬ watches m ∧ named_by read_verbs m.
Definition writes (m : RpcManifestMethod) : Prop :=
  ¬ watches m ∧ ¬ reads m ∧ named_by write_verbs m.

Record method_conforms (surface : string) (m : RpcManifestMethod) : Prop := {
  mc_method : filled (mm_method m);
  mc_operation_id : filled (mm_operation_id m);
  mc_auth : filled (mm_auth m);
  mc_idempotency : mm_idempotency m ∈ ["none"; "optional"; "required"];
  mc_streaming : mm_streaming m ∈ ["unary"; "server"; "client"; "bidi"];
  mc_compatibility : filled (mm_compatibility m);
  mc_watches : watches m → mm_streaming m = "server" ∧ mm_idempotency m = "none";
  mc_reads : reads m → mm_streaming m = "unary" ∧ mm_idempotency m = "none";
  mc_writes : writes m → mm_streaming m = "unary"
    ∧ mm_idempotency m = if bool_decide (surface = "backend") then "required" else "optional";
}.

Record service_conforms (s : RpcManifestService) : Prop := {
  sc_package : filled (ms_package s);
  sc_service : filled (ms_service s);
  sc_surface : ms_surface s = "internal" ∨ ms_surface s = "backend";
  sc_owner : filled (ms_owner s);
  sc_methods : ms_methods s ≠ [];
  sc_auth : ∀ m, m ∈ ms_methods s →
            mm_auth m = if bool_decide (ms_surface s = "internal")
                        then "service-identity" else "backend-operator";
  sc_each : ∀ m, m ∈ ms_methods s → method_conforms (ms_surface s) m;
}.

Record manifest_conforms (d : RpcManifestDocument) : Prop := {
  dc_schema_version : md_schema_version d = 1;
  dc_kind : md_kind d = "sdkwork.rpc.manifest";
  dc_domain : filled (md_domain d);
  dc_capability : filled (md_capability d);
  dc_sdk_family : md_sdk_family d = "sdkwork-discovery-rpc-sdk";
  dc_proto_roots : "../../proto" ∈ md_proto_roots d;
  dc_services : ∀ s, s ∈ md_services d → service_conforms s;
}.

Lemma require_value_nil b message : require_value b message = [] ↔ b = true.
Proof. by destruct b. Qed.

Lemma require_non_empty_nil label value : require_non_empty label value = [] ↔ filled value.
Proof. unfold require_non_empty, filled, is_blank. rewrite require_value_nil. apply negb_true_iff. Qed.

Lemma mjoin_nil {A B} (f : A → list B) l : mjoin (f <$> l) = [] ↔ ∀ x, x ∈ l → f x = [].
Proof.
  induction l as [|x l IH]; csimpl; [split; [intros _ ? []%not_elem_of_nil|done]|].
  rewrite app_nil, IH. setoid_rewrite elem_of_cons. naive_solver.
Qed.

Lemma decide_true (P : Prop) `{Decision P} : bool_decide P = true ↔ P.
Proof. apply bool_decide_eq_true. Qed.

(** *** The classifiers of the check find the verbs *)

Definition finds (verbs : list (string * string)) (m : RpcManifestMethod) : bool :=
  existsb (λ v, starts_with (mm_method m) v.1 || ends_with (mm_operation_id m) ("." +:+ v.2)) verbs.

Lemma finds_named verbs m : finds verbs m = true ↔ named_by verbs m.
Proof.
  unfold finds, named_by. rewrite existsb_exists. split.
  - intros ([verb action] & Hin%list_elem_of_In & Hf). exists verb, action. split; [done|].
    apply orb_true_iff in Hf as [Hf|Hf]; [left; by apply starts_with_spec|right].
    by apply ends_with_spec in Hf.
  - intros (verb & action & Hin & Hf). exists (verb, action). split; [by apply list_elem_of_In|].
    apply orb_true_iff. destruct Hf; [left; by apply starts_with_spec|right; by apply ends_with_spec].
Qed.

Ltac same_verbs :=
  unfold finds; cbn [existsb fst snd];
  repeat match goal with
  | |- context ["." +:+ ?s] => change ("." +:+ s) with (String "." s)
  end;
  repeat match goal with
  | |- context [starts_with ?s ?p] => destruct (starts_with s p); [by rewrite ?orb_true_r|]
  | |- context [ends_with ?s ?p] => destruct (ends_with s p); [by rewrite ?orb_true_r|]
  end; done.

Lemma is_watch_method_finds m : is_watch_method m = finds watch_verbs m.
Proof. unfold is_watch_method, watch_verbs. same_verbs. Qed.

Lemma is_read_method_finds m : is_read_method m = finds read_verbs m.
Proof. unfold is_read_method, read_verbs. same_verbs. Qed.

Lemma is_write_method_finds m : is_write_method m = finds write_verbs m.
Proof. unfold is_write_method, write_verbs. same_verbs. Qed.

Lemma semantics_nil service m name :
  validate_method_metadata_semantics service m name = []
  ↔ (watches m → mm_streaming m = "server" ∧ mm_idempotency m = "none")
    ∧ (reads m → mm_streaming m = "unary" ∧ mm_idempotency m = "none")
    ∧ (writes m → mm_streaming m = "unary"
       ∧ mm_idempotency m
         = if bool_decide (ms_surface service = "backend") then "required" else "optional").
Proof.
  unfold validate_method_metadata_semantics, validate_write_method_metadata, writes, reads, watches.
  rewrite <- !finds_named, is_watch_method_finds, is_read_method_finds, is_write_method_finds.
  destruct (finds watch_verbs m), (finds read_verbs m), (finds write_verbs m); cbn [negb];
    rewrite ?app_nil, ?require_value_nil, ?decide_true; naive_solver congruence.
Qed.

Lemma validate_method_nil service name m :
  validate_method service name m = [] ↔ method_conforms (ms_surface service) m.
Proof.
  unfold validate_method.
  rewrite !app_nil, !require_non_empty_nil, !require_value_nil, !decide_true, semantics_nil.
  split; [intros (? & ? & ? & ? & ? & ? & ? & ? & ?); by constructor|by intros []].
Qed.

Lemma validate_auth_nil service name :
  ms_surface service = "internal" ∨ ms_surface service = "backend" →
  validate_service_auth_semantics service name = []
  ↔ ∀ m, m ∈ ms_methods service →
    mm_auth m = if bool_decide (ms_surface service = "internal")
                then "service-identity" else "backend-operator".
Proof.
  unfold validate_service_auth_semantics, expected_auth_for_surface.
  intros [-> | ->]; [rewrite !(bool_decide_true ("internal" = "internal")) by done
    |rewrite !(bool_decide_false ("backend" = "internal")), bool_decide_true by done];
    rewrite require_value_nil, forallb_forall; setoid_rewrite <- list_elem_of_In;
    setoid_rewrite decide_true; done.
Qed.

Lemma validate_service_nil s : validate_service s = [] ↔ service_conforms s.
Proof.
  unfold validate_service.
  rewrite !app_nil, !require_non_empty_nil, !require_value_nil, !decide_true, mjoin_nil.
  setoid_rewrite validate_method_nil. split.
  - intros (? & ? & Hs & ? & ? & Ha & ?).
    assert (ms_surface s = "internal" ∨ ms_surface s = "backend") as Hs' by set_solver.
    constructor; try done. exact (proj1 (validate_auth_nil s _ Hs') Ha).
  - intros []. split_and!; try done; [set_solver|by apply (validate_auth_nil s)].
Qed.

(** C39: the check of the manifest reports nothing exactly when the manifest meets the
    standard: its head names the schema, kind, family and proto root, every service names
    its package, owner and a known surface, every method uses the authentication of its
    surface, and methods whose name begins with, or whose operation ends with, one of the
    verbs of watching, reading and writing use the streaming and the idempotency of that
    role.  A method named by none of these verbs, such as [BatchRegisterInstances], is
    held to no role. *)
Theorem no_violations_iff_standard d :
  validate_manifest_standard d = [] ↔ manifest_conforms d.
Proof.
  unfold validate_manifest_standard.
  rewrite !app_nil, !require_non_empty_nil, !require_value_nil, !decide_true, mjoin_nil,
    N.eqb_eq, existsb_exists.
  setoid_rewrite validate_service_nil.
  setoid_rewrite decide_true. setoid_rewrite <- list_elem_of_In. split.
  - intros (? & ? & ? & ? & ? & (r & ? & ->) & ?). by constructor.
  - intros []. split_and!; eauto.
Qed.

(** ** The methods a .proto file declares *)

(** A service and its methods, each with the text from its request type on. *)
Record ProtoService : Type := { ps_name : string; ps_methods : list (string * string) }.

Inductive ProtoItem : Type :=
| PlainLine (line : string)
| ServiceItem (service : ProtoService).

Record ProtoFile : Type := {
  pf_head : list string;
  pf_package : string;
  pf_items : list ProtoItem;
}.

Definition method_line (m : string * string) : string :=
  "  rpc " +:+ m.1 +:+ "(" +:+ m.2 +:+ ";".

Definition item_lines (i : ProtoItem) : list string :=
  match i with
  | PlainLine line => [line]
  | ServiceItem s =>
      ("service " +:+ ps_name s +:+ " {") :: (method_line <$> ps_methods s) ++ ["}"]
  end.

Definition file_lines (f : ProtoFile) : list string :=
  pf_head f ++ ("package " +:+ pf_package f +:+ ";") :: mjoin (item_lines <$> pf_items f).

Fixpoint unlines (ls : list string) : string :=
  match ls with [] => "" | l :: ls' => l +:+ String newline (unlines ls') end.

(** The text of a file. *)
Definition render (f : ProtoFile) : string := unlines (file_lines f).

Definition item_methods (package : string) (i : ProtoItem) : list string :=
  match i with
  | PlainLine _ => []
  | ServiceItem s =>
      (λ m, package +:+ "." +:+ ps_name s +:+ "." +:+ m.1) <$> ps_methods s
  end.

Definition declared_methods (f : ProtoFile) : list string :=
  mjoin (item_methods (pf_package f) <$> pf_items f).

(** A name: visible ASCII characters, none of them a parenthesis. *)
Definition is_name (s : string) : Prop :=
  s ≠ "" ∧ all_bytes (λ a, solid a && negb (bool_decide (a = "("%char))) s = true.

(** A line that says nothing about services, methods or the package. *)
Record plain_line (line : string) : Prop := {
  pl_one_line : contains_char newline line = false ∧ strip_suffix line carriage_return = None;
  pl_no_service : strip_prefix (trim line) "service " = None;
  pl_no_method : strip_prefix (trim line) "rpc " = None;
}.

Definition item_ok (i : ProtoItem) : Prop :=
  match i with
  | PlainLine line => plain_line line
  | ServiceItem s =>
      is_name (ps_name s)
      ∧ ∀ m, m ∈ ps_methods s → is_name m.1 ∧ contains_char newline m.2 = false
  end.

Record file_ok (f : ProtoFile) : Prop := {
  fo_head : ∀ line, line ∈ pf_head f → plain_line line ∧ package_of_line line = None;
  fo_package : is_name (pf_package f);
  fo_items : ∀ i, i ∈ pf_items f → item_ok i;
}.

(** *** Lines *)

Definition one_line (l : string) : Prop :=
  contains_char newline l = false ∧ strip_suffix l carriage_return = None.

Lemma split_unlines ls :
  Forall one_line ls → split newline (unlines ls) = ls ++ [""].
Proof.
  induction 1 as [|l ls [Hl _] _ IH]; [done|]. cbn [unlines app].
  rewrite split_app_sep by done. by rewrite IH.
Qed.

Lemma lines_unlines ls : Forall one_line ls → lines (unlines ls) = ls.
Proof.
  intros Hls. unfold lines. rewrite split_unlines by done.
  rewrite removelast_last, last_last, app_nil_r.
  induction Hls as [|l ls [_ Hl] _ IH]; [done|]. cbn [map]. by rewrite Hl, IH.
Qed.

Lemma contains_char_cons c a s :
  contains_char c (String a s) = bool_decide (a = c) || contains_char c s.
Proof. done. Qed.

Lemma one_line_snoc s a :
  a ≠ newline → a ≠ "013"%char → contains_char newline s = false → one_line (s +:+ String a "").
Proof.
  intros H1 H2 Hs. split.
  - rewrite contains_char_app, Hs, contains_char_cons, bool_decide_false by done. done.
  - unfold strip_suffix. rewrite rev_snoc. cbn. by rewrite bool_decide_false.
Qed.

Lemma name_char a :
  solid a && negb (bool_decide (a = "("%char)) = true →
  solid a = true ∧ a ≠ "("%char ∧ a ≠ newline.
Proof.
  intros [Ha Hb]%andb_true_iff. apply negb_true_iff, bool_decide_eq_false in Hb.
  split_and!; [done|done|]. by intros ->.
Qed.

Lemma name_no_char s c : is_name s → c = newline ∨ c = "("%char → contains_char c s = false.
Proof.
  intros [_ Hs] Hc. induction s as [|a s IH]; [done|]. cbn [all_bytes] in Hs.
  apply andb_true_iff in Hs as [(? & ? & ?)%name_char Hs].
  rewrite contains_char_cons, IH, bool_decide_false by (naive_solver || done). done.
Qed.

Lemma name_first s : is_name s → first_solid s = true.
Proof.
  intros [? Hs]. destruct s as [|a s]; [done|]. cbn [all_bytes] in Hs.
  by apply andb_true_iff in Hs as [(? & ? & ?)%name_char _].
Qed.

Lemma name_trim s : is_name s → trim s = s.
Proof.
  intros [Hne Hs]. apply trim_solid_ends; [by apply name_first|].
  assert (all_bytes (λ a, solid a && negb (bool_decide (a = "("%char))) (String.rev s) = true) as Hr
    by (unfold String.rev; by rewrite all_bytes_rev_app, Hs).
  apply name_first. split; [|done]. intros E. apply Hne. by rewrite <- (rev_rev s), E.
Qed.

Lemma trim_snoc s a : first_solid (s +:+ String a "") = true → solid a = true →
  trim (s +:+ String a "") = s +:+ String a "".
Proof. intros Hf Ha. apply trim_solid_ends; [done|]. by rewrite rev_snoc. Qed.

(** *** What the scanner makes of a line *)

Lemma until_white_solid a s :
  solid a = true → until_white (String a s) = String a (until_white s).
Proof.
  intros Ha. cbn [until_white]. destruct (white1 a) eqn:E1.
  { apply white1_not_solid in E1. congruence. }
  destruct s as [|b s2]; [done|].
  destruct (white2 a b) eqn:E2. { destruct (white2_high _ _ E2). congruence. }
  destruct s2 as [|c s3]; [done|].
  destruct (white3 a b c) eqn:E3; [|done]. destruct (white3_high _ _ _ E3). congruence.
Qed.

Lemma until_white_name s t :
  all_bytes (λ a, solid a && negb (bool_decide (a = "("%char))) s = true →
  until_white (s +:+ String " " t) = s.
Proof.
  induction s as [|a s IH]; cbn [all_bytes]; [done|].
  intros [(Ha & _ & _)%name_char Hs]%andb_true_iff.
  change (String a s +:+ String " " t) with (String a (s +:+ String " " t)).
  by rewrite until_white_solid, IH.
Qed.

Lemma first_word_name n t : is_name n → first_word (n +:+ String " " t) = Some n.
Proof.
  intros Hn. pose proof (name_first n Hn) as Hf. pose proof (until_white_name n t (proj2 Hn)) as Hu.
  unfold first_word, trim_start. destruct n as [|a n]; [done|].
  change (String a n +:+ String " " t) with (String a (n +:+ String " " t)) in *.
  rewrite strip_white_first by (done || apply white2_high || apply white3_high).
  by rewrite Hu.
Qed.

Lemma prefix_stripped p s : strip_prefix (p +:+ s) p = Some s.
Proof. by apply strip_prefix_spec. Qed.

Section scan.
Context (display package : string).

Lemma scan_service n st :
  is_name n → scan_line display package st ("service " +:+ n +:+ " {") = Ok (Some n, st.2).
Proof.
  intros Hn. destruct st as [cur methods]. unfold scan_line.
  replace ("service " +:+ n +:+ " {") with (("service " +:+ n +:+ " ") +:+ String "{" "")
    by by rewrite <- !string_app_assoc.
  rewrite trim_snoc by done. rewrite <- !string_app_assoc, prefix_stripped.
  cbn [mbind option_bind]. change (" " +:+ String "{" "") with (String " " (String "{" "")).
  by rewrite first_word_name.
Qed.

Lemma scan_close st : scan_line display package st "}" = Ok (None, st.2).
Proof. by destruct st. Qed.

Lemma scan_plain line st :
  plain_line line → st.1 = None → scan_line display package st line = Ok st.
Proof.
  intros [_ Hs Hr] Hst. destruct st as [cur methods]. cbn in Hst. subst cur. unfold scan_line.
  rewrite Hs, Hr. cbn [mbind option_bind]. by destruct (starts_with _ _).
Qed.

Lemma scan_method n m methods :
  is_name m.1 → scan_line display package (Some n, methods) (method_line m)
  = Ok (Some n, {[ package +:+ "." +:+ n +:+ "." +:+ m.1 ]} ∪ methods).
Proof.
  intros Hm. unfold method_line, scan_line.
  change ("  rpc " +:+ ?x) with (String " " (String " " ("rpc " +:+ x))). rewrite !trim_blank.
  replace ("rpc " +:+ m.1 +:+ "(" +:+ m.2 +:+ ";")
    with (("rpc " +:+ m.1 +:+ "(" +:+ m.2) +:+ String ";" "") by by rewrite <- !string_app_assoc.
  rewrite trim_snoc by done. rewrite <- !string_app_assoc, prefix_stripped.
  change (strip_prefix ("rpc " +:+ ?x) "service ") with (@None string).
  change (starts_with ("rpc " +:+ ?x) "}") with false. cbn [mbind option_bind].
  change ("(" +:+ ?x) with (String "(" x).
  rewrite split_app_sep by (apply name_no_char; auto). done.
Qed.

Lemma scan_methods n ms methods :
  (∀ m, m ∈ ms → is_name m.1) →
  fold_result (scan_line display package) (Some n, methods) (method_line <$> ms)
  = Ok (Some n, list_to_set ((λ m, package +:+ "." +:+ n +:+ "." +:+ m.1) <$> ms) ∪ methods).
Proof.
  revert methods. induction ms as [|m ms IH]; intros methods Hms.
  { cbn. do 2 f_equal. set_solver. }
  rewrite !fmap_cons. cbn [fold_result].
  rewrite scan_method by set_solver. cbn [mbind result_bind]. rewrite IH by set_solver.
  do 2 f_equal. set_solver.
Qed.

Lemma scan_item i methods :
  item_ok i → fold_result (scan_line display package) (None, methods) (item_lines i)
  = Ok (None, list_to_set (item_methods package i) ∪ methods).
Proof.
  destruct i as [line|s]; cbn [item_ok item_lines item_methods fold_result].
  - intros Hl. rewrite scan_plain by done. cbn. do 2 f_equal. set_solver.
  - intros [Hn Hms]. rewrite scan_service by done. cbn [mbind result_bind].
    rewrite fold_result_app, scan_methods by (intros m Hm; by apply Hms).
    cbn [mbind result_bind fold_result]. by rewrite scan_close.
Qed.

Lemma scan_items items methods :
  (∀ i, i ∈ items → item_ok i) →
  fold_result (scan_line display package) (None, methods) (mjoin (item_lines <$> items))
  = Ok (None, list_to_set (mjoin (item_methods package <$> items)) ∪ methods).
Proof.
  revert methods. induction items as [|i items IH]; intros methods His.
  { cbn. do 2 f_equal. set_solver. }
  rewrite !fmap_cons. cbn [mjoin list_join].
  rewrite fold_result_app, scan_item by set_solver. cbn [mbind result_bind].
  rewrite IH by set_solver. do 2 f_equal. rewrite list_to_set_app_L. set_solver.
Qed.

Lemma scan_head head st :
  (∀ line, line ∈ head → plain_line line) → st.1 = None →
  fold_result (scan_line display package) st head = Ok st.
Proof.
  intros Hh Hst. induction head as [|line head IH]; [done|]. cbn [fold_result].
  rewrite scan_plain by set_solver. apply IH. set_solver.
Qed.
End scan.

Lemma rendered_one_line f : file_ok f → Forall one_line (file_lines f).
Proof.
  intros [Hh Hp Hi]. apply Forall_forall. intros l Hl. unfold file_lines in Hl.
  apply elem_of_app in Hl as [Hl|[->|Hl]%elem_of_cons].
  - apply Hh in Hl as [[? _ _] _]. done.
  - rewrite string_app_assoc. apply one_line_snoc; [done|done|].
    by rewrite contains_char_app, (name_no_char _ newline Hp) by auto.
  - apply list_elem_of_join in Hl as (ls & Hl & (i & -> & Hin)%list_elem_of_fmap).
    apply Hi in Hin. destruct i as [line|s]; cbn [item_lines item_ok] in *.
    { apply list_elem_of_singleton in Hl as ->. by destruct Hin. }
    destruct Hin as [Hn Hms].
    apply elem_of_cons in Hl as [->|[(m & -> & Hm)%list_elem_of_fmap| ->%list_elem_of_singleton]%elem_of_app].
    + change " {" with (" " +:+ String "{" ""). rewrite !string_app_assoc.
      apply one_line_snoc; [done|done|].
      by rewrite !contains_char_app, (name_no_char _ newline Hn) by auto.
    + destruct (Hms m Hm) as [Hm1 Hm2]. unfold method_line.
      rewrite !string_app_assoc. apply one_line_snoc; [done|done|].
      by rewrite !contains_char_app, (name_no_char _ newline Hm1), Hm2 by auto.
    + by split.
Qed.

Lemma package_line p : is_name p → package_of_line ("package " +:+ p +:+ ";") = Some p.
Proof.
  intros Hp. unfold package_of_line. rewrite string_app_assoc, trim_snoc by done.
  rewrite <- string_app_assoc, prefix_stripped. cbn [mbind option_bind].
  unfold strip_suffix. rewrite rev_snoc.
  change (strip_prefix (String ";" ?x) (String.rev ";")) with (Some x). cbn [fmap option_fmap option_map].
  by rewrite rev_rev, name_trim.
Qed.

Lemma rendered_package f : file_ok f → parse_package (render f) = Some (pf_package f).
Proof.
  intros Hf. unfold parse_package, render. rewrite lines_unlines by by apply rendered_one_line.
  destruct Hf as [Hh Hp _]. unfold file_lines. induction (pf_head f) as [|l head IH].
  - cbn [app find_map]. by rewrite package_line.
  - cbn [app find_map]. rewrite (proj2 (Hh l ltac:(set_solver))). apply IH. set_solver.
Qed.

Lemma package_plain p : is_name p → plain_line ("package " +:+ p +:+ ";").
Proof.
  intros Hp. rewrite string_app_assoc.
  constructor; [|by rewrite trim_snoc by done..].
  apply one_line_snoc; [done|done|].
  by rewrite contains_char_app, (name_no_char _ newline Hp) by auto.
Qed.

Lemma scan_rendered f path methods :
  file_ok f → scan_file methods (path, FsFile (Ok (render f)))
  = Ok (list_to_set (declared_methods f) ∪ methods).
Proof.
  intros Hf. unfold scan_file. cbn [read_to_string snd mbind result_bind].
  rewrite rendered_package by done. cbn [ok_or]. unfold render.
  rewrite lines_unlines by by apply rendered_one_line.
  destruct Hf as [Hh Hp Hi]. unfold file_lines. cbn [fst mbind result_bind].
  rewrite fold_result_app, scan_head by (done || intros l Hl; by apply Hh).
  cbn [mbind result_bind fold_result]. rewrite scan_plain by (done || by apply package_plain).
  cbn [mbind result_bind]. by rewrite scan_items.
Qed.

(** When the .proto files found under a root are texts of well-formed files, the scan
    returns exactly the methods they declare, each under its package and service, and fails
    on none of them. *)
Theorem scan_finds_declared_methods root node (files : list (Path * ProtoFile)) :
  collect_proto_files root node = Ok ((λ f, (f.1, FsFile (Ok (render f.2)))) <$> files) →
  (∀ f, f ∈ files → file_ok f.2) →
  collect_proto_methods root node = Ok (list_to_set (files ≫= λ f, declared_methods f.2)).
Proof.
  intros Hc Hok. unfold collect_proto_methods. rewrite Hc. cbn [mbind result_bind].
  enough (∀ methods, fold_result scan_file methods ((λ f, (f.1, FsFile (Ok (render f.2)))) <$> files)
    = Ok (list_to_set (files ≫= λ f, declared_methods f.2) ∪ methods)) as H.
  { rewrite H. f_equal. set_solver. }
  clear Hc. induction files as [|f files IH]; intros methods.
  { cbn. f_equal. set_solver. }
  rewrite fmap_cons. cbn [fold_result]. rewrite scan_rendered by (apply Hok; set_solver).
  cbn [mbind result_bind]. rewrite IH by set_solver. f_equal.
  rewrite bind_cons, list_to_set_app_L. set_solver.
Qed.

Definition sample_file : ProtoFile := {|
  pf_head := ["syntax = proto3;"; ""];
  pf_package := "acme.v1";
  pf_items := [PlainLine "// readers";
               ServiceItem {| ps_name := "Store"; ps_methods := [("Get", "Q) returns (R)"); ("Put", "Q) returns (R)")] |};
               PlainLine "message Q {"; PlainLine "}"];
|}.

Definition sample_root : Path := {| pa_absolute := true; pa_components := ["proto"] |}.

(** A directory with a .proto file and a file of another kind. *)
Lemma scan_finds_declared_methods_witness :
  collect_proto_methods sample_root
    (FsDir (Ok [Ok ("a.proto", FsFile (Ok (render sample_file))); Ok ("notes.md", FsFile (Ok ""))]))
  = Ok (list_to_set ["acme.v1.Store.Get"; "acme.v1.Store.Put"]).
Proof.
  apply (scan_finds_declared_methods sample_root _ [(path_join sample_root "a.proto", sample_file)]).
  - vm_compute. reflexivity.
  - intros f ->%list_elem_of_singleton. constructor; cbn [snd sample_file pf_head pf_package pf_items].
    + intros line Hl. repeat (apply elem_of_cons in Hl as [->|Hl]; [by split; [constructor|]|]).
      by apply not_elem_of_nil in Hl.
    + by split.
    + intros i Hi. repeat (apply elem_of_cons in Hi as [->|Hi]; [|]); [..|by apply not_elem_of_nil in Hi].
      * by constructor.
      * split; [by split|]. cbn [ps_methods]. intros m Hm.
        repeat (apply elem_of_cons in Hm as [->|Hm]; [by split; [split|]|]).
        by apply not_elem_of_nil in Hm.
      * by constructor.
      * by constructor.
Defined.
