(* ===== verification/ShippedContract.v ===== *)
(** * The RPC contract the repository ships

    The lines of proto/sdkwork/discovery and the document of
    sdks/sdkwork-discovery-rpc-sdk/sdkwork-discovery-rpc.manifest.json, and that they agree
    with each other and with the table of the RPC server (rpc: manifest.rs). *)
From S2P Require Import Prelude RustStr Collections Contract RpcContract RpcContractTheorems.
From Stdlib Require Import Ascii.

(** Pieces of a line with quotation marks between them. *)
Definition quoted (pieces : list string) : string := join (String "034" "") pieces.

Definition discovery_admin_service_proto : list string := [
  quoted ["syntax = "; "proto3"; ";"];
  "";
  "package sdkwork.discovery.backend.v3;";
  "";
  quoted ["import "; "sdkwork/discovery/common/v1/discovery_types.proto"; ";"];
  "";
  "service DiscoveryAdminService {";
  "  rpc CreateConfigDraft(CreateConfigDraftRequest) returns (CreateConfigDraftResponse);";
  "  rpc PublishConfig(PublishConfigRequest) returns (PublishConfigResponse);";
  "  rpc RollbackConfig(RollbackConfigRequest) returns (RollbackConfigResponse);";
  "  rpc ListServices(ListServicesRequest) returns (ListServicesResponse);";
  "}";
  "";
  "message CreateConfigDraftRequest {";
  "  string namespace = 1;";
  "  string environment = 2;";
  "  string group = 3;";
  "  string key = 4;";
  "  sdkwork.discovery.common.v1.ConfigFormat format = 5;";
  "  string value = 6;";
  "  sdkwork.discovery.common.v1.ConfigScopeType scope_type = 7;";
  "  string application = 8;";
  "  string service_name = 9;";
  "}";
  "";
  "message CreateConfigDraftResponse {";
  "  string draft_id = 1;";
  "  string content_hash = 2;";
  "  sdkwork.discovery.common.v1.ResponseMetadata metadata = 3;";
  "}";
  "";
  "message PublishConfigRequest {";
  "  string draft_id = 1;";
  "}";
  "";
  "message PublishConfigResponse {";
  "  string release_id = 1;";
  "  sdkwork.discovery.common.v1.ResponseMetadata metadata = 2;";
  "}";
  "";
  "message RollbackConfigRequest {";
  "  reserved 2;";
  quoted ["  reserved "; "rolled_back_by"; ";"];
  "";
  "  string source_release_id = 1;";
  "}";
  "";
  "message RollbackConfigResponse {";
  "  sdkwork.discovery.common.v1.ConfigRelease release = 1;";
  "  sdkwork.discovery.common.v1.ResponseMetadata metadata = 2;";
  "}";
  "";
  "message ListServicesRequest {";
  "  string namespace = 1;";
  "  string environment = 2;";
  "  sdkwork.discovery.common.v1.PageRequest page = 30;";
  "}";
  "";
  "message ListServicesResponse {";
  "  repeated sdkwork.discovery.common.v1.ServiceSummary services = 1;";
  "  sdkwork.discovery.common.v1.ResponseMetadata metadata = 2;";
  "  sdkwork.discovery.common.v1.PageResponse page = 3;";
  "}"
].

Definition discovery_types_proto : list string := [
  quoted ["syntax = "; "proto3"; ";"];
  "";
  "package sdkwork.discovery.common.v1;";
  "";
  quoted ["import "; "google/protobuf/timestamp.proto"; ";"];
  "";
  "message ResponseMetadata {";
  "  string request_id = 1;";
  "  string trace_id = 2;";
  "  google.protobuf.Timestamp server_time = 3;";
  "  uint64 revision = 4;";
  "}";
  "";
  "message ServiceInstance {";
  "  string namespace = 1;";
  "  string environment = 2;";
  "  string service_name = 3;";
  "  string instance_id = 4;";
  "  string endpoint = 5;";
  "  string protocol = 6;";
  "  string version = 7;";
  "  string region = 8;";
  "  string zone = 9;";
  "  uint32 weight = 10;";
  "  uint32 priority = 11;";
  "  InstanceStatus status = 12;";
  "  map<string, string> metadata = 13;";
  "  string lease_id = 14;";
  "  google.protobuf.Timestamp expires_at = 15;";
  "  uint64 revision = 16;";
  "  optional HealthCheckConfig health_check = 17;";
  "}";
  "";
  "message ServiceSummary {";
  "  string namespace = 1;";
  "  string environment = 2;";
  "  string service_name = 3;";
  "  uint64 active_instance_count = 4;";
  "  uint64 latest_revision = 5;";
  "}";
  "";
  "enum InstanceStatus {";
  "  INSTANCE_STATUS_UNSPECIFIED = 0;";
  "  INSTANCE_STATUS_SERVING = 1;";
  "  INSTANCE_STATUS_DEGRADED = 2;";
  "  INSTANCE_STATUS_NOT_SERVING = 3;";
  "}";
  "";
  "message ConfigValue {";
  "  string key = 1;";
  "  string value = 2;";
  "  ConfigFormat format = 3;";
  "  string source_release_id = 4;";
  "  uint32 source_specificity = 5;";
  "  uint64 source_revision = 6;";
  "}";
  "";
  "enum ConfigFormat {";
  "  CONFIG_FORMAT_UNSPECIFIED = 0;";
  "  CONFIG_FORMAT_TEXT = 1;";
  "  CONFIG_FORMAT_JSON = 2;";
  "  CONFIG_FORMAT_TOML = 3;";
  "}";
  "";
  "enum ConfigScopeType {";
  "  CONFIG_SCOPE_TYPE_UNSPECIFIED = 0;";
  "  CONFIG_SCOPE_TYPE_NAMESPACE = 1;";
  "  CONFIG_SCOPE_TYPE_APPLICATION = 2;";
  "  CONFIG_SCOPE_TYPE_SERVICE = 3;";
  "}";
  "";
  "message ConfigRelease {";
  "  string release_id = 1;";
  "  string draft_id = 2;";
  "  string namespace = 3;";
  "  string environment = 4;";
  "  string group = 5;";
  "  string key = 6;";
  "  ConfigFormat format = 7;";
  "  string value = 8;";
  "  ConfigScopeType scope_type = 9;";
  "  string application = 10;";
  "  string service_name = 11;";
  "  string content_hash = 12;";
  "  string published_by = 13;";
  "  google.protobuf.Timestamp published_at = 14;";
  "  uint64 revision = 15;";
  "}";
  "";
  "message LabelFilter {";
  "  string key = 1;";
  "  LabelFilterOp op = 2;";
  "  string value = 3;";
  "}";
  "";
  "message BatchOperationError {";
  "  uint32 index = 1;";
  "  string error_code = 2;";
  "  string error_message = 3;";
  "}";
  "";
  "enum LabelFilterOp {";
  "  LABEL_FILTER_OP_UNSPECIFIED = 0;";
  "  LABEL_FILTER_OP_EQ = 1;";
  "  LABEL_FILTER_OP_NOT_EQ = 2;";
  "  LABEL_FILTER_OP_IN = 3;";
  "  LABEL_FILTER_OP_EXISTS = 4;";
  "}";
  "";
  "enum DiscoverSortBy {";
  "  DISCOVER_SORT_BY_UNSPECIFIED = 0;";
  "  DISCOVER_SORT_BY_INSTANCE_ID = 1;";
  "  DISCOVER_SORT_BY_PRIORITY = 2;";
  "  DISCOVER_SORT_BY_WEIGHT = 3;";
  "  DISCOVER_SORT_BY_WEIGHTED_RANDOM = 4;";
  "}";
  "";
  "enum HealthCheckProbeKind {";
  "  HEALTH_CHECK_PROBE_KIND_UNSPECIFIED = 0;";
  "  HEALTH_CHECK_PROBE_KIND_TCP = 1;";
  "  HEALTH_CHECK_PROBE_KIND_HTTP = 2;";
  "  HEALTH_CHECK_PROBE_KIND_GRPC = 3;";
  "}";
  "";
  "message HealthCheckProbe {";
  "  HealthCheckProbeKind kind = 1;";
  "  string http_path = 2;";
  "  uint32 http_expected_status = 3;";
  "  string grpc_service_name = 4;";
  "}";
  "";
  "message HealthCheckConfig {";
  "  HealthCheckProbe probe = 1;";
  "  uint64 interval_ms = 2;";
  "  uint64 timeout_ms = 3;";
  "  uint32 unhealthy_threshold = 4;";
  "  uint32 healthy_threshold = 5;";
  "}";
  "";
  "enum WatchEventType {";
  "  WATCH_EVENT_TYPE_UNSPECIFIED = 0;";
  "  WATCH_EVENT_TYPE_INSTANCE_REGISTERED = 1;";
  "  WATCH_EVENT_TYPE_INSTANCE_UPDATED = 2;";
  "  WATCH_EVENT_TYPE_INSTANCE_STATUS_REPORTED = 3;";
  "  WATCH_EVENT_TYPE_INSTANCE_RENEWED = 4;";
  "  WATCH_EVENT_TYPE_INSTANCE_DEREGISTERED = 5;";
  "  WATCH_EVENT_TYPE_CONFIG_PUBLISHED = 6;";
  "  WATCH_EVENT_TYPE_CONFIG_ROLLED_BACK = 7;";
  "  WATCH_EVENT_TYPE_HEARTBEAT = 8;";
  "}";
  "";
  "message PageRequest {";
  "  uint32 page_size = 1;";
  "  string page_token = 2;";
  "}";
  "";
  "message PageResponse {";
  "  string next_page_token = 1;";
  "}"
].

Definition discovery_config_service_proto : list string := [
  quoted ["syntax = "; "proto3"; ";"];
  "";
  "package sdkwork.discovery.internal.v1;";
  "";
  quoted ["import "; "sdkwork/discovery/common/v1/discovery_types.proto"; ";"];
  "";
  "service DiscoveryConfigService {";
  "  rpc RetrieveEffectiveConfig(RetrieveEffectiveConfigRequest) returns (RetrieveEffectiveConfigResponse);";
  "  rpc WatchConfig(WatchConfigRequest) returns (stream WatchConfigResponse);";
  "}";
  "";
  "message RetrieveEffectiveConfigRequest {";
  "  string namespace = 1;";
  "  string environment = 2;";
  "  string application = 3;";
  "  string service_name = 4;";
  "  string group = 5;";
  "}";
  "";
  "message RetrieveEffectiveConfigResponse {";
  "  repeated sdkwork.discovery.common.v1.ConfigValue values = 1;";
  "  sdkwork.discovery.common.v1.ResponseMetadata metadata = 2;";
  "}";
  "";
  "message WatchConfigRequest {";
  "  string namespace = 1;";
  "  string environment = 2;";
  "  string application = 3;";
  "  string service_name = 4;";
  "  string group = 5;";
  "  uint64 from_revision = 6;";
  "}";
  "";
  "message WatchConfigResponse {";
  "  sdkwork.discovery.common.v1.WatchEventType event_type = 1;";
  "  string release_id = 2;";
  "  string group = 3;";
  "  string key = 4;";
  "  sdkwork.discovery.common.v1.ResponseMetadata metadata = 5;";
  "}"
].

Definition registry_service_proto : list string := [
  quoted ["syntax = "; "proto3"; ";"];
  "";
  "package sdkwork.discovery.internal.v1;";
  "";
  quoted ["import "; "google/protobuf/timestamp.proto"; ";"];
  quoted ["import "; "sdkwork/discovery/common/v1/discovery_types.proto"; ";"];
  "";
  "service RegistryService {";
  "  rpc RegisterInstance(RegisterInstanceRequest) returns (RegisterInstanceResponse);";
  "  rpc BatchRegisterInstances(BatchRegisterInstancesRequest) returns (BatchRegisterInstancesResponse);";
  "  rpc RenewLease(RenewLeaseRequest) returns (RenewLeaseResponse);";
  "  rpc DeregisterInstance(DeregisterInstanceRequest) returns (DeregisterInstanceResponse);";
  "  rpc ReportInstanceStatus(ReportInstanceStatusRequest) returns (ReportInstanceStatusResponse);";
  "  rpc RetrieveInstance(RetrieveInstanceRequest) returns (RetrieveInstanceResponse);";
  "  rpc DiscoverInstances(DiscoverInstancesRequest) returns (DiscoverInstancesResponse);";
  "}";
  "";
  "service DiscoveryWatchService {";
  "  rpc WatchService(WatchServiceRequest) returns (stream WatchServiceResponse);";
  "}";
  "";
  "message RegisterInstanceRequest {";
  "  string namespace = 1;";
  "  string environment = 2;";
  "  string service_name = 3;";
  "  string instance_id = 4;";
  "  string endpoint = 5;";
  "  string protocol = 6;";
  "  string version = 7;";
  "  string region = 8;";
  "  string zone = 9;";
  "  uint32 weight = 10;";
  "  uint32 priority = 11;";
  "  sdkwork.discovery.common.v1.InstanceStatus status = 12;";
  "  map<string, string> metadata = 13;";
  "  uint64 lease_ttl_seconds = 14;";
  "  optional uint64 expected_revision = 20;";
  "  bool persistent = 21;";
  "  optional sdkwork.discovery.common.v1.HealthCheckConfig health_check = 22;";
  "}";
  "";
  "message RegisterInstanceResponse {";
  "  string lease_id = 1;";
  "  google.protobuf.Timestamp expires_at = 2;";
  "  sdkwork.discovery.common.v1.ResponseMetadata metadata = 3;";
  "}";
  "";
  "message BatchRegisterInstancesRequest {";
  "  repeated RegisterInstanceRequest instances = 1;";
  "}";
  "";
  "message BatchRegisterInstancesResponse {";
  "  repeated RegisterInstanceResponse results = 1;";
  "  repeated sdkwork.discovery.common.v1.BatchOperationError errors = 2;";
  "  sdkwork.discovery.common.v1.ResponseMetadata metadata = 3;";
  "}";
  "";
  "message RenewLeaseRequest {";
  "  string lease_id = 1;";
  "  uint64 lease_ttl_seconds = 2;";
  "}";
  "";
  "message RenewLeaseResponse {";
  "  string lease_id = 1;";
  "  google.protobuf.Timestamp expires_at = 2;";
  "  sdkwork.discovery.common.v1.ResponseMetadata metadata = 3;";
  "}";
  "";
  "message DeregisterInstanceRequest {";
  "  string namespace = 1;";
  "  string environment = 2;";
  "  string service_name = 3;";
  "  string instance_id = 4;";
  "}";
  "";
  "message DeregisterInstanceResponse {";
  "  sdkwork.discovery.common.v1.ResponseMetadata metadata = 1;";
  "}";
  "";
  "message ReportInstanceStatusRequest {";
  "  string namespace = 1;";
  "  string environment = 2;";
  "  string service_name = 3;";
  "  string instance_id = 4;";
  "  sdkwork.discovery.common.v1.InstanceStatus status = 5;";
  "  optional uint64 expected_revision = 20;";
  "}";
  "";
  "message ReportInstanceStatusResponse {";
  "  sdkwork.discovery.common.v1.ResponseMetadata metadata = 1;";
  "}";
  "";
  "message RetrieveInstanceRequest {";
  "  string namespace = 1;";
  "  string environment = 2;";
  "  string service_name = 3;";
  "  string instance_id = 4;";
  "}";
  "";
  "message RetrieveInstanceResponse {";
  "  sdkwork.discovery.common.v1.ServiceInstance instance = 1;";
  "  sdkwork.discovery.common.v1.ResponseMetadata metadata = 2;";
  "}";
  "";
  "message DiscoverInstancesRequest {";
  "  string namespace = 1;";
  "  string environment = 2;";
  "  string service_name = 3;";
  "  bool healthy_only = 4;";
  "  string protocol = 5;";
  "  repeated sdkwork.discovery.common.v1.LabelFilter label_filters = 20;";
  "  sdkwork.discovery.common.v1.DiscoverSortBy sort_by = 21;";
  "  sdkwork.discovery.common.v1.PageRequest page = 30;";
  "}";
  "";
  "message DiscoverInstancesResponse {";
  "  repeated sdkwork.discovery.common.v1.ServiceInstance instances = 1;";
  "  sdkwork.discovery.common.v1.ResponseMetadata metadata = 2;";
  "  sdkwork.discovery.common.v1.PageResponse page = 3;";
  "}";
  "";
  "message WatchServiceRequest {";
  "  string namespace = 1;";
  "  string environment = 2;";
  "  string service_name = 3;";
  "  uint64 from_revision = 4;";
  "}";
  "";
  "message WatchServiceResponse {";
  "  sdkwork.discovery.common.v1.WatchEventType event_type = 1;";
  "  sdkwork.discovery.common.v1.ServiceInstance instance = 2;";
  "  sdkwork.discovery.common.v1.ResponseMetadata metadata = 3;";
  "}"
].

Definition manifest_method (method operation_id auth idempotency streaming : string)
    : RpcManifestMethod :=
  {| mm_method := method; mm_operation_id := operation_id; mm_auth := auth;
     mm_idempotency := idempotency; mm_streaming := streaming; mm_compatibility := "stable" |}.

Definition shipped_manifest : RpcManifestDocument := {|
  md_schema_version := 1;
  md_kind := "sdkwork.rpc.manifest";
  md_domain := "platform";
  md_capability := "discovery";
  md_sdk_family := "sdkwork-discovery-rpc-sdk";
  md_proto_roots := ["../../proto"];
  md_services := [
    {| ms_package := "sdkwork.discovery.internal.v1"; ms_service := "RegistryService";
       ms_surface := "internal"; ms_owner := "sdkwork-platform";
       ms_methods := [
         manifest_method "RegisterInstance"
           "discovery.registry.instances.register" "service-identity" "optional" "unary";
         manifest_method "BatchRegisterInstances"
           "discovery.registry.instances.batch_register" "service-identity" "optional" "unary";
         manifest_method "RenewLease"
           "discovery.registry.leases.renew" "service-identity" "optional" "unary";
         manifest_method "DeregisterInstance"
           "discovery.registry.instances.deregister" "service-identity" "optional" "unary";
         manifest_method "ReportInstanceStatus"
           "discovery.registry.instances.status.report" "service-identity" "optional" "unary";
         manifest_method "RetrieveInstance"
           "discovery.registry.instances.retrieve" "service-identity" "none" "unary";
         manifest_method "DiscoverInstances"
           "discovery.registry.instances.discover" "service-identity" "none" "unary"] |};
    {| ms_package := "sdkwork.discovery.internal.v1"; ms_service := "DiscoveryConfigService";
       ms_surface := "internal"; ms_owner := "sdkwork-platform";
       ms_methods := [
         manifest_method "RetrieveEffectiveConfig"
           "discovery.config.effective.retrieve" "service-identity" "none" "unary";
         manifest_method "WatchConfig"
           "discovery.config.releases.watch" "service-identity" "none" "server"] |};
    {| ms_package := "sdkwork.discovery.internal.v1"; ms_service := "DiscoveryWatchService";
       ms_surface := "internal"; ms_owner := "sdkwork-platform";
       ms_methods := [
         manifest_method "WatchService"
           "discovery.registry.services.watch" "service-identity" "none" "server"] |};
    {| ms_package := "sdkwork.discovery.backend.v3"; ms_service := "DiscoveryAdminService";
       ms_surface := "backend"; ms_owner := "sdkwork-platform";
       ms_methods := [
         manifest_method "CreateConfigDraft"
           "discovery.config.drafts.create" "backend-operator" "required" "unary";
         manifest_method "PublishConfig"
           "discovery.config.releases.publish" "backend-operator" "required" "unary";
         manifest_method "RollbackConfig"
           "discovery.config.releases.rollback" "backend-operator" "required" "unary";
         manifest_method "ListServices"
           "discovery.registry.services.list" "backend-operator" "none" "unary"] |}
  ];
|}.

(** ** The workspace *)

Definition dir (entries : list (string * FsNode)) : FsNode := FsDir (Ok (Ok <$> entries)).
Definition file (ls : list string) : FsNode := FsFile (Ok (unlines ls)).

(** The workspace with the text of the manifest; the SDK directory holds more than is
    listed here, which nothing reads. *)
Definition shipped_workspace (manifest_text : string) : FsNode :=
  dir [("proto", dir [("sdkwork", dir [("discovery", dir
         [("backend", dir [("v3", dir
            [("discovery_admin_service.proto", file discovery_admin_service_proto)])]);
          ("common", dir [("v1", dir [("discovery_types.proto", file discovery_types_proto)])]);
          ("internal", dir [("v1", dir
            [("discovery_config_service.proto", file discovery_config_service_proto);
             ("registry_service.proto", file registry_service_proto)])])])])]);
       ("sdks", dir [("sdkwork-discovery-rpc-sdk", dir
         [("sdkwork-discovery-rpc.manifest.json", FsFile (Ok manifest_text))])])].

(** The rows of a manifest document in the shape of the server's table. *)
Definition manifest_rows (d : RpcManifestDocument) : list DiscoveryRpcMethod :=
  service ← md_services d;
  m ← ms_methods service;
  [{| rmt_package := ms_package service; rmt_service := ms_service service;
      rmt_surface := ms_surface service; rmt_method := mm_method m;
      rmt_operation_id := mm_operation_id m; rmt_auth := mm_auth m;
      rmt_idempotency := mm_idempotency m; rmt_streaming := mm_streaming m;
      rmt_owner := ms_owner service; rmt_compatibility := mm_compatibility m |}].

Definition proto_path : Path :=
  {| pa_absolute := true; pa_components := ["discovery"; "sdkwork"; "proto"; "workspace"] |}.

(** A computed set, compared by the decision procedure. *)
Lemma result_set_eq (r : DiscoveryResult (gset string)) (s : gset string) :
  match r with Ok x => bool_decide (x = s) | Err _ => false end = true → r = Ok s.
Proof. destruct r; [|done]. by intros ->%bool_decide_eq_true. Qed.

Lemma shipped_proto_methods :
  collect_proto_methods proto_path
    (resolve_path (shipped_workspace "") ["proto"; "sdkwork"; "discovery"])
  = Ok (list_to_set (manifest_keys shipped_manifest)).
Proof. apply result_set_eq. vm_compute. reflexivity. Qed.

Lemma shipped_manifest_methods :
  collect_manifest_methods shipped_manifest = Ok (list_to_set (manifest_keys shipped_manifest)).
Proof. apply result_set_eq. vm_compute. reflexivity. Qed.

(** On the workspace of the repository the inventory loads and is clean: the .proto
    files and the manifest declare the same fourteen methods, the manifest meets the
    standard, and the table of the RPC server has the rows of the manifest in its order. *)
Theorem shipped_contract_is_clean (from_str : string → Result string RpcManifestDocument)
    (text : string) :
  from_str text = Ok shipped_manifest →
  ∃ i, load_from_workspace from_str (λ _, shipped_workspace text)
         {| pa_absolute := true;
            pa_components := ["sdkwork-discovery-contract"; "crates"; "workspace"] |} = Ok i
       ∧ proto_methods_missing_from_manifest i = []
       ∧ manifest_methods_missing_from_proto i = []
       ∧ ri_manifest_standard_violations i = []
       ∧ size (ri_proto_methods i) = 14%nat
       ∧ rsm_methods discovery_rpc_service_manifest = manifest_rows shipped_manifest.
Proof.
  intros Hjson. eexists. split.
  { unfold load_from_workspace, load_from_roots, load.
    change (path_parent _ ≫= path_parent)
      with (Some {| pa_absolute := true; pa_components := ["workspace"] |}).
    cbv iota beta. unfold load_from_roots.
    change (resolve_path (shipped_workspace text) ["proto"; "sdkwork"; "discovery"])
      with (resolve_path (shipped_workspace "") ["proto"; "sdkwork"; "discovery"]).
    change (foldl path_join _ ["proto"; "sdkwork"; "discovery"]) with proto_path.
    rewrite shipped_proto_methods. unfold load_manifest.
    change (read_to_string (resolve_path (shipped_workspace text) _)) with (Ok (E:=string) text).
    cbn [mbind result_bind]. rewrite Hjson. cbn [mbind result_bind].
    rewrite shipped_manifest_methods. reflexivity. }
  split_and!; vm_compute; reflexivity.
Qed.

(** A text that a JSON reader turns into the shipped document. *)
Lemma shipped_contract_is_clean_witness :
  ∃ i, load_from_workspace (λ _, Ok shipped_manifest) (λ _, shipped_workspace "{}")
         {| pa_absolute := true;
            pa_components := ["sdkwork-discovery-contract"; "crates"; "workspace"] |} = Ok i
       ∧ proto_methods_missing_from_manifest i = [].
Proof.
  destruct (shipped_contract_is_clean (λ _, Ok shipped_manifest) "{}" eq_refl) as (i & Hi & Hm & _).
  exists i. split; [exact Hi|exact Hm].
Defined.

(** ** Methods outside the rules *)

(** The rules recognise a write by its name or the last part of its operation.
    [BatchRegisterInstances] is neither, so that any streaming and idempotency pass. *)
Lemma batch_register_unchecked streaming idempotency :
  streaming ∈ ["unary"; "server"; "client"; "bidi"] →
  idempotency ∈ ["none"; "optional"; "required"] →
  ∀ service, validate_method service "sdkwork.discovery.internal.v1.RegistryService"
    (manifest_method "BatchRegisterInstances" "discovery.registry.instances.batch_register"
       "service-identity" idempotency streaming) = [].
Proof.
  intros Hs Hi service. unfold validate_method. cbn [mm_streaming mm_idempotency manifest_method].
  by rewrite !bool_decide_true by done.
Qed.

(** A blank before the parenthesis stays in the name of the method; an option block ends
    the service of the lines that follow it. *)
Lemma scan_keeps_blank :
  scan_line "a.proto" "p" (Some "S", ∅) "  rpc Get (GetRequest) returns (GetResponse);"
  = Ok (Some "S", {[ "p.S.Get " ]}).
Proof. vm_compute. reflexivity. Qed.

Lemma scan_loses_service :
  scan_file ∅ ({| pa_absolute := false; pa_components := ["a.proto"] |},
    file ["package p;"; "service S {"; "  rpc A(Q) returns (R) {"; "    option x = 1;"; "  }";
          "  rpc B(Q) returns (R);"; "}"])
  = Err (InvalidArgument "rpc method outside service in a.proto").
Proof. vm_compute. reflexivity. Qed.
