(* ===== verification/Metrics.v ===== *)
(** * RPC metrics (rpc: metrics.rs)

    What the RPC surface hands to the metrics recorder of the process.  The recorder is
    outside the repository: the model keeps the sequence of what is emitted.  A label set is
    a list of names and values in the order of the source; a duration is in nanoseconds. *)
From S2P Require Import Prelude RustStr Collections.
From Stdlib Require Import Ascii QArith.
#[local] Open Scope string_scope.

Abbreviation Labels := (list (string * string)).

Inductive Emission : Type :=
| CounterIncrement (name : string) (labels : Labels) (by_ : N)
| HistogramRecord (name : string) (labels : Labels) (nanos : N)
| GaugeIncrement (name : string) (labels : Labels) (by_ : N)
| GaugeDecrement (name : string) (labels : Labels) (by_ : N)
| GaugeSet (name : string) (labels : Labels) (value : Q).

Record RpcTelemetryContext : Type := {
  tc_process_service : string;
  tc_environment : string;
  tc_deployment_profile : string;
  tc_runtime_target : string;
}.

Definition default_telemetry_context : RpcTelemetryContext := {|
  tc_process_service := "sdkwork-discovery";
  tc_environment := "development";
  tc_deployment_profile := "standalone";
  tc_runtime_target := "server";
|}.

(** The statics of the process, its monotonic clock, and what reached the recorder. *)
Record Process : Type := {
  pr_telemetry : option RpcTelemetryContext;
  pr_now : N;
  pr_emitted : list Emission;
}.

Definition emit (e : Emission) (p : Process) : Process :=
  {| pr_telemetry := pr_telemetry p; pr_now := pr_now p; pr_emitted := (pr_emitted p ++ [e])%list |}.

(** [OnceLock::set] keeps the first value. *)
Definition init_telemetry_context (context : RpcTelemetryContext) (p : Process) : Process :=
  {| pr_telemetry := Some (default context (pr_telemetry p));
     pr_now := pr_now p; pr_emitted := pr_emitted p |}.

Definition telemetry (p : Process) : RpcTelemetryContext :=
  default default_telemetry_context (pr_telemetry p).

Definition normalize_status (status_code : string) : string := to_ascii_lowercase status_code.

Definition api_surface_for_package (package : string) : string :=
  if contains package "backend.v3" then "rpc-backend" else "rpc-internal".

Definition process_labels (p : Process) : Labels :=
  let labels := telemetry p in
  [("service", tc_process_service labels);
   ("environment", tc_environment labels);
   ("deployment_profile", tc_deployment_profile labels);
   ("runtime_target", tc_runtime_target labels)]%list.

Record RpcMetrics : Type := {
  rx_package : string;
  rx_service : string;
  rx_method : string;
  rx_operation_id : string;
  rx_api_surface : string;
  rx_start : N;
}.

Definition with_api_surface (package service method operation_id api_surface : string)
    (p : Process) : RpcMetrics :=
  {| rx_package := package; rx_service := service; rx_method := method;
     rx_operation_id := operation_id; rx_api_surface := api_surface; rx_start := pr_now p |}.

Definition metrics_new (package service method operation_id : string) (p : Process) : RpcMetrics :=
  with_api_surface package service method operation_id (api_surface_for_package package) p.

(** The labels of [discovery_rpc_requests_total], of the histogram and of
    [discovery_rpc_errors_total]. *)
Definition request_labels (x : RpcMetrics) (status : string) (p : Process) : Labels :=
  (process_labels p ++
   [("package", rx_package x); ("rpc_service", rx_service x); ("method", rx_method x);
    ("operation_id", rx_operation_id x); ("status", status);
    ("api_surface", rx_api_surface x)])%list.

Definition duration_labels (x : RpcMetrics) (p : Process) : Labels :=
  (process_labels p ++
   [("package", rx_package x); ("rpc_service", rx_service x); ("method", rx_method x);
    ("operation_id", rx_operation_id x); ("api_surface", rx_api_surface x)])%list.

Definition error_labels (x : RpcMetrics) (error_type : string) (p : Process) : Labels :=
  (process_labels p ++
   [("package", rx_package x); ("rpc_service", rx_service x); ("method", rx_method x);
    ("error_type", error_type); ("api_surface", rx_api_surface x)])%list.

Definition call_labels (package service method : string) (p : Process) : Labels :=
  (process_labels p ++
   [("package", package); ("rpc_service", service); ("method", method);
    ("api_surface", api_surface_for_package package)])%list.

Definition elapsed (x : RpcMetrics) (p : Process) : N := pr_now p - rx_start x.

Definition record_success (x : RpcMetrics) (status_code : string) (p : Process) : Process :=
  let duration := elapsed x p in
  let status := normalize_status status_code in
  let p := emit (CounterIncrement "discovery_rpc_requests_total" (request_labels x status p) 1) p in
  emit (HistogramRecord "discovery_rpc_request_duration_seconds" (duration_labels x p) duration) p.

Definition record_error (x : RpcMetrics) (status_code error_type : string) (p : Process) : Process :=
  let duration := elapsed x p in
  let status := normalize_status status_code in
  let p := emit (CounterIncrement "discovery_rpc_requests_total" (request_labels x status p) 1) p in
  let p := emit (CounterIncrement "discovery_rpc_errors_total" (error_labels x error_type p) 1) p in
  emit (HistogramRecord "discovery_rpc_request_duration_seconds" (duration_labels x p) duration) p.

Definition record_auth_failure (package service method : string) (p : Process) : Process :=
  emit (CounterIncrement "discovery_rpc_auth_failures_total" (call_labels package service method p) 1) p.

Definition record_deadline_exceeded (package service method : string) (p : Process) : Process :=
  emit (CounterIncrement "discovery_rpc_deadline_exceeded_total" (call_labels package service method p) 1) p.

Definition record_cancellation (package service method : string) (p : Process) : Process :=
  emit (CounterIncrement "discovery_rpc_cancellations_total" (call_labels package service method p) 1) p.

Definition record_timed_out (x : RpcMetrics) (p : Process) : Process :=
  let duration := elapsed x p in
  let p := emit (CounterIncrement "discovery_rpc_requests_total"
                   (request_labels x "deadline_exceeded" p) 1) p in
  let p := record_deadline_exceeded (rx_package x) (rx_service x) (rx_method x) p in
  emit (HistogramRecord "discovery_rpc_request_duration_seconds" (duration_labels x p) duration) p.

Definition surface_labels (surface : string) (p : Process) : Labels :=
  (process_labels p ++ [("surface", surface)])%list.

Definition increment_active_streams (surface : string) (p : Process) : Process :=
  emit (GaugeIncrement "discovery_rpc_active_streams" (surface_labels surface p) 1) p.

Definition decrement_active_streams (surface : string) (p : Process) : Process :=
  emit (GaugeDecrement "discovery_rpc_active_streams" (surface_labels surface p) 1) p.

Definition set_health_status_value (value : Q) (p : Process) : Process :=
  emit (GaugeSet "discovery_health_status" (process_labels p) value) p.

Definition set_health_status (healthy : bool) (p : Process) : Process :=
  set_health_status_value (if healthy then 1%Q else 0%Q) p.

(** The names, kinds and texts told to the recorder. *)
Inductive MetricKind : Type := CounterKind | HistogramKind | GaugeKind.

Definition describe_metrics : list (MetricKind * string * string) := [
  (CounterKind, "discovery_rpc_requests_total", "Total number of RPC requests");
  (CounterKind, "discovery_rpc_errors_total", "Total number of RPC errors");
  (CounterKind, "discovery_rpc_auth_failures_total", "Total number of RPC authentication failures");
  (CounterKind, "discovery_rpc_deadline_exceeded_total", "Total number of RPC deadline exceeded events");
  (CounterKind, "discovery_rpc_cancellations_total", "Total number of RPC cancellations");
  (HistogramKind, "discovery_rpc_request_duration_seconds", "RPC request duration in seconds");
  (GaugeKind, "discovery_rpc_active_streams", "Number of active RPC streams");
  (GaugeKind, "discovery_health_status",
   "Discovery runtime health status (0=not serving, 1=serving, 2=degraded)")
]%list.

(** ** The guard of a unary call *)

Record RpcMetricsGuard : Type := { mg_inner : option RpcMetrics }.

Definition guard_new (package service method operation_id : string) (p : Process)
    : RpcMetricsGuard :=
  {| mg_inner := Some (metrics_new package service method operation_id p) |}.

(** [self.inner.take()] followed by the recording. *)
Definition guard_take (f : RpcMetrics → Process → Process) (g : RpcMetricsGuard) (p : Process)
    : RpcMetricsGuard * Process :=
  ({| mg_inner := None |}, match mg_inner g with Some x => f x p | None => p end).

Definition guard_record_success (g : RpcMetricsGuard) (status_code : string) (p : Process)
    : RpcMetricsGuard * Process :=
  guard_take (λ x, record_success x status_code) g p.

Definition guard_record_error (g : RpcMetricsGuard) (status_code error_type : string) (p : Process)
    : RpcMetricsGuard * Process :=
  guard_take (λ x, record_error x status_code error_type) g p.

Definition guard_drop (g : RpcMetricsGuard) (p : Process) : Process :=
  (guard_take record_timed_out g p).2.

(** ** The life of a guard *)

(** What a handler does with its guard, and how long it takes before it does so. *)
Inductive GuardCall : Type :=
| Succeed (status_code : string)
| Refuse (status_code error_type : string).

Definition wait (nanos : N) (p : Process) : Process :=
  {| pr_telemetry := pr_telemetry p; pr_now := pr_now p + nanos; pr_emitted := pr_emitted p |}.

Definition guard_call (g : RpcMetricsGuard) (c : GuardCall) (p : Process)
    : RpcMetricsGuard * Process :=
  match c with
  | Succeed status_code => guard_record_success g status_code p
  | Refuse status_code error_type => guard_record_error g status_code error_type p
  end.

(** The calls in order, each after a delay, then the end of the scope. *)
Fixpoint guard_life (calls : list (N * GuardCall)) (last_delay : N) (g : RpcMetricsGuard)
    (p : Process) : Process :=
  match calls with
  | [] => guard_drop g (wait last_delay p)
  | (delay, c) :: rest =>
      let '(g, p) := guard_call g c (wait delay p) in guard_life rest last_delay g p
  end.

(** ** Theorems *)

Definition metric_name (e : Emission) : string :=
  match e with
  | CounterIncrement name _ _ | HistogramRecord name _ _ | GaugeIncrement name _ _
  | GaugeDecrement name _ _ | GaugeSet name _ _ => name
  end.

Definition metric_kind (e : Emission) : MetricKind :=
  match e with
  | CounterIncrement _ _ _ => CounterKind
  | HistogramRecord _ _ _ => HistogramKind
  | _ => GaugeKind
  end.

Definition label_of (name : string) (e : Emission) : option string :=
  let labels := match e with
                | CounterIncrement _ labels _ | HistogramRecord _ labels _
                | GaugeIncrement _ labels _ | GaugeDecrement _ labels _ | GaugeSet _ labels _ => labels
                end in
  snd <$> List.find (λ l, bool_decide (l.1 = name)) labels.

Definition emitted_as (name : string) (es : list Emission) : list Emission :=
  retain (λ e, bool_decide (metric_name e = name)) es.

(** What the first call, or its absence, makes of a call's status. *)
Definition call_status (calls : list (N * GuardCall)) : string :=
  match calls with
  | (_, Succeed code) :: _ | (_, Refuse code _) :: _ => to_ascii_lowercase code
  | [] => "deadline_exceeded"
  end.

Definition call_duration (calls : list (N * GuardCall)) (last_delay : N) : N :=
  match calls with (delay, _) :: _ => delay | [] => last_delay end.

(** The guard that has recorded is silent. *)
Lemma guard_spent calls last_delay p :
  pr_emitted (guard_life calls last_delay {| mg_inner := None |} p) = pr_emitted p.
Proof.
  revert p. induction calls as [|[delay []] calls IH]; intros p; [done|..];
    cbn -[guard_life]; apply (IH (wait delay p)).
Qed.

(** Whatever a handler does with its guard (nothing, one outcome, several in any order),
    the call is counted once with the status of the first outcome, or as a deadline
    exceeded when there was none; its duration is recorded once, up to that outcome; the
    error counter moves exactly for a first outcome that is an error, and the deadline
    counter exactly when there was no outcome.  Every metric it emits was described to the
    recorder under its kind. *)
Theorem guard_counts_once package service method operation_id calls last_delay p :
  ∃ es, pr_emitted (guard_life calls last_delay
                      (guard_new package service method operation_id p) p)
        = (pr_emitted p ++ es)%list
  ∧ (∃ labels, emitted_as "discovery_rpc_requests_total" es
               = [CounterIncrement "discovery_rpc_requests_total" labels 1]%list)
  ∧ label_of "status" <$> emitted_as "discovery_rpc_requests_total" es
    = [Some (call_status calls)]%list
  ∧ label_of "operation_id" <$> emitted_as "discovery_rpc_requests_total" es
    = [Some operation_id]%list
  ∧ (∃ labels, emitted_as "discovery_rpc_request_duration_seconds" es
               = [HistogramRecord "discovery_rpc_request_duration_seconds" labels
                    (call_duration calls last_delay)]%list)
  ∧ label_of "error_type" <$> emitted_as "discovery_rpc_errors_total" es
    = match calls with (_, Refuse _ error_type) :: _ => [Some error_type] | _ => [] end%list
  ∧ length (emitted_as "discovery_rpc_deadline_exceeded_total" es)
    = match calls with [] => 1 | _ => 0 end%nat
  ∧ emitted_as "discovery_rpc_cancellations_total" es = []%list
  ∧ Forall (λ e, (metric_kind e, metric_name e) ∈ describe_metrics.*1) es.
Proof.
  destruct calls as [|[delay c] calls]; [|destruct c as [code|code error_type]];
    cbn [guard_life guard_new guard_call guard_record_success guard_record_error guard_take
         guard_drop mg_inner snd];
    try rewrite guard_spent;
    unfold record_success, record_error, record_timed_out, record_deadline_exceeded;
    cbn [pr_emitted emit wait]; rewrite <- ?app_assoc; eexists; (split; [reflexivity|]);
    split_and!; try reflexivity; try (repeat constructor; fail); try (eexists; cbn; do 2 f_equal; unfold elapsed; cbn; lia).
Qed.
