(* ===== verification/ClientSdk.v ===== *)
(** * Rust client SDK (sdks/sdkwork-discovery-rpc-sdk-rust)

    The helpers a client calls to fill request metadata, deadlines and pages, and that the
    server reads what they write.  The process id and the static span counter are explicit;
    a [SystemTime] is a number of nanoseconds since the epoch. *)
From S2P Require Import Prelude RustStr Collections Contract Discover Proto Codec RpcContext RpcContextTheorems.
From Stdlib Require Import Ascii.

(** ** Idempotency (idempotency.rs) *)

Record RpcIdempotencyOptions : Type := {
  io_idempotency_key : option string;
  io_request_hash : option string;
}.

Definition create_rpc_idempotency_metadata (options : RpcIdempotencyOptions) : gmap string string :=
  let metadata := ∅ in
  let metadata := match io_idempotency_key options with
                  | Some idempotency_key => <["idempotency-key" := idempotency_key]> metadata
                  | None => metadata
                  end in
  match io_request_hash options with
  | Some request_hash => <["x-request-hash" := request_hash]> metadata
  | None => metadata
  end.

(** ** Deadlines (deadline.rs) *)

Record RpcDeadlineOptions : Type := {
  do_timeout_ms : option N;
  do_deadline : option Z;
  do_now : option Z;
}.

Definition resolve_rpc_deadline_ms (system_now : Z) (options : RpcDeadlineOptions) : option N :=
  match do_timeout_ms options with
  | Some timeout_ms => Some timeout_ms
  | None =>
      deadline ← do_deadline options;
      let now := default system_now (do_now options) in
      let remaining := Z.to_N (deadline - now) in
      Some ((remaining / 1000000) mod u64_modulus)
  end.

(** ** Pages (pagination.rs) *)

Definition DEFAULT_DISCOVERY_PAGE_SIZE : N := 100.
Definition MAX_DISCOVERY_PAGE_SIZE : N := 200.

Record DiscoveryPageParams : Type := {
  dp_page_size : option N;
  dp_page_token : option string;
}.

Definition clamp_discovery_page_size (page_size : N) : N :=
  if page_size =? 0 then DEFAULT_DISCOVERY_PAGE_SIZE else N.min page_size MAX_DISCOVERY_PAGE_SIZE.

Definition create_discovery_page_request (params : DiscoveryPageParams) : PageRequest :=
  {| pg_page_size := default 0 (dp_page_size params);
     pg_page_token := default "" (dp_page_token params) |}.

Definition next_discovery_page_token (page : option PageResponse) : option string :=
  page ← page;
  let token := trim (pg_next_page_token page) in
  if is_empty token then None else Some token.

(** ** Trace context (tracing.rs) *)

Definition TRACE_ID_LENGTH : N := 32.
Definition SPAN_ID_LENGTH : N := 16.

(** [value.replace('-', "")]. *)
Fixpoint remove_char (c : ascii) (s : string) : string :=
  match s with
  | "" => ""
  | String a s' => if bool_decide (a = c) then remove_char c s' else String a (remove_char c s')
  end.

(** [to_lowercase] maps no character outside ASCII to a hexadecimal digit, so that on the
    values that pass the check it is [to_ascii_lowercase], and both refuse the others. *)
Definition normalize_hex (value : string) (expected_length : N) (label : string)
    : Result string string :=
  let normalized := to_ascii_lowercase (remove_char "-" value) in
  if negb (len normalized =? expected_length) || negb (all_bytes is_ascii_hexdigit normalized)
  then Err (label +:+ " must be " +:+ show_N expected_length +:+ " hex characters")
  else Ok normalized.

(** [{seed:016x}]: [digits] lower-case hexadecimal digits, most significant first. *)
Definition lower_hex_digit (n : N) : ascii :=
  if n <? 10 then ascii_of_N (48 + n) else ascii_of_N (87 + n).

Fixpoint lower_hex (digits : nat) (n : N) (rest : string) : string :=
  match digits with
  | O => rest
  | S k => lower_hex k (n / 16) (String (lower_hex_digit (n mod 16)) rest)
  end.

(** The counter of the process moves on; the id is formatted. *)
Definition random_span_id (process_id counter : N) : N * string :=
  (u64_succ counter, lower_hex 16 (N.lxor counter process_id) "").

Definition create_traceparent (process_id : N) (trace_id : string) (parent_span_id : option string)
    (counter : N) : N * Result string string :=
  match normalize_hex trace_id TRACE_ID_LENGTH "traceId" with
  | Err e => (counter, Err e)
  | Ok normalized_trace_id =>
      let '(counter, span) :=
        match parent_span_id with
        | Some span_id => (counter, normalize_hex span_id SPAN_ID_LENGTH "parentSpanId")
        | None => let '(counter, id) := random_span_id process_id counter in (counter, Ok id)
        end in
      (counter, match span with
                | Ok normalized_span_id =>
                    Ok ("00-" +:+ normalized_trace_id +:+ "-" +:+ normalized_span_id +:+ "-01")
                | Err e => Err e
                end)
  end.

Definition create_traceparent_metadata (process_id : N) (trace_id : string)
    (parent_span_id : option string) (counter : N) : N * Result string (gmap string string) :=
  let '(counter, traceparent) := create_traceparent process_id trace_id parent_span_id counter in
  (counter, traceparent ← traceparent; mret {[ "traceparent" := traceparent ]}).

(** ** Theorems *)

Lemma all_bytes_impl f g s :
  (∀ a, f a = true → g a = true) → all_bytes f s = true → all_bytes g s = true.
Proof.
  intros Hfg. induction s as [|a s IH]; [done|]. cbn. rewrite !andb_true_iff. naive_solver.
Qed.

Lemma hexdigit_facts a :
  is_ascii_hexdigit a = true → is_printable_ascii a = true ∧ a ≠ "-"%char.
Proof.
  intros Ha. split; [|by intros ->]. revert Ha. unfold is_ascii_hexdigit, is_printable_ascii.
  rewrite !orb_true_iff, !andb_true_iff, !N.leb_le. lia.
Qed.

Lemma hex_printable s : all_bytes is_ascii_hexdigit s = true → all_bytes is_printable_ascii s = true.
Proof. apply all_bytes_impl. intros a Ha. by apply hexdigit_facts. Qed.

Lemma hex_no_dash s : all_bytes is_ascii_hexdigit s = true → contains_char "-" s = false.
Proof.
  induction s as [|a s IH]; [done|]. cbn [all_bytes contains_char].
  rewrite andb_true_iff. intros [[_ Ha]%hexdigit_facts Hs]. by rewrite bool_decide_false, IH.
Qed.

Lemma normalize_hex_Ok value n label s :
  normalize_hex value n label = Ok s →
  s = to_ascii_lowercase (remove_char "-" value) ∧ len s = n ∧ all_bytes is_ascii_hexdigit s = true.
Proof.
  unfold normalize_hex. destruct (len _ =? n) eqn:El, (all_bytes _ _) eqn:Ea; intros [= <-].
  by rewrite N.eqb_eq in El.
Qed.

Lemma lower_hex_digit_ok n : n < 16 → is_ascii_hexdigit (lower_hex_digit n) = true.
Proof.
  intros Hn. assert (∃ k, n = N.of_nat k ∧ (k < 16)%nat) as (k & -> & Hk)
    by (exists (N.to_nat n); lia).
  do 16 (destruct k as [|k]; [reflexivity|]). lia.
Qed.

Lemma lower_hex_ok digits n rest :
  all_bytes is_ascii_hexdigit rest = true → all_bytes is_ascii_hexdigit (lower_hex digits n rest) = true.
Proof.
  revert n rest. induction digits as [|k IH]; intros n rest Hr; [done|]. cbn [lower_hex].
  apply IH. cbn [all_bytes]. rewrite lower_hex_digit_ok by (apply N.mod_lt; lia). done.
Qed.

Lemma to_ascii_lower_idem a : to_ascii_lower (to_ascii_lower a) = to_ascii_lower a.
Proof.
  destruct a as [[] [] [] [] [] [] [] []]; reflexivity.
Qed.

Lemma to_ascii_lowercase_idem s : to_ascii_lowercase (to_ascii_lowercase s) = to_ascii_lowercase s.
Proof. induction s as [|a s IH]; [done|]. cbn. by rewrite IH, to_ascii_lower_idem. Qed.

(** The shape of a header the client builds. *)
Lemma create_traceparent_Ok process_id trace_id parent counter counter' tp :
  create_traceparent process_id trace_id parent counter = (counter', Ok tp) →
  let t := to_ascii_lowercase (remove_char "-" trace_id) in
  ∃ span, tp = "00-" +:+ t +:+ "-" +:+ span +:+ "-01" ∧ len t = TRACE_ID_LENGTH
          ∧ all_bytes is_ascii_hexdigit t = true ∧ all_bytes is_ascii_hexdigit span = true.
Proof.
  unfold create_traceparent. destruct (normalize_hex trace_id _ _) as [t|e] eqn:Et; [|done].
  apply normalize_hex_Ok in Et as (-> & Hl & Ha). destruct parent as [span_id|].
  - destruct (normalize_hex span_id _ _) as [span|e] eqn:Es; intros [= _ <-].
    apply normalize_hex_Ok in Es as (_ & _ & Hs). eauto 10.
  - unfold random_span_id. pose proof (lower_hex_ok 16 (N.lxor counter process_id) "" eq_refl) as Hs.
    revert Hs. generalize (lower_hex 16 (N.lxor counter process_id) ""). intros span Hs [= _ <-].
    eauto 10.
Qed.

Lemma parse_traceparent t span :
  len t = TRACE_ID_LENGTH → all_bytes is_ascii_hexdigit t = true →
  parse_trace_id_from_traceparent ("00-" +:+ t +:+ "-" +:+ span +:+ "-01")
  = Some (to_ascii_lowercase t).
Proof.
  intros Hl Ha. unfold parse_trace_id_from_traceparent.
  replace ("00-" +:+ t +:+ "-" +:+ span +:+ "-01")
    with (("00-" +:+ t +:+ "-" +:+ span +:+ "-0") +:+ String "1" "") by by rewrite <- !string_app_assoc.
  rewrite trim_solid_ends by (done || by rewrite rev_snoc).
  change (is_empty (("00-" +:+ ?x) +:+ ?y)) with false. cbv iota.
  rewrite <- !string_app_assoc. change ("00-" +:+ ?x) with ("00" +:+ String "-" x).
  rewrite split_app_sep by done. change ("-" +:+ span +:+ ?x) with (String "-" (span +:+ x)).
  rewrite split_app_sep by by apply hex_no_dash. by rewrite Hl, Ha.
Qed.

Section server.
Context `{RpcExternals}.
(** [to_str] of a metadata value returns visible ASCII unchanged. *)
Context (to_str_visible : ∀ s, all_bytes is_printable_ascii s = true → value_to_str s = Some s).

Lemma visible_value (md : gmap string string) key s :
  md !! key = Some s → all_bytes is_printable_ascii s = true →
  optional_metadata_value md key = Ok (Some s).
Proof. intros Hk Hs. unfold optional_metadata_value. by rewrite Hk, to_str_visible. Qed.

(** The trace id a client hands to the SDK, with dashes dropped and letters in lower
    case, is the trace id the server finds in the metadata the SDK built, whether the parent
    span was given or generated. *)
Theorem trace_id_reaches_server process_id trace_id parent counter counter' md :
  create_traceparent_metadata process_id trace_id parent counter = (counter', Ok md) →
  trace_id_from_metadata md = Ok (to_ascii_lowercase (remove_char "-" trace_id)).
Proof.
  unfold create_traceparent_metadata.
  destruct (create_traceparent _ _ _ _) as [c [tp|e]] eqn:Ec; [|done]. intros [= _ <-].
  apply create_traceparent_Ok in Ec as (span & -> & Hl & Ha & Hs). unfold trace_id_from_metadata.
  erewrite visible_value; [|by apply lookup_singleton_eq|].
  - cbn [mbind result_bind from_option id]. rewrite parse_traceparent by done.
    cbn [from_option id]. by rewrite to_ascii_lowercase_idem.
  - by rewrite !all_bytes_app, (hex_printable _ Ha), (hex_printable _ Hs).
Qed.

(** The idempotency headers of the SDK satisfy the server's check exactly when neither is
    blank, and the server reads the key and the hash back, trimmed. *)
Lemma idempotency_reaches_server operation_id key hash :
  all_bytes is_printable_ascii key = true → all_bytes is_printable_ascii hash = true →
  let md := create_rpc_idempotency_metadata
              {| io_idempotency_key := Some key; io_request_hash := Some hash |} in
  idempotency_from_metadata md operation_id
    = Ok {| ic_operation_id := operation_id; ic_key := trim key; ic_request_hash := trim hash |}
  ∧ (validate_required_idempotency_metadata md = Ok () ↔ is_blank key = false ∧ is_blank hash = false).
Proof.
  intros Hk Hh md.
  assert (optional_metadata_value md "idempotency-key" = Ok (Some key)) as E1
    by (apply visible_value; [reflexivity|done]).
  assert (optional_metadata_value md "x-request-hash" = Ok (Some hash)) as E2
    by (apply visible_value; [reflexivity|done]).
  unfold idempotency_from_metadata, validate_required_idempotency_metadata.
  rewrite E1, E2. cbn [mbind result_bind fmap option_fmap option_map from_option id]. split; [done|].
  unfold is_blank. destruct (is_empty (trim key)), (is_empty (trim hash)); cbn; intuition congruence.
Qed.
End server.

(** The SDK clamps a page size to the one the server uses. *)
Lemma clamp_is_normalize n : clamp_discovery_page_size n = normalize_page_size n.
Proof. reflexivity. Qed.

(** A trace id in upper case with dashes; the span is generated. *)
Lemma trace_id_reaches_server_witness :
  ∃ md, create_traceparent_metadata 4321 "0AF76519-16cd-43dd-8448-eb211c80319c" None 7 = (8, Ok md)
        ∧ trace_id_from_metadata md = Ok "0af7651916cd43dd8448eb211c80319c".
Proof.
  eexists. split; [vm_compute; reflexivity|].
  apply (trace_id_reaches_server (H := sample_externals) (λ s _, eq_refl) 4321 "0AF76519-16cd-43dd-8448-eb211c80319c" None 7 8).
  vm_compute. reflexivity.
Defined.
