(* ===== verification/HealthChecker.v ===== *)
(** * Health checker (health-checker: checker.rs)

    One probe of an endpoint.  The network is a parameter: an operation completes after some
    nanoseconds with a result, or never does.  A [Result] of the clients carries the text of
    its error. *)
From S2P Require Import Prelude RustStr Contract.

(** A future: [None] never completes. *)
Definition Future (A : Type) : Type := option (N * A).

(** [tokio::time::timeout]: the time that passed and the outcome, [None] on expiry. *)
Definition timeout {A} (duration : N) (f : Future A) : N * option A :=
  match f with
  | Some (t, a) => if t <=? duration then (t, Some a) else (duration, None)
  | None => (duration, None)
  end.

(** The clients of [tokio], [reqwest] and [tonic]; durations are in nanoseconds. *)
Class ProbeClients : Type := {
  Channel : Type;
  tcp_connect : string → Future (Result string ());
  http_client : N → Result string ();
  http_get_status : N → string → Future (Result string N);
  grpc_endpoint : string → Result string ();
  grpc_connect : N → string → Future (Result string Channel);
  grpc_check : Channel → string → Future (Result string Z);
}.

Record HealthCheckResult : Type := {
  hr_healthy : bool;
  hr_latency_ms : N;
  hr_message : option string;
}.

Definition from_millis (ms : N) : N := ms * 1000000.

(** [ServingStatus::Serving]. *)
Definition SERVING : Z := 1.

Section checker.
Context `{ProbeClients}.

(** A step gives the time it took and its outcome. *)
Definition check_tcp (endpoint : string) (timeout_ms : N) : N * Result string () :=
  let duration := from_millis timeout_ms in
  let '(t, outcome) := timeout duration (tcp_connect endpoint) in
  (t, match outcome with
      | Some (Ok _) => Ok ()
      | Some (Err e) => Err ("TCP connection failed: " +:+ e)
      | None => Err "TCP connection timed out"
      end).

Definition check_http (endpoint path : string) (expected_status timeout_ms : N)
    : N * Result string () :=
  let url := "http://" +:+ endpoint +:+ path in
  let duration := from_millis timeout_ms in
  match http_client duration with
  | Err e => (0, Err ("Failed to create HTTP client: " +:+ e))
  | Ok _ =>
      let '(t, outcome) := timeout duration (http_get_status duration url) in
      (t, match outcome with
          | Some (Ok status) =>
              if status =? expected_status then Ok ()
              else Err ("HTTP status " +:+ show_N status +:+ " != expected "
                        +:+ show_N expected_status)
          | Some (Err e) => Err ("HTTP request failed: " +:+ e)
          | None => Err "HTTP request timed out"
          end)
  end.

Definition check_grpc (endpoint service_name : string) (timeout_ms : N) : N * Result string () :=
  let duration := from_millis timeout_ms in
  let uri := "http://" +:+ endpoint in
  match grpc_endpoint uri with
  | Err error => (0, Err ("invalid gRPC endpoint " +:+ uri +:+ ": " +:+ error))
  | Ok _ =>
      let '(t1, connected) := timeout duration (grpc_connect duration uri) in
      match connected with
      | None => (t1, Err ("gRPC connection to " +:+ endpoint +:+ " timed out"))
      | Some (Err error) => (t1, Err ("gRPC connection failed: " +:+ error))
      | Some (Ok channel) =>
          let '(t2, outcome) := timeout duration (grpc_check channel service_name) in
          (t1 + t2,
           match outcome with
           | Some (Ok status) =>
               if bool_decide (status = SERVING) then Ok ()
               else Err ("gRPC health status " +:+ pretty status +:+ " is not serving")
           | Some (Err error) => Err ("gRPC health RPC failed: " +:+ error)
           | None => Err "gRPC health check timed out"
           end)
      end
  end.

Definition check_health (endpoint : string) (probe : HealthCheckProbe) (timeout_ms : N)
    : HealthCheckResult :=
  let '(elapsed, result) :=
    match probe with
    | ProbeTcp => check_tcp endpoint timeout_ms
    | ProbeHttp path expected_status => check_http endpoint path expected_status timeout_ms
    | ProbeGrpc service_name => check_grpc endpoint service_name timeout_ms
    end in
  let latency_ms := (elapsed / 1000000) mod u64_modulus in
  match result with
  | Ok _ => {| hr_healthy := true; hr_latency_ms := latency_ms; hr_message := None |}
  | Err e => {| hr_healthy := false; hr_latency_ms := latency_ms; hr_message := Some e |}
  end.

(** ** What a healthy answer means *)

(** The operation completes in time with a result. *)
Definition answers {A} (duration : N) (f : Future (Result string A)) (a : A) : Prop :=
  ∃ t, f = Some (t, Ok a) ∧ t <= duration.

Definition endpoint_healthy (endpoint : string) (probe : HealthCheckProbe) (timeout_ms : N) : Prop :=
  let duration := from_millis timeout_ms in
  match probe with
  | ProbeTcp => answers duration (tcp_connect endpoint) ()
  | ProbeHttp path expected_status =>
      http_client duration = Ok ()
      ∧ answers duration (http_get_status duration ("http://" +:+ endpoint +:+ path)) expected_status
  | ProbeGrpc service_name =>
      grpc_endpoint ("http://" +:+ endpoint) = Ok ()
      ∧ ∃ channel, answers duration (grpc_connect duration ("http://" +:+ endpoint)) channel
                   ∧ answers duration (grpc_check channel service_name) SERVING
  end.

(** A gRPC probe waits twice: for the connection and for the answer. *)
Definition longest_wait_ms (probe : HealthCheckProbe) (timeout_ms : N) : N :=
  match probe with ProbeGrpc _ => 2 * timeout_ms | _ => timeout_ms end.

Lemma timeout_bound {A} d (f : Future A) : (timeout d f).1 <= d.
Proof. destruct f as [[t a]|]; cbn; [destruct (N.leb_spec t d)|]; cbn; lia. Qed.

Lemma timeout_Ok {A} d (f : Future (Result string A)) a :
  (timeout d f).2 = Some (Ok a) ↔ answers d f a.
Proof.
  unfold answers. destruct f as [[t r]|]; cbn.
  - destruct (N.leb_spec t d); cbn; split; try naive_solver. intros (? & [= -> ->] & ?). lia.
  - split; [done|]. by intros (? & ? & ?).
Qed.

Lemma check_tcp_spec endpoint ms :
  let r := check_tcp endpoint ms in
  r.1 <= from_millis ms ∧ (r.2 = Ok () ↔ endpoint_healthy endpoint ProbeTcp ms).
Proof.
  unfold check_tcp. cbn [endpoint_healthy].
  pose proof (timeout_bound (from_millis ms) (tcp_connect endpoint)) as Hb.
  rewrite <- timeout_Ok. destruct (timeout _ _) as [t [[[]|e]|]]; cbn in *; naive_solver.
Qed.

Lemma check_http_spec endpoint path expected ms :
  let r := check_http endpoint path expected ms in
  r.1 <= from_millis ms ∧ (r.2 = Ok () ↔ endpoint_healthy endpoint (ProbeHttp path expected) ms).
Proof.
  unfold check_http. cbn [endpoint_healthy].
  destruct (http_client (from_millis ms)) as [[]|e]; [|cbn; split; [lia|naive_solver]].
  set (f := http_get_status _ _). pose proof (timeout_bound (from_millis ms) f) as Hb.
  rewrite <- timeout_Ok. destruct (timeout _ f) as [t [[status|e]|]]; cbn in *;
    [destruct (N.eqb_spec status expected)|..]; naive_solver.
Qed.

Lemma check_grpc_spec endpoint service ms :
  let r := check_grpc endpoint service ms in
  r.1 <= 2 * from_millis ms ∧ (r.2 = Ok () ↔ endpoint_healthy endpoint (ProbeGrpc service) ms).
Proof.
  unfold check_grpc. cbn [endpoint_healthy].
  destruct (grpc_endpoint _) as [[]|e]; [|cbn; split; [lia|naive_solver]].
  set (f := grpc_connect _ _). pose proof (timeout_bound (from_millis ms) f) as Hb.
  setoid_rewrite <- (timeout_Ok _ f). destruct (timeout _ f) as [t1 [[channel|e]|]]; cbn [fst snd] in *;
    [|(split; [lia|naive_solver])..].
  pose proof (timeout_bound (from_millis ms) (grpc_check channel service)) as Hb2.
  assert ((Ok () = Ok (E:=string) () ∧ ∃ ch, Some (Ok (E:=string) channel) = Some (Ok ch)
             ∧ answers (from_millis ms) (grpc_check ch service) SERVING)
          ↔ (timeout (from_millis ms) (grpc_check channel service)).2 = Some (Ok SERVING)) as ->
    by (rewrite timeout_Ok; naive_solver).
  destruct (timeout _ (grpc_check channel service)) as [t2 [[status|e]|]]; cbn [fst snd] in *;
    (split; [lia|]); [case_bool_decide|..]; naive_solver.
Qed.

Lemma check_health_spec endpoint probe timeout_ms :
  let r := check_health endpoint probe timeout_ms in
  hr_latency_ms r <= longest_wait_ms probe timeout_ms
  ∧ (hr_healthy r = true ↔ endpoint_healthy endpoint probe timeout_ms)
  ∧ (hr_healthy r = true ↔ hr_message r = None).
Proof.
  unfold check_health.
  enough (∃ elapsed result,
    match probe with
    | ProbeTcp => check_tcp endpoint timeout_ms
    | ProbeHttp path expected_status => check_http endpoint path expected_status timeout_ms
    | ProbeGrpc service_name => check_grpc endpoint service_name timeout_ms
    end = (elapsed, result)
    ∧ elapsed / 1000000 <= longest_wait_ms probe timeout_ms
    ∧ (result = Ok () ↔ endpoint_healthy endpoint probe timeout_ms)) as (el & r & -> & He & <-).
  { pose proof (N.Div0.mod_le (el / 1000000) u64_modulus).
    destruct r as [[]|e]; cbn -[N.div N.modulo u64_modulus]; split_and!; (lia || naive_solver). }
  assert (∀ a b, a <= b * 1000000 → a / 1000000 <= b) as Hdiv
    by (intros a b Hab; apply N.Div0.div_le_upper_bound; lia).
  destruct probe as [|path expected|service]; cbn [longest_wait_ms];
    [pose proof (check_tcp_spec endpoint timeout_ms) as [Hb Hs]
    |pose proof (check_http_spec endpoint path expected timeout_ms) as [Hb Hs]
    |pose proof (check_grpc_spec endpoint service timeout_ms) as [Hb Hs]];
    (eexists _, _; split; [apply surjective_pairing|]; split; [apply Hdiv|exact Hs]);
    unfold from_millis in Hb; lia.
Qed.

Lemma check_health_latency endpoint probe timeout_ms :
  hr_latency_ms (check_health endpoint probe timeout_ms) <= longest_wait_ms probe timeout_ms.
Proof. apply check_health_spec. Qed.

Lemma check_health_healthy endpoint probe timeout_ms :
  hr_healthy (check_health endpoint probe timeout_ms) = true
  ↔ endpoint_healthy endpoint probe timeout_ms.
Proof. apply check_health_spec. Qed.

(** C40: for every network, a probe ends within its time limit, twice that for gRPC, and it
    reports a healthy endpoint, without a message, exactly when the endpoint gave the expected
    answer in time: a connection, the expected HTTP status, or a gRPC connection and a
    SERVING status. *)
Theorem probe_is_timely_and_exact endpoint probe timeout_ms :
  let r := check_health endpoint probe timeout_ms in
  hr_latency_ms r <= longest_wait_ms probe timeout_ms
  ∧ (hr_healthy r = true ↔ endpoint_healthy endpoint probe timeout_ms)
  ∧ (hr_healthy r = true ↔ hr_message r = None).
Proof. apply check_health_spec. Qed.
End checker.
