(* ===== verification/Encryption.v ===== *)
(** * Encrypted values and namespaces (contract: encryption.rs, namespace.rs)

    The storage form of an encrypted value, the encryptor that leaves values in the clear,
    and the namespace store.  The base64 codec of [sdkwork_utils_rust] is a parameter; a
    vector of bytes is the string of these bytes. *)
From S2P Require Import Prelude RustStr Collections Contract.
From Stdlib Require Import Ascii.

(** ** Values *)

Inductive EncryptionAlgorithm : Type := Aes256Gcm.

Record EncryptionConfig : Type := {
  ec_enabled : bool;
  ec_algorithm : EncryptionAlgorithm;
  ec_key_file : option string;
}.

Definition default_encryption_config : EncryptionConfig :=
  {| ec_enabled := false; ec_algorithm := Aes256Gcm; ec_key_file := None |}.

Record EncryptedValue : Type := {
  ev_algorithm : EncryptionAlgorithm;
  ev_nonce : string;
  ev_ciphertext : string;
}.

(** [s.splitn(n, c)]: at most [n] fields, the last one holds the rest. *)
Fixpoint split_once (c : ascii) (s : string) : option (string * string) :=
  match s with
  | "" => None
  | String a s' =>
      if bool_decide (a = c) then Some ("", s')
      else match split_once c s' with Some (x, y) => Some (String a x, y) | None => None end
  end.

Fixpoint splitn (n : nat) (c : ascii) (s : string) : list string :=
  match n with
  | O => []
  | S O => [s]
  | S k => match split_once c s with Some (x, y) => x :: splitn k c y | None => [s] end
  end.

Class Base64 : Type := {
  base64_encode : string → string;
  base64_decode : string → option string;
}.

Section storage.
Context `{Base64}.

Definition to_storage_string (v : EncryptedValue) : string :=
  let nonce_b64 := base64_encode (ev_nonce v) in
  let ciphertext_b64 := base64_encode (ev_ciphertext v) in
  "encrypted:aes-256-gcm:" +:+ nonce_b64 +:+ ":" +:+ ciphertext_b64.

Definition from_storage_string (s : string) : option EncryptedValue :=
  match splitn 4 ":" s with
  | [p0; p1; p2; p3] =>
      if bool_decide (p0 = "encrypted") && bool_decide (p1 = "aes-256-gcm") then
        nonce ← base64_decode p2;
        ciphertext ← base64_decode p3;
        Some {| ev_algorithm := Aes256Gcm; ev_nonce := nonce; ev_ciphertext := ciphertext |}
      else None
  | _ => None
  end.

Definition is_encrypted (s : string) : bool := starts_with s "encrypted:aes-256-gcm:".
End storage.

(** ** Encryptors *)

(** The trait [ConfigEncryptor]. *)
Class ConfigEncryptor (T : Type) : Type := {
  encrypt : T → string → Result string EncryptedValue;
  decrypt : T → EncryptedValue → Result string string;
  is_enabled : T → bool;
}.

Inductive NoopConfigEncryptor : Type := Noop.

(** [vec![0; 12]]. *)
Fixpoint zero_bytes (n : nat) : string :=
  match n with O => "" | S k => String "000" (zero_bytes k) end.

#[export] Instance noop_encryptor : ConfigEncryptor NoopConfigEncryptor := {|
  encrypt _ plaintext :=
    Ok {| ev_algorithm := Aes256Gcm; ev_nonce := zero_bytes 12; ev_ciphertext := plaintext |};
  decrypt _ encrypted := Ok (ev_ciphertext encrypted);
  is_enabled _ := false;
|}.

(** ** Namespaces *)

Record NamespaceConfig : Type := {
  ns_namespace : string;
  ns_max_instances : option N;
  ns_max_services : option N;
  ns_max_config_releases : option N;
  ns_allowed_writers : list string;
  ns_allowed_readers : list string;
}.

Record NamespaceQuotaStatus : Type := {
  nq_namespace : string;
  nq_current_instances : N;
  nq_max_instances : option N;
  nq_current_services : N;
  nq_max_services : option N;
}.

Abbreviation MemoryNamespaceStore := (gmap string NamespaceConfig).

Definition namespaces_new : MemoryNamespaceStore := ∅.

Definition create_namespace (config : NamespaceConfig) : Eff DiscoveryError MemoryNamespaceStore () :=
  modify (λ s, <[ns_namespace config := config]> s).

Definition get_namespace (namespace : string)
    : Eff DiscoveryError MemoryNamespaceStore (option NamespaceConfig) :=
  gets (λ s, s !! namespace).

Definition update_namespace (config : NamespaceConfig) : Eff DiscoveryError MemoryNamespaceStore () :=
  modify (λ s, <[ns_namespace config := config]> s).

Definition delete_namespace (namespace : string) : Eff DiscoveryError MemoryNamespaceStore bool :=
  λ s, (delete namespace s, Ok (bool_decide (is_Some (s !! namespace)))).

Definition list_namespaces `{HashOrder}
    : Eff DiscoveryError MemoryNamespaceStore (list NamespaceConfig) :=
  gets hash_values.

Definition check_instance_quota (_namespace : string) : Eff DiscoveryError MemoryNamespaceStore bool :=
  mret true.

Definition check_service_quota (_namespace : string) : Eff DiscoveryError MemoryNamespaceStore bool :=
  mret true.

(** ** Theorems *)

Lemma split_once_app c a b : contains_char c a = false → split_once c (a +:+ String c b) = Some (a, b).
Proof.
  induction a as [|x a IH]; cbn [contains_char].
  - intros _. simpl. by rewrite bool_decide_true.
  - intros [Hx Ha]%orb_false_iff. simpl. by rewrite Hx, IH.
Qed.

Lemma split_once_Some c s a b : split_once c s = Some (a, b) → s = a +:+ String c b.
Proof.
  revert a b. induction s as [|x s IH]; [done|]. intros a b. simpl. case_bool_decide as E.
  - intros [= <- <-]. by subst x.
  - destruct (split_once c s) as [[p q]|]; [|done]. intros [= <- <-]. by rewrite (IH p q).
Qed.

Section envelope.
Context `{Base64}.
Context (decode_encode : ∀ b, base64_decode (base64_encode b) = Some b).
Context (encode_no_colon : ∀ b, contains_char ":" (base64_encode b) = false).

Lemma storage_parts v :
  splitn 4 ":" (to_storage_string v)
  = ["encrypted"; "aes-256-gcm"; base64_encode (ev_nonce v); base64_encode (ev_ciphertext v)].
Proof.
  unfold to_storage_string.
  change ("encrypted:aes-256-gcm:" +:+ ?x)
    with ("encrypted" +:+ String ":" ("aes-256-gcm" +:+ String ":" x)).
  change (":" +:+ ?x) with (String ":" x).
  unfold splitn. by rewrite !split_once_app by (done || apply encode_no_colon).
Qed.

(** A value survives its storage form, which is recognised as encrypted; whatever the
    reader accepts is recognised as encrypted; and an encryptor whose [decrypt] undoes its
    [encrypt] gives a plaintext back after storage. *)
Theorem storage_form_round_trip :
  (∀ v, from_storage_string (to_storage_string v) = Some v ∧ is_encrypted (to_storage_string v) = true)
  ∧ (∀ s v, from_storage_string s = Some v → is_encrypted s = true)
  ∧ (∀ T `(ConfigEncryptor T) (t : T) plaintext v,
       (∀ p w, encrypt t p = Ok w → decrypt t w = Ok p) →
       encrypt t plaintext = Ok v →
       ∃ w, from_storage_string (to_storage_string v) = Some w ∧ decrypt t w = Ok plaintext).
Proof.
  assert (∀ v, from_storage_string (to_storage_string v) = Some v) as Hround.
  { intros [[] nonce text]. unfold from_storage_string. rewrite storage_parts.
    rewrite !bool_decide_true by done. cbn [andb ev_nonce ev_ciphertext]. by rewrite !decode_encode. }
  split_and!.
  - intros v. split; [apply Hround|]. unfold is_encrypted, to_storage_string. apply starts_with_app.
  - intros s v. unfold from_storage_string, splitn.
    destruct (split_once ":" s) as [[a s1]|] eqn:E1; [|done].
    destruct (split_once ":" s1) as [[b s2]|] eqn:E2; [|done].
    destruct (split_once ":" s2) as [[c d]|] eqn:E3; [|done].
    destruct (bool_decide_reflect (a = "encrypted")) as [->|]; [|done].
    destruct (bool_decide_reflect (b = "aes-256-gcm")) as [->|]; [|done]. intros _.
    apply split_once_Some in E1 as ->. apply split_once_Some in E2 as ->. reflexivity.
  - intros T ? t p v Hinv He. exists v. split; [apply Hround|by apply Hinv].
Qed.
End envelope.

(** A codec that writes a byte as two letters. *)
Fixpoint letters_of (s : string) : string :=
  match s with
  | "" => ""
  | String a s' =>
      String (ascii_of_N (97 + byte_at a / 16)) (String (ascii_of_N (97 + byte_at a mod 16)) (letters_of s'))
  end.

Fixpoint of_letters (s : string) : option string :=
  match s with
  | "" => Some ""
  | String x (String y s') =>
      rest ← of_letters s'; Some (String (ascii_of_N ((byte_at x - 97) * 16 + (byte_at y - 97))) rest)
  | _ => None
  end.

#[export] Instance letters_base64 : Base64 :=
  {| base64_encode := letters_of; base64_decode := of_letters |}.

Lemma letters_exact s : of_letters (letters_of s) = Some s.
Proof.
  induction s as [|a s IH]; [done|]. cbn [letters_of of_letters]. rewrite IH. cbn [mbind option_bind].
  do 2 f_equal. by destruct a as [[] [] [] [] [] [] [] []].
Qed.

Lemma letters_no_colon s : contains_char ":" (letters_of s) = false.
Proof.
  induction s as [|a s IH]; [done|]. cbn [letters_of contains_char]. rewrite IH.
  by destruct a as [[] [] [] [] [] [] [] []].
Qed.

Lemma storage_form_round_trip_witness :
  ∃ v w, encrypt Noop "secret" = Ok v ∧ from_storage_string (to_storage_string v) = Some w
         ∧ decrypt Noop w = Ok "secret".
Proof.
  destruct (storage_form_round_trip (H := letters_base64) letters_exact letters_no_colon) as (_ & _ & Hround).
  destruct (Hround NoopConfigEncryptor noop_encryptor Noop "secret"
              {| ev_algorithm := Aes256Gcm; ev_nonce := zero_bytes 12; ev_ciphertext := "secret" |})
    as (w & Hw & Hd).
  - intros p v E. injection E as <-. reflexivity.
  - reflexivity.
  - eexists _, w. split; [reflexivity|]. split; [exact Hw|exact Hd].
Defined.

(** ** Where the pieces fall short *)

(** A text can be recognised as encrypted and still be refused by the reader. *)
Lemma recognised_but_refused `{Base64} :
  is_encrypted "encrypted:aes-256-gcm:plain" = true
  ∧ from_storage_string "encrypted:aes-256-gcm:plain" = None.
Proof. by split. Qed.

(** The encryptor that does nothing labels the plaintext as AES-256-GCM. *)
Lemma noop_labels_plaintext `{Base64} plaintext :
  ∃ v, encrypt Noop plaintext = Ok v ∧ ev_ciphertext v = plaintext
       ∧ is_encrypted (to_storage_string v) = true.
Proof.
  eexists. split_and!; [reflexivity|reflexivity|].
  unfold is_encrypted, to_storage_string. apply starts_with_app.
Qed.

(** Creating a namespace that exists succeeds and replaces its configuration, and no limit
    of a configuration is ever consulted. *)
Lemma create_replaces config s :
  ∃ s', create_namespace config s = (s', Ok ())
        ∧ (get_namespace (ns_namespace config) s').2 = Ok (Some config)
        ∧ (∀ other, other ≠ ns_namespace config → (get_namespace other s').2 = (get_namespace other s).2)
        ∧ (check_instance_quota (ns_namespace config) s').2 = Ok true.
Proof.
  eexists. split_and!; [reflexivity|cbn; by rewrite lookup_insert_eq| |reflexivity].
  intros other Hne. cbn. by rewrite lookup_insert_ne.
Qed.
