(* ===== verification/Observed.v ===== *)
(** * Handlers as an observer sees them (rpc: services.rs, error.rs, metrics.rs)

    The unary handlers with what [Services] leaves out: the statuses carry the correlation
    metadata of the call, every outcome is recorded in the metrics guard, and the future of
    a call can be dropped while it waits for the runtime.  The theorems say that nothing of
    this changes the answer, and that the metrics tell which answer it was. *)
From S2P Require Import Prelude RustStr Collections Contract StorageContract RpcContext Proto.
From S2P Require Import Codec ControlPlane Resilience Actor WatchStream Services RpcContract Metrics.

(** ** Statuses with metadata (error.rs) *)

Record WireStatus : Type := {
  wi_status : Status;
  wi_metadata : gmap string string;
}.

(** How a call ends without an answer: with a status, or dropped by its client or its
    deadline. *)
Inductive Ending : Type :=
| EndStatus (s : WireStatus)
| EndDropped.

Section status.
(** [str::parse] to a metadata value of [tonic]: the header value, when it is one. *)
Context (parse_value : string → option string).

Definition insert_value (key value : string) (metadata : gmap string string) : gmap string string :=
  if is_empty value then metadata
  else match parse_value value with
       | Some v => <[key := v]> metadata
       | None => metadata
       end.

Definition attach_correlation_metadata (status : WireStatus) (request_id trace_id : string)
    : WireStatus :=
  {| wi_status := wi_status status;
     wi_metadata := insert_value "x-request-id" request_id
                      (insert_value "x-trace-id" trace_id (wi_metadata status)) |}.

(** [map_discovery_error_to_rpc_status]. *)
Definition rpc_status (error : DiscoveryError) (request_id trace_id : string) : WireStatus :=
  attach_correlation_metadata
    {| wi_status := map_discovery_error_to_rpc_status error; wi_metadata := ∅ |}
    request_id trace_id.

Definition map_discovery_error_to_status (error : DiscoveryError) : WireStatus :=
  rpc_status error "" "".
End status.

(** ** Calls *)

(** A call of the runtime (actor.rs: [send], then [receive]) is a future with two points
    where it waits: until the mailbox of the actor has room for the command, and until the
    actor has answered through the one-shot channel.  It may be dropped at either, when
    the deadline passes or the client goes away. *)
Inductive CallEvent : Type :=
| MailboxTakes   (** [sender.send] completes *)
| ActorServes    (** the actor takes the command, runs it, and sends the response *)
| FuturePolled   (** [receiver] finds the response *)
| FutureDropped.

(** Where the call is: the command is still in the future; it is in the mailbox; the
    response is in the channel; the handler has it; the future was dropped with the
    command; the command is in the mailbox and nobody waits; it was run for nobody. *)
Inductive CallPhase : Type :=
| Sending | Waiting | Answering | Finished | Cancelled | Orphaned | Abandoned.

Definition phase_step (phase : CallPhase) (event : CallEvent) : CallPhase :=
  match phase, event with
  | Sending, MailboxTakes => Waiting
  | Sending, FutureDropped => Cancelled
  | Waiting, ActorServes => Answering
  | Waiting, FutureDropped => Orphaned
  | Answering, FuturePolled => Finished
  | Answering, FutureDropped => Abandoned
  | Orphaned, ActorServes => Abandoned
  | phase, _ => phase
  end.

(** The step on which the actor runs the command. *)
Definition runs_command (phase : CallPhase) (event : CallEvent) : bool :=
  match phase, event with (Waiting | Orphaned), ActorServes => true | _, _ => false end.

(** What happened is over when the future is gone and the mailbox served. *)
Definition settled (schedule : list CallEvent) : list CallEvent :=
  schedule ++ [FutureDropped; ActorServes].

(** What became of a call. *)
Inductive Fate : Type := Answered | DroppedBeforeSend | DroppedAfterSend.

Definition fate_of (schedule : list CallEvent) : Fate :=
  match foldl phase_step Sending (settled schedule) with
  | Finished => Answered
  | Cancelled => DroppedBeforeSend
  | _ => DroppedAfterSend
  end.

Section call.
Context {A R : Type} (run : Op A R).

(** The actor, the phase of the call, and the response once there is one. *)
Definition call_step (x : A * CallPhase * option (DiscoveryResult R)) (event : CallEvent)
    : A * CallPhase * option (DiscoveryResult R) :=
  let '(a, phase, response) := x in
  if runs_command phase event
  then let '(a', r) := run a in (a', phase_step phase event, Some r)
  else (a, phase_step phase event, response).

Definition runtime_call (schedule : list CallEvent) (a : A)
    : A * CallPhase * option (DiscoveryResult R) :=
  foldl call_step (a, Sending, None) (settled schedule).

(** Whether the command has been run when the call is in this phase. *)
Definition has_run (phase : CallPhase) : bool :=
  match phase with Answering | Finished | Abandoned => true | _ => false end.

Lemma call_steps a es phase :
  foldl call_step
    (if has_run phase then (run a).1 else a, phase, if has_run phase then Some (run a).2 else None) es
  = (if has_run (foldl phase_step phase es) then (run a).1 else a, foldl phase_step phase es,
     if has_run (foldl phase_step phase es) then Some (run a).2 else None).
Proof.
  revert phase. induction es as [|e es IH]; intros phase; [done|]. simpl.
  rewrite <- (IH (phase_step phase e)). f_equal.
  destruct phase, e; simpl; by destruct (run a).
Qed.

(** A call in transit when the future is gone and the mailbox served has ended. *)
Lemma phases_settle schedule :
  let phase := foldl phase_step Sending (settled schedule) in
  phase = Finished ∨ phase = Cancelled ∨ phase = Abandoned.
Proof.
  unfold settled. rewrite foldl_app. simpl.
  destruct (foldl phase_step Sending schedule); simpl; tauto.
Qed.

(** The actor and the answer of a call, by its fate: a call that was dropped before the
    mailbox took it has not touched the actor; one dropped later has been carried out. *)
Lemma runtime_call_fate schedule a :
  runtime_call schedule a =
  match fate_of schedule with
  | Answered => ((run a).1, Finished, Some (run a).2)
  | DroppedBeforeSend => (a, Cancelled, None)
  | DroppedAfterSend => ((run a).1, Abandoned, Some (run a).2)
  end.
Proof.
  unfold runtime_call, fate_of. pose proof (call_steps a (settled schedule) Sending) as E.
  simpl in E. rewrite E. destruct (phases_settle schedule) as [->|[->| ->]]; done.
Qed.
End call.

(** The runtime, the process and the guard of the call. *)
Record CallWorld (S : Type) : Type := {
  cw_actor : Actor S;
  cw_process : Process;
  cw_guard : RpcMetricsGuard;
}.
Arguments cw_actor {S} _.
Arguments cw_process {S} _.
Arguments cw_guard {S} _.
Arguments Build_CallWorld {S} _ _ _.

(** Package, service, method and operation of a handler. *)
Record MethodId : Type := {
  id_package : string;
  id_service : string;
  id_method : string;
  id_operation : string;
}.

Section observed.
Context {S : Type} `{RegistryStore S, ConfigStore S, WatchEventStore S, ConfigParsers}.
Context `{HashOrder, RpcExternals}.
Context (debug_str : string → string) (parse_value : string → option string).
Context (env : CallEnv) (policy : RpcContextPolicy) (metadata : gmap string string).
(** What happens while the runtime is asked, and the time from the start of the call to
    its outcome. *)
Context (schedule : list CallEvent) (delay : N).

Abbreviation Handler := (Eff Ending (CallWorld S)).

Definition on_process (f : Process → Process) : Handler () := modify (λ w,
  {| cw_actor := cw_actor w; cw_process := f (cw_process w); cw_guard := cw_guard w |}).

Definition on_guard (f : RpcMetricsGuard → Process → RpcMetricsGuard * Process) : Handler () :=
  modify (λ w, let '(g, p) := f (cw_guard w) (cw_process w) in
    {| cw_actor := cw_actor w; cw_process := p; cw_guard := g |}).

Definition record_guard_rpc_error (error : DiscoveryError) : Handler () :=
  on_guard (λ g, guard_record_error g (grpc_status_code_for_discovery_error error)
                   (kind_string error)).

(** [map_guard_rpc_err] as the error branch of a step. *)
Definition map_guard_rpc_err {A} (ids : string * string) (error : DiscoveryError) : Handler A :=
  record_guard_rpc_error error;;
  fail (EndStatus (rpc_status parse_value error ids.1 ids.2)).

Definition guarded {A} (ids : string * string) (r : DiscoveryResult A) : Handler A :=
  match r with Ok a => mret a | Err error => map_guard_rpc_err ids error end.

(** The identifiers; their errors are not recorded. *)
Definition correlate : Handler (string * string) :=
  request_id ←
    match request_id_from_metadata (ce_generated env) metadata with
    | Ok request_id => mret request_id
    | Err error => fail (EndStatus (map_discovery_error_to_status parse_value error))
    end;
  trace_id ←
    match trace_id_from_metadata metadata with
    | Ok trace_id => mret trace_id
    | Err error => fail (EndStatus (rpc_status parse_value error request_id ""))
    end;
  mret (request_id, trace_id).

Section method.
Context (id : MethodId).

(** [RpcMetricsGuard::new]; [delay] passes until the outcome. *)
Definition start_guard : Handler () := modify (λ w,
  {| cw_actor := cw_actor w; cw_process := wait delay (cw_process w);
     cw_guard := guard_new (id_package id) (id_service id) (id_method id) (id_operation id)
                   (cw_process w) |}).

(** The end of the scope of the guard. *)
Definition end_scope (w : CallWorld S) : CallWorld S :=
  {| cw_actor := cw_actor w; cw_process := guard_drop (cw_guard w) (cw_process w);
     cw_guard := {| mg_inner := None |} |}.

Definition scoped {A} (m : Handler A) : Handler A := λ w, let '(w, r) := m w in (end_scope w, r).

Definition authenticate {A} (ids : string * string) (r : DiscoveryResult A) : Handler A :=
  match r with
  | Ok a => mret a
  | Err error =>
      on_process (record_auth_failure (id_package id) (id_service id) (id_method id));;
      map_guard_rpc_err ids error
  end.

(** The call of the runtime and the arms of its [match]: the outcome is recorded, then the
    answer is built. *)
Definition await_runtime {R A} (ids : string * string) (run : Op (Actor S) R)
    (respond : R → DiscoveryResult A) : Handler A := λ w,
  let on_actor a := {| cw_actor := a; cw_process := cw_process w; cw_guard := cw_guard w |} in
  let '(a, phase, response) := runtime_call run schedule (cw_actor w) in
  match phase, response with
  | Finished, Some r =>
      match r ≫= respond with
      | Ok answer => (on_guard (λ g, guard_record_success g "OK");; mret answer) (on_actor a)
      | Err error => map_guard_rpc_err ids error (on_actor a)
      end
  | _, _ => (on_actor a, Err EndDropped)
  end.

(** A handler: the identifiers, then its body in the scope of the guard. *)
Definition unary {A} (body : string * string → Handler A) : Handler A :=
  ids ← correlate;
  start_guard;;
  scoped (body ids).
End method.

Definition registry_method (m operation : string) : MethodId :=
  {| id_package := "sdkwork.discovery.internal.v1"; id_service := "RegistryService";
     id_method := m; id_operation := operation |}.
Definition config_method (m operation : string) : MethodId :=
  {| id_package := "sdkwork.discovery.internal.v1"; id_service := "DiscoveryConfigService";
     id_method := m; id_operation := operation |}.
Definition admin_method (m operation : string) : MethodId :=
  {| id_package := "sdkwork.discovery.backend.v3"; id_service := "DiscoveryAdminService";
     id_method := m; id_operation := operation |}.

(** ** The handlers *)

Definition observed_register_instance (request : RegisterInstanceRequest) : Handler RegisterInstanceResponse :=
  let id := registry_method "RegisterInstance" "discovery.registry.instances.register" in
  unary id (λ ids,
    caller ← authenticate id ids (caller_from_metadata (ce_clock env) metadata policy);
    command ← guarded ids (register_instance_command request (ce_decode_ms env));
    await_runtime ids (runtime_register_instance debug_str (ce_at env) caller command)
      (λ result, Ok (register_instance_response (ce_answer_ms env) ids.1 ids.2 result))).

Definition observed_batch_register_instances (requests : list RegisterInstanceRequest)
    : Handler BatchRegisterInstancesResponse :=
  let id := registry_method "BatchRegisterInstances" "discovery.registry.instances.batch_register" in
  unary id (λ ids,
    caller ← authenticate id ids (caller_from_metadata (ce_clock env) metadata policy);
    commands ← guarded ids (batch_register_instances_commands requests (ce_decode_ms env));
    await_runtime ids (runtime_batch_register_instances debug_str (ce_at env) caller commands)
      (λ result, Ok (batch_register_instances_response (ce_answer_ms env) ids.1 ids.2 result))).

Definition observed_renew_lease (request : RenewLeaseRequest) : Handler RenewLeaseResponse :=
  let id := registry_method "RenewLease" "discovery.registry.leases.renew" in
  unary id (λ ids,
    caller ← authenticate id ids (caller_from_metadata (ce_clock env) metadata policy);
    command ← guarded ids (renew_lease_command request (ce_decode_ms env));
    await_runtime ids (runtime_renew_lease debug_str (ce_at env) caller command)
      (λ result, Ok (renew_lease_response (ce_answer_ms env) ids.1 ids.2 result))).

Definition observed_deregister_instance (request : InstanceRequest) : Handler DeregisterInstanceResponse :=
  let id := registry_method "DeregisterInstance" "discovery.registry.instances.deregister" in
  unary id (λ ids,
    caller ← authenticate id ids (caller_from_metadata (ce_clock env) metadata policy);
    request ← guarded ids (deregister_instance_request request);
    await_runtime ids
      (runtime_deregister_instance debug_str (ce_at env) caller (ir_namespace request)
         (ir_environment request) (ir_service_name request) (ir_instance_id request)
         (ce_call_ms env))
      (λ result, Ok {| deo_metadata := Some (response_metadata (ce_answer_ms env)
                                               (dr_revision result) ids.1 ids.2) |})).

Definition observed_report_instance_status (request : ReportInstanceStatusRequest)
    : Handler ReportInstanceStatusResponse :=
  let id := registry_method "ReportInstanceStatus" "discovery.registry.instances.status.report" in
  unary id (λ ids,
    caller ← authenticate id ids (caller_from_metadata (ce_clock env) metadata policy);
    command ← guarded ids (report_status_command request (ce_decode_ms env));
    await_runtime ids (runtime_report_instance_status debug_str (ce_at env) caller command)
      (λ result, Ok {| rso_metadata := report_status_response (ce_answer_ms env) ids.1 ids.2 result |})).

Definition observed_retrieve_instance (request : InstanceRequest) : Handler RetrieveInstanceResponse :=
  let id := registry_method "RetrieveInstance" "discovery.registry.instances.retrieve" in
  unary id (λ ids,
    caller ← authenticate id ids (registry_reader_from_metadata (ce_clock env) metadata policy);
    query ← guarded ids (retrieve_instance_query request);
    await_runtime ids (runtime_retrieve_instance debug_str (ce_at env) caller query (ce_call_ms env))
      (λ result, match result with
                 | Some instance =>
                     Ok (retrieve_instance_response (ce_answer_ms env) ids.1 ids.2 instance)
                 | None => Err (NotFound "service instance not found")
                 end)).

Definition observed_discover_instances (request : DiscoverInstancesRequest)
    : Handler DiscoverInstancesResponse :=
  let id := registry_method "DiscoverInstances" "discovery.registry.instances.discover" in
  unary id (λ ids,
    caller ← authenticate id ids (caller_from_metadata (ce_clock env) metadata policy);
    query ← guarded ids (discover_instances_query request);
    await_runtime ids (runtime_discover_instances debug_str (ce_at env) caller query (ce_call_ms env))
      (λ result, Ok (discover_instances_response (ce_answer_ms env) ids.1 ids.2 result))).

Definition observed_retrieve_effective_config (request : RetrieveEffectiveConfigRequest)
    : Handler RetrieveEffectiveConfigResponse :=
  let id := config_method "RetrieveEffectiveConfig" "discovery.config.effective.retrieve" in
  unary id (λ ids,
    caller ← authenticate id ids (caller_from_metadata (ce_clock env) metadata policy);
    query ← guarded ids (retrieve_effective_config_query request);
    await_runtime ids (runtime_retrieve_effective_config debug_str (ce_at env) caller query)
      (λ result, Ok (retrieve_effective_config_response (ce_answer_ms env) ids.1 ids.2 result))).

Definition observed_create_config_draft (request : CreateConfigDraftRequest)
    : Handler CreateConfigDraftResponse :=
  let id := admin_method "CreateConfigDraft" "discovery.config.drafts.create" in
  unary id (λ ids,
    idempotency ← guarded ids (idempotency_from_metadata metadata "discovery.config.drafts.create");
    caller ← authenticate id ids
      (caller_from_metadata_with_required_idempotency (ce_clock env) metadata policy);
    command ← guarded ids (create_config_draft_command request (subject_id caller) idempotency);
    await_runtime ids (runtime_create_config_draft debug_str (ce_at env) caller command)
      (λ draft, Ok (create_config_draft_response (ce_answer_ms env) ids.1 ids.2
                      (cd_draft_id draft) (cd_content_hash draft)))).

Definition observed_publish_config (draft_id : string) : Handler PublishConfigResponse :=
  let id := admin_method "PublishConfig" "discovery.config.releases.publish" in
  unary id (λ ids,
    idempotency ← guarded ids (idempotency_from_metadata metadata "discovery.config.releases.publish");
    caller ← authenticate id ids
      (caller_from_metadata_with_required_idempotency (ce_clock env) metadata policy);
    command ← guarded ids (publish_config_command draft_id (subject_id caller) (ce_decode_ms env)
                             idempotency);
    await_runtime ids (runtime_publish_config debug_str (ce_at env) caller command)
      (λ release, Ok (publish_config_response (ce_answer_ms env) ids.1 ids.2 release))).

Definition observed_rollback_config (source_release_id : string) : Handler RollbackConfigResponse :=
  let id := admin_method "RollbackConfig" "discovery.config.releases.rollback" in
  unary id (λ ids,
    idempotency ← guarded ids (idempotency_from_metadata metadata "discovery.config.releases.rollback");
    caller ← authenticate id ids
      (caller_from_metadata_with_required_idempotency (ce_clock env) metadata policy);
    command ← guarded ids (rollback_config_command source_release_id (subject_id caller)
                             (ce_decode_ms env) idempotency);
    await_runtime ids (runtime_rollback_config debug_str (ce_at env) caller command)
      (λ release, Ok (rollback_config_response (ce_answer_ms env) ids.1 ids.2 release))).

Definition observed_list_services (request : ListServicesRequest) : Handler ListServicesResponse :=
  let id := admin_method "ListServices" "discovery.registry.services.list" in
  unary id (λ ids,
    caller ← authenticate id ids (caller_from_metadata (ce_clock env) metadata policy);
    query ← guarded ids (list_services_query request);
    await_runtime ids (runtime_list_services debug_str (ce_at env) caller query (ce_call_ms env))
      (λ result, Ok (list_services_response (ce_answer_ms env) ids.1 ids.2 result))).

Definition wrapped {A} (wrap : A → RpcResponse) (h : Handler A) : Handler RpcResponse :=
  r ← h; mret (wrap r).

Definition observed (r : RpcRequest) : Handler RpcResponse :=
  match r with
  | ReqRegister request => wrapped ResRegister (observed_register_instance request)
  | ReqBatchRegister requests => wrapped ResBatchRegister (observed_batch_register_instances requests)
  | ReqRenew request => wrapped ResRenew (observed_renew_lease request)
  | ReqDeregister request => wrapped ResDeregister (observed_deregister_instance request)
  | ReqStatus request => wrapped ResStatus (observed_report_instance_status request)
  | ReqRetrieve request => wrapped ResRetrieve (observed_retrieve_instance request)
  | ReqDiscover request => wrapped ResDiscover (observed_discover_instances request)
  | ReqEffective request => wrapped ResEffective (observed_retrieve_effective_config request)
  | ReqDraft request => wrapped ResDraft (observed_create_config_draft request)
  | ReqPublish draft_id => wrapped ResPublish (observed_publish_config draft_id)
  | ReqRollback source_release_id => wrapped ResRollback (observed_rollback_config source_release_id)
  | ReqServices request => wrapped ResServices (observed_list_services request)
  end.
End observed.
