(* ===== verification/ObservedTheorems.v ===== *)
(** * Theorems on observed calls

    Metrics and correlation do not change the answer of a handler; a dropped call leaves the
    runtime as if it had run or as if it had not been sent; the metrics tell the outcome. *)
From S2P Require Import Prelude RustStr Collections Contract StorageContract RpcContext Proto.
From S2P Require Import Codec ControlPlane Resilience Actor WatchStream Services RpcContract Metrics.
From S2P Require Import MemoryStore MemoryInstance RegistryTheorems RpcContextTheorems ActorTheorems.
From S2P Require Import ConfigTheorems ControlPlaneTheorems ServicesTheorems ClientSdk Observed.
From Stdlib Require Import Ascii.

Section tracking.
Context {S : Type} `{RegistryStore S, ConfigStore S, WatchEventStore S, ConfigParsers}.
Context `{HashOrder, RpcExternals}.
Context (debug_str : string → string) (parse_value : string → option string).
Context (env : CallEnv) (policy : RpcContextPolicy) (metadata : gmap string string).
Context (schedule : list CallEvent) (delay : N).

Abbreviation fate := (fate_of schedule).
Abbreviation Handler := (Eff Ending (CallWorld S)).

(** The runtime a call leaves, when its handler would leave [a']. *)
Definition actor_left (a a' : Actor S) : Actor S :=
  match fate with DroppedBeforeSend => a | _ => a' end.

Definition auth_failure (id : MethodId) (failed : bool) (p : Process) : Process :=
  if failed then record_auth_failure (id_package id) (id_service id) (id_method id) p else p.

(** [m] does what the handler [h] does, and records its outcome in the open guard. *)
Definition tracks {A} (id : MethodId) (ids : string * string) (m : Handler A) (h : Op (Actor S) A)
    : Prop :=
  ∀ w x, cw_guard w = {| mg_inner := Some x |} →
  let '(w', r) := m w in
  let '(a', r') := h (cw_actor w) in
  cw_actor w' = actor_left (cw_actor w) a'
  ∧ match r with
    | Ok v => r' = Ok v ∧ fate = Answered ∧ cw_guard w' = {| mg_inner := None |}
              ∧ cw_process w' = record_success x "OK" (cw_process w)
    | Err (EndStatus s) =>
        ∃ e failed, r' = Err e ∧ s = rpc_status parse_value e ids.1 ids.2
          ∧ cw_guard w' = {| mg_inner := None |}
          ∧ cw_process w' = record_error x (grpc_status_code_for_discovery_error e)
                              (kind_string e) (auth_failure id failed (cw_process w))
          ∧ (failed = true → cw_actor w' = cw_actor w)
    | Err EndDropped => fate ≠ Answered ∧ cw_guard w' = cw_guard w ∧ cw_process w' = cw_process w
    end.

Lemma tracks_refusal {A} id ids failed (m : Handler A) e (h : Op (Actor S) A) :
  (∀ w x, cw_guard w = {| mg_inner := Some x |} →
     m w = ({| cw_actor := cw_actor w;
               cw_process := record_error x (grpc_status_code_for_discovery_error e)
                               (kind_string e) (auth_failure id failed (cw_process w));
               cw_guard := {| mg_inner := None |} |},
            Err (EndStatus (rpc_status parse_value e ids.1 ids.2)))) →
  (∀ a, h a = (a, Err e)) →
  tracks id ids m h.
Proof.
  intros Hm Hh w x Hg. rewrite (Hm w x Hg), Hh. split.
  - unfold actor_left. by destruct (fate_of schedule).
  - exists e, failed. by split_and!.
Qed.

Lemma tracks_guarded {A B} id ids (r : DiscoveryResult A) (f : A → Handler B) g :
  (∀ a, tracks id ids (f a) (g a)) →
  tracks id ids (guarded parse_value ids r ≫= f) (lift r ≫= g).
Proof.
  intros Hf. destruct r as [a|e]; [apply Hf|].
  apply (tracks_refusal id ids false _ e); [|done]. intros w x Hg.
  unfold guarded, map_guard_rpc_err, record_guard_rpc_error, on_guard, modify, fail, eff_bind, mbind.
  cbn. by rewrite Hg.
Qed.

Lemma tracks_authenticate {A B} id ids (r : DiscoveryResult A) (f : A → Handler B) g :
  (∀ a, tracks id ids (f a) (g a)) →
  tracks id ids (authenticate parse_value id ids r ≫= f) (lift r ≫= g).
Proof.
  intros Hf. destruct r as [a|e]; [apply Hf|].
  apply (tracks_refusal id ids true _ e); [|done]. intros w x Hg.
  unfold authenticate, map_guard_rpc_err, record_guard_rpc_error, on_guard, on_process, modify, fail,
    eff_bind, mbind.
  cbn. by rewrite Hg.
Qed.

Lemma tracks_runtime {R A} id ids (run : Op (Actor S) R) (respond : R → DiscoveryResult A) :
  tracks id ids (await_runtime parse_value schedule ids run respond)
    (result ← run; lift (respond result)).
Proof.
  intros w x Hg. unfold await_runtime, actor_left. rewrite eff_bind_run, runtime_call_fate.
  destruct (fate_of schedule);
    [|destruct w as [a0 p g]; cbn [cw_actor]; by destruct (run a0) as [a [r|e]]..].
  destruct (run (cw_actor w)) as [a [r|e]]; cbn [mbind result_bind lift fst snd].
  - unfold lift. destruct (respond r) as [v|e].
    + unfold on_guard, modify, eff_bind, mbind. cbn. rewrite Hg. by split_and!.
    + unfold map_guard_rpc_err, record_guard_rpc_error, on_guard, modify, fail, eff_bind, mbind.
      cbn. rewrite Hg. split; [done|]. exists e, false. by split_and!.
  - unfold map_guard_rpc_err, record_guard_rpc_error, on_guard, modify, fail, eff_bind, mbind.
    cbn. rewrite Hg. split; [done|]. exists e, false. by split_and!.
Qed.

Lemma tracks_ext {A} id ids (m : Handler A) (h h' : Op (Actor S) A) :
  (∀ a, h a = h' a) → tracks id ids m h → tracks id ids m h'.
Proof. intros E Hm w x Hg. rewrite <- E. by apply Hm. Qed.

(** ** Whole calls *)

(** What a call [m] reports of the handler [h]: the runtime it leaves, its answer, and what
    reached the recorder. *)
Definition reports (id : MethodId) (m : Handler RpcResponse) (h : Eff Status (Actor S) RpcResponse)
    : Prop :=
  ∀ w,
  let '(w', r) := m w in
  let '(a', r') := h (cw_actor w) in
  let x := metrics_new (id_package id) (id_service id) (id_method id) (id_operation id)
             (cw_process w) in
  let p := wait delay (cw_process w) in
  cw_actor w' = actor_left (cw_actor w) a'
  ∧ match correlation env metadata with
    | Err e => cw_process w' = cw_process w ∧ cw_actor w' = cw_actor w
               ∧ ∃ request_id, r = Err (EndStatus (rpc_status parse_value e request_id ""))
                               ∧ r' = Err (map_discovery_error_to_rpc_status e)
    | Ok ids =>
        match r with
        | Ok v => r' = Ok v ∧ fate = Answered ∧ cw_process w' = record_success x "OK" p
        | Err (EndStatus s) =>
            ∃ e failed, r' = Err (map_discovery_error_to_rpc_status e)
              ∧ s = rpc_status parse_value e ids.1 ids.2
              ∧ cw_process w' = record_error x (grpc_status_code_for_discovery_error e)
                                  (kind_string e) (auth_failure id failed p)
              ∧ (failed = true → cw_actor w' = cw_actor w)
        | Err EndDropped => fate ≠ Answered ∧ cw_process w' = record_timed_out x p
        end
    end.

Lemma correlate_run (w : CallWorld S) :
  match correlation env metadata with
  | Ok ids => correlate parse_value env metadata w = (w, Ok ids)
  | Err e => ∃ request_id, correlate parse_value env metadata w
                           = (w, Err (EndStatus (rpc_status parse_value e request_id "")))
  end.
Proof.
  unfold correlate, correlation.
  destruct (request_id_from_metadata _ _) as [request_id|e]; [|by exists ""].
  destruct (trace_id_from_metadata _) as [trace_id|e]; [done|by exists request_id].
Qed.

Lemma unary_reports {A} id (wrap : A → RpcResponse) (body : string * string → Handler A) h :
  (∀ ids, tracks id ids (body ids) (h ids)) →
  reports id (wrapped wrap (unary parse_value env metadata delay id body))
    (answer wrap (ids ← lift (correlation env metadata); h ids)).
Proof.
  intros Hb w. unfold wrapped, unary, answer. rewrite !eff_bind_run.
  pose proof (correlate_run w) as Hc. unfold lift.
  destruct (correlation env metadata) as [ids|e] eqn:Eids.
  - rewrite Hc. rewrite eff_bind_run. unfold start_guard, modify, scoped.
    set (w1 := {| cw_actor := _; cw_process := _; cw_guard := _ |}).
    specialize (Hb ids w1 _ eq_refl). change (cw_actor w1) with (cw_actor w) in Hb.
    destruct (body ids w1) as [w' r]. destruct (h ids (cw_actor w)) as [a' r'].
    destruct Hb as [Ha Hr]. destruct r as [v|[s|]].
    + destruct Hr as (-> & Hf & Hg & Hp). cbn. unfold end_scope. rewrite Hg. by split_and!.
    + destruct Hr as (e & failed & -> & -> & Hg & Hp & Hu). cbn. unfold end_scope. rewrite Hg.
      split; [done|]. exists e, failed. by split_and!.
    + destruct Hr as (Hf & Hg & Hp). destruct r'; cbn; unfold end_scope; rewrite Hg, Hp;
        by split_and!.
  - destruct Hc as [request_id ->]. split; [by unfold actor_left; destruct (fate_of schedule)|].
    split; [done|]. split; [done|]. by exists request_id.
Qed.

(** The name of the method a request calls, and its row of the server's table. *)
Definition request_method (r : RpcRequest) : string :=
  match r with
  | ReqRegister _ => "RegisterInstance"
  | ReqBatchRegister _ => "BatchRegisterInstances"
  | ReqRenew _ => "RenewLease"
  | ReqDeregister _ => "DeregisterInstance"
  | ReqStatus _ => "ReportInstanceStatus"
  | ReqRetrieve _ => "RetrieveInstance"
  | ReqDiscover _ => "DiscoverInstances"
  | ReqEffective _ => "RetrieveEffectiveConfig"
  | ReqDraft _ => "CreateConfigDraft"
  | ReqPublish _ => "PublishConfig"
  | ReqRollback _ => "RollbackConfig"
  | ReqServices _ => "ListServices"
  end.

Definition row_id (row : DiscoveryRpcMethod) : MethodId :=
  {| id_package := rmt_package row; id_service := rmt_service row;
     id_method := rmt_method row; id_operation := rmt_operation_id row |}.

Definition method_row (r : RpcRequest) : option DiscoveryRpcMethod :=
  List.find (λ row, bool_decide (rmt_method row = request_method r))
    (rsm_methods discovery_rpc_service_manifest).

Lemma observed_reports r :
  ∃ row, method_row r = Some row
    ∧ reports (row_id row) (observed debug_str parse_value env policy metadata schedule delay r)
        (serve debug_str env policy metadata r).
Proof.
  destruct r; (eexists; split; [reflexivity|]); apply unary_reports; intros ids;
    repeat first [apply tracks_guarded; intros ?|apply tracks_authenticate; intros ?];
    (eapply tracks_ext; [|apply tracks_runtime]); intros actor; try reflexivity.
  rewrite !eff_bind_run.
  by destruct (runtime_retrieve_instance _ _ _ _ _ actor) as [? [[?|]|?]].
Qed.

(** Recording metrics and attaching correlation metadata changes neither the answer of
    a unary call nor the runtime it leaves: a call that is answered ends as its handler does.
    A call dropped while it waits leaves the runtime as if it had run, or, when it was
    dropped before the command was sent, untouched. *)
Theorem observed_call_answers r w :
  let '(w', out) := observed debug_str parse_value env policy metadata schedule delay r w in
  let '(a', ans) := serve debug_str env policy metadata r (cw_actor w) in
  cw_actor w' = match fate with DroppedBeforeSend => cw_actor w | _ => a' end
  ∧ match out with
    | Ok v => ans = Ok v
    | Err (EndStatus s) => ans = Err (wi_status s)
    | Err EndDropped => fate ≠ Answered
    end.
Proof.
  destruct (observed_reports r) as (row & _ & Hr). specialize (Hr w).
  destruct (observed _ _ _ _ _ _ _ r w) as [w' out], (serve _ _ _ _ r (cw_actor w)) as [a' ans].
  destruct Hr as [Ha Hr]. split; [exact Ha|].
  destruct (correlation env metadata) as [ids|e].
  - destruct out as [v|[s|]]; [by destruct Hr| |by destruct Hr].
    by destruct Hr as (e & failed & -> & -> & _).
  - by destruct Hr as (_ & _ & request_id & -> & ->).
Qed.

(** The status label a finished call is counted under. *)
Definition outcome_label (out : Result Ending RpcResponse) : string :=
  match out with
  | Ok _ => "ok"
  | Err (EndStatus s) => to_ascii_lowercase (code_name (st_code (wi_status s)))
  | Err EndDropped => "deadline_exceeded"
  end.

Definition count_as (name : string) (es : list Emission) : nat := length (emitted_as name es).

(** What the recorder gets of a call of a method with this outcome. *)
Record counted (row : DiscoveryRpcMethod) (out : Result Ending RpcResponse) (es : list Emission)
    : Prop := {
  co_once : (λ e, label_of "status" e) <$> emitted_as "discovery_rpc_requests_total" es
            = [Some (outcome_label out)];
  co_method : (λ e, (label_of "package" e, label_of "rpc_service" e, label_of "method" e,
                     label_of "operation_id" e, label_of "api_surface" e))
              <$> emitted_as "discovery_rpc_requests_total" es
              = [(Some (rmt_package row), Some (rmt_service row), Some (rmt_method row),
                  Some (rmt_operation_id row), Some ("rpc-" +:+ rmt_surface row))];
  co_duration : count_as "discovery_rpc_request_duration_seconds" es = 1%nat;
  co_errors : count_as "discovery_rpc_errors_total" es
              = match out with Err (EndStatus _) => 1%nat | _ => 0%nat end;
  co_deadlines : count_as "discovery_rpc_deadline_exceeded_total" es
                 = match out with Err EndDropped => 1%nat | _ => 0%nat end;
  co_auth : (count_as "discovery_rpc_auth_failures_total" es
             <= match out with Err (EndStatus _) => 1 | _ => 0 end)%nat;
}.

Lemma emitted_auth_failure id failed p :
  pr_emitted (auth_failure id failed p)
  = pr_emitted p ++ if failed then [CounterIncrement "discovery_rpc_auth_failures_total"
      (call_labels (id_package id) (id_service id) (id_method id) p) 1] else [].
Proof. destruct failed; cbn; [done|by rewrite app_nil_r]. Qed.

Lemma counted_outcome row out es x p p' :
  rx_package x = rmt_package row → rx_service x = rmt_service row →
  rx_method x = rmt_method row → rx_operation_id x = rmt_operation_id row →
  rx_api_surface x = "rpc-" +:+ rmt_surface row →
  match out with
  | Ok _ => p' = record_success x "OK" p
  | Err (EndStatus s) =>
      ∃ kind failed, p' = record_error x (code_name (st_code (wi_status s))) kind (auth_failure (row_id row) failed p)
  | Err EndDropped => p' = record_timed_out x p
  end →
  pr_emitted p' = pr_emitted p ++ es → counted row out es.
Proof.
  intros E1 E2 E3 E4 E5 Hp He. destruct out as [v|[s|]].
  - subst p'. cbn in He. rewrite <- app_assoc in He. apply app_inv_head in He as <-.
    constructor; cbn; rewrite ?E1, ?E2, ?E3, ?E4, ?E5; done.
  - destruct Hp as (kind & failed & ->). unfold record_error in He. cbn [emit pr_emitted] in He.
    rewrite emitted_auth_failure, <- !app_assoc in He. apply app_inv_head in He as <-.
    destruct failed; constructor; cbn; rewrite ?E1, ?E2, ?E3, ?E4, ?E5; (done || (vm_compute; repeat constructor)).
  - subst p'. cbn in He. rewrite <- !app_assoc in He. apply app_inv_head in He as <-.
    constructor; cbn; rewrite ?E1, ?E2, ?E3, ?E4, ?E5; done.
Qed.

(** C38: the metrics tell the outcome of every unary call whose identifiers are well-formed:
    it is counted once, under the status the client got (or as a deadline exceeded when it
    was dropped) and under the package, service, method, operation and surface that the
    server's table gives its method; its duration is recorded once; the error counter moves
    exactly for a refusal, the deadline counter exactly for a dropped call, and an
    authentication failure is counted for refusals only.  A call with malformed identifiers
    is not counted at all. *)
Theorem metrics_tell_outcome r w :
  let '(w', out) := observed debug_str parse_value env policy metadata schedule delay r w in
  ∃ es row, pr_emitted (cw_process w') = pr_emitted (cw_process w) ++ es
    ∧ row ∈ rsm_methods discovery_rpc_service_manifest ∧ rmt_method row = request_method r
    ∧ match correlation env metadata with Ok _ => counted row out es | Err _ => es = [] end.
Proof.
  destruct (observed_reports r) as (row & Hrow & Hr). specialize (Hr w).
  destruct (observed _ _ _ _ _ _ _ r w) as [w' out], (serve _ _ _ _ r (cw_actor w)) as [a' ans].
  destruct Hr as [_ Hr].
  assert (row ∈ rsm_methods discovery_rpc_service_manifest ∧ rmt_method row = request_method r)
    as [Hin Hm] by (apply List.find_some in Hrow as [Hin Hm%bool_decide_eq_true];
                    split; [by apply list_elem_of_In|done]).
  assert (api_surface_for_package (rmt_package row) = "rpc-" +:+ rmt_surface row) as Hs
    by (destruct r; vm_compute in Hrow; injection Hrow as <-; reflexivity).
  destruct (correlation env metadata) as [ids|e].
  - assert (∃ es, pr_emitted (cw_process w') = pr_emitted (cw_process w) ++ es) as [es He].
    { destruct out as [v|[s|]]; [destruct Hr as (_ & _ & ->)|destruct Hr as (e & failed & _ & _ & -> & _)
        |destruct Hr as [_ ->]]; cbn; rewrite ?emitted_auth_failure, <- ?app_assoc; eauto. }
    exists es, row. split_and!; [done|done|done|].
    apply (counted_outcome row out es
             (metrics_new (rmt_package row) (rmt_service row) (rmt_method row)
                (rmt_operation_id row) (cw_process w))
             (wait delay (cw_process w)) (cw_process w'));
      [reflexivity|reflexivity|reflexivity|reflexivity|exact Hs| |exact He].
    destruct out as [v|[s|]]; [by destruct Hr as (_ & _ & ->)| |by destruct Hr as [_ ->]].
    destruct Hr as (e & failed & _ & -> & -> & _). eexists _, failed.
    cbn [rpc_status attach_correlation_metadata wi_status]. by rewrite metric_code_is_status_code.
  - destruct Hr as (Hp & _). exists [], row. rewrite Hp, app_nil_r. done.
Qed.

Lemma insert_value_lookup key value md :
  value ≠ "" → parse_value value = Some value → insert_value parse_value key value md !! key = Some value.
Proof.
  intros Hne Hp. unfold insert_value. destruct value as [|c v]; [done|].
  cbn [is_empty]. rewrite Hp. apply lookup_insert_eq.
Qed.

Lemma insert_value_ne key other value md :
  key ≠ other → insert_value parse_value other value md !! key = md !! key.
Proof.
  intros Hne. unfold insert_value. destruct (is_empty value); [done|].
  destruct (parse_value value); [by rewrite lookup_insert_ne|done].
Qed.

(** The status of a refused call names the identifiers of the call. *)
Lemma refusal_correlated r w request_id trace_id s :
  correlation env metadata = Ok (request_id, trace_id) →
  (observed debug_str parse_value env policy metadata schedule delay r w).2 = Err (EndStatus s) →
  (request_id ≠ "" → parse_value request_id = Some request_id →
   wi_metadata s !! "x-request-id" = Some request_id)
  ∧ (trace_id ≠ "" → parse_value trace_id = Some trace_id →
     wi_metadata s !! "x-trace-id" = Some trace_id).
Proof.
  intros Hids Hout. destruct (observed_reports r) as (row & _ & Hr). specialize (Hr w).
  destruct (observed _ _ _ _ _ _ _ r w) as [w' out], (serve _ _ _ _ r (cw_actor w)) as [a' ans].
  cbn [snd] in Hout. subst out. destruct Hr as [_ Hr]. rewrite Hids in Hr.
  destruct Hr as (e & failed & _ & -> & _). cbn [rpc_status attach_correlation_metadata wi_metadata fst snd].
  split; intros Hne Hp.
  - by apply insert_value_lookup.
  - rewrite insert_value_ne by done. by apply insert_value_lookup.
Qed.
End tracking.

Section client.
Context {S : Type} `{RegistryStore S, ConfigStore S, WatchEventStore S, ConfigParsers}.
Context `{HashOrder, RpcExternals}.
Context (debug_str : string → string) (parse_value : string → option string).
(** Visible ASCII is a metadata value and is read back unchanged. *)
Context (to_str_visible : ∀ s, all_bytes is_printable_ascii s = true → value_to_str s = Some s).
Context (parse_visible : ∀ s, all_bytes is_printable_ascii s = true → parse_value s = Some s).

(** A client that sends the trace context of the SDK finds its trace id in the status of
    every call that is refused, whichever step refuses it, as long as the request id it sent
    is acceptable. *)
Theorem refusal_carries_client_trace env policy (metadata : gmap string string) schedule delay
    process_id trace_id parent counter counter' tp request_id r (w : CallWorld S) s :
  create_traceparent process_id trace_id parent counter = (counter', Ok tp) →
  metadata !! "traceparent" = Some tp →
  request_id_from_metadata (ce_generated env) metadata = Ok request_id →
  (observed debug_str parse_value env policy metadata schedule delay r w).2 = Err (EndStatus s) →
  wi_metadata s !! "x-trace-id" = Some (to_ascii_lowercase (remove_char "-"%char trace_id)).
Proof.
  intros Ht Hmd Hrid Hout.
  apply create_traceparent_Ok in Ht as (span & -> & Hl & Ha & Hs).
  set (t := to_ascii_lowercase (remove_char "-"%char trace_id)) in *.
  assert (trace_id_from_metadata metadata = Ok t) as Htid.
  { unfold trace_id_from_metadata. rewrite (visible_value to_str_visible metadata "traceparent" _ Hmd).
    - cbn [mbind result_bind from_option id]. rewrite parse_traceparent by done.
      cbn [from_option id]. unfold t. by rewrite to_ascii_lowercase_idem.
    - by rewrite !all_bytes_app, (hex_printable _ Ha), (hex_printable _ Hs). }
  assert (correlation env metadata = Ok (request_id, t)) as Hc
    by (unfold correlation; by rewrite Hrid, Htid).
  apply (refusal_correlated debug_str parse_value env policy metadata schedule delay r w _ _ s Hc Hout).
  - intros E. unfold TRACE_ID_LENGTH in Hl. by rewrite E in Hl.
  - apply parse_visible. by apply hex_printable.
Qed.
End client.

(** ** A concrete call *)

(** Nothing delays or drops the call. *)
Definition prompt : list CallEvent := [MailboxTakes; ActorServes; FuturePolled].

Definition observed_memory (metadata : gmap string string) (r : RpcRequest)
    : Eff Ending (CallWorld MemoryDiscoveryStore) RpcResponse :=
  @observed _ (@memory_registry_store canonical_order (λ _ _, 0)) (memory_config_store sample_hash)
    (@memory_watch_store canonical_order) _ canonical_order _ id Some (sample_env 7000)
    signed_policy metadata prompt 1000 r.

Definition sample_world : CallWorld MemoryDiscoveryStore :=
  {| cw_actor := sample_actor sample_store;
     cw_process := {| pr_telemetry := None; pr_now := 0; pr_emitted := [] |};
     cw_guard := {| mg_inner := None |} |}.

(** A traced call without credentials. *)
Definition traced_metadata : gmap string string :=
  {[ "traceparent" := "00-0af7651916cd43dd8448eb211c80319c-00000000000010e6-01" ]}.

Lemma refusal_carries_client_trace_witness :
  ∃ s, (observed_memory traced_metadata (ReqRegister sample_request) sample_world).2
       = Err (EndStatus s)
       ∧ wi_metadata s !! "x-trace-id" = Some "0af7651916cd43dd8448eb211c80319c".
Proof.
  eexists. split; [vm_compute; reflexivity|].
  apply (@refusal_carries_client_trace _ (@memory_registry_store canonical_order (λ _ _, 0))
           (memory_config_store sample_hash) (@memory_watch_store canonical_order) _ canonical_order
           sample_externals id Some (λ s _, eq_refl) (λ s _, eq_refl) (sample_env 7000) signed_policy
           traced_metadata prompt 1000 4321 "0AF76519-16cd-43dd-8448-eb211c80319c" None 7 8
           "00-0af7651916cd43dd8448eb211c80319c-00000000000010e6-01" "req_0190"
           (ReqRegister sample_request) sample_world).
  - vm_compute. reflexivity.
  - reflexivity.
  - vm_compute. reflexivity.
  - vm_compute. reflexivity.
Defined.
