(* ===== verification/HealthComposition.v ===== *)
(** * The health checker behind the scan

    The scan of the runtime (health_probes.rs) with the probes of the health checker
    (checker.rs) in place of its network parameter: what a dead endpoint comes to, and how
    long a scan keeps the runtime from its commands. *)
From S2P Require Import Prelude RustStr Collections Contract StorageContract MemoryStore MemoryRegistry.
From S2P Require Import MemoryInstance RegistryTheorems ControlPlane ControlPlaneTheorems Resilience Actor.
From S2P Require Import HealthScanTheorems ActorTheorems.
From S2P Require Import HealthChecker.

(** [check_health(..).healthy], as [run_health_checks] calls it. *)
Definition checker_network (clients : ProbeClients) : string → HealthCheckProbe → N → bool :=
  λ endpoint probe timeout_ms, hr_healthy (check_health endpoint probe timeout_ms).

Lemma checker_network_false clients endpoint probe timeout_ms :
  ¬ endpoint_healthy endpoint probe timeout_ms →
  checker_network clients endpoint probe timeout_ms = false.
Proof.
  intros Hn. unfold checker_network. destruct (hr_healthy _) eqn:E; [|done].
  exfalso. apply Hn, (check_health_healthy endpoint probe timeout_ms), E.
Qed.

Section scans.
Context (h : HashOrder) (dh : N → N → N).

(** Scans at given times, each with the network it meets. *)
Definition checker_scans (scans : list (N * ProbeClients)) : list (N * (string → HealthCheckProbe → N → bool)) :=
  prod_map id checker_network <$> scans.

(** C37: an instance whose endpoint stops giving the answer its probe expects in time (no
    connection, another HTTP status, no SERVING status) keeps its status while fewer due
    scans than its unhealthy threshold have met it so, and is out of service with the scan
    that reaches the threshold, whatever the network does to other instances: from then on
    discovery of healthy instances does not return it, and for any other query it passes
    the same filters as before and is returned with the status [NotServing]. *)
Theorem unreachable_instance_withdrawn p (scans : list (N * ProbeClients)) k i c :
  store_wf (store p) →
  headroom (len_N scans * N.of_nat (size (instances (store p)))) (store p) →
  instances (store p) !! k = Some i → si_health_check i = Some c →
  0 < hc_interval_ms c → hc_unhealthy_threshold c <= u32_max →
  is_discoverable (si_status i) = true → consecutive_failures (si_health_check_state i) = 0 →
  paced (hc_interval_ms c) (last_check_ms (si_health_check_state i)) (checker_scans scans) →
  (∀ t clients, (t, clients) ∈ scans → t < si_expires_at_ms i
     ∧ ¬ @endpoint_healthy clients (si_endpoint i) (hc_probe c) (hc_timeout_ms c)) →
  let s' := store (run_scans h dh p (checker_scans scans)) in
  ∃ i', instances s' !! k = Some i'
    ∧ (len_N scans < hc_unhealthy_threshold c → si_status i' = si_status i)
    ∧ (len_N scans = hc_unhealthy_threshold c → 0 < len_N scans →
       si_status i' = NotServing
       ∧ ∀ q now r j, MemoryRegistry.discover_instances dh q now s' = Ok r →
           j ∈ di_instances r → key_of j = k → dq_healthy_only q = false ∧ j = i')
    ∧ ∀ q now, dq_healthy_only q = false → discover_filter q now i' = discover_filter q now i.
Proof.
  intros Hwf Hroom Hk Hc Hint Hth Hst H0 Hpace Hscans.
  assert (len_N (checker_scans scans) = len_N scans) as El
    by (unfold len_N, checker_scans; by rewrite length_fmap).
  rewrite <- El in *.
  apply (silent_instance_withdrawn h dh p (checker_scans scans) k i c); try done.
  intros t net ([t' clients] & [= -> ->] & Hin)%list_elem_of_fmap.
  destruct (Hscans _ _ Hin) as [Ht Hn]. split; [done|]. by apply checker_network_false.
Qed.
End scans.

(** ** How long a scan holds the runtime *)

(** The probes of a scan follow one another in the loop that also serves commands. *)
Definition probe_wait_ms {clients : ProbeClients} (now_ms : N) (i : ServiceInstance) : N :=
  match si_health_check i with
  | Some config =>
      if due_for_check (si_health_check_state i) config now_ms
      then hr_latency_ms (check_health (si_endpoint i) (hc_probe config) (hc_timeout_ms config))
      else 0
  | None => 0
  end.

Definition scan_wait_ms {clients : ProbeClients} (now_ms : N) (instances : list ServiceInstance) : N :=
  foldr (λ i n, probe_wait_ms now_ms i + n) 0 instances.

Definition longest_scan_ms (instances : list ServiceInstance) : N :=
  foldr (λ i n, (match si_health_check i with
                 | Some config => longest_wait_ms (hc_probe config) (hc_timeout_ms config)
                 | None => 0
                 end) + n) 0 instances.

Lemma scan_wait_bounded {clients : ProbeClients} now_ms instances :
  scan_wait_ms now_ms instances <= longest_scan_ms instances.
Proof.
  induction instances as [|i l IH]; [done|]. cbn [scan_wait_ms longest_scan_ms foldr].
  unfold scan_wait_ms, longest_scan_ms in IH. apply N.add_le_mono; [|exact IH].
  unfold probe_wait_ms. destruct (si_health_check i) as [config|]; [|done].
  destruct (due_for_check _ _ _); [|lia]. apply check_health_latency.
Qed.

(** ** A network in which nothing answers *)

Definition dead_clients : ProbeClients := {|
  Channel := ();
  tcp_connect _ := None;
  http_client _ := Ok ();
  http_get_status _ _ := None;
  grpc_endpoint _ := Ok ();
  grpc_connect _ _ := None;
  grpc_check _ _ := None;
|}.

Lemma dead_clients_silent endpoint probe timeout_ms :
  ¬ @endpoint_healthy dead_clients endpoint probe timeout_ms.
Proof.
  destruct probe; cbn; [intros (t & E & _)|intros (_ & t & E & _)|intros (_ & c & (t & E & _) & _)];
    discriminate.
Qed.

Lemma unreachable_instance_withdrawn_witness :
  ∃ i', instances (store (run_scans canonical_order (λ _ _, 0) (sample_plane checked_store)
          (checker_scans [(2000, dead_clients); (3000, dead_clients)]))) !! key_of sample_probed = Some i'
        ∧ si_status i' = NotServing.
Proof.
  destruct (unreachable_instance_withdrawn canonical_order (λ _ _, 0) (sample_plane checked_store)
    [(2000, dead_clients); (3000, dead_clients)] (key_of sample_probed) sample_probed sample_check
    (proj1 checked_store_wf) ltac:(vm_compute; split; discriminate)
    ltac:(vm_compute; reflexivity) ltac:(reflexivity) ltac:(reflexivity)
    ltac:(vm_compute; discriminate) ltac:(reflexivity) ltac:(reflexivity)
    ltac:(split; [by left|split; [right; vm_compute; discriminate|done]]))
    as (i' & Hi' & _ & H2).
  - intros t clients Ht. apply elem_of_cons in Ht as [[= -> ->]|Ht];
      [|apply list_elem_of_singleton in Ht as [= -> ->]];
      (split; [reflexivity|apply dead_clients_silent]).
  - exists i'. split; [exact Hi'|]. apply H2; reflexivity.
Defined.

(** Two gRPC instances that accept connections and never answer hold the runtime for four
    times the time limit. *)
Definition stalling_clients : ProbeClients := {|
  Channel := ();
  tcp_connect _ := None;
  http_client _ := Ok ();
  http_get_status _ _ := None;
  grpc_endpoint _ := Ok ();
  grpc_connect d _ := Some (d, Ok ());
  grpc_check _ _ := None;
|}.

Definition stalled_instance : ServiceInstance :=
  {| si_namespace := "acme"; si_environment := "prod"; si_service_name := "drive";
     si_instance_id := "drive-9"; si_endpoint := "10.0.0.9:50051"; si_protocol := "grpc";
     si_version := "0.1.0"; si_region := "eu"; si_zone := "eu-a"; si_weight := 100;
     si_priority := 0; si_status := Serving; si_metadata := ∅; si_lease_id := "lease-3";
     si_expires_at_ms := 31000; si_revision := 3;
     si_health_check := Some {| hc_probe := ProbeGrpc ""; hc_interval_ms := 1000;
                                hc_timeout_ms := 500; hc_unhealthy_threshold := 2;
                                hc_healthy_threshold := 1 |};
     si_health_check_state := default_health_state |}.

Lemma stalled_scan_holds_runtime :
  @scan_wait_ms stalling_clients 2000 [stalled_instance; stalled_instance] = 2000.
Proof. vm_compute. reflexivity. Qed.
