(* ===== verification/DatabaseHost.v ===== *)
(** * Preparing the database (database-host: bootstrap.rs; storage-postgres: store.rs,
    bootstrap.rs, database_bootstrap.rs)

    How the schema of the PostgreSQL store is put in place when a process starts: the
    pool, the module with its manifest, the initialisation and the migration.  The
    lifecycle crates are external: their calls are the fields of [DatabaseCrates], those
    that change the database as effects on it. *)
From S2P Require Import Prelude RustStr Collections Contract HostConfig EnvOverlay PgSchema PgSql PgCodec.

(** [sdkwork_database_sqlx::PoolError]. *)
Inductive PoolError : Type :=
| PoolCreation (error : DbError)
| PoolConnection (error : DbError)
| PoolOther (text : string).

Definition map_pool_error `{PgExternals} (error : PoolError) : DiscoveryError :=
  match error with
  | PoolCreation err | PoolConnection err => sqlx_error err
  | PoolOther text => InvalidConfig text
  end.

(** The calls into [sdkwork-database-*], [dotenvy] and the file system.  [pool_text] is
    the text of a pool error, [from_config_error] the pool error of an error of the
    configuration, which is given by its text; [dotenv] is what the [.env] file adds to the variables;
    [auto_migrate] is the flag of [lifecycle_options_from_env]. *)
Class DatabaseCrates (Pool PgPool Module Manifest Db : Type) : Type := {
  create_pool_from_config : DatabaseConfig → Result PoolError Pool;
  as_postgres : Pool → option PgPool;
  pool_text : PoolError → string;
  config_from_env : string → EnvMap → Result string DatabaseConfig;
  from_config_error : string → PoolError;
  dotenv : EnvMap → EnvMap;
  canonicalize : string → option string;
  from_app_root : string → Result string Module;
  manifest_path : Module → string;
  manifest_from_file : string → Result string Manifest;
  auto_migrate : string → EnvMap → Manifest → bool;
  orchestrator_init : Pool → Module → string → Eff string Db ();
  orchestrator_migrate : Pool → Module → string → Eff string Db ();
}.

(** [.map_err(..)] on an effect and on a value. *)
Definition map_failure {E F S A} (f : E → F) (m : Eff E S A) : Eff F S A := λ s,
  match m s with
  | (s', Ok a) => (s', Ok a)
  | (s', Err error) => (s', Err (f error))
  end.

Definition failing_with {S A} (what : string) (m : Eff string S A) : Eff string S A :=
  map_failure (λ error, what +:+ ": " +:+ error) m.

Definition map_error {E F A} (f : E → F) (r : Result E A) : Result F A :=
  match r with Ok a => Ok a | Err error => Err (f error) end.

Section database.
Context `{PgExternals, DatabaseCrates Pool PgPool Module Manifest Db}.
(** [env!("CARGO_MANIFEST_DIR")]. *)
Context (cargo_manifest_dir : string).

Record DiscoveryDatabaseHost : Type := {
  dh_pool : Pool;
  dh_module : Module;
}.

Definition resolve_app_root (env : EnvMap) : string :=
  match env !! "SDKWORK_DISCOVERY_APP_ROOT" with
  | Some root => root
  | None =>
      let above := cargo_manifest_dir +:+ "/../.." in
      default above (canonicalize above)
  end.

Definition bootstrap_discovery_database (env : EnvMap) (pool : Pool)
    : Eff string Db DiscoveryDatabaseHost :=
  let app_root := resolve_app_root env in
  module ← failing_with "load discovery database module failed" (lift (from_app_root app_root));
  manifest ← failing_with "read discovery database manifest failed"
    (lift (manifest_from_file (manifest_path module)));
  let applied_by := "sdkwork-discovery" in
  failing_with "discovery database init failed" (orchestrator_init pool module applied_by);;
  (if auto_migrate "DISCOVERY" env manifest
   then failing_with "discovery database migrate failed"
          (orchestrator_migrate pool module applied_by)
   else mret ());;
  mret {| dh_pool := pool; dh_module := module |}.

Definition bootstrap_discovery_database_from_env (env : EnvMap)
    : Eff string Db DiscoveryDatabaseHost :=
  let env := dotenv env in
  config ← failing_with "read discovery database config failed"
    (lift (config_from_env "DISCOVERY" env));
  pool ← failing_with "create discovery database pool failed"
    (lift (map_error pool_text (create_pool_from_config config)));
  bootstrap_discovery_database env pool.

Definition connect_discovery_database_pool_from_env (env : EnvMap) : Result PoolError Pool :=
  config ← map_error from_config_error (config_from_env "DISCOVERY" env);
  create_pool_from_config config.

Definition connect_and_bootstrap_discovery_database_from_env (env : EnvMap)
    : Eff string Db DiscoveryDatabaseHost :=
  pool ← lift (map_error pool_text (connect_discovery_database_pool_from_env env));
  bootstrap_discovery_database env pool.

(** ** The store (store.rs) *)

Context (read_file : string → Result string string) (utf8_error : string → option string).

Definition connect_postgres_pool (config : DatabaseConfig) : DiscoveryResult Pool :=
  map_error map_pool_error (create_pool_from_config config).

Definition apply_initial_schema (env : EnvMap) (o : PostgresConnectionOptions)
    : Eff DiscoveryError Db () :=
  database_config ← lift (postgres_database_config read_file utf8_error o);
  database_pool ← lift (connect_postgres_pool database_config);
  map_failure InvalidConfig (bootstrap_discovery_database env database_pool);;
  mret ().

Definition connect_eager (transport : StorageTransportConfig)
    : DiscoveryResult (PostgresConnectionOptions * PgPool) :=
  connection_options ← pg_from_transport transport;
  database_config ← postgres_database_config read_file utf8_error connection_options;
  database_pool ← connect_postgres_pool database_config;
  pool ← ok_or (as_postgres database_pool)
    (InvalidConfig "sdkwork-database pool is not postgres-backed");
  mret (connection_options, pool).

(** ** What the preparation does *)

Lemma failing_bind {A B} what (m : Eff string Db A) (k : A → Eff string Db B) d d' b :
  (failing_with what m ≫= k) d = (d', Ok b) →
  ∃ d1 a, m d = (d1, Ok a) ∧ k a d1 = (d', Ok b).
Proof.
  rewrite eff_bind_run. unfold failing_with, map_failure.
  destruct (m d) as [d1 [a|]]; naive_solver.
Qed.

(** The steps a prepared database has gone through, in their order. *)
Definition prepared (env : EnvMap) (pool : Pool) (d d' : Db) : Prop :=
  ∃ module manifest d1,
    from_app_root (resolve_app_root env) = Ok module
    ∧ manifest_from_file (manifest_path module) = Ok manifest
    ∧ orchestrator_init pool module "sdkwork-discovery" d = (d1, Ok ())
    ∧ if auto_migrate "DISCOVERY" env manifest
      then orchestrator_migrate pool module "sdkwork-discovery" d1 = (d', Ok ()) else d' = d1.

Lemma bootstrap_prepares env pool d d' host :
  bootstrap_discovery_database env pool d = (d', Ok host) → prepared env pool d d'.
Proof.
  unfold bootstrap_discovery_database.
  intros (d0 & module & [= -> Hm] & (d2 & manifest & [= -> Hf] & Hr)%failing_bind)%failing_bind.
  apply failing_bind in Hr as (d1 & [] & Hi & Hr). exists module, manifest, d1.
  split_and!; [done..|]. rewrite eff_bind_run in Hr.
  destruct (auto_migrate _ _ _); [|by injection Hr].
  unfold failing_with, map_failure in Hr.
  destruct (orchestrator_migrate _ _ _ d1) as [d3 [[]|]]; [|done]. by injection Hr as <-.
Qed.

(** Nothing is done to a database before its module and manifest have been read. *)
Lemma unread_leaves_database env pool d :
  (∀ module, from_app_root (resolve_app_root env) = Ok module →
     ∃ e, manifest_from_file (manifest_path module) = Err e) →
  (bootstrap_discovery_database env pool d).1 = d.
Proof.
  intros Hno. unfold bootstrap_discovery_database. rewrite eff_bind_run.
  unfold failing_with, map_failure, lift.
  destruct (from_app_root _) as [module|] eqn:Hm; [|done].
  rewrite eff_bind_run. by destruct (Hno module) as [e ->].
Qed.

Lemma apply_schema_prepares env o d d' :
  apply_initial_schema env o d = (d', Ok ()) →
  ∃ config pool, postgres_database_config read_file utf8_error o = Ok config
    ∧ create_pool_from_config config = Ok pool ∧ prepared env pool d d'.
Proof.
  unfold apply_initial_schema. rewrite lift_bind_run.
  destruct (postgres_database_config _ _ o) as [config|] eqn:Hc; [|done]. rewrite lift_bind_run.
  unfold connect_postgres_pool, map_error.
  destruct (create_pool_from_config config) as [pool|] eqn:Hp; [|done].
  rewrite eff_bind_run. unfold map_failure.
  destruct (bootstrap_discovery_database env pool d) as [d1 [host|]] eqn:Hb; [|done].
  intros [= ->]. exists config, pool. eauto using bootstrap_prepares.
Qed.

Definition in_schema (schema : string) (o : PostgresConnectionOptions)
    : PostgresConnectionOptions :=
  {| pgo_host := pgo_host o; pgo_port := pgo_port o; pgo_database := pgo_database o;
     pgo_schema := Some schema; pgo_username := pgo_username o;
     pgo_credential_source := pgo_credential_source o; pgo_tls_enabled := pgo_tls_enabled o;
     pgo_connect_timeout_ms := pgo_connect_timeout_ms o;
     pgo_max_connections := pgo_max_connections o |}.

(** The configured schema reaches the connections of the store only: the tables are
    created through a pool that is the same for every schema. *)
Lemma preparation_ignores_schema parse_url env o s1 s2 :
  apply_initial_schema env (in_schema s1 o) = apply_initial_schema env (in_schema s2 o)
  ∧ ∀ p1 p2, lazy_postgres_pool read_file utf8_error parse_url (in_schema s1 o) = Ok p1 →
      lazy_postgres_pool read_file utf8_error parse_url (in_schema s2 o) = Ok p2 →
      pco_search_path (lp_options p1) = Some s1 ∧ pco_search_path (lp_options p2) = Some s2.
Proof.
  split; [done|]. intros p1 p2. unfold lazy_postgres_pool.
  intros (c1 & _ & H1)%result_bind_Ok (c2 & _ & H2)%result_bind_Ok.
  apply result_bind_Ok in H1 as (o1 & _ & [= <-]). by apply result_bind_Ok in H2 as (o2 & _ & [= <-]).
Qed.
End database.
