(* ===== verification/HostProcess.v ===== *)
(** * The service process (service-host: main.rs, shutdown.rs, bootstrap.rs, runtime.rs;
    rpc: health.rs, server.rs)

    The life of the process from its environment to its end: what it does before it
    serves and where it gives up, the HTTP probe, and then, until it has shut down, the
    interleaving of the runtime actor, of one health task per listener and of the closing
    of the listeners one after the other, all around one health cell and one gauge.

    [sdkwork-web-bootstrap], the Prometheus recorder, the listeners and the signals are
    external.  Logging and the descriptions of the metrics are left out. *)
From S2P Require Import Prelude RustStr Collections Contract RpcContext Resilience ControlPlane.
From S2P Require Import StorageContract MemoryStore Actor WatchStream HostConfig EnvOverlay Redis.
From S2P Require Import RpcServer HostBootstrap PgSchema PgSql PgCodec Metrics DatabaseHost.
From Stdlib Require Import Ascii.

(** ** The health cell (health.rs) *)

(** The number a status is stored and reported as. *)
Definition as_gauge_value (s : DiscoveryHealthStatus) : N :=
  match s with HealthNotServing => 0 | HealthServing => 1 | HealthDegraded => 2 end.

Definition from_u8 (value : N) : DiscoveryHealthStatus :=
  match value with 0 => HealthNotServing | 1 => HealthServing | _ => HealthDegraded end.

Definition status_text (s : DiscoveryHealthStatus) : string :=
  match s with
  | HealthNotServing => "not_serving" | HealthServing => "serving" | HealthDegraded => "degraded"
  end.

(** A new cell, and [set] as its three callers use it. *)
Definition with_status (s : DiscoveryHealthStatus) : DiscoveryHealthState :=
  {| hs_status := s; hs_last_reason := None |}.

Definition set_cell (s : DiscoveryHealthStatus) (reason : option string)
    (h : DiscoveryHealthState) : DiscoveryHealthState :=
  {| hs_status := s; hs_last_reason := reason |}.

Definition set_serving : DiscoveryHealthState → DiscoveryHealthState :=
  set_cell HealthServing None.
Definition set_degraded (reason : string) : DiscoveryHealthState → DiscoveryHealthState :=
  set_cell HealthDegraded (Some reason).
Definition set_not_serving (reason : string) : DiscoveryHealthState → DiscoveryHealthState :=
  set_cell HealthNotServing (Some reason).

Lemma from_u8_gauge s : from_u8 (as_gauge_value s) = s.
Proof. by destruct s. Qed.

(** ** The HTTP probe (main.rs) *)

(** [DiscoveryHealthReadiness::check]. *)
Definition readiness_check (state : DiscoveryHealthState) : Result string () :=
  if is_ready (hs_status state) then Ok () else Err "discovery runtime is not ready".

(** What [start_probe_server] sets up: the address, whether the spawned task could listen
    there (otherwise it ends, and the process goes on without a probe), whether a readiness
    check is installed, whether the routes of the library leave out metrics, and whether
    the own metrics route is added. *)
Record ProbeServer : Type := {
  ps_bind : string;
  ps_listening : bool;
  ps_readiness : bool;
  ps_skip_metrics : bool;
  ps_metrics_route : bool;
}.

(** What the readiness check answers; [None] when it is not there to ask. *)
Definition probe_readiness (p : ProbeServer) (state : DiscoveryHealthState)
    : option (Result string ()) :=
  if ps_listening p && ps_readiness p then Some (readiness_check state) else None.

Section process.
Context `{PgExternals, DatabaseCrates Pool PgPool Module Manifest Db}.
(** The build: the directory of the crate and the feature [prometheus]. *)
Context (cargo_manifest_dir : string) (prometheus : bool).
(** [PrometheusBuilder::install_recorder]. *)
Context (install_recorder : Result string ()).
Context (read_file read_to_string : string → Result string string).
Context (utf8_error : string → option string) (client_open : string → Result string string).
Context (toml_from_str : string → Result string RawDiscoveryRuntimeConfig).
Context (debug_str : string → string).
Context (parse_addr : string → Result string string) (bind_error : string → option string).
Context (tls_error : DiscoveryRpcTlsIdentity → option string → option string).
Context (reflection_error : option string).
(** The Redis arms of [storage_safe_summary] and [initialize_storage], which the source
    lacks. *)
Context (redis_summary : string → string) (redis_initialize : DiscoveryResult ()).

Abbreviation Bootstrap :=
  (DiscoveryServiceHostBootstrap (PostgresStore := PostgresConnectionOptions)).

(** ** Before serving (bootstrap.rs, runtime.rs) *)

Definition storage_safe_summary (host : Bootstrap) : string :=
  match hb_runtime_storage host with
  | MemoryStorage _ => "memory"
  | PostgresStorage _ safe_summary => safe_summary
  | RedisStorage _ safe_summary => redis_summary safe_summary
  end.

Definition quoted (s : string) : string :=
  String (ascii_of_nat 34) s +:+ String (ascii_of_nat 34) EmptyString.

Definition runtime_safe_summary (host : Bootstrap) : string :=
  let config := hb_config host in
  let server := cfg_server config in
  "sdkwork-discovery provider=" +:+ provider_as_str (sto_provider (cfg_storage config))
  +:+ " grpc=" +:+ srv_grpc_bind_host server +:+ ":" +:+ show_N (srv_grpc_port server)
  +:+ " admin_grpc=" +:+ srv_grpc_bind_host server +:+ ":" +:+ show_N (srv_admin_grpc_port server)
  +:+ " environment=" +:+ environment_as_str (run_environment (cfg_runtime config))
  +:+ " storage=" +:+ quoted (storage_safe_summary host).

Definition initialize_storage (env : EnvMap) (host : Bootstrap) : Eff DiscoveryError Db () :=
  if negb (sto_apply_initial_schema (cfg_storage (hb_config host))) then mret ()
  else
    match hb_runtime_storage host with
    | MemoryStorage _ => mret ()
    | PostgresStorage (Some control_plane) _ =>
        apply_initial_schema cargo_manifest_dir read_file utf8_error env (store control_plane)
    | PostgresStorage None _ => fail (InvalidConfig
        "postgres control plane has already been moved into the gRPC runtime")
    | RedisStorage _ _ => lift redis_initialize
    end.

(** [DiscoveryServiceHostGrpcServer::health_state]: whether a listener has the cell; all
    that have one share it. *)
Definition health_state (handles : list DiscoveryRpcServerHandle) : bool :=
  existsb sh_health_state handles.

Definition bound_server_count (handles : list DiscoveryRpcServerHandle) : N := len_N handles.

(** ** [main] *)

(** The default is [SocketAddr::from(([127, 0, 0, 1], 8080))]. *)
Definition parse_probe_bind_addr (env : EnvMap) : string :=
  match env !! "SDKWORK_DISCOVERY_HTTP_PROBE_BIND" with
  | Some value => match parse_addr value with Ok addr => addr | Err _ => "127.0.0.1:8080" end
  | None => "127.0.0.1:8080"
  end.

(** The two variants of [start_probe_server]; the handle of the recorder exists only with
    the feature. *)
Definition start_probe_server_prometheus (bind : string) (health_state prometheus_handle : bool)
    : ProbeServer :=
  {| ps_bind := bind; ps_listening := bool_decide (bind_error bind = None);
     ps_readiness := health_state; ps_skip_metrics := true; ps_metrics_route := prometheus_handle |}.

Definition start_probe_server_plain (bind : string) (health_state : bool) : ProbeServer :=
  {| ps_bind := bind; ps_listening := bool_decide (bind_error bind = None);
     ps_readiness := health_state; ps_skip_metrics := false; ps_metrics_route := false |}.

Definition start_probe_server (bind : string) (health_state prometheus_handle : bool)
    : ProbeServer :=
  if prometheus then start_probe_server_prometheus bind health_state prometheus_handle
  else start_probe_server_plain bind health_state.

(** Where [main] leaves with [exit(1)]. *)
Inductive MainExit : Type :=
| RecorderFailed (error : string)
| RuntimeFailed (error : DiscoveryError)
| StorageFailed (error : DiscoveryError)
| GrpcFailed (error : DiscoveryError).

Definition install_prometheus_recorder : Result MainExit () :=
  map_error RecorderFailed install_recorder.

Record ServiceProcess : Type := {
  sp_config : DiscoveryRuntimeConfig;
  sp_telemetry : RpcTelemetryContext;
  sp_handles : list DiscoveryRpcServerHandle;
  sp_probe : ProbeServer;
}.

Definition telemetry_of (config : DiscoveryRuntimeConfig) : RpcTelemetryContext :=
  {| tc_process_service := "sdkwork-discovery";
     tc_environment := environment_as_str (run_environment (cfg_runtime config));
     tc_deployment_profile := profile_as_str (run_deployment_profile (cfg_runtime config));
     tc_runtime_target := target_as_str (run_runtime_target (cfg_runtime config)) |}.

(** [main] up to the wait for a signal. *)
Definition main (env : EnvMap) : Eff MainExit Db ServiceProcess :=
  lift (if prometheus then install_prometheus_recorder else Ok ());;
  host ← map_failure RuntimeFailed (lift (from_process_env read_file
    PgCodec.new_lazy pg_safe_summary utf8_error client_open toml_from_str
    debug_str read_to_string env));
  map_failure StorageFailed (initialize_storage env host);;
  handles ← map_failure GrpcFailed (lift (serve_grpc read_file parse_addr bind_error tls_error
    reflection_error host).2);
  mret {| sp_config := hb_config host; sp_telemetry := telemetry_of (hb_config host); sp_handles := handles;
          sp_probe := start_probe_server (parse_probe_bind_addr env) (health_state handles)
                        prometheus |}.
End process.

(** ** Serving and shutting down *)

(** [server.rs]: how long a listener may take to finish once it has been told to. *)
Definition SERVER_SHUTDOWN_GRACE_PERIOD_MS : N := 500.

(** The wait of [shutdown] for a server that ends after [join] milliseconds, or never:
    after the grace period its task is aborted. *)
Definition shutdown_wait_ms (join : option N) : N :=
  match join with
  | Some ms => N.min ms SERVER_SHUTDOWN_GRACE_PERIOD_MS
  | None => SERVER_SHUTDOWN_GRACE_PERIOD_MS
  end.

(** A listener: its handle, what its health task has reported last, and its own health
    service. *)
Record Listener : Type := {
  ls_handle : DiscoveryRpcServerHandle;
  ls_last_reported : option DiscoveryHealthStatus;
  ls_reporter : HealthReporter;
}.

Abbreviation ls_names l := (sh_health_service_names (ls_handle l)).

(** Waiting for a signal; shutting down, with this number of listeners done; gone. *)
Inductive Phase : Type := Up | Closing (closed : nat) | Exited.

Record Running (S : Type) : Type := {
  rn_actor : Actor S;
  rn_listeners : list Listener;
  rn_gauge : option DiscoveryHealthStatus;
  rn_probe : option ProbeServer;
  rn_phase : Phase;
  rn_waited_ms : N;
}.
Arguments rn_actor {S} _.
Arguments rn_listeners {S} _.
Arguments rn_gauge {S} _.
Arguments rn_probe {S} _.
Arguments rn_phase {S} _.
Arguments rn_waited_ms {S} _.

Section running.
Context {S : Type} `{RegistryStore S, ConfigStore S, WatchEventStore S, ConfigParsers}.
Context (debug_str : string → string) (config : DiscoveryRpcRuntimeConfig).

Definition rn_status (r : Running S) : DiscoveryHealthStatus := hs_status (ac_health (rn_actor r)).

Definition open_listener (h : DiscoveryRpcServerHandle) : Listener :=
  {| ls_handle := h; ls_last_reported := None; ls_reporter := default ∅ (sh_health_reporter h) |}.

(** The process when [main] waits for a signal. *)
Definition launch (sp : ServiceProcess) (p : DiscoveryControlPlane S) (now : N) : Running S :=
  {| rn_actor := spawn_actor p (rtc_resilience config) now;
     rn_listeners := open_listener <$> sp_handles sp; rn_gauge := None;
     rn_probe := Some (sp_probe sp); rn_phase := Up; rn_waited_ms := 0 |}.

(** The health task of a listener with the gauge of the process. *)
Definition task_of (l : Listener) (r : Running S) : HealthSync :=
  {| hy_last_reported := ls_last_reported l; hy_reporter := ls_reporter l;
     hy_gauge := rn_gauge r |}.

Definition put_task (i : nat) (l : Listener) (y : HealthSync) (r : Running S) : Running S :=
  {| rn_actor := rn_actor r;
     rn_listeners := <[i := {| ls_handle := ls_handle l; ls_last_reported := hy_last_reported y;
                               ls_reporter := hy_reporter y |}]> (rn_listeners r);
     rn_gauge := hy_gauge y; rn_probe := rn_probe r; rn_phase := rn_phase r;
     rn_waited_ms := rn_waited_ms r |}.

(** A turn of the actor; a tick of the health task of one listener. *)
Definition runtime_turn (e : ActorEvent) (r : Running S) : Running S :=
  {| rn_actor := actor_step debug_str config (rn_actor r) e; rn_listeners := rn_listeners r;
     rn_gauge := rn_gauge r; rn_probe := rn_probe r; rn_phase := rn_phase r;
     rn_waited_ms := rn_waited_ms r |}.

Definition health_tick (i : nat) (l : Listener) (r : Running S) : Running S :=
  put_task i l (health_sync_tick (ls_names l) (rn_status r) (task_of l r)) r.

Definition enter (phase : Phase) (waited_ms : N) (probe : option ProbeServer) (r : Running S)
    : Running S :=
  {| rn_actor := rn_actor r; rn_listeners := rn_listeners r; rn_gauge := rn_gauge r;
     rn_probe := probe; rn_phase := phase; rn_waited_ms := rn_waited_ms r + waited_ms |}.

(** The signal: the probe is aborted first. *)
Definition signalled (r : Running S) : Running S := enter (Closing 0) 0 None r.

(** [DiscoveryRpcServerHandle::shutdown] of the next listener. *)
Definition close_listener (i : nat) (l : Listener) (join : option N) (r : Running S)
    : Running S :=
  enter (Closing (Datatypes.S i)) (shutdown_wait_ms join) (rn_probe r)
    (put_task i l (shutdown (ls_names l) (task_of l r)) r).

(** Whether the health task of a listener is still running: [shutdown] aborts it. *)
Definition still_open (phase : Phase) (i : nat) : Prop :=
  match phase with Up => True | Closing closed => closed ≤ i | Exited => False end%nat.

(** What can happen next.  The actor and the health tasks run beside the shutdown.  A turn
    of the actor is one step, from the command or timer it takes to the moment it has
    brought the health cell up to date: states of the process are states between turns.
    Within a turn the breaker may have moved while the cell, which is what the probe and
    the health tasks read, still has the state of the turn before. *)
Inductive process_step : Running S → Running S → Prop :=
| step_runtime r e :
    rn_phase r ≠ Exited → process_step r (runtime_turn e r)
| step_tick r i l :
    rn_listeners r !! i = Some l → sh_health_sync (ls_handle l) = true →
    still_open (rn_phase r) i → process_step r (health_tick i l r)
| step_signal r :
    rn_phase r = Up → process_step r (signalled r)
| step_close r i l join :
    rn_phase r = Closing i → rn_listeners r !! i = Some l →
    process_step r (close_listener i l join r)
| step_exit r :
    rn_phase r = Closing (length (rn_listeners r)) →
    process_step r (enter Exited 0 None r).
End running.
