(* ===== verification/HostProcessTheorems.v ===== *)
(** * Theorems about the service process

    In every interleaving of the runtime, the health tasks and the shutdown, what the
    process says about its health agrees with what its runtime can do, and a shutdown
    that has begun comes to its end with everything reported as not serving. *)
From S2P Require Import Prelude RustStr Collections Contract RpcContext Resilience ControlPlane.
From S2P Require Import StorageContract MemoryStore MemoryRegistry MemoryConfig MemoryWatch.
From S2P Require Import MemoryInstance Actor ActorTheorems HostConfig EnvOverlay Redis RpcServer.
From S2P Require Import HostBootstrap HostTheorems PgSchema PgSql PgCodec Metrics DatabaseHost.
From S2P Require Import HostProcess PgSample ControlPlaneTheorems.

(** ** The listeners [main] starts *)

(** A fresh listener reports all its names as serving, and none without health. *)
Definition fresh (health : bool) (h : DiscoveryRpcServerHandle) : Prop :=
  sh_health_state h = health ∧ sh_health_sync h = health
  ∧ reports (sh_health_service_names h) true (default ∅ (sh_health_reporter h)).

Section start.
Context (parse_addr : string → Result string string) (bind_error : string → option string).
Context (tls_error : DiscoveryRpcTlsIdentity → option string → option string).
Context (reflection_error : option string).

Lemma started_fresh config names serving h :
  start_rpc_server tls_error config names serving = Ok h → fresh (dsc_enable_health config) h.
Proof.
  unfold start_rpc_server. intros (? & _ & H)%result_bind_Ok.
  apply result_bind_Ok in H as (? & _ & [= <-]). split_and!; [done..|]. intros name. simpl.
  destruct (dsc_enable_health config); simpl; [|by rewrite lookup_empty].
  unfold set_health_services_serving. by rewrite lookup_set_health, lookup_empty.
Qed.

Lemma listen_fresh surface config start names serving h :
  listen parse_addr bind_error tls_error surface config start = Ok h →
  start config = start_rpc_server tls_error config names serving →
  fresh (dsc_enable_health config) h.
Proof.
  intros H Hs. unfold listen in H. checks H. rewrite Hs in H. by eapply started_fresh.
Qed.

Lemma serve_runtime_fresh ic bc handles health :
  serve_runtime parse_addr bind_error tls_error reflection_error ic bc = Ok handles →
  dsc_enable_health ic = health → dsc_enable_health bc = health →
  Forall (fresh health) handles ∧ (1 ≤ length handles ≤ 2)%nat.
Proof.
  unfold serve_runtime. intros Hs Hi Hb. case_bool_decide.
  - apply result_bind_Ok in Hs as (h & Hs & [= <-]). split; [|simpl; lia].
    rewrite Forall_singleton, <- Hi. by eapply listen_fresh.
  - apply result_bind_Ok in Hs as (h1 & Hs1 & Hs). apply result_bind_Ok in Hs as (h2 & Hs2 & [= <-]).
    split; [|simpl; lia].
    apply Forall_cons_2; [rewrite <- Hi; by eapply listen_fresh|].
    rewrite Forall_singleton, <- Hb. by eapply listen_fresh.
Qed.

Lemma fresh_health_state health handles :
  Forall (fresh health) handles → (1 ≤ length handles)%nat → health_state handles = health.
Proof.
  intros Hf. destruct Hf as [|h hs [Hh _] Hf]; simpl; [lia|]. intros _. rewrite Hh.
  destruct health; [done|]. induction Hf as [|h' hs' [Hh' _]]; [done|]. simpl. by rewrite Hh'.
Qed.

Lemma serve_grpc_fresh {Store} read_file
    (host : DiscoveryServiceHostBootstrap (PostgresStore := Store)) handles :
  (serve_grpc read_file parse_addr bind_error tls_error reflection_error host).2 = Ok handles →
  Forall (fresh (srv_enable_health (cfg_server (hb_config host)))) handles
  ∧ (1 ≤ length handles ≤ 2)%nat.
Proof.
  unfold serve_grpc. rewrite gets_bind_run, lift_bind_run. cbn [id].
  destruct (internal_rpc_server_config _ _) as [ic|] eqn:Hi; [|done]. rewrite lift_bind_run.
  destruct (backend_rpc_server_config _ _) as [bc|] eqn:Hb; [|done]. rewrite lift_bind_run.
  destruct (rpc_runtime_config _ _); [|done].
  destruct (take_control_plane _) as [storage taken]. rewrite modify_bind_run, lift_bind_run.
  destruct taken; [|done]. cbn [lift snd]. intros Hs.
  eapply serve_runtime_fresh; [exact Hs|by eapply server_config_flags..].
Qed.
End start.

(** ** The invariant *)

Definition closed_at (phase : Phase) (i : nat) : bool :=
  match phase with Up => false | Closing closed => bool_decide (i < closed)%nat | Exited => true end.

(** What the names of a listener are reported as. *)
Definition reported (phase : Phase) (i : nat) (l : Listener) : bool :=
  negb (closed_at phase i)
  && match ls_last_reported l with None => true | Some s => grpc_serving s end.

Definition closed_count {S} (r : Running S) : nat :=
  match rn_phase r with Up => 0 | Closing k => k | Exited => length (rn_listeners r) end.

Section running.
Context {S : Type} `{RegistryStore S, ConfigStore S, WatchEventStore S, ConfigParsers}.
Context (debug_str : string → string) (config : DiscoveryRpcRuntimeConfig).
Abbreviation step := (process_step (S := S) debug_str config).

Record coherent (handles : list DiscoveryRpcServerHandle) (probe : ProbeServer) (r : Running S)
    : Prop := {
  co_mirrored : mirrored (rn_actor r);
  co_handles : ls_handle <$> rn_listeners r = handles;
  co_reports i l : rn_listeners r !! i = Some l →
    reports (ls_names l) (reported (rn_phase r) i l) (ls_reporter l);
  co_count : (closed_count r ≤ length (rn_listeners r))%nat;
  co_gauge : (1 ≤ closed_count r)%nat → closed_count r = length (rn_listeners r) →
    rn_gauge r = Some HealthNotServing;
  co_probe : rn_probe r = match rn_phase r with Up => Some probe | _ => None end;
  co_waited : rn_waited_ms r <= 500 * N.of_nat (closed_count r);
}.

Lemma launch_coherent health sp p now :
  Forall (fresh health) (sp_handles sp) →
  coherent (sp_handles sp) (sp_probe sp) (launch (S := S) config sp p now).
Proof.
  intros Hf. split; try done.
  - simpl. rewrite <- list_fmap_compose. apply list_fmap_id.
  - intros i l. simpl. rewrite list_lookup_fmap. intros (h & Hh & ->)%fmap_Some.
    by apply (Forall_lookup_1 _ _ _ _ Hf Hh).
  - unfold closed_count. simpl. lia.
  - unfold closed_count. simpl. lia.
Qed.

(** A tick brings the names of its listener to what the runtime is in now. *)
Lemma ticked_reports handles probe r i l :
  coherent handles probe r → rn_listeners r !! i = Some l → still_open (rn_phase r) i →
  let y := health_sync_tick (ls_names l) (rn_status r) (task_of l r) in
  hy_last_reported y = Some (rn_status r)
  ∧ reports (ls_names l) (grpc_serving (rn_status r)) (hy_reporter y).
Proof.
  intros Hc Hl Ho. unfold health_sync_tick. assert (closed_at (rn_phase r) i = false) as Hcl.
  { destruct (rn_phase r); [done| |done]. apply bool_decide_eq_false. simpl in Ho. lia. }
  pose proof (co_reports _ _ _ Hc i l Hl) as Hr. unfold reported in Hr. rewrite Hcl in Hr.
  case_bool_decide as E; simpl in *; [by rewrite E in Hr|]. split; [done|].
  by eapply set_health_reports.
Qed.

(** Replacing what one task says about its listener keeps the others. *)
Lemma put_task_reports handles probe (r : Running S) i l y phase :
  coherent handles probe r → rn_listeners r !! i = Some l →
  (∀ j, j ≠ i → closed_at phase j = closed_at (rn_phase r) j) →
  reports (ls_names l)
    (negb (closed_at phase i)
     && match hy_last_reported y with None => true | Some s => grpc_serving s end)
    (hy_reporter y) →
  ls_handle <$> rn_listeners (put_task i l y r) = handles
  ∧ ∀ j l', rn_listeners (put_task i l y r) !! j = Some l' →
      reports (ls_names l') (reported phase j l') (ls_reporter l').
Proof.
  intros Hc Hl Hcl Hy. split.
  - rewrite <- (co_handles _ _ _ Hc). simpl. rewrite list_fmap_insert. simpl.
    apply list_insert_id. by rewrite list_lookup_fmap, Hl.
  - intros j l'. simpl. destruct (decide (j = i)) as [->|Hne].
    + rewrite list_lookup_insert_eq by (by eapply lookup_lt_Some). by intros [= <-].
    + rewrite list_lookup_insert_ne by done. intros Hj. unfold reported. rewrite Hcl by done.
      exact (co_reports _ _ _ Hc j l' Hj).
Qed.

Lemma step_coherent handles probe r r' :
  step r r' → coherent handles probe r → coherent handles probe r'.
Proof.
  intros Hstep Hc. destruct Hstep as [r e Hph|r i l Hl Hs Ho|r Hph|r i l join Hph Hl|r Hph].
  - destruct Hc. split; try done. by apply actor_step_mirrored.
  - destruct (ticked_reports _ _ r i l Hc Hl Ho) as [Hlast Hrep].
    destruct (put_task_reports _ _ r i l (health_sync_tick (ls_names l) (rn_status r) (task_of l r))
      (rn_phase r) Hc Hl) as [Hh Hr]; [done| |].
    { rewrite Hlast. destruct (closed_at (rn_phase r) i) eqn:E; [|done].
      destruct (rn_phase r); [done| |done]. apply bool_decide_eq_true in E. simpl in Ho. lia. }
    destruct Hc as [Hm _ _ Hcount _ Hp Hw]. apply lookup_lt_Some in Hl as Hlt.
    assert (closed_count (health_tick i l r) = closed_count r) as Hcc.
    { unfold closed_count. simpl. by rewrite length_insert. }
    split; try done; rewrite ?Hcc; simpl; rewrite ?length_insert; [done| |done].
    intros _ Heq. unfold closed_count in Heq. destruct (rn_phase r); simpl in *; lia.
  - destruct Hc as [Hm Hh Hr Hcount Hg Hp Hw]. unfold closed_count in *. rewrite Hph in *.
    split; try done; unfold closed_count; simpl in *; lia.
  - destruct (put_task_reports _ _ r i l (shutdown (ls_names l) (task_of l r))
      (Closing (Datatypes.S i)) Hc Hl) as [Hh Hr].
    { intros j Hj. rewrite Hph. simpl. apply bool_decide_ext. lia. }
    { simpl. rewrite bool_decide_true by lia. simpl.
      eapply set_health_reports. exact (co_reports _ _ _ Hc i l Hl). }
    destruct Hc as [Hm _ _ Hcount _ Hp Hw]. apply lookup_lt_Some in Hl as Hlt.
    split; try done; unfold closed_count in *; simpl; rewrite ?length_insert; [lia| |].
    + simpl. by rewrite Hp, Hph.
    + rewrite Hph in Hw. unfold shutdown_wait_ms, SERVER_SHUTDOWN_GRACE_PERIOD_MS.
      destruct join; lia.
  - destruct Hc as [Hm Hh Hr Hcount Hg Hp Hw]. unfold closed_count in *. rewrite Hph in *.
    split; try done; unfold closed_count; simpl in *; try lia. intros i l Hl.
    specialize (Hr i l Hl). unfold reported in *. simpl in *.
    rewrite bool_decide_true in Hr; [exact Hr|by eapply lookup_lt_Some].
Qed.

Lemma run_coherent handles probe r r' :
  rtc step r r' → coherent handles probe r → coherent handles probe r'.
Proof. induction 1; eauto using step_coherent. Qed.

(** ** A shutdown comes to its end *)

Lemma closing_exits k (r : Running S) i :
  rn_phase r = Closing i → length (rn_listeners r) = (i + k)%nat →
  ∃ r', rtc step r r' ∧ rn_phase r' = Exited.
Proof.
  revert r i. induction k as [|k IH]; intros r i Hph Hlen.
  { exists (enter Exited 0 None r). split; [|done]. apply rtc_once, step_exit. rewrite Hph. f_equal. lia. }
  destruct (lookup_lt_is_Some_2 (rn_listeners r) i) as [l Hl]; [lia|].
  destruct (IH (close_listener i l None r) (Datatypes.S i)) as (r' & Hrun & He);
    [done|simpl; rewrite length_insert; lia|].
  exists r'. split; [|done]. eapply rtc_l; [by apply step_close|done].
Qed.

Lemma process_exits handles probe r :
  coherent handles probe r → ∃ r', rtc step r r' ∧ rn_phase r' = Exited.
Proof.
  intros Hc. pose proof (co_count _ _ _ Hc) as Hle. unfold closed_count in Hle.
  destruct (rn_phase r) as [|i|] eqn:Hph; [|apply (closing_exits (length (rn_listeners r) - i) r i); [done|lia]|by eauto using rtc_refl].
  destruct (closing_exits (length (rn_listeners r)) (signalled r) 0) as (r' & Hrun & He); [done..|].
  exists r'. split; [|done]. eapply rtc_l; [by apply step_signal|done].
Qed.
End running.

(** ** What [main] has done when it serves *)

Lemma map_failure_bind {E F S A B} (f : E → F) (m : Eff E S A) (k : A → Eff F S B) s s' b :
  (map_failure f m ≫= k) s = (s', Ok b) → ∃ s1 a, m s = (s1, Ok a) ∧ k a s1 = (s', Ok b).
Proof.
  rewrite eff_bind_run. unfold map_failure. destruct (m s) as [s1 [a|]]; naive_solver.
Qed.

(** The runtime can do everything: it is not read-only and its breaker is not open. *)
Definition operational (r : RuntimeResilience) : bool :=
  bool_decide (degradation r ≠ ReadOnly) && bool_decide (cb_state (circuit_breaker r) ≠ Open).

Lemma ready_operational r : is_ready (from_resilience r) = operational r.
Proof.
  unfold from_resilience, operational. repeat case_bool_decide; naive_solver.
Qed.

Section process.
Context `{PgExternals, DatabaseCrates Pool PgPool Module Manifest Db}.
Context (cargo_manifest_dir : string) (prometheus : bool) (install_recorder : Result string ()).
Context (read_file read_to_string : string → Result string string).
Context (utf8_error : string → option string) (client_open : string → Result string string).
Context (toml_from_str : string → Result string RawDiscoveryRuntimeConfig).
Context (debug_str : string → string).
Context (parse_addr : string → Result string string) (bind_error : string → option string).
Context (tls_error : DiscoveryRpcTlsIdentity → option string → option string).
Context (reflection_error : option string) (redis_initialize : DiscoveryResult ()).

Abbreviation main_ := (main cargo_manifest_dir prometheus install_recorder read_file read_to_string
  utf8_error client_open toml_from_str debug_str parse_addr bind_error tls_error reflection_error
  redis_initialize).
Abbreviation start_ := (from_process_env read_file PgCodec.new_lazy pg_safe_summary utf8_error
  client_open toml_from_str debug_str read_to_string).

Lemma main_Ok env d d' sp :
  main_ env d = (d', Ok sp) →
  ∃ host, start_ env = Ok host ∧ sp_config sp = hb_config host
    ∧ initialize_storage cargo_manifest_dir read_file utf8_error redis_initialize env host d
      = (d', Ok ())
    ∧ (serve_grpc read_file parse_addr bind_error tls_error reflection_error host).2
      = Ok (sp_handles sp)
    ∧ sp_probe sp = start_probe_server prometheus bind_error (parse_probe_bind_addr parse_addr env)
                      (health_state (sp_handles sp)) prometheus.
Proof.
  unfold main. rewrite lift_bind_run. destruct (if prometheus then _ else _) as [[]|]; [|done].
  intros Hm.
  apply map_failure_bind in Hm as (d2 & host & [= -> Hs] & Hm).
  apply map_failure_bind in Hm as (d4 & [] & Hi & Hm).
  apply map_failure_bind in Hm as (d3 & handles & [= -> Hg] & [= <- <-]).
  exists host. by split_and!.
Qed.

(** A process that serves a PostgreSQL store whose schema it was to apply has prepared
    the database. *)
Lemma serving_process_prepared env d d' sp :
  main_ env d = (d', Ok sp) → sto_provider (cfg_storage (sp_config sp)) = Postgres →
  sto_apply_initial_schema (cfg_storage (sp_config sp)) = true →
  ∃ pool, prepared cargo_manifest_dir env pool d d'.
Proof.
  intros (host & Hs & -> & Hi & _)%main_Ok Hp Ha.
  destruct (start_Ok _ _ _ _ _ _ _ _ _ _ Hs) as (_ & Hb & _).
  unfold build_runtime_storage in Hb. rewrite Hp in Hb.
  apply result_bind_Ok in Hb as (transport & _ & Hb).
  apply result_bind_Ok in Hb as (o & _ & [= Hst]).
  unfold initialize_storage in Hi. rewrite Ha, <- Hst in Hi. simpl in Hi.
  apply apply_schema_prepares in Hi as (c & pool & _ & _ & Hprep). by exists pool.
Qed.

(** The probe of a process that serves is at its default address. *)
Lemma probe_address env host :
  start_ env = Ok host → parse_probe_bind_addr parse_addr env = "127.0.0.1:8080".
Proof.
  intros Hs. unfold parse_probe_bind_addr.
  destruct (env !! "SDKWORK_DISCOVERY_HTTP_PROBE_BIND") as [v|] eqn:E; [|done].
  destruct (probe_variables_refused read_file read_to_string PgCodec.new_lazy pg_safe_summary
    utf8_error client_open toml_from_str debug_str env "SDKWORK_DISCOVERY_HTTP_PROBE_BIND")
    as [e He]; [left|by eauto|]. by rewrite Hs in He.
Qed.

(** C22: what a process says about its health is what its runtime can do.  Take a process
    that has come to serve, with any store, and any interleaving of the turns of its
    runtime, its health tasks and its shutdown, seen between two turns.  Its HTTP probe is at 127.0.0.1:8080; while it waits
    for a signal the readiness check answers yes exactly if the runtime is neither
    read-only nor behind an open breaker, and there is no check when health is off or the
    address could not be bound.
    Every listener reports one state for all of its names, which a tick of its task
    brings to the serving state of the runtime at that moment.  The process can always
    be brought to its end, within a second of waiting; then there is no probe, every
    name of every listener is reported as not serving and so is the gauge. *)
Theorem process_health_coherent {S : Type}
    `{RegistryStore S, ConfigStore S, WatchEventStore S, ConfigParsers}
    env d d' sp rc (p : DiscoveryControlPlane S) now r :
  main_ env d = (d', Ok sp) →
  rtc (process_step debug_str rc) (launch rc sp p now) r →
  ps_bind (sp_probe sp) = "127.0.0.1:8080"
  ∧ (rn_phase r = Up → ∃ probe, rn_probe r = Some probe
      ∧ probe_readiness probe (ac_health (rn_actor r))
        = if bool_decide (bind_error "127.0.0.1:8080" = None)
             && srv_enable_health (cfg_server (sp_config sp))
          then Some (if operational (ac_resilience (rn_actor r)) then Ok ()
                     else Err "discovery runtime is not ready")
          else None)
  ∧ ls_handle <$> rn_listeners r = sp_handles sp
  ∧ (∀ i l, rn_listeners r !! i = Some l →
      (∃ serving, reports (ls_names l) serving (ls_reporter l))
      ∧ (still_open (rn_phase r) i → ∃ l', rn_listeners (health_tick i l r) !! i = Some l'
          ∧ reports (ls_names l) (grpc_serving (rn_status r)) (ls_reporter l')))
  ∧ (∃ r', rtc (process_step debug_str rc) r r' ∧ rn_phase r' = Exited)
  ∧ (rn_phase r = Exited → rn_probe r = None ∧ rn_gauge r = Some HealthNotServing
      ∧ rn_waited_ms r <= 1000
      ∧ ∀ l, l ∈ rn_listeners r → reports (ls_names l) false (ls_reporter l)).
Proof.
  intros (host & Hs & Hcfg & _ & Hg & Hp)%main_Ok Hrun.
  destruct (serve_grpc_fresh _ _ _ _ _ _ _ Hg) as [Hfresh Hcount].
  pose proof (run_coherent _ _ _ _ _ _ Hrun (launch_coherent _ _ sp p now Hfresh)) as Hc.
  assert (length (rn_listeners r) = length (sp_handles sp)) as Hlen
    by (rewrite <- (co_handles _ _ _ Hc); by rewrite length_fmap).
  split_and!.
  - rewrite Hp. unfold start_probe_server. destruct prometheus; by eapply probe_address.
  - intros Hph. exists (sp_probe sp). split; [by rewrite (co_probe _ _ _ Hc), Hph|].
    assert (ps_readiness (sp_probe sp) = health_state (sp_handles sp)
            ∧ ps_listening (sp_probe sp) = bool_decide (bind_error "127.0.0.1:8080" = None))
      as [Hready Hlisten].
    { rewrite Hp, (probe_address _ _ Hs). unfold start_probe_server. by destruct prometheus. }
    unfold probe_readiness, readiness_check.
    rewrite Hready, Hlisten, Hcfg, (co_mirrored _ _ _ Hc), ready_operational.
    by rewrite (fresh_health_state _ _ Hfresh) by lia.
  - exact (co_handles _ _ _ Hc).
  - intros i l Hl. split; [by eexists; eapply co_reports|]. intros Ho.
    destruct (ticked_reports _ _ r i l Hc Hl Ho) as [_ Hr]. eexists.
    split; [simpl; apply list_lookup_insert_eq; by eapply lookup_lt_Some|exact Hr].
  - by eapply process_exits.
  - intros Hph. split_and!.
    + by rewrite (co_probe _ _ _ Hc), Hph.
    + apply (co_gauge _ _ _ Hc); unfold closed_count; rewrite Hph; [lia|done].
    + pose proof (co_waited _ _ _ Hc) as Hw. unfold closed_count in Hw. rewrite Hph in Hw. lia.
    + intros l (i & Hl)%list_elem_of_lookup_1. pose proof (co_reports _ _ _ Hc i l Hl) as Hr.
      unfold reported in Hr. by rewrite Hph in Hr.
Qed.
End process.

(** ** A development process *)

(** Database crates that have nothing to do. *)
Definition idle_crates : DatabaseCrates () () () () () := {|
  create_pool_from_config := λ _, Ok ();
  as_postgres := Some;
  pool_text := λ _, "";
  config_from_env := λ _ _, Err "DATABASE_URL is not set";
  from_config_error := PoolOther;
  dotenv := id;
  canonicalize := λ _, None;
  from_app_root := λ _, Ok ();
  manifest_path := λ _, "database/manifest.json";
  manifest_from_file := λ _, Ok ();
  auto_migrate := λ _ _ _, false;
  orchestrator_init := λ _ _ _, mret ();
  orchestrator_migrate := λ _ _ _, mret ();
|}.

Definition sample_main (env : EnvMap) : () * Result MainExit ServiceProcess :=
  main (H := sample_externals false) (H0 := idle_crates) "/opt/discovery/crates/database-host"
    false (Ok ()) sample_read_file sample_open (λ _, None) Ok sample_toml id Ok (λ _, None)
    (λ _ _, None) None (Ok ()) env ().

Definition sample_process : ServiceProcess.
Proof.
  let r := eval vm_compute in (sample_main ∅).2 in match r with Ok ?sp => exact sp end.
Defined.

Lemma sample_main_serves : sample_main ∅ = ((), Ok sample_process).
Proof. vm_compute. reflexivity. Qed.

Definition sample_runtime : DiscoveryRpcRuntimeConfig := development_runtime.

Definition sample_launch : Running MemoryDiscoveryStore :=
  launch sample_runtime sample_process
    (host_control_plane new_store (sp_config sample_process)) 0.

(** Listener [i] of a running process. *)
Definition nth_listener (i : nat) (r : Running MemoryDiscoveryStore) : Listener :=
  default (open_listener sample_handle) (rn_listeners r !! i).

Definition close_nth (i : nat) (r : Running MemoryDiscoveryStore) : Running MemoryDiscoveryStore :=
  close_listener i (nth_listener i r) None r.

Definition stopped_process : Running MemoryDiscoveryStore :=
  enter Exited 0 None (close_nth 1 (close_nth 0 (signalled sample_launch))).

Lemma close_nth_step i r :
  rn_phase r = Closing i → (i < length (rn_listeners r))%nat →
  process_step id sample_runtime r (close_nth i r).
Proof.
  intros Hph Hlt. apply step_close; [done|]. unfold nth_listener.
  by destruct (lookup_lt_is_Some_2 _ _ Hlt) as [l ->].
Qed.

Lemma first_closed :
  rtc (process_step id sample_runtime) sample_launch (close_nth 0 (signalled sample_launch)).
Proof.
  apply (rtc_l _ _ (signalled sample_launch)); [by apply step_signal|].
  apply rtc_once, close_nth_step; [done|]. vm_compute. lia.
Qed.

Lemma stopped_reachable :
  rtc (process_step id sample_runtime) sample_launch stopped_process.
Proof.
  etrans; [exact first_closed|].
  apply (rtc_l _ _ (close_nth 1 (close_nth 0 (signalled sample_launch)))).
  - apply close_nth_step; [done|]. vm_compute. lia.
  - unfold stopped_process. apply rtc_once, step_exit. vm_compute. reflexivity.
Qed.

Lemma process_health_coherent_witness :
  rn_phase stopped_process = Exited ∧ rn_gauge stopped_process = Some HealthNotServing
  ∧ rn_waited_ms stopped_process <= 1000.
Proof.
  destruct (process_health_coherent (H := sample_externals false) (H0 := idle_crates)
    "/opt/discovery/crates/database-host" false (Ok ()) sample_read_file sample_open (λ _, None)
    Ok sample_toml id Ok (λ _, None) (λ _ _, None) None (Ok ()) ∅ () () sample_process
    sample_runtime (host_control_plane new_store (sp_config sample_process)) 0 stopped_process
    sample_main_serves stopped_reachable) as (_ & _ & _ & _ & _ & Hend).
  destruct (Hend eq_refl) as (_ & Hg & Hw & _). by split_and!.
Defined.

(** The gauge is one for the process and each listener has a task that writes it: between
    the closing of the two listeners it can go back to serving. *)
Lemma gauge_rises_during_shutdown :
  ∃ r, rtc (process_step id sample_runtime) sample_launch r
    ∧ rn_phase r = Closing 1 ∧ rn_gauge r = Some HealthServing.
Proof.
  set (r := close_nth 0 (signalled sample_launch)).
  exists (health_tick 1 (nth_listener 1 r) r). split; [|done].
  etrans; [exact first_closed|]. apply rtc_once, step_tick; [| |simpl; lia].
  - vm_compute. reflexivity.
  - vm_compute. reflexivity.
Qed.
