(* ===== verification/TenantBackends.v ===== *)
(** * Tenants on any registry backend

    The control plane (core: control_plane.rs, tenant_scope.rs) in front of a backend of
    which only the promise of [RegistrySpec] is known, so in front of the in-memory and of
    the PostgreSQL registry alike: requests of callers that are bound to tenants, in any
    order and with any failures of the backend. *)
From S2P Require Import Prelude RustStr Collections Contract Discover StorageContract.
From S2P Require Import MemoryStore MemoryRegistry ControlPlane ControlPlaneTheorems Codec.
From S2P Require Import RegistryTheorems RegistrySpec PgSchema PgSql PgCodec Postgres PgLemmas.
From S2P Require Import PgBackend PgSample PgTheorems.

(** ** Requests *)

(** The requests of the control plane on single instances of the registry. *)
Inductive Request : Type :=
| ReqRegister (command : RegisterInstanceCommand)
| ReqRenew (command : RenewLeaseCommand)
| ReqReport (command : ReportInstanceStatusCommand)
| ReqDeregister (k : InstanceKey) (now_ms : N)
| ReqRetrieve (k : InstanceKey) (now_ms : N)
| ReqDiscover (query : DiscoverInstancesQuery) (now_ms : N).

(** The call of the backend a request leads to. *)
Definition call_of (q : Request) : RegistryCall :=
  match q with
  | ReqRegister c => DoRegister c
  | ReqRenew c => DoRenew c
  | ReqReport c => DoReport c
  | ReqDeregister k now => DoDeregister k now
  | ReqRetrieve k now => DoRetrieve k now
  | ReqDiscover q now => DoDiscover q now
  end.

(** The namespace a request names; a renewal names a lease only. *)
Definition request_namespace (q : Request) : option string :=
  match q with
  | ReqRegister c => Some (rc_namespace c)
  | ReqRenew _ => None
  | ReqReport c => Some (sc_namespace c)
  | ReqDeregister k _ => Some (ik_namespace k)
  | ReqRetrieve k _ => Some (ik_namespace k)
  | ReqDiscover q _ => Some (dq_namespace q)
  end.

Section submit.
Context {S : Type} `{RegistryStore S}.

(** A request through the control plane. *)
Definition submit (caller : CallerContext) (q : Request) (cp : DiscoveryControlPlane S)
    : DiscoveryControlPlane S * RegistryReply :=
  match q with
  | ReqRegister c =>
      let '(cp', r) := ControlPlane.register_instance caller c cp in (cp', reply_of Registered r)
  | ReqRenew c =>
      let '(cp', r) := ControlPlane.renew_lease caller c cp in (cp', reply_of Renewed r)
  | ReqReport c =>
      let '(cp', r) := ControlPlane.report_instance_status caller c cp in
      (cp', reply_of Reported r)
  | ReqDeregister k now =>
      let '(cp', r) := ControlPlane.deregister_instance caller (ik_namespace k)
        (ik_environment k) (ik_service_name k) (ik_instance_id k) now cp in
      (cp', reply_of Deregistered r)
  | ReqRetrieve k now =>
      let '(cp', r) := ControlPlane.retrieve_instance caller (retrieve_query k) now cp in
      (cp', reply_of Retrieved r)
  | ReqDiscover q now =>
      let '(cp', r) := ControlPlane.discover_instances caller q now cp in
      (cp', reply_of Discovered r)
  end.

Fixpoint submit_all (reqs : list (CallerContext * Request)) (cp : DiscoveryControlPlane S)
    : DiscoveryControlPlane S * list RegistryReply :=
  match reqs with
  | [] => (cp, [])
  | (caller, q) :: reqs =>
      let '(cp1, a) := submit caller q cp in
      let '(cp2, l) := submit_all reqs cp1 in (cp2, a :: l)
  end.

(** A request is refused before the backend is asked, or it is the call of the backend,
    and the namespace it names, if any, is of the caller. *)
Lemma submit_cases caller q cp :
  (∃ e, submit caller q cp = (cp, Refused e))
  ∨ ((∀ ns, request_namespace q = Some ns → in_tenant caller ns = true)
      ∧ submit caller q cp = (set_store (run_registry (call_of q) (store cp)).1 cp,
                              (run_registry (call_of q) (store cp)).2)).
Proof.
  destruct q; simpl; cp_unfold; cp_checks; try (by left; eauto);
    repeat match goal with
           | E : require_namespace_tenant_access _ _ = Ok _ |- _ => apply tenant_access_Ok in E
           end; right; (split; [by intros ns [= <-]|]); unfold on_store, from_store.
  - by destruct (store_register_instance command (store cp)).
  - by destruct (store_renew_lease command (store cp)).
  - by destruct (store_report_instance_status command (store cp)).
  - by destruct (store_deregister_instance _ _ _ _ now_ms (store cp)).
  - by destruct cp.
  - by destruct cp.
Qed.
End submit.

(** ** Isolation *)

Definition bound_outside (k : InstanceKey) (caller : CallerContext) : Prop :=
  ∃ t, tenant_id caller = Some t ∧ owned_by t (ik_namespace k) = false.

(** The records a lookup or a discovery shows. *)
Definition shown (a : RegistryReply) : list ServiceInstance :=
  match a with
  | Retrieved (Some i) => [i]
  | Discovered r => di_instances r
  | _ => []
  end.

(** The leases a request asks to renew. *)
Definition renews (q : Request) : list string :=
  match q with ReqRenew c => [lc_lease_id c] | _ => [] end.

(** A record is still there, or still absent, as it was, except that the lease of a
    record may have been renewed if it is one of [leases]. *)
Definition kept (leases : list string) (o o' : option ServiceInstance) : Prop :=
  match o, o' with
  | None, None => True
  | Some i, Some i' =>
      i' = i ∨ si_lease_id i ∈ leases ∧ ∃ expires revision, i' = set_lease expires revision i
  | _, _ => False
  end.

Lemma kept_refl leases o : kept leases o o.
Proof. destruct o; [by left|done]. Qed.

Lemma kept_trans l1 l2 o1 o2 o3 : kept l1 o1 o2 → kept l2 o2 o3 → kept (l1 ++ l2) o1 o3.
Proof.
  destruct o1 as [i1|], o2 as [i2|], o3 as [i3|]; try done. simpl. rewrite !elem_of_app.
  intros [->|(H1 & e1 & r1 & ->)] [->|(H2 & e2 & r2 & ->)]; [by left|right..];
    (split; [naive_solver|]); eauto.
Qed.

Section isolation.
Context (default_hash : N → N → N) {S : Type} `{RegistryBackend default_hash S}.

(** What a call that is carried out leaves of a record that is not of its namespace. *)
Lemma granted_elsewhere v q a v' k :
  granted default_hash v (call_of q) a v' →
  (∀ ns, request_namespace q = Some ns → ik_namespace k ≠ ns) →
  kept (renews q) (v !! k) (v' !! k).
Proof.
  intros Hg Hns. destruct q, a; try done; simpl in *.
  - destruct Hg as (_ & _ & _ & _ & _ & ->). rewrite lookup_insert_ne; [apply kept_refl|].
    intros <-. by apply (Hns _ eq_refl).
  - destruct Hg as (k' & i & Hi & Hl & _ & _ & _ & _ & _ & ->).
    destruct (decide (k' = k)) as [->|Hne]; [|rewrite lookup_insert_ne by done; apply kept_refl].
    rewrite lookup_insert_eq, Hi. right. rewrite Hl, list_elem_of_singleton. eauto.
  - destruct Hg as (i & _ & _ & _ & _ & _ & ->). rewrite lookup_insert_ne; [apply kept_refl|].
    intros <-. by apply (Hns _ eq_refl).
  - destruct Hg as (_ & Hg). destruct (dr_deregistered r); destruct Hg as (_ & Hg).
    + destruct Hg as (_ & ->). rewrite lookup_delete_ne; [apply kept_refl|].
      intros <-. by apply (Hns _ eq_refl).
    + rewrite Hg. apply kept_refl.
  - destruct Hg as (_ & ->). apply kept_refl.
  - destruct Hg as (_ & ->). apply kept_refl.
Qed.

Lemma allowed_elsewhere lost v q a v' k :
  allowed default_hash lost v (call_of q) a v' →
  (∀ ns, request_namespace q = Some ns → ik_namespace k ≠ ns) →
  kept (renews q) (v !! k) (v' !! k).
Proof.
  intros Ha Hns. destruct a; try (by eapply granted_elsewhere).
  destruct Ha as (_ & [->|(_ & a' & Ha)]); [apply kept_refl|by eapply granted_elsewhere].
Qed.

(** What an answer shows is held by the backend, in the namespace asked for. *)
Lemma allowed_shown lost v q a v' i :
  (∀ k i, v !! k = Some i → key_of i = k) →
  allowed default_hash lost v (call_of q) a v' → i ∈ shown a →
  request_namespace q = Some (si_namespace i).
Proof.
  intros Hkey Ha Hi. destruct a as [| | | | | |o|r|]; simpl in Hi; try by apply not_elem_of_nil in Hi.
  - destruct o as [i'|]; [|by apply not_elem_of_nil in Hi]. apply list_elem_of_singleton in Hi as ->.
    destruct q; try done. simpl in *. destruct Ha as (Ha & _).
    destruct (v !! k) as [j|] eqn:E; [|done]. simpl in Ha. destruct (live now_ms j); [|done].
    injection Ha as ->. by rewrite <- (Hkey k j E).
  - destruct q; try done. simpl in *.
    destruct Ha as ((l & revision & Hl & ->) & _). apply finalize_discover_elem in Hi.
    rewrite Hl in Hi. apply elem_of_retain in Hi as [Hf _].
    unfold discover_filter in Hf. rewrite !andb_true_iff in Hf.
    by destruct Hf as (((((->%bool_decide_eq_true & _) & _) & _) & _) & _).
Qed.

(** Each request that reaches the backend finds it ready. *)
Fixpoint requests_ready (reqs : list (CallerContext * Request))
    (cp : DiscoveryControlPlane S) : Prop :=
  match reqs with
  | [] => True
  | (caller, q) :: reqs =>
      backend_ready (call_of q) (store cp) ∧ requests_ready reqs (submit caller q cp).1
  end.

(** One request: the invariant, the records elsewhere, and what it shows. *)
Lemma submit_isolated caller q cp :
  backend_inv (store cp) → backend_ready (call_of q) (store cp) →
  let '(cp', a) := submit caller q cp in
  backend_inv (store cp')
  ∧ (∀ k, bound_outside k caller →
       kept (renews q) (backend_view (store cp) !! k) (backend_view (store cp') !! k))
  ∧ ∀ i, i ∈ shown a → in_tenant caller (si_namespace i) = true.
Proof.
  intros Hinv Hready.
  destruct (submit_cases caller q cp) as [[e ->]|(Hin & ->)].
  { split_and!; [done|intros; apply kept_refl|]. intros i Hi. by apply not_elem_of_nil in Hi. }
  destruct (backend_sound (call_of q) (store cp) Hinv Hready) as (Hinv' & Ha & _). simpl.
  split_and!; [done| |].
  - intros k (t & Ht & Hout). eapply allowed_elsewhere; [exact Ha|]. intros ns Hns <-.
    specialize (Hin _ Hns). unfold in_tenant in Hin. by rewrite Ht, Hout in Hin.
  - intros i Hi. apply Hin.
    by eapply allowed_shown; [intros k j; by apply (backend_keyed _ (store cp))|exact Ha|].
Qed.

(** C19: tenants are isolated on every registry backend.  Take any requests to register,
    renew, report, deregister, look up and discover, of callers that are bound to
    tenants, in any order, through the control plane, on a backend that keeps the promise
    of a registry, with whatever failures it has.  In a namespace that no tenant of these
    callers owns no record appears, goes or changes, with one exception: a renewal names
    a lease and no namespace and is not checked against the tenant, so that it may renew
    the lease it names, which changes the expiry and the revision of that record and
    nothing else.  Whatever record a lookup or a discovery shows lies in a namespace of
    the tenant of the caller that is answered. *)
Theorem tenants_isolated reqs cp cp' answers :
  backend_inv (store cp) → requests_ready reqs cp → submit_all reqs cp = (cp', answers) →
  backend_inv (store cp')
  ∧ (∀ k, Forall (λ '(caller, _), bound_outside k caller) reqs →
       kept (reqs.*2 ≫= renews) (backend_view (store cp) !! k) (backend_view (store cp') !! k))
  ∧ Forall2 (λ '(caller, _) a,
       ∀ i, i ∈ shown a → in_tenant caller (si_namespace i) = true) reqs answers.
Proof.
  revert cp cp' answers. induction reqs as [|[caller q] reqs IH]; intros cp cp' answers Hinv Hr.
  { intros [= <- <-]. split_and!; [done|intros; apply kept_refl|constructor]. }
  simpl in Hr. destruct Hr as [Hready Hr].
  pose proof (submit_isolated caller q cp Hinv Hready) as Hone. simpl.
  destruct (submit caller q cp) as [cp1 a]. destruct Hone as (Hinv1 & Hout & Hshown).
  destruct (submit_all reqs cp1) as [cp2 l] eqn:E. intros [= <- <-].
  destruct (IH cp1 cp2 l Hinv1 Hr E) as (Hinv2 & Hrest & Hl). split_and!; [done| |].
  - intros k Hk. apply Forall_cons in Hk as [Hk1 Hk2].
    eapply kept_trans; [by apply Hout|by apply Hrest].
  - constructor; [|done]. intros i Hi. by apply Hshown.
Qed.
End isolation.

(** ** Two tenants on PostgreSQL *)

Definition shared_plane : DiscoveryControlPlane PgWorld :=
  {| store := (@run_registry PgWorld
       (@postgres_registry_store (sample_externals false) canonical_order steady (λ _ n, n))
       (DoRegister (sample_register "drive-1" 1000)) empty_world).1;
     config_policy := config_policy (sample_plane sample_store);
     registry_policy := registry_policy (sample_plane sample_store) |}.

(** What the other tenant tries: to remove the instance, to register over it, to read it,
    and to renew a lease of its own. *)
Definition intrusion : list (CallerContext * Request) :=
  let k := register_key (sample_register "drive-1" 1000) in
  [(tenant_admin "globex", ReqDeregister k 2000);
   (tenant_admin "globex", ReqRegister (sample_register "drive-1" 2000));
   (tenant_admin "globex", ReqRetrieve k 2000);
   (tenant_admin "globex", ReqRenew {| lc_lease_id := "lease-9"; lc_lease_ttl_seconds := 30;
                                       lc_now_ms := 2000 |})].

Lemma tenants_isolated_witness :
  let R := @postgres_registry_store (sample_externals false) canonical_order steady (λ _ n, n) in
  let k := register_key (sample_register "drive-1" 1000) in
  kept ["lease-9"] (pg_view (H := sample_externals false) (pw_db (store shared_plane)) !! k)
    (pg_view (H := sample_externals false)
      (pw_db (store (@submit_all PgWorld R intrusion shared_plane).1)) !! k).
Proof.
  intros R k.
  destruct (@submit_all PgWorld R intrusion shared_plane) as [cp' answers] eqn:E.
  set (B := @postgres_backend (sample_externals false) canonical_order (sample_faithful false)
              steady (λ _ n, n)).
  destruct (@tenants_isolated (λ _ n, n) PgWorld R B intrusion shared_plane cp' answers)
    as (_ & Hk & _).
  - refine (proj1 (@backend_sound (λ _ n, n) PgWorld R B _ empty_world _ I)).
    apply (@db_wf_empty (sample_externals false)).
  - by repeat split.
  - exact E.
  - apply Hk. repeat constructor; exists "globex"; split; vm_compute; reflexivity.
Defined.
