(* ===== verification/StreamLimiter.v ===== *)
(** * The limit on watch streams (rpc: services.rs, server.rs)

    One semaphore is shared by the two services that open watch streams.  A call takes a
    permit before it asks the runtime for the replay and hands it to the task of its
    stream; the permit is free again when the call fails, when its future is dropped or
    when the task ends.  Calls and streams of both services interleave in any way. *)
From S2P Require Import Prelude RustStr Collections Contract RpcContext RpcContextTheorems Codec.
From S2P Require Import Proto Actor WatchStream.

(** The permits of [Arc<Semaphore>]. *)
Record Semaphore : Type := { sem_free : N }.

(** [DiscoveryWatchRpcService::with_limiter] and [DiscoveryConfigRpcService::with_watch_limiter]:
    the limiter that is passed in, or a new one. *)
Definition with_limiter (config : DiscoveryWatchServiceConfig) (limiter : option Semaphore)
    : Semaphore :=
  default {| sem_free := wc_max_streams config |} limiter.

(** The limiter of [serve_with_incoming] and [serve_internal_with_incoming], which both
    services are given. *)
Definition watch_limiter (config : DiscoveryWatchServiceConfig) : Semaphore :=
  {| sem_free := wc_max_streams config |}.

Inductive WatchRequest : Type :=
| ForService (request : WatchServiceRequest)
| ForConfig (request : WatchConfigRequest).

(** A call that holds a permit: waiting for the replay, or with its task running. *)
Inductive WatchCall : Type := Replaying | Streaming.

Record WatchSurface : Type := {
  sf_limiter : Semaphore;
  sf_calls : gmap N WatchCall;
}.

Definition open_surface (config : DiscoveryWatchServiceConfig) : WatchSurface :=
  {| sf_limiter := with_limiter config (Some (watch_limiter config)); sf_calls := ∅ |}.

(** A runtime that answers a replay at once, with nothing. *)
Definition instant_runtime : Runtime :=
  {| rt_watch := λ _, Ok []; rt_retrieve := λ _ _, Ok None; rt_now := id |}.

(** Follows a chain of checks that succeeds, in the goal and beside it. *)
Ltac checks_both :=
  repeat (let E := fresh in intros E; apply result_bind_Ok in E as (? & -> & E); revert E;
          cbn [mbind result_bind]).
Ltac checks_one :=
  repeat (let E := fresh in let G := fresh in
          intros E; apply result_bind_Ok in E as (? & G & E); try discriminate G; clear G; revert E).

Section surface.
Context `{RpcExternals} (clock : option N) (config : DiscoveryWatchServiceConfig).
Context (policy : RpcContextPolicy) (generated : string).

(** What the handlers do until they have the permit: they are run with a runtime that
    does not fail, as nothing of what follows comes before the permit. *)
Definition admission (permits : N) (metadata : gmap string string) (request : WatchRequest)
    : Result Status StreamStart :=
  match request with
  | ForService request =>
      watch_service clock config policy generated permits (λ _, instant_runtime) metadata request
  | ForConfig request =>
      watch_config clock config policy generated permits (λ _, instant_runtime) metadata request
  end.

Definition taken (id : N) (s : WatchSurface) : WatchSurface :=
  {| sf_limiter := {| sem_free := sem_free (sf_limiter s) - 1 |};
     sf_calls := <[id := Replaying]> (sf_calls s) |}.

Definition replayed (id : N) (s : WatchSurface) : WatchSurface :=
  {| sf_limiter := sf_limiter s; sf_calls := <[id := Streaming]> (sf_calls s) |}.

(** The permit is dropped. *)
Definition permit_released (id : N) (s : WatchSurface) : WatchSurface :=
  {| sf_limiter := {| sem_free := sem_free (sf_limiter s) + 1 |};
     sf_calls := delete id (sf_calls s) |}.

Inductive surface_step : WatchSurface → WatchSurface → Prop :=
| watch_admitted s id metadata request start :
    sf_calls s !! id = None →
    admission (sem_free (sf_limiter s)) metadata request = Ok start →
    surface_step s (taken id s)
| watch_refused s metadata request status :
    admission (sem_free (sf_limiter s)) metadata request = Err status →
    surface_step s s
| watch_replayed s id :
    sf_calls s !! id = Some Replaying → surface_step s (replayed id s)
| watch_failed s id :
    sf_calls s !! id = Some Replaying → surface_step s (permit_released id s)
| watch_ended s id :
    sf_calls s !! id = Some Streaming → surface_step s (permit_released id s).

Definition limit_status : Status :=
  {| st_code := CodeResourceExhausted; st_message := "watch stream limit exceeded" |}.

(** The permits a call finds only decide the answer of [acquire_stream_permit]. *)
Lemma admission_permits permits metadata request start :
  admission 1 metadata request = Ok start →
  admission permits metadata request = if permits =? 0 then Err limit_status else Ok start.
Proof.
  destruct request as [request|request]; simpl; unfold watch_service, watch_config; checks_both;
    (destruct (negb (wc_enabled config)); [done|]); checks_both;
    intros [= <-]; unfold acquire_stream_permit; by destruct (permits =? 0).
Qed.

(** Every permit is free or held by one call. *)
Definition balanced (s : WatchSurface) : Prop :=
  sem_free (sf_limiter s) + N.of_nat (size (sf_calls s)) = wc_max_streams config.

Lemma balanced_released s id call :
  sf_calls s !! id = Some call → balanced s → balanced (permit_released id s).
Proof.
  intros Hid. unfold balanced, permit_released. simpl. rewrite map_size_delete, Hid. simpl.
  assert (size (sf_calls s) ≠ 0%nat); [|lia]. intros E%map_size_empty_inv. by rewrite E in Hid.
Qed.

Lemma admission_needs_permit metadata request start : admission 0 metadata request ≠ Ok start.
Proof.
  destruct request as [request|request]; simpl; unfold watch_service, watch_config; checks_one;
    (destruct (negb (wc_enabled config)); [done|]); checks_one; done.
Qed.

Lemma balanced_step s s' : surface_step s s' → balanced s → balanced s'.
Proof.
  intros Hstep Hb. destruct Hstep as [s id metadata request start Hid Ha|s|s id Hid|s id Hid|s id Hid].
  - unfold balanced, taken in *. simpl. rewrite map_size_insert_None by done.
    assert (sem_free (sf_limiter s) ≠ 0); [|lia]. intros E. rewrite E in Ha.
    by apply admission_needs_permit in Ha.
  - done.
  - unfold balanced, replayed in *. simpl. by rewrite map_size_insert_Some.
  - by eapply balanced_released.
  - by eapply balanced_released.
Qed.

(** C27: the limit on watch streams is exact.  However watch calls of both services arrive,
    are refused, wait for their replay, fail, stream and end, at most [max_streams] of them
    hold a permit; no permit is lost, so when none is open all are free; and a request that
    passes the other checks is turned away exactly when that many calls are open, with the
    status of an exhausted resource. *)
Theorem watch_streams_limited s :
  rtc surface_step (open_surface config) s →
  N.of_nat (size (sf_calls s)) <= wc_max_streams config
  ∧ (sf_calls s = ∅ → sem_free (sf_limiter s) = wc_max_streams config)
  ∧ ∀ metadata request start, admission 1 metadata request = Ok start →
      admission (sem_free (sf_limiter s)) metadata request
      = if N.of_nat (size (sf_calls s)) <? wc_max_streams config
        then Ok start else Err limit_status.
Proof.
  intros Hrun. assert (balanced s) as Hb.
  { remember (open_surface config) as s0 eqn:E.
    assert (balanced s0) as H0 by (subst; unfold balanced; simpl; rewrite map_size_empty; lia).
    clear E. induction Hrun; eauto using balanced_step. }
  unfold balanced in Hb. split_and!; [lia| |].
  - intros E. rewrite E, map_size_empty in Hb. lia.
  - intros metadata request start Ha. rewrite (admission_permits _ _ _ _ Ha).
    destruct (N.eqb_spec (sem_free (sf_limiter s)) 0), (N.ltb_spec (N.of_nat (size (sf_calls s)))
      (wc_max_streams config)); try done; lia.
Qed.
End surface.

(** ** One stream at a time *)

Definition narrow_config : DiscoveryWatchServiceConfig :=
  {| wc_enabled := true; wc_max_streams := 1; wc_event_buffer_size := 16;
     wc_heartbeat_interval_ms := 15000; wc_durable_poll_interval_ms := 1000;
     wc_durable_replay_batch_size := 100 |}.

Definition local_policy : RpcContextPolicy :=
  {| allow_unsigned_local_context := true; service_token_verifier := None |}.

Definition reader_metadata : gmap string string :=
  {[ "x-sdkwork-subject-id" := "smoke"; "authorization" := "Bearer local";
     "access-token" := "local"; "x-sdkwork-registry-permissions" := "read" ]}.

Definition sample_watch : WatchRequest :=
  ForService {| wsr_namespace := "acme"; wsr_environment := "prod"; wsr_service_name := "drive";
                wsr_from_revision := 0 |}.

Abbreviation narrow_admission permits :=
  (admission (H := RpcContextTheorems.sample_externals) (Some 0) narrow_config local_policy "req-1"
     permits reader_metadata sample_watch).

Lemma sample_watch_admitted : is_ok (narrow_admission 1) = true.
Proof. vm_compute. reflexivity. Qed.

Definition busy_surface : WatchSurface := replayed 7 (taken 7 (open_surface narrow_config)).

Lemma busy_reachable :
  rtc (surface_step (H := RpcContextTheorems.sample_externals) (Some 0) narrow_config local_policy
         "req-1") (open_surface narrow_config) busy_surface.
Proof.
  destruct (narrow_admission 1) as [start|] eqn:E;
    [|pose proof sample_watch_admitted as Hok; by rewrite E in Hok].
  apply (rtc_l _ _ (taken 7 (open_surface narrow_config))).
  - by eapply watch_admitted.
  - apply rtc_once, watch_replayed. apply lookup_insert_eq.
Qed.

(** With one stream open the next request is turned away. *)
Lemma watch_streams_limited_witness :
  narrow_admission (sem_free (sf_limiter busy_surface)) = Err limit_status.
Proof.
  destruct (watch_streams_limited (H := RpcContextTheorems.sample_externals) (Some 0) narrow_config
    local_policy "req-1" busy_surface busy_reachable) as (_ & _ & Hnext).
  destruct (narrow_admission 1) as [start|] eqn:E;
    [|pose proof sample_watch_admitted as Hok; by rewrite E in Hok].
  rewrite (Hnext _ _ _ E). reflexivity.
Defined.
